(* ===== verification/_CoqProject ===== *)
-Q . S2P
Prelude.v
JsString.v
Model.v
Editor.v
Search.v
Controller.v
Views.v
Store.v
System.v
Invariants.v
Fine.v
Isolation.v
Typing.v
History.v
Provenance.v
Sync.v
Overlap.v
Reorder.v
Stores.v
Refinement.v
Stale.v
Progress.v
Bounds.v
Scenarios.v
