(* ===== verification/Prelude.v ===== *)
(** * Verification of the notes client (src/src/App.js)

    The program is a single-page React client for a REST note store.  One
    source file, [src/src/App.js], holds four components:

    - [NotesApp] (lines 6-199), the application controller: seven [useState]
      cells (notes, isCreating, editingNote, searchTerm, shareModal, loading,
      notification), the asynchronous operations [fetchNotes], [saveNote],
      [deleteNote], the synchronous [showNotification] and [copyShareLink],
      the derived list [filteredNotes], and the JSX that composes the other
      components;
    - [NoteCard] (lines 202-250), one note with its share / edit / delete
      buttons;
    - [NoteEditor] (lines 253-322), the modal form with a local draft;
    - [ShareModal] (lines 325-387), the share link and its copy button.

    The remote note store is not in the repository: it is modelled from the
    HTTP contract of the specification (section 6).

    ** How the code is modelled

    - Text.  A JavaScript string is modelled as a [string] of 8-bit code
      units read as the code points U+0000..U+00FF.  On that range
      [toLowerCase], [trim] and [includes] (file [JsString]) are the
      ECMAScript functions exactly; text outside Latin-1 is out of the model.
    - Identifiers and timestamps are [N].  A template literal prints an
      identifier in decimal (stdpp's [pretty]).  Identifiers beyond 2^53,
      which JavaScript numbers cannot hold, are out of the model.
    - React state.  A [useState] cell is a field of the record
      [Controller.App]; its setter is a function that replaces the field.
      A handler never reads the cell it has just set: it reads the values
      its closure captured at the last render.  Handlers are therefore
      functions of the captured values that return an update ([Upd], below):
      a state transformer that also emits the effects the handler starts
      (a [fetch], a [setTimeout], a clipboard write).
    - Asynchrony.  An [async] function is cut at each [await]: the part
      before the first [await] is the handler, and what follows is a
      continuation, a constructor of [Controller.Cont] that carries the
      captured variables (the [notes] array of [deleteNote], the
      [editingNote] of [saveNote]).  The event loop of file [System] keeps
      the requests in flight and the timers, and resumes a continuation when
      its response is delivered.  Requests can be answered in any order, be
      lost, and stay pending for ever; time advances by explicit steps and
      fires the timers that are due.
    - Mounting.  The draft of [NoteEditor] lives exactly while
      [isCreating || editingNote] is truthy; [Views.reconcile] mounts and
      unmounts it after every step as React does.  The component has no
      [key], so a draft that is mounted survives a change of [editingNote].
    - Views.  Each component's JSX is a function from state to a record
      that lists what is displayed and which buttons exist; a user event is
      accepted by the event loop only when the view offers its button.  The
      overlay of a modal is styling, which is not in the repository: the
      model lets the user reach the page under an open modal, so the
      theorems cover at least the behaviours of the real page.
    - The store.  The server is not in the repository.  Its contract is the
      class [Store.NoteStore] (a handler of routed requests with the laws
      of the specification's endpoint table); the theorems about the whole
      system hold for every instance, and [Store.RefStore] is an executable
      instance on which the examples run.  The contract says more than
      the endpoint table in four laws, listed at the class: the store
      answers a GET with status 200 and a body that parses to its
      collection (a GET refused by the server is the event [Refuse], not
      an answer of the store), it refuses a PUT to an identifier it does
      not hold, a refused request changes nothing, and a request to no
      endpoint is refused.  The theorems on refused saves and on error
      messages ([Sync.save_refused_silent], [Stale.edit_of_deleted],
      [History.errors_need_loss]) are about stores that meet these laws.
    - The clipboard.  [navigator.clipboard] (App.js 83) is a field of
      [Model.Platform] with three values: missing (the property is
      undefined and the handler throws), denied (the promise of [writeText]
      rejects) and granted.  The source drops the promise, so the model has
      no continuation for it: [System.written] gives the clipboard after
      the write.

    ** Files

    - [Prelude] (this file): the update writer [Upd] with its notation
      scope, setoid structure and laws; the hint databases ([notes] for
      [auto], [upd], [str] and [notes_rw] for [autorewrite]); lemmas on
      strings and lists used by several components.  The tactics that
      unfold the operations ([act_solve], [resume_cases]) are in
      [Controller], next to what they unfold.
    - [JsString]: the string functions the source calls ([toLowerCase],
      [trim], [includes], truthiness) and template-literal printing of
      identifiers.
    - [Model]: the data: the [Note] entity, the editor's payload
      [NoteData], the notification object, requests, responses, and the
      platform interface ([Platform]: origin, date formatting and
      clipboard).
    - [Editor]: the [NoteEditor] component (App.js 253-322) as a state
      machine: [Editor.init], [Editor.step], [Editor.render].
    - [Search]: the derived list [filteredNotes] (App.js 92-95) and the
      criterion [matches] it decides.
    - [Controller]: the [NotesApp] cells ([App.t]) and operations
      (App.js 6-90): [showNotification], [fetchNotes], [saveNote],
      [deleteNote] with their continuations ([resume]), [copyShareLink],
      and the inline handlers of the JSX.
    - [Views]: [NoteCard], [ShareModal] and the [NotesApp] JSX
      (App.js 97-250, 325-387); [dispatch] wires a user event to its
      handler; [handler] lists what a user can trigger.
    - [Store]: URL routing, the store contract [NoteStore] and the
      reference store, from the specification's endpoint table.
    - [System]: the event loop ([World], [step], [run], [reachable]) that
      composes controller, editor, network, store and timers.
    - [Invariants]: what holds of every reachable world.
    - [Fine]: the event loop with one turn for each of the two awaits of
      [fetchNotes] ([fstep]): the turn in which the headers arrive runs
      the code between the awaits, the delivery runs the rest.
    - [Isolation]: what an event leaves alone: the events that commute
      with typing in the search box, and the one event that writes the
      clipboard.
    - [Typing]: the well-formedness judgement of worlds ([wf_world]: typed
      flights together with the invariants) and its preservation by every
      step.
    - [History]: the event loop with the history of what a run makes
      observable ([Obs]: requests sent, answers of the store, requests
      lost, notifications displayed, clipboard writes); [lstep] adds to
      [System.step] the observations of the turn and nothing else.
    - [Provenance]: where the notes of the page come from: the notes the
      store has [listed], the store a history leads to ([replay]) and the
      histories whose answers are the store's ([faithful]).
    - [Sync]: each operation, followed until its requests settle, against
      the store contract.
    - [Overlap]: gestures that do not wait: a change of the edited note
      under an open editor, two clicks on save, a response that is lost,
      and the save that repairs a page.
    - [Reorder]: the requests in flight as a frame ([park], [shift]), and
      the answer to a load that arrives after the refresh of a later
      save.
    - [Stores]: a second store that meets the contract ([LaxStore]), the
      two answers a store can give to the DELETE of a note it does not
      hold ([IdempotentDelete], [StrictDelete]), and the retry of a delete
      over each.
    - [Refinement]: the atomic specification of the collection
      ([spec_step]) and the simulation of serial use by it.
    - [Stale]: an editor and a share modal opened on a note whose delete
      is pending, followed until the delete is answered and beyond.
    - [Progress]: the pending requests can always be settled ([drain]).
    - [Bounds]: what one turn can add, the window of the timers, the
      length of the settling run, the window of success statuses.
    - [Scenarios]: complete runs evaluated on the reference store.

    ** What is proved

    - [JsString]: [includes] is substring containment; [toLowerCase] is
      idempotent; [trim] removes exactly the leading and trailing white
      space; identifier printing round-trips.
    - [Search]: [filteredNotes] returns exactly the matching notes, in the
      order of the collection; the empty term keeps every note; the case
      of the term does not matter; a longer term selects fewer notes;
      filtering commutes with removing a note and respects reordering.
    - [Controller]: the functional behaviour of every operation on every
      outcome of its request, errors included; a successful delete removes
      the identifier and nothing else.
      Overlapping deletes put a deleted note back, because [deleteNote]
      filters the array its closure captured.  The continuation of
      [fetchNotes] that the event loop runs in one turn equals its two
      halves, cut at [await response.json()], run one after the other.
    - [Editor]: save is disabled exactly when the trimmed title is empty,
      and every draft the form passes to [onSave] has a visible title.
    - [Views]: the notes area shows exactly one of spinner, empty state and
      grid; every card shows a matching note of the collection and offers
      share exactly when the note is public; the share modal opens only
      for a public note.
    - [Store]: printing an identifier into a URL and routing the URL give
      the identifier back, so every request of the controller reaches the
      endpoint it is meant for; the reference store meets the contract.
    - [System] and [Invariants]: by rule induction on [turn], in every
      reachable world the identifiers of the page are distinct, the share
      modal holds a public note, the editor is mounted exactly when the
      controller asks for it, the spinner is shown only while the mount
      fetch is in flight, and every displayed notification is cleared
      within 3000 ms; a timer, which is never cancelled, clears whatever
      notification is displayed when it fires; the click on the copy button
      shows its message whether the clipboard took the link or not.
    - [Isolation]: no operation of the controller reads or sets the
      search term, so typing in the search box commutes with every event
      but a click on a card, the "Create Note" button of the empty state
      and another input, for which examples show that the order matters;
      the clipboard changes only by the click on the copy button, where
      the platform grants the write, to the link of a public note.
    - [Fine]: the code of [fetchNotes] between [await fetch] and
      [await response.json()] sets no cell and starts no effect.  Hence,
      from a world whose editor is mounted as rendered, erasing the turns
      in which the headers of a response arrive turns a run of the fine
      loop into a run of [System] to the same world, and every run of
      [System] is the erasure of a fine run: what is proved of [System]
      holds with the two awaits apart.  A [fetchNotes] that set a cell
      between its awaits would make the statement false.
    - [Typing]: the first render is well-formed and every step, from any
      well-formed world, gives a well-formed world.  Hence the store never
      receives a request it cannot route or a payload without a title, and
      "Failed to load notes" appears only when the mount fetch fails in the
      network.
    - [History]: erasing the history of a run gives the run of [System].
      By an invariant of the history and the requests in flight
      ([sound]), in every run from the first render a success message
      other than the one of the copy button is displayed only after the
      store has handled a request to the endpoint the message names with a
      success, and an error message only after a request to the endpoint
      it names was lost in the network: no answer of the store makes the
      page display an error.  The requests sent are bounded by the clicks:
      one for the mount, at most two for a click on save, one for a click
      on a delete button; the page never polls and never retries.
    - [Provenance]: the store of a world is the store its history leads
      to, and every answer in the history is the store's answer in the
      state the earlier requests left it in.  Every note of the
      collection, the note under edit and the note in the share modal was
      in the store at some point of the run, when the store answered a
      load: [setNotes] is called on the body of an answer and on what is
      left of a captured array, never on a draft.
    - [Reorder]: a run goes through unchanged beside requests in flight
      that it does not address ([frame_run]).  An answer the store gave
      before a save, delivered after the refresh of that save, puts the
      old collection back: the page ends at rest with "Note created!" on
      display and without the note.
    - [Overlap]: an open editor keeps its draft when the edited note
      changes, and saves it to the new target; two clicks on save create
      two notes; a save whose response is lost is reported as failed
      although the store holds the note; a delete whose response is lost
      keeps the note on the page, and the retry repairs the page only if
      the store answers the repeated DELETE with a success; a save the
      store accepts brings any page back in agreement with the store.
    - [Bounds]: a turn adds at most one request and two timers; an armed
      timer fires within (now, now + 3000]; settling the requests in
      flight takes at most four turns for each; the operations treat
      exactly the statuses 200-299 as a success.
    - [Sync]: against any store that meets the contract, the first load
      shows the store's collection; create, edit and delete from a page in
      agreement with the store end in agreement with it, with the
      collection the contract promises; a save the store refuses changes
      nothing and shows nothing.
    - [Stores]: the contract leaves open the order of the listing, the
      success statuses and the answer to the DELETE of an absent note;
      [LaxStore] differs from the reference store in all three and meets
      the contract, so every theorem stated for a [NoteStore] holds over
      it.  After a delete whose answer was lost, one retry brings the page
      back in agreement over a store that honours the repeated DELETE
      ([retry_heals]); over a store that refuses it the page keeps the
      removed note, without a message, however often the user retries
      ([retry_stuck], by induction on the number of retries).
    - [Stale]: [deleteNote] removes the note from the collection and
      leaves [editingNote] and [shareModal] as they are.  An editor opened
      on a note while its delete is pending is still open on it when the
      note is gone from the page and from the store; its save is a PUT the
      store refuses, after which the page is at rest, in agreement with
      the store, with the editor open and "Note deleted!" as the only
      message.  A share modal opened the same way goes on showing the link
      of the deleted note, and the copy button copies it.
    - [Refinement]: used serially (one operation at a time, each followed
      until its requests have settled) the client implements an atomic
      collection with create, update and remove: every such use is a run
      of the event loop, and the page ends showing what the specification
      gives.  Saving a note unchanged, and creating a note and removing
      it, are round trips for the page and for the store.  The scenarios
      of [Scenarios] show that this fails when operations overlap.
    - [Progress]: serving and delivering the requests in flight, first
      come first served, ends with nothing in flight, and then the spinner
      is gone: a delivery starts at most one further request.  After
      3000 ms more the page is at rest: no timer, no notification.
    - [Scenarios]: the life of a note end to end, and the runs in which
      the source differs from its specification (a refused load shows no
      error, a notification is dismissed early, a double submit creates two
      notes, a failed refresh is hidden by the success message, an editor
      or a share modal opened while a delete was pending stays open on
      the deleted note, a search without a match shows the empty state
      "No notes yet!" over a collection that holds notes).

    ** Bounds

    The definitions that model the code use no fuel: every one is
    structurally recursive or a finite composition, and [System.step] is a
    total function to [option].  The only fuel is that of [Progress.drain],
    the run that settles the pending requests: its theorem shows that the
    number of requests in flight, a suspended [saveNote] counted twice for
    the refresh it starts, is enough.  Runs of the event loop are finite lists of events;
    statements about what the application achieves are of the form "these
    events lead to that world", with the run shown to exist.  The delay of
    every timer is the source's constant 3000 ms; identifiers, timestamps
    and the clock are unbounded natural numbers.  The bound on the
    requests sent ([History.traffic_bounded]) is by a potential: the
    requests sent plus the refreshes that the suspended saves may still
    start grow by at most the cost of each event, two for a click on save
    and one for a click on delete, and the examples reach the bound.

    ** Not modelled

    Styling, icons (lucide-react), CSS classes, DOM focus and pointer
    hit-testing, and the locale's date format (a parameter of
    [Platform]).  A handler run is one atomic step of the event loop;
    [System.batching_unobservable] shows that committing its updates one
    by one gives the same world.  The two awaits of [fetchNotes], on
    [fetch] and on [response.json()], are one step of [System];
    [Fine.two_awaits_unobservable] shows that the loop with two steps has
    the same behaviours.  The clipboard's answer is fixed by the platform: a
    permission that changes while the page is open is outside the model.
    The file that mounts [NotesApp] is not among the sources: the model
    renders the component once and runs its mount effect once, as a
    production build does; the second run of the effect under React's
    StrictMode is not modelled.  A timer fires in the turn in which the
    clock reaches its deadline; the delay a browser may add is not
    modelled.  The body of a response either fails to parse or parses to
    an array of notes: a body that parses to anything else, which the
    source would store unchecked, is outside the model.
    The store is external: only its contract is modelled, with two
    instances that show what it leaves open.  Text outside Latin-1 and
    identifiers beyond 2^53 are outside the model.

    Of the JSX the model keeps what is displayed from the state and which
    handler each element calls: the values of the inputs, the condition of
    each conditional element, the fields of a note on its card, the
    heading and the button label of the editor, the share link and the
    text under it, the notification.  Element nesting, class names,
    inline styles, icons, placeholders and the fixed texts of the header
    and of the empty state are not modelled.  The user can reach the page
    under an open modal, because the overlay is styling: the model has
    every behaviour of the real page, and those among them that need a
    button under an open modal ([Overlap.stale_draft_saved] is one) need,
    on the real page, a stylesheet that leaves the button reachable or
    the keyboard, since nothing in the source traps the focus. *)

From Stdlib Require Export Ascii String.
From stdpp Require Export base tactics list strings numbers pretty sorting.

Declare Scope act_scope.
Delimit Scope act_scope with act.

(** ** The update writer

    [Upd S E] is the type of the body of an event handler: from the current
    state it produces the next state and the effects it started, in order.
    Handlers are built from [modify] (a [useState] setter), [emit] (start an
    effect) and sequencing. *)

Definition Upd (S E : Type) : Type := S → S * list E.

Section upd.
Context {S E : Type}.
Implicit Types (a b c : Upd S E) (s : S).

Definition skip : Upd S E := λ s, (s, []).

Definition modify (f : S → S) : Upd S E := λ s, (f s, []).

Definition emit (e : E) : Upd S E := λ s, (s, [e]).

Definition seq a b : Upd S E :=
  λ s, let '(s1, es1) := a s in
       let '(s2, es2) := b s1 in
       (s2, es1 ++ es2).

Definition exec a s : S := (a s).1.

Definition effects a s : list E := (a s).2.

(** Two updates are equivalent when they agree on every state. *)
#[export] Instance upd_equiv : Equiv (Upd S E) := λ a b, ∀ s, a s = b s.

#[export] Instance upd_equivalence : Equivalence (≡@{Upd S E}).
Proof.
  split; [by intros a s | by intros a b H s | intros a b c H1 H2 s].
  by rewrite H1.
Qed.

#[export] Instance seq_proper : Proper ((≡) ==> (≡) ==> (≡)) seq.
Proof. intros a a' Ha b b' Hb s. unfold seq. by rewrite Ha; destruct (a' s); rewrite Hb. Qed.

#[export] Instance exec_proper : Proper ((≡) ==> (=) ==> (=)) exec.
Proof. intros a a' Ha s ? <-. unfold exec. by rewrite Ha. Qed.

#[export] Instance effects_proper : Proper ((≡) ==> (=) ==> (=)) effects.
Proof. intros a a' Ha s ? <-. unfold effects. by rewrite Ha. Qed.

Lemma seq_skip_l a : seq skip a ≡ a.
Proof. intros s. unfold seq, skip. by destruct (a s). Qed.

Lemma seq_skip_r a : seq a skip ≡ a.
Proof. intros s. unfold seq, skip. destruct (a s). by rewrite app_nil_r. Qed.

Lemma seq_assoc a b c : seq (seq a b) c ≡ seq a (seq b c).
Proof.
  intros s. unfold seq. destruct (a s) as [s1 e1], (b s1) as [s2 e2], (c s2).
  by rewrite app_assoc.
Qed.

Lemma exec_seq a b s : exec (seq a b) s = exec b (exec a s).
Proof. unfold exec, seq. destruct (a s) as [s1 e1]; simpl. by destruct (b s1). Qed.

Lemma effects_seq a b s :
  effects (seq a b) s = effects a s ++ effects b (exec a s).
Proof.
  unfold effects, exec, seq. destruct (a s) as [s1 e1]; simpl.
  by destruct (b s1).
Qed.

Lemma exec_modify f s : exec (modify f) s = f s.
Proof. done. Qed.

Lemma effects_modify f s : effects (modify f) s = [].
Proof. done. Qed.

Lemma exec_emit e s : exec (emit e) s = s.
Proof. done. Qed.

Lemma effects_emit e s : effects (emit e) s = [e].
Proof. done. Qed.

Lemma exec_skip s : exec skip s = s.
Proof. done. Qed.

Lemma effects_skip s : effects skip s = [].
Proof. done. Qed.

Lemma upd_eta a s : a s = (exec a s, effects a s).
Proof. unfold exec, effects. by destruct (a s). Qed.

End upd.

Notation "a ;; b" := (seq a b)
  (at level 100, b at level 200, right associativity) : act_scope.

(** Rewriting database that pushes [exec] and [effects] through the
    structure of an update. *)
Create Rewrite HintDb upd.
#[export] Hint Rewrite @exec_seq @effects_seq @exec_modify @effects_modify
  @exec_emit @effects_emit @exec_skip @effects_skip : upd.

(** Hint database of the development's structural lemmas. *)
Create HintDb notes discriminated.

(** ** Strings *)

Section strings.
Implicit Types (s t u : string) (c : ascii).

Lemma string_app_nil_l s : "" +:+ s = s.
Proof. done. Qed.

Lemma string_app_cons c s t : String c s +:+ t = String c (s +:+ t).
Proof. done. Qed.

Lemma string_app_nil_r s : s +:+ "" = s.
Proof. induction s; rewrite ?string_app_cons, ?string_app_nil_l; congruence. Qed.

Lemma string_app_assoc s t u : (s +:+ t) +:+ u = s +:+ (t +:+ u).
Proof. induction s; rewrite ?string_app_cons, ?string_app_nil_l; congruence. Qed.

Lemma string_app_length s t :
  String.length (s +:+ t) = String.length s + String.length t.
Proof.
  induction s; rewrite ?string_app_cons, ?string_app_nil_l; simpl; congruence.
Qed.

Lemma string_app_eq_nil s t : s +:+ t = "" → s = "" ∧ t = "".
Proof. by destruct s. Qed.

(** [String.prefix t s] is the boolean test that [s] starts with [t]. *)
Lemma string_prefix_spec t s :
  String.prefix t s = true ↔ ∃ u, s = t +:+ u.
Proof.
  revert s; induction t as [|c t IH]; intros [|c' s]; simpl.
  - split; eauto.
  - split; eauto.
  - split; [done | by intros [u ?]].
  - destruct (Ascii.ascii_dec c c') as [->|Hne]; rewrite ?IH.
    + split; intros [u Hu]; exists u; rewrite ?string_app_cons in *; congruence.
    + split; [done | intros [u Hu]; rewrite string_app_cons in Hu; congruence].
Qed.

Lemma string_prefix_app t u : String.prefix t (t +:+ u) = true.
Proof. apply string_prefix_spec; eauto. Qed.

End strings.

(** Rewriting database that normalises string concatenations. *)
Create Rewrite HintDb str.
Create Rewrite HintDb notes_rw.
#[export] Hint Rewrite string_app_nil_l string_app_nil_r string_app_cons
  string_app_assoc : str.
#[export] Hint Resolve string_prefix_app : notes.

(** ** Lists *)

Section lists.
Context {A K : Type} `{EqDecision K} (key : A → K).
Implicit Types (l : list A) (x : A) (k : K).

(** Removing by key: what [array.filter(x => x.key !== k)] computes. *)
Definition remove_key k l : list A := filter (λ x, key x ≠ k) l.

Lemma elem_of_remove_key k l x : x ∈ remove_key k l ↔ key x ≠ k ∧ x ∈ l.
Proof. unfold remove_key. by rewrite list_elem_of_filter. Qed.

Lemma remove_key_absent k l : k ∉ key <$> remove_key k l.
Proof.
  intros (x & -> & Hx)%list_elem_of_fmap.
  by apply elem_of_remove_key in Hx as [? _].
Qed.

Lemma remove_key_sublist k l : remove_key k l `sublist_of` l.
Proof. apply sublist_filter. Qed.

Lemma remove_key_NoDup k l : NoDup (key <$> l) → NoDup (key <$> remove_key k l).
Proof.
  intros H. eapply sublist_NoDup; [done |].
  apply fmap_sublist, remove_key_sublist.
Qed.

Lemma remove_key_id k l : k ∉ key <$> l → remove_key k l = l.
Proof.
  intros H. unfold remove_key. induction l as [|x l IH]; [done |].
  rewrite filter_cons. rewrite fmap_cons, not_elem_of_cons in H.
  destruct H as [Hk Hl]. rewrite decide_True by done. by rewrite IH.
Qed.

(** Adding an element under a fresh key and removing the key gives the
    list back. *)
Lemma remove_key_fresh x l : key x ∉ key <$> l → remove_key (key x) (x :: l) = l.
Proof.
  intros H. unfold remove_key. rewrite filter_cons, decide_False by tauto.
  by apply remove_key_id.
Qed.

Lemma filter_none (P : A → Prop) `{∀ x, Decision (P x)} l :
  Forall (λ x, ¬ P x) l → filter P l = [].
Proof.
  induction 1 as [|x l Hx _ IH]; [done |].
  by rewrite filter_cons, decide_False.
Qed.

Lemma filter_all (P : A → Prop) `{∀ x, Decision (P x)} l :
  Forall P l → filter P l = l.
Proof.
  induction 1 as [|x l Hx _ IH]; [done |].
  by rewrite filter_cons, decide_True, IH.
Qed.

Lemma elem_of_delete_ne l i x y :
  x ∈ l → l !! i = Some y → x ≠ y → x ∈ delete i l.
Proof.
  intros [j Hj]%list_elem_of_lookup Hi Hne.
  destruct (decide (j < i)%nat).
  - eapply list_elem_of_lookup_2. by rewrite list_lookup_delete_lt.
  - assert (j ≠ i) by congruence. destruct j as [|j]; [lia |].
    eapply (list_elem_of_lookup_2 _ j). by rewrite list_lookup_delete_ge by lia.
Qed.

Lemma Forall_sublist_of (P : A → Prop) l1 l2 :
  l1 `sublist_of` l2 → Forall P l2 → Forall P l1.
Proof. rewrite !Forall_forall. eauto using elem_of_sublist. Qed.

Lemma remove_key_Forall (P : A → Prop) k l : Forall P l → Forall P (remove_key k l).
Proof. apply Forall_sublist_of, remove_key_sublist. Qed.

Lemma remove_key_length k l : length (remove_key k l) ≤ length l.
Proof. apply length_filter. Qed.

Lemma remove_key_comm k1 k2 l :
  remove_key k1 (remove_key k2 l) = remove_key k2 (remove_key k1 l).
Proof.
  unfold remove_key. rewrite !list_filter_filter.
  apply list_filter_iff. intros x; tauto.
Qed.

(** Removing a key respects reordering. *)
#[export] Instance remove_key_Permutation k : Proper ((≡ₚ) ==> (≡ₚ)) (remove_key k).
Proof. intros l1 l2 Hl. unfold remove_key. by rewrite Hl. Qed.

(** A sublist of a sorted list is sorted. *)
#[export] Instance StronglySorted_sublist (R : relation A) :
  Proper (flip sublist ==> impl) (StronglySorted R).
Proof.
  intros l2 l1 Hsub. unfold flip in Hsub.
  induction Hsub as [|x l1 l2 Hsub IH|x l1 l2 Hsub IH]; intros Hs; [done | |].
  - apply StronglySorted_cons in Hs as [Hx Hs]. apply StronglySorted_cons.
    split; [by eapply Forall_sublist_of | by apply IH].
  - apply StronglySorted_cons in Hs as [_ Hs]. by apply IH.
Qed.

(** A list whose elements have the same measure is sorted by it. *)
Lemma StronglySorted_const (f : A → N) (c : N) l :
  Forall (λ x, f x = c) l → StronglySorted (λ x y, (f x ≤ f y)%N) l.
Proof.
  induction 1 as [|x l Hx Hl IH]; constructor; [done |].
  eapply Forall_impl; [done |]. intros y Hy; simpl in *. lia.
Qed.

(** Positions past a prefix. *)
Lemma lookup_app_add l1 l2 (i : nat) : (l1 ++ l2) !! (length l1 + i)%nat = l2 !! i.
Proof. by induction l1. Qed.

Lemma delete_app_add l1 l2 (i : nat) :
  delete (length l1 + i)%nat (l1 ++ l2) = l1 ++ delete i l2.
Proof. induction l1; [done |]. simpl. by f_equal. Qed.

End lists.

#[export] Hint Resolve remove_key_absent remove_key_sublist remove_key_NoDup : notes.
