(* ===== verification/JsString.v ===== *)
(** * The string operations the client calls

    [toLowerCase] and [includes] (App.js 93-94, the search filter), [trim]
    (App.js 259 and 313, the editor's guard) and the printing of an
    identifier inside a template literal (App.js 40, 67, 82, 326), on
    strings of Latin-1 code units.  Each is the ECMAScript function
    restricted to that range, with the lemmas the components use. *)

From S2P Require Import Prelude.

#[local] Open Scope N_scope.

(** ** Characters *)

Definition code (c : ascii) : N := N_of_ascii c.

(** The code points of Latin-1 that have a lower-case mapping: A-Z and
    U+00C0-U+00DE without the multiplication sign U+00D7. *)
Definition isUpper (c : ascii) : bool :=
  let n := code c in
  ((65 <=? n) && (n <=? 90)) || ((192 <=? n) && (n <=? 222) && negb (n =? 215)).

Definition lowerChar (c : ascii) : ascii :=
  if isUpper c then ascii_of_N (code c + 32) else c.

(** WhiteSpace and LineTerminator code points below U+0100: TAB, LF, VT,
    FF, CR, SP and NBSP. *)
Definition isWhiteSpace (c : ascii) : bool :=
  let n := code c in
  ((9 <=? n) && (n <=? 13)) || (n =? 32) || (n =? 160).

(** ** String.prototype.toLowerCase *)

Fixpoint toLowerCase (s : string) : string :=
  match s with
  | EmptyString => EmptyString
  | String c s' => String (lowerChar c) (toLowerCase s')
  end.

(** ** String.prototype.includes *)

(** [includes s t]: [t] occurs in [s] at some position. *)
Fixpoint includes (s t : string) : bool :=
  String.prefix t s ||
  match s with
  | EmptyString => false
  | String _ s' => includes s' t
  end.

(** ** String.prototype.trim *)

Fixpoint trimStart (s : string) : string :=
  match s with
  | EmptyString => EmptyString
  | String c s' => if isWhiteSpace c then trimStart s' else s
  end.

Fixpoint trimEnd (s : string) : string :=
  match s with
  | EmptyString => EmptyString
  | String c s' =>
      match trimEnd s' with
      | EmptyString => if isWhiteSpace c then EmptyString else String c EmptyString
      | r => String c r
      end
  end.

Definition trim (s : string) : string := trimEnd (trimStart s).

(** A string is truthy when it is not empty: [if (s)] and [!s]. *)
Definition truthy (s : string) : bool :=
  match s with EmptyString => false | String _ _ => true end.

(** Every character of the string is white space. *)
Fixpoint blank (s : string) : bool :=
  match s with
  | EmptyString => true
  | String c s' => isWhiteSpace c && blank s'
  end.

(** The first and the last character of a string, and the strings that
    neither start nor end with white space. *)
Definition firstChar (s : string) : option ascii :=
  match s with EmptyString => None | String c _ => Some c end.

Fixpoint lastChar (s : string) : option ascii :=
  match s with
  | EmptyString => None
  | String c EmptyString => Some c
  | String _ s' => lastChar s'
  end.

Definition trimmed (s : string) : Prop :=
  (∀ c, firstChar s = Some c → isWhiteSpace c = false) ∧
  (∀ c, lastChar s = Some c → isWhiteSpace c = false).

(** ** Template literals *)

(** [`${n}`] for a number [n] that is a non-negative integer. *)
Definition numToString (n : N) : string := pretty n.

(** ** Lemmas *)

Section chars.
Implicit Types (c : ascii).

Lemma lowerChar_idemp c : lowerChar (lowerChar c) = lowerChar c.
Proof. by destruct c as [[] [] [] [] [] [] [] []]. Qed.

Lemma lowerChar_not_upper c : isUpper (lowerChar c) = false.
Proof. by destruct c as [[] [] [] [] [] [] [] []]. Qed.

Lemma lowerChar_fixed c : isUpper c = false → lowerChar c = c.
Proof. unfold lowerChar. by intros ->. Qed.

Lemma lowerChar_white c : isWhiteSpace (lowerChar c) = isWhiteSpace c.
Proof. by destruct c as [[] [] [] [] [] [] [] []]. Qed.

End chars.

Section lower.
Implicit Types (s t : string).

Lemma toLowerCase_app s t :
  toLowerCase (s +:+ t) = toLowerCase s +:+ toLowerCase t.
Proof.
  induction s as [|c s IH]; [done |].
  rewrite string_app_cons; simpl. by rewrite IH.
Qed.

Lemma toLowerCase_idemp s : toLowerCase (toLowerCase s) = toLowerCase s.
Proof. induction s as [|c s IH]; simpl; [done |]. by rewrite lowerChar_idemp, IH. Qed.

Lemma toLowerCase_length s : String.length (toLowerCase s) = String.length s.
Proof. induction s; simpl; congruence. Qed.

Lemma toLowerCase_nil s : toLowerCase s = "" ↔ s = "".
Proof. by destruct s. Qed.

End lower.

Section includes.
Implicit Types (s t pre post : string).

Lemma includes_unfold s t :
  includes s t =
  String.prefix t s ||
  match s with EmptyString => false | String _ s' => includes s' t end.
Proof. by destruct s. Qed.

Lemma includes_prefix s t : String.prefix t s = true → includes s t = true.
Proof. rewrite includes_unfold. by intros ->. Qed.

Lemma includes_cons c s t : includes s t = true → includes (String c s) t = true.
Proof. intros H. rewrite includes_unfold, H. apply orb_true_r. Qed.

(** [includes] decides substring containment. *)
Lemma includes_spec s t :
  includes s t = true ↔ ∃ pre post, s = pre +:+ t +:+ post.
Proof.
  split.
  - induction s as [|c s IH]; rewrite includes_unfold, orb_true_iff.
    + intros [(u & ->)%string_prefix_spec | ?]; [by exists "", u | done].
    + intros [(u & ->)%string_prefix_spec | (pre & post & ->)%IH].
      * by exists "", u.
      * by exists (String c pre), post.
  - intros (pre & post & ->). induction pre as [|c pre IH].
    + rewrite string_app_nil_l. apply includes_prefix, string_prefix_app.
    + rewrite string_app_cons. by apply includes_cons.
Qed.

(** The same in terms of positions: [t] is the substring of [s] that
    starts at some index, as ECMAScript states it. *)
Lemma includes_substring s t :
  includes s t = true ↔ ∃ n, substring n (String.length t) s = t.
Proof.
  induction s as [|c s IH]; rewrite includes_unfold, orb_true_iff, String.prefix_correct.
  - split; [intros [?|?]; [by exists 0%nat | done] |].
    intros [n Hn]. left. by destruct n, t.
  - rewrite IH. split.
    + intros [?|[n Hn]]; [by exists 0%nat | by exists (S n)].
    + intros [[|n] Hn]; [by left | right; by exists n].
Qed.

Lemma includes_empty s : includes s "" = true.
Proof. apply includes_spec. by exists "", s. Qed.

Lemma includes_refl s : includes s s = true.
Proof. apply includes_spec. exists "", "". by autorewrite with str. Qed.

Lemma includes_nil_l t : includes "" t = true ↔ t = "".
Proof.
  rewrite includes_spec. split; [|intros ->; by exists "", ""].
  intros (pre & post & H). symmetry in H.
  apply string_app_eq_nil in H as [_ H]. by apply string_app_eq_nil in H as [].
Qed.

Lemma includes_trans s t u :
  includes s t = true → includes t u = true → includes s u = true.
Proof.
  rewrite !includes_spec. intros (p1 & q1 & ->) (p2 & q2 & ->).
  exists (p1 +:+ p2), (q2 +:+ q1). by autorewrite with str.
Qed.

Lemma includes_length s t :
  includes s t = true → (String.length t ≤ String.length s)%nat.
Proof.
  intros (pre & post & ->)%includes_spec. rewrite !string_app_length. lia.
Qed.

(** Lower-casing both sides preserves containment (not conversely). *)
Lemma includes_toLowerCase s t :
  includes s t = true → includes (toLowerCase s) (toLowerCase t) = true.
Proof.
  rewrite !includes_spec. intros (pre & post & ->).
  exists (toLowerCase pre), (toLowerCase post). by rewrite !toLowerCase_app.
Qed.

End includes.

Section trim.
Implicit Types (s t : string) (c : ascii).

Lemma trimStart_blank s : trimStart s = "" ↔ blank s = true.
Proof.
  induction s as [|c s IH]; simpl; [done |].
  destruct (isWhiteSpace c); simpl; [done | split; congruence].
Qed.

Lemma trimEnd_blank s : trimEnd s = "" ↔ blank s = true.
Proof.
  induction s as [|c s IH]; simpl; [done |].
  destruct (trimEnd s) eqn:E, (isWhiteSpace c); simpl; try done.
  all: split; [done | intros ?%IH; done].
Qed.

Lemma blank_app s t : blank (s +:+ t) = blank s && blank t.
Proof.
  induction s as [|c s IH]; [done |].
  rewrite string_app_cons; simpl. by rewrite IH, andb_assoc.
Qed.

Lemma trimStart_suffix s : ∃ l, s = l +:+ trimStart s ∧ blank l = true.
Proof.
  induction s as [|c s (l & Hl & Hb)]; simpl; [by exists "" |].
  destruct (isWhiteSpace c) eqn:E; [| by exists ""].
  exists (String c l). rewrite string_app_cons; simpl. by rewrite <-Hl, E.
Qed.

Lemma trimEnd_prefix s : ∃ r, s = trimEnd s +:+ r ∧ blank r = true.
Proof.
  induction s as [|c s (r & Hr & Hb)]; simpl; [by exists "" |].
  destruct (trimEnd s) as [|c' t] eqn:E.
  - destruct (isWhiteSpace c) eqn:Ec.
    + exists (String c s). split; [done |]. simpl.
      by rewrite Ec, (proj1 (trimEnd_blank s) E).
    + exists r. by rewrite string_app_cons, <-Hr.
  - exists r. by rewrite string_app_cons, <-Hr.
Qed.

(** [trim] is empty exactly on the blank strings: the test behind the
    editor's guard. *)
Lemma trim_blank s : trim s = "" ↔ blank s = true.
Proof.
  unfold trim. rewrite trimEnd_blank.
  destruct (trimStart_suffix s) as (l & Hl & Hb).
  rewrite Hl at 2. rewrite blank_app, Hb. done.
Qed.

Lemma truthy_trim s : truthy (trim s) = negb (blank s).
Proof.
  destruct (blank s) eqn:E.
  - by rewrite (proj2 (trim_blank s) E).
  - destruct (trim s) eqn:Et; [|done].
    apply trim_blank in Et. congruence.
Qed.

(** [trim s] is [s] without a blank prefix and a blank suffix. *)
Lemma trim_decompose s :
  ∃ l r, s = l +:+ trim s +:+ r ∧ blank l = true ∧ blank r = true.
Proof.
  destruct (trimStart_suffix s) as (l & Hl & Hbl).
  destruct (trimEnd_prefix (trimStart s)) as (r & Hr & Hbr).
  exists l, r. unfold trim. by rewrite <-Hr, <-Hl.
Qed.

(** What is left has no white space at either end. *)
Lemma trimStart_first s c : firstChar (trimStart s) = Some c → isWhiteSpace c = false.
Proof.
  induction s as [|c' s IH]; simpl; [done |].
  destruct (isWhiteSpace c') eqn:E; [done |]. by intros [= <-].
Qed.

Lemma trimEnd_last s c : lastChar (trimEnd s) = Some c → isWhiteSpace c = false.
Proof.
  induction s as [|c' s IH]; simpl; [done |].
  destruct (trimEnd s) as [|c'' t] eqn:E; [|done].
  destruct (isWhiteSpace c') eqn:Ec; [done |]. by intros [= <-].
Qed.

Lemma trimEnd_first s c : firstChar (trimEnd s) = Some c → firstChar s = Some c.
Proof.
  destruct s as [|c' s]; simpl; [done |].
  by destruct (trimEnd s), (isWhiteSpace c').
Qed.

Lemma trim_trimmed s : trimmed (trim s).
Proof.
  split; intros c Hc; [|by eapply trimEnd_last].
  by eapply trimStart_first, trimEnd_first.
Qed.

(** A string without white space at an end is left alone there. *)
Lemma trimStart_fixed s :
  (∀ c, firstChar s = Some c → isWhiteSpace c = false) → trimStart s = s.
Proof. destruct s as [|c s]; simpl; [done |]. intros H. by rewrite (H c). Qed.

Lemma trimEnd_fixed s :
  (∀ c, lastChar s = Some c → isWhiteSpace c = false) → trimEnd s = s.
Proof.
  induction s as [|c s IH]; simpl; [done |]. intros H.
  destruct s as [|c' s]; [by rewrite (H c) |]. by rewrite IH.
Qed.

(** Blank text at either end is removed. *)
Lemma trimStart_app_blank l s : blank l = true → trimStart (l +:+ s) = trimStart s.
Proof.
  induction l as [|c l IH]; [done |]. rewrite string_app_cons; simpl.
  intros [-> ?]%andb_true_iff. auto.
Qed.

Lemma trimEnd_app_blank s r : blank r = true → trimEnd (s +:+ r) = trimEnd s.
Proof.
  intros Hr. induction s as [|c s IH].
  - rewrite string_app_nil_l. by apply trimEnd_blank.
  - rewrite string_app_cons; simpl. by rewrite IH.
Qed.

(** [trim s] is the only way to write [s] as blank text, text without
    white space at its ends, and blank text. *)
Lemma trim_unique l t r :
  blank l = true → blank r = true → trimmed t → trim (l +:+ t +:+ r) = t.
Proof.
  intros Hl Hr [Hfirst Hlast]. unfold trim. rewrite trimStart_app_blank by done.
  destruct t as [|c t].
  - rewrite string_app_nil_l, (proj2 (trimStart_blank r)) by done. done.
  - rewrite trimStart_fixed by (rewrite string_app_cons; apply Hfirst).
    rewrite trimEnd_app_blank by done. by apply trimEnd_fixed.
Qed.

(** [trim] is idempotent. *)
Lemma trim_idemp s : trim (trim s) = trim s.
Proof.
  rewrite <-(string_app_nil_l (trim s)) at 1.
  rewrite <-(string_app_nil_r (trim s)) at 1.
  apply trim_unique; [done.. | apply trim_trimmed].
Qed.

End trim.

Section num.

Lemma numToString_inj n m : numToString n = numToString m → n = m.
Proof. apply pretty_N_inj. Qed.

End num.

#[export] Hint Resolve includes_empty includes_refl : notes.
#[export] Hint Rewrite toLowerCase_app toLowerCase_idemp : str.
