(* ===== verification/Model.v ===== *)
(** * The data the client handles

    The note entity and the editor's payload (the JSON objects of
    App.js), the notification object of [showNotification] (App.js 31-32),
    the shape of a [fetch] call and of its outcome (App.js 18-20, 45-53,
    67-71), and the platform interface: what the browser provides and the
    source only reads ([window.location.origin], [toLocaleDateString]). *)

From S2P Require Import Prelude JsString.

(** ** Notes *)

(** A note as the store returns it: the fields the source reads are [id]
    (App.js 40, 72, 142, 145, 326), [title], [content] (93-94, 206, 240,
    254-255), [isPublic] (208, 244, 256) and [createdAt] (243). *)
Module Note.

Record t : Type := mk {
  id : N;
  title : string;
  content : string;
  isPublic : bool;
  createdAt : N;
}.

#[global] Instance eq_dec : EqDecision t.
Proof. solve_decision. Defined.

End Note.

(** The object [{ title, content, isPublic }] that the editor passes to
    [onSave] (App.js 260) and [saveNote] sends as the request body (50). *)
Module NoteData.

Record t : Type := mk {
  title : string;
  content : string;
  isPublic : bool;
}.

#[global] Instance eq_dec : EqDecision t.
Proof. solve_decision. Defined.

(** The payload that repeats a note's editable fields. *)
Definition of_note (n : Note.t) : t :=
  mk (Note.title n) (Note.content n) (Note.isPublic n).

End NoteData.

(** ** Notifications *)

(** The object [{ message, type }] of App.js 32; [type] is one of the two
    strings the source passes, ['success'] and ['error']. *)
Module Notification.

Inductive Kind : Type := success | error.

#[global] Instance kind_eq_dec : EqDecision Kind.
Proof. solve_decision. Defined.

Record t : Type := mk {
  message : string;
  type : Kind;
}.

#[global] Instance eq_dec : EqDecision t.
Proof. solve_decision. Defined.

(** The string the JSX interpolates into the class name (App.js 192). *)
Definition kind_name (k : Kind) : string :=
  match k with success => "success" | error => "error" end.

End Notification.

(** ** Requests and responses *)

Inductive Method : Type := GET | POST | PUT | DELETE.

#[export] Instance Method_eq_dec : EqDecision Method.
Proof. solve_decision. Defined.

(** The arguments of one [fetch] call: the URL, and the [method],
    [headers] and [body] of its options object (App.js 45-51, 67-69).  The
    body is kept as the object that [JSON.stringify] is applied to. *)
Record Request : Type := mkRequest {
  url : string;
  method : Method;
  headers : list (string * string);
  body : option NoteData.t;
}.

#[export] Instance Request_eq_dec : EqDecision Request.
Proof. solve_decision. Defined.

(** What the source observes of a response: its status, through
    [response.ok], and the result of [response.json()], which is [None]
    when the body does not parse (the promise rejects).  A body that
    parses is an array of notes: the source passes whatever [json()]
    returns to [setNotes] unchecked (App.js 20-21), and a body that
    parses to something else, on which the next render would throw, is
    outside the model. *)
Record Response : Type := mkResponse {
  status : N;
  json : option (list Note.t);
}.

#[export] Instance Response_eq_dec : EqDecision Response.
Proof. solve_decision. Defined.

(** [response.ok]: the status is in the range 200-299. *)
Definition ok (r : Response) : bool :=
  ((200 <=? status r) && (status r <=? 299))%N.

(** How an awaited [fetch] ends: the promise rejects (network failure) or
    resolves with a response. *)
Inductive Outcome : Type :=
| Rejected
| Resolved (response : Response).

#[export] Instance Outcome_eq_dec : EqDecision Outcome.
Proof. solve_decision. Defined.

(** ** The platform *)

(** What [navigator.clipboard] is on the page (App.js 83): the property
    is undefined outside a secure context, so that reading [writeText]
    from it throws; where it exists, [writeText] returns a promise that
    rejects when the browser denies the write and resolves once the text
    is on the clipboard. *)
Inductive ClipboardAccess : Type :=
| ClipboardMissing
| ClipboardDenied
| ClipboardGranted.

#[export] Instance ClipboardAccess_eq_dec : EqDecision ClipboardAccess.
Proof. solve_decision. Defined.

(** What the browser provides: the page's origin (App.js 82, 326), the
    locale's date format (App.js 243) and the clipboard (App.js 83).
    Components take it as a parameter. *)
Class Platform : Type := {
  origin : string;
  toLocaleDateString : N → string;
  clipboardAccess : ClipboardAccess;
}.

(** ** Collections *)

(** The identifiers of a collection, in order. *)
Definition ids (l : list Note.t) : list N := Note.id <$> l.

(** Sample data for the examples of the development. *)
Definition groceries : Note.t := Note.mk 1 "Groceries" "milk, eggs" false 10.

Definition recipe : Note.t := Note.mk 2 "Pancake Recipe" "Flour, MILK and sugar" true 20.

Definition diary : Note.t := Note.mk 3 "Diary" "Rain all day" false 30.

(** A platform for the examples: the development server's origin, dates
    shown as their number, and a clipboard that accepts writes. *)
Definition demo : Platform :=
  {| origin := "http://localhost:3000"; toLocaleDateString := numToString;
     clipboardAccess := ClipboardGranted |}.

(** The same page in a browser that denies clipboard writes, and served
    from an origin that is not a secure context. *)
Definition denied : Platform :=
  {| origin := "http://localhost:3000"; toLocaleDateString := numToString;
     clipboardAccess := ClipboardDenied |}.

Definition insecure : Platform :=
  {| origin := "http://notes.example"; toLocaleDateString := numToString;
     clipboardAccess := ClipboardMissing |}.

(** ** Lemmas *)

Lemma ok_iff r : ok r = true ↔ (200 ≤ status r ≤ 299)%N.
Proof. unfold ok. rewrite andb_true_iff, !N.leb_le. done. Qed.

Lemma ok_false_iff r : ok r = false ↔ (status r < 200 ∨ 299 < status r)%N.
Proof. unfold ok. rewrite andb_false_iff, !N.leb_gt. done. Qed.

Lemma of_note_title n : NoteData.title (NoteData.of_note n) = Note.title n.
Proof. done. Qed.

(** Collections are compared up to order where the store's order is not
    specified: [ids] respects reordering. *)
#[export] Instance ids_Permutation : Proper ((≡ₚ) ==> (≡ₚ)) ids.
Proof. intros l1 l2 Hl. unfold ids. by rewrite Hl. Qed.

Lemma elem_of_ids l n : n ∈ l → Note.id n ∈ ids l.
Proof. apply list_elem_of_fmap_2. Qed.
