(* ===== verification/Editor.v ===== *)
(** * The note editor (App.js 253-322)

    [NoteEditor] is a modal form with three [useState] cells, initialised
    from the [note] prop when the component mounts.  It never calls the
    network: its outputs are the two callbacks [onSave] and [onClose].  The
    component is modelled as a state machine: [Editor.init] is the mount,
    [Editor.step] one DOM event, [Editor.render] the JSX. *)

From S2P Require Import Prelude JsString Model.

Module Editor.

(** The local draft: the cells [title], [content], [isPublic]
    (App.js 254-256). *)
Record State : Type := mk {
  title : string;
  content : string;
  isPublic : bool;
}.

#[global] Instance eq_dec : EqDecision State.
Proof. solve_decision. Defined.

(** The initial values of the cells: [note?.title || ''],
    [note?.content || ''], [note?.isPublic || false].  The default of each
    [||] is the only falsy value of its type, so the result is the note's
    field when there is a note and the default otherwise. *)
Definition init (note : option Note.t) : State :=
  {| title := from_option Note.title "" note;
     content := from_option Note.content "" note;
     isPublic := from_option Note.isPublic false note |}.

(** The setters, as the [onChange] handlers call them
    (App.js 281, 289, 298). *)
Definition setTitle (v : string) (st : State) : State :=
  {| title := v; content := content st; isPublic := isPublic st |}.

Definition setContent (v : string) (st : State) : State :=
  {| title := title st; content := v; isPublic := isPublic st |}.

Definition setIsPublic (v : bool) (st : State) : State :=
  {| title := title st; content := content st; isPublic := v |}.

(** The object literal [{ title, content, isPublic }] (App.js 260). *)
Definition draft (st : State) : NoteData.t :=
  {| NoteData.title := title st;
     NoteData.content := content st;
     NoteData.isPublic := isPublic st |}.

(** What the component passes up: [onSave(data)] or [onClose()]. *)
Inductive Output : Type :=
| OnSave (noteData : NoteData.t)
| OnClose.

#[global] Instance Output_eq_dec : EqDecision Output.
Proof. solve_decision. Defined.

(** [handleSave] (App.js 258-262): calls [onSave] when the trimmed title
    is not empty, and does nothing otherwise. *)
Definition handleSave (st : State) : option Output :=
  if truthy (trim (title st)) then Some (OnSave (draft st)) else None.

(** The [disabled] attribute of the save button (App.js 313). *)
Definition saveDisabled (st : State) : bool := negb (truthy (trim (title st))).

(** The DOM events of the form. *)
Inductive Event : Type :=
| ChangeTitle (value : string)      (* App.js 281 *)
| ChangeContent (value : string)    (* App.js 289 *)
| ChangeIsPublic (checked : bool)   (* App.js 298 *)
| ClickClose                        (* App.js 271 *)
| ClickCancel                       (* App.js 308 *)
| ClickSave.                        (* App.js 312 *)

#[global] Instance Event_eq_dec : EqDecision Event.
Proof. solve_decision. Defined.

(** One event: the next draft and the callback it invokes.  A disabled
    button dispatches no click, so [handleSave] runs only when the save
    button is enabled. *)
Definition step (st : State) (e : Event) : State * option Output :=
  match e with
  | ChangeTitle v => (setTitle v st, None)
  | ChangeContent v => (setContent v st, None)
  | ChangeIsPublic b => (setIsPublic b st, None)
  | ClickClose | ClickCancel => (st, Some OnClose)
  | ClickSave => (st, if saveDisabled st then None else handleSave st)
  end.

(** What the JSX displays (App.js 264-321): the heading and the save
    button's label depend on the [note] prop, the inputs show the cells. *)
Record View : Type := mkView {
  heading : string;
  titleValue : string;
  contentValue : string;
  isPublicChecked : bool;
  saveLabel : string;
  saveIsDisabled : bool;
}.

Definition render (note : option Note.t) (st : State) : View :=
  {| heading := if note is Some _ then "Edit Note" else "Create Note";
     titleValue := title st;
     contentValue := content st;
     isPublicChecked := isPublic st;
     saveLabel := if note is Some _ then "Update" else "Create";
     saveIsDisabled := saveDisabled st |}.

(** A run of the form from a draft: the final draft and the callbacks in
    order. *)
Fixpoint run (st : State) (es : list Event) : State * list Output :=
  match es with
  | [] => (st, [])
  | e :: es' =>
      let '(st1, o) := step st e in
      let '(st2, os) := run st1 es' in
      (st2, from_option (λ x, [x]) [] o ++ os)
  end.

End Editor.

(** ** Properties of the editor *)

Section editor.
Implicit Types (st : Editor.State) (note : option Note.t) (n : Note.t).

Lemma editor_init_create : Editor.init None = Editor.mk "" "" false.
Proof. done. Qed.

Lemma editor_init_edit n :
  Editor.init (Some n) = Editor.mk (Note.title n) (Note.content n) (Note.isPublic n).
Proof. done. Qed.

(** A mounted edit form holds the note's own fields as its draft. *)
Lemma editor_draft_init n : Editor.draft (Editor.init (Some n)) = NoteData.of_note n.
Proof. done. Qed.

Lemma saveDisabled_blank st :
  Editor.saveDisabled st = blank (Editor.title st).
Proof. unfold Editor.saveDisabled. by rewrite truthy_trim, negb_involutive. Qed.

Lemma handleSave_Some st o :
  Editor.handleSave st = Some o ↔
  blank (Editor.title st) = false ∧ o = Editor.OnSave (Editor.draft st).
Proof.
  unfold Editor.handleSave. rewrite truthy_trim.
  destruct (blank (Editor.title st)); simpl;
    (split; [intros [= <-] | intros [[=] ->]]); done.
Qed.

Lemma handleSave_None st :
  Editor.handleSave st = None ↔ blank (Editor.title st) = true.
Proof.
  unfold Editor.handleSave. rewrite truthy_trim.
  by destruct (blank (Editor.title st)).
Qed.

(** The guard inside [handleSave] and the [disabled] attribute agree, so
    an enabled button always saves. *)
Lemma handleSave_enabled st :
  Editor.saveDisabled st = false →
  Editor.handleSave st = Some (Editor.OnSave (Editor.draft st)).
Proof.
  unfold Editor.saveDisabled, Editor.handleSave.
  by destruct (truthy (trim (Editor.title st))).
Qed.

Lemma step_ClickSave st :
  Editor.step st Editor.ClickSave =
  (st, if blank (Editor.title st) then None
       else Some (Editor.OnSave (Editor.draft st))).
Proof.
  simpl. rewrite saveDisabled_blank.
  destruct (blank (Editor.title st)) eqn:E; [done |].
  by rewrite (proj2 (handleSave_Some st _) (conj E eq_refl)).
Qed.

(** Only the three change events touch the draft. *)
Lemma step_click_draft st e :
  e ∈ [Editor.ClickClose; Editor.ClickCancel; Editor.ClickSave] →
  (Editor.step st e).1 = st.
Proof. rewrite !elem_of_cons, elem_of_nil. by intros [->|[->|[->|[]]]]. Qed.

(** The form only ever saves a draft whose title has a visible
    character. *)
Lemma step_OnSave_title st e st' d :
  Editor.step st e = (st', Some (Editor.OnSave d)) →
  blank (NoteData.title d) = false ∧ d = Editor.draft st ∧ st' = st.
Proof.
  destruct e; simpl; try done.
  intros [= <- H]. destruct (Editor.saveDisabled st); [done |].
  apply handleSave_Some in H as [? [= ->]]. done.
Qed.

Lemma render_disabled note st :
  Editor.saveIsDisabled (Editor.render note st) = blank (Editor.title st).
Proof. apply saveDisabled_blank. Qed.

Lemma editor_run_cons st e es :
  Editor.run st (e :: es) =
  ((Editor.run (Editor.step st e).1 es).1,
   from_option (λ x, [x]) [] (Editor.step st e).2
     ++ (Editor.run (Editor.step st e).1 es).2).
Proof.
  simpl. destruct (Editor.step st e) as [st1 o]; simpl.
  by destruct (Editor.run st1 es).
Qed.

(** C7: the save button is disabled exactly when the trimmed title is
    empty, that is when the title holds white space only; the content and
    the visibility flag play no part. *)
Theorem save_disabled_iff note st :
  (Editor.saveIsDisabled (Editor.render note st) = true ↔ trim (Editor.title st) = "") ∧
  (trim (Editor.title st) = "" ↔ blank (Editor.title st) = true) ∧
  (∀ c p, Editor.saveIsDisabled
            (Editor.render note (Editor.setContent c (Editor.setIsPublic p st))) =
          Editor.saveIsDisabled (Editor.render note st)).
Proof.
  split_and!; [|apply trim_blank | done].
  rewrite render_disabled. symmetry. apply trim_blank.
Qed.

(** C16: whatever the user does in the form, every draft it passes to
    [onSave] has a title with a visible character. *)
Theorem editor_saves_titled st es d :
  Editor.OnSave d ∈ (Editor.run st es).2 → blank (NoteData.title d) = false.
Proof.
  revert st. induction es as [|e es IH]; intros st; [by intros ?%elem_of_nil |].
  rewrite editor_run_cons; simpl. rewrite elem_of_app. intros [Hd|Hd]; [|by eapply IH].
  destruct (Editor.step st e) as [st1 [o|]] eqn:E; simpl in Hd;
    [|by apply elem_of_nil in Hd].
  apply list_elem_of_singleton in Hd as <-.
  by apply step_OnSave_title in E as [? _].
Qed.

Lemma editor_saves_titled_witness :
  blank (NoteData.title (NoteData.mk " Tea " "" true)) = false.
Proof.
  apply (editor_saves_titled (Editor.init None)
           [Editor.ClickSave; Editor.ChangeTitle " Tea "; Editor.ChangeIsPublic true;
            Editor.ClickSave] (NoteData.mk " Tea " "" true)).
  vm_compute. apply list_elem_of_here.
Defined.

(** A freshly mounted editor holds the fields of the note it edits,
    or an empty draft in create mode, where save starts disabled. *)
Lemma editor_init_spec note :
  Editor.draft (Editor.init note) =
    from_option NoteData.of_note (NoteData.mk "" "" false) note ∧
  Editor.saveDisabled (Editor.init None) = true ∧
  (Editor.heading (Editor.render note (Editor.init note)),
   Editor.saveLabel (Editor.render note (Editor.init note))) =
    (if note is Some _ then ("Edit Note", "Update") else ("Create Note", "Create")).
Proof. by destruct note. Qed.

End editor.

#[export] Hint Rewrite saveDisabled_blank : notes_rw.
