(* ===== verification/Search.v ===== *)
(** * The search filter (App.js 92-95)

    [filteredNotes] is the list the grid displays: the notes of the
    collection whose title or content contains the search term, letter
    case ignored.  It is recomputed at every render from the [notes] and
    [searchTerm] cells and never changes them.  [matches] is the
    reference statement of the criterion, in terms of substrings. *)

From S2P Require Import Prelude JsString Model.

(** [filteredNotes] (App.js 92-95). *)
Definition filteredNotes (notes : list Note.t) (searchTerm : string) : list Note.t :=
  filter (λ note,
    includes (toLowerCase (Note.title note)) (toLowerCase searchTerm) ||
    includes (toLowerCase (Note.content note)) (toLowerCase searchTerm)) notes.

(** A note matches a search term: its title or its content contains the
    term, letter case ignored. *)
Definition matches (term : string) (note : Note.t) : Prop :=
  (∃ pre post, toLowerCase (Note.title note) = pre +:+ toLowerCase term +:+ post) ∨
  (∃ pre post, toLowerCase (Note.content note) = pre +:+ toLowerCase term +:+ post).

(** ** Lemmas *)

Section filteredNotes.
Implicit Types (notes : list Note.t) (term : string) (n : Note.t).

Lemma matches_includes term n :
  matches term n ↔
  includes (toLowerCase (Note.title n)) (toLowerCase term) ||
  includes (toLowerCase (Note.content n)) (toLowerCase term).
Proof.
  unfold matches. rewrite orb_True, !Is_true_true, !includes_spec. done.
Qed.

#[export] Instance matches_dec term n : Decision (matches term n).
Proof.
  refine (cast_if (decide (Is_true (
    includes (toLowerCase (Note.title n)) (toLowerCase term) ||
    includes (toLowerCase (Note.content n)) (toLowerCase term)))));
  by rewrite matches_includes.
Defined.

(** The filtered list holds exactly the notes of the collection that
    match. *)
Lemma elem_of_filteredNotes notes term n :
  n ∈ filteredNotes notes term ↔ n ∈ notes ∧ matches term n.
Proof.
  unfold filteredNotes. rewrite list_elem_of_filter, matches_includes. tauto.
Qed.

Lemma filteredNotes_sublist notes term : filteredNotes notes term `sublist_of` notes.
Proof. apply sublist_filter. Qed.

(** Filtering respects reordering of the collection. *)
#[export] Instance filteredNotes_Permutation :
  Proper ((≡ₚ) ==> (=) ==> (≡ₚ)) filteredNotes.
Proof. intros l1 l2 Hl t ? <-. unfold filteredNotes. by rewrite Hl. Qed.

Lemma matches_empty n : matches "" n.
Proof. left. exists "", (toLowerCase (Note.title n)). by autorewrite with str. Qed.

(** The empty term keeps the whole collection, in order. *)
Lemma filteredNotes_empty notes : filteredNotes notes "" = notes.
Proof.
  unfold filteredNotes. induction notes as [|n notes IH]; [done |].
  rewrite filter_cons, IH. simpl. by rewrite !includes_empty.
Qed.

Lemma filteredNotes_nil term : filteredNotes [] term = [].
Proof. done. Qed.

Lemma filteredNotes_app notes1 notes2 term :
  filteredNotes (notes1 ++ notes2) term =
  filteredNotes notes1 term ++ filteredNotes notes2 term.
Proof. apply filter_app. Qed.

Lemma matches_toLowerCase term n : matches (toLowerCase term) n ↔ matches term n.
Proof. unfold matches. by autorewrite with str. Qed.

(** The search ignores the case of the term. *)
Lemma filteredNotes_toLowerCase notes term :
  filteredNotes notes (toLowerCase term) = filteredNotes notes term.
Proof. unfold filteredNotes. by autorewrite with str. Qed.

(** A term that contains another one matches fewer notes. *)
Lemma matches_mono term term' n :
  includes (toLowerCase term') (toLowerCase term) = true →
  matches term' n → matches term n.
Proof.
  rewrite !matches_includes, !orb_True, !Is_true_true.
  intros Hinc [H|H]; [left | right]; eapply includes_trans; eauto.
Qed.

Lemma filteredNotes_mono notes term term' :
  includes (toLowerCase term') (toLowerCase term) = true →
  filteredNotes notes term' ⊆ filteredNotes notes term.
Proof.
  intros Hinc n. rewrite !elem_of_filteredNotes.
  intros [? ?]; eauto using matches_mono.
Qed.

Lemma filteredNotes_idemp notes term :
  filteredNotes (filteredNotes notes term) term = filteredNotes notes term.
Proof. unfold filteredNotes. apply list_filter_filter_l. tauto. Qed.

(** Filtering commutes with removing a note. *)
Lemma filteredNotes_remove notes term id :
  filteredNotes (remove_key Note.id id notes) term =
  remove_key Note.id id (filteredNotes notes term).
Proof.
  unfold filteredNotes, remove_key. rewrite !list_filter_filter.
  apply list_filter_iff. tauto.
Qed.

Lemma filteredNotes_NoDup notes term :
  NoDup (Note.id <$> notes) → NoDup (Note.id <$> filteredNotes notes term).
Proof.
  intros H. eapply sublist_NoDup; [done |].
  apply fmap_sublist, filteredNotes_sublist.
Qed.

End filteredNotes.

(** ** The properties of the filter *)

Section properties.
Implicit Types (notes : list Note.t) (term : string).

(** C1: [filteredNotes] returns exactly the notes of the collection whose
    title or content contains the search term as a substring, letter case
    ignored; it keeps them in the order of the collection; and the empty
    term keeps the whole collection. *)
Theorem filteredNotes_spec notes term :
  (∀ n, n ∈ filteredNotes notes term ↔ n ∈ notes ∧ matches term n) ∧
  (filteredNotes notes term `sublist_of` notes) ∧
  filteredNotes notes "" = notes.
Proof.
  split_and!; [intros n; apply elem_of_filteredNotes | apply filteredNotes_sublist
              | apply filteredNotes_empty].
Qed.

(** Narrowing: a search term that contains another one (letter case
    ignored) selects a subset of what the other selects, and the case of
    the term does not matter. *)
Theorem filteredNotes_narrows notes term term' :
  includes (toLowerCase term') (toLowerCase term) = true →
  filteredNotes notes term' ⊆ filteredNotes notes term ∧
  filteredNotes notes (toLowerCase term') = filteredNotes notes term'.
Proof. split; [by apply filteredNotes_mono | apply filteredNotes_toLowerCase]. Qed.

End properties.

Lemma filteredNotes_narrows_witness :
  filteredNotes [groceries; recipe; diary] "MILK"
    ⊆ filteredNotes [groceries; recipe; diary] "il" ∧
  filteredNotes [groceries; recipe; diary] (toLowerCase "MILK") =
  filteredNotes [groceries; recipe; diary] "MILK".
Proof.
  exact (filteredNotes_narrows [groceries; recipe; diary] "il" "MILK" eq_refl).
Defined.

#[export] Hint Resolve filteredNotes_sublist filteredNotes_NoDup : notes.
#[export] Hint Rewrite filteredNotes_empty filteredNotes_toLowerCase
  filteredNotes_idemp : notes_rw.
