(* ===== verification/Controller.v ===== *)
(** * The application controller (App.js 6-90)

    [NotesApp] owns seven [useState] cells and five operations.  The cells
    are the record [App.t]; a setter replaces one field.  An operation is a
    function of the values its closure captured that returns an update of
    [App.t] together with the effects it starts.  An [async] operation is
    cut at its [await]: [fetchNotes], [saveNote] and [deleteNote] start the
    request, and [fetchNotes_resume], [saveNote_resume],
    [saveNote_after_fetch] and [deleteNote_resume] are what runs when the
    awaited promise settles.  [resume] dispatches on the suspended call. *)

From S2P Require Import Prelude JsString Model.

#[local] Open Scope act_scope.

(** [API_BASE_URL] (App.js 4). *)
Definition API_BASE_URL : string := "http://localhost:8081/api".

(** ** State *)

Module App.

(** The [useState] cells of [NotesApp] (App.js 7-13). *)
Record t : Type := mk {
  notes : list Note.t;
  isCreating : bool;
  editingNote : option Note.t;
  searchTerm : string;
  shareModal : option Note.t;
  loading : bool;
  notification : option Notification.t;
}.

#[global] Instance eq_dec : EqDecision t.
Proof. solve_decision. Defined.

(** The initial values passed to [useState]. *)
Definition initial : t :=
  {| notes := []; isCreating := false; editingNote := None; searchTerm := "";
     shareModal := None; loading := true; notification := None |}.

End App.

(** ** Effects and suspended calls *)

(** The callback passed to [setTimeout]: [() => setNotification(null)]
    (App.js 33). *)
Inductive Callback : Type := ClearNotification.

(** An operation suspended at an [await], with the variables of its
    closure that the rest of its body reads. *)
Inductive Cont : Type :=
| AwaitFetchNotes (caller : option (option Note.t))
    (* [fetchNotes] at App.js 18; [caller] is [Some e] when [saveNote] is
       itself suspended on this call (App.js 54) with [editingNote = e] *)
| AwaitSave (editingNote : option Note.t)
    (* [saveNote] at App.js 45 *)
| AwaitDelete (notes : list Note.t) (id : N).
    (* [deleteNote] at App.js 67 *)

Inductive Effect : Type :=
| Fetch (request : Request) (k : Cont)
| SetTimeout (callback : Callback) (delay : N)
| ClipboardWriteText (text : string).

#[export] Instance Callback_eq_dec : EqDecision Callback.
Proof. solve_decision. Defined.

#[export] Instance Cont_eq_dec : EqDecision Cont.
Proof. solve_decision. Defined.

#[export] Instance Effect_eq_dec : EqDecision Effect.
Proof. solve_decision. Defined.

Abbreviation Act := (Upd App.t Effect).

(** ** Setters (App.js 7-13) *)

Definition setNotes (v : list Note.t) : Act :=
  modify (λ s, App.mk v (App.isCreating s) (App.editingNote s) (App.searchTerm s)
                 (App.shareModal s) (App.loading s) (App.notification s)).

Definition setIsCreating (v : bool) : Act :=
  modify (λ s, App.mk (App.notes s) v (App.editingNote s) (App.searchTerm s)
                 (App.shareModal s) (App.loading s) (App.notification s)).

Definition setEditingNote (v : option Note.t) : Act :=
  modify (λ s, App.mk (App.notes s) (App.isCreating s) v (App.searchTerm s)
                 (App.shareModal s) (App.loading s) (App.notification s)).

Definition setSearchTerm (v : string) : Act :=
  modify (λ s, App.mk (App.notes s) (App.isCreating s) (App.editingNote s) v
                 (App.shareModal s) (App.loading s) (App.notification s)).

Definition setShareModal (v : option Note.t) : Act :=
  modify (λ s, App.mk (App.notes s) (App.isCreating s) (App.editingNote s)
                 (App.searchTerm s) v (App.loading s) (App.notification s)).

Definition setLoading (v : bool) : Act :=
  modify (λ s, App.mk (App.notes s) (App.isCreating s) (App.editingNote s)
                 (App.searchTerm s) (App.shareModal s) v (App.notification s)).

Definition setNotification (v : option Notification.t) : Act :=
  modify (λ s, App.mk (App.notes s) (App.isCreating s) (App.editingNote s)
                 (App.searchTerm s) (App.shareModal s) (App.loading s) v).

(** ** Operations *)

(** [showNotification] (App.js 31-34).  [type] is [None] when the caller
    omits the argument, and the parameter's default applies. *)
Definition showNotification (message : string) (type : option Notification.Kind) : Act :=
  let type := default Notification.success type in
  setNotification (Some {| Notification.message := message; Notification.type := type |}) ;;
  emit (SetTimeout ClearNotification 3000).

(** The timer's callback (App.js 33). *)
Definition runCallback (cb : Callback) : Act :=
  match cb with ClearNotification => setNotification None end.

(** [fetchNotes] up to its [await] (App.js 16-18): a GET of the
    collection. *)
Definition fetchNotes (caller : option (option Note.t)) : Act :=
  emit (Fetch {| url := API_BASE_URL +:+ "/notes"; method := GET;
                 headers := []; body := None |}
              (AwaitFetchNotes caller)).

(** [fetchNotes] after its [await] (App.js 19-27): the [try] body on a
    response, the [catch] on a rejected [fetch] or [json], and the
    [finally]. *)
Definition fetchNotes_resume (o : Outcome) : Act :=
  match o with
  | Resolved response =>
      if ok response then
        match json response with
        | Some data => setNotes data
        | None => showNotification "Failed to load notes" (Some Notification.error)
        end
      else skip
  | Rejected => showNotification "Failed to load notes" (Some Notification.error)
  end ;;
  setLoading false.

(** The same continuation cut at each of its two [await]s.  After
    [await fetch] (App.js 18-19, 23-27): on a success status the call
    suspends again, on [response.json()], having changed nothing; the
    flag tells whether it did.  Otherwise the call ends: through the
    [catch] and the [finally] when the promise rejected, through the
    [finally] alone on an error status. *)
Definition fetchNotes_after_fetch (o : Outcome) : Act * bool :=
  match o with
  | Resolved response =>
      if ok response then (skip, true) else (setLoading false, false)
  | Rejected =>
      (showNotification "Failed to load notes" (Some Notification.error) ;;
       setLoading false, false)
  end.

(** After [await response.json()] (App.js 20-27); [data] is [None] when
    the body does not parse and the promise rejects. *)
Definition fetchNotes_after_json (data : option (list Note.t)) : Act :=
  match data with
  | Some data => setNotes data
  | None => showNotification "Failed to load notes" (Some Notification.error)
  end ;;
  setLoading false.

(** [saveNote] up to its [await] (App.js 37-51): PUT to the note's URL
    when a note is being edited, POST to the collection otherwise. *)
Definition saveNote (editingNote : option Note.t) (noteData : NoteData.t) : Act :=
  let url :=
    match editingNote with
    | Some e => API_BASE_URL +:+ "/notes/" +:+ numToString (Note.id e)
    | None => API_BASE_URL +:+ "/notes"
    end in
  let method := if editingNote is Some _ then PUT else POST in
  emit (Fetch {| url := url; method := method;
                 headers := [("Content-Type", "application/json")];
                 body := Some noteData |}
              (AwaitSave editingNote)).

(** [saveNote] after [await fetch] (App.js 53-54, 59-61): on a successful
    status it calls [fetchNotes] and suspends again. *)
Definition saveNote_resume (editingNote : option Note.t) (o : Outcome) : Act :=
  match o with
  | Resolved response =>
      if ok response then fetchNotes (Some editingNote) else skip
  | Rejected => showNotification "Failed to save note" (Some Notification.error)
  end.

(** [saveNote] after [await fetchNotes()] (App.js 55-57). *)
Definition saveNote_after_fetch (editingNote : option Note.t) : Act :=
  setIsCreating false ;;
  setEditingNote None ;;
  showNotification (if editingNote is Some _ then "Note updated!" else "Note created!") None.

(** [deleteNote] up to its [await] (App.js 65-69).  [notes] is the array
    the closure captured. *)
Definition deleteNote (notes : list Note.t) (id : N) : Act :=
  emit (Fetch {| url := API_BASE_URL +:+ "/notes/" +:+ numToString id;
                 method := DELETE; headers := []; body := None |}
              (AwaitDelete notes id)).

(** [deleteNote] after its [await] (App.js 71-77). *)
Definition deleteNote_resume (notes : list Note.t) (id : N) (o : Outcome) : Act :=
  match o with
  | Resolved response =>
      if ok response then
        setNotes (filter (λ note, Note.id note ≠ id) notes) ;;
        showNotification "Note deleted!" None
      else skip
  | Rejected => showNotification "Failed to delete note" (Some Notification.error)
  end.

(** What runs when the promise a suspended call awaits settles. *)
Definition resume (k : Cont) (o : Outcome) : Act :=
  match k with
  | AwaitFetchNotes caller =>
      fetchNotes_resume o ;;
      match caller with
      | Some editingNote => saveNote_after_fetch editingNote
      | None => skip
      end
  | AwaitSave editingNote => saveNote_resume editingNote o
  | AwaitDelete notes id => deleteNote_resume notes id o
  end.

(** The effect of [useEffect(() => { fetchNotes(); }, [])] (App.js 87-89):
    what the component starts when it mounts. *)
Definition onMount : Act := fetchNotes None.

Section platform.
Context `{Platform}.

(** [copyShareLink] (App.js 81-85).  Where [navigator.clipboard] is
    undefined the call at App.js 83 throws and the handler ends there;
    otherwise the write is started, its promise is dropped, and the
    notification is shown whether the write succeeds or not. *)
Definition copyShareLink (noteId : N) : Act :=
  let shareUrl := origin +:+ "/share/" +:+ numToString noteId in
  match clipboardAccess with
  | ClipboardMissing => skip
  | ClipboardDenied | ClipboardGranted =>
      emit (ClipboardWriteText shareUrl) ;;
      showNotification "Share link copied!" None
  end.

End platform.

(** ** The handlers wired in the JSX *)

(** The search box's [onChange] (App.js 116). *)
Definition onSearchChange (value : string) : Act := setSearchTerm value.

(** The two "new note" buttons (App.js 122, 160). *)
Definition onNewNote : Act := setIsCreating true.

(** The callbacks given to a card (App.js 144-146); [notes] is the array
    of the render that created them. *)
Definition onEdit (note : Note.t) : Act := setEditingNote (Some note).

Definition onDelete (notes : list Note.t) (note : Note.t) : Act :=
  deleteNote notes (Note.id note).

Definition onShare (note : Note.t) : Act := setShareModal (Some note).

(** The editor's [onClose] (App.js 174-177). *)
Definition onCloseEditor : Act := setIsCreating false ;; setEditingNote None.

(** The share modal's [onClose] (App.js 185). *)
Definition onCloseShare : Act := setShareModal None.

(** The condition under which the editor is rendered (App.js 170). *)
Definition editorOpen (s : App.t) : bool :=
  App.isCreating s || bool_decide (is_Some (App.editingNote s)).

(** ** Reference definitions used by the statements *)

(** What an outcome makes of the collection: the parsed body of a
    successful response, and the old collection otherwise. *)
Definition loaded (o : Outcome) (old : list Note.t) : list Note.t :=
  match o with
  | Resolved r => if ok r then default old (json r) else old
  | Rejected => old
  end.

(** Whether the [catch] block of [fetchNotes] runs. *)
Definition load_throws (o : Outcome) : bool :=
  match o with
  | Resolved r => ok r && bool_decide (json r = None)
  | Rejected => true
  end.

(** ** Tactics *)

(** [act_unfold] exposes the body of every controller operation. *)
Ltac act_unfold :=
  unfold resume, fetchNotes_resume, saveNote_resume, saveNote_after_fetch,
    deleteNote_resume, fetchNotes, saveNote, deleteNote, copyShareLink,
    showNotification, runCallback, onMount, onSearchChange, onNewNote, onEdit,
    onDelete, onShare, onCloseEditor, onCloseShare, setNotes, setIsCreating,
    setEditingNote, setSearchTerm, setShareModal, setLoading, setNotification
    in *.

(** [act_solve] decides a statement about an operation by computing it,
    after rewriting with the hypotheses on the response. *)
Ltac act_solve :=
  intros; act_unfold;
  repeat match goal with
         | H : ok _ = _ |- _ => rewrite H in *; clear H
         | H : json _ = _ |- _ => rewrite H in *; clear H
         end;
  try done.

(** ** showNotification *)

Section showNotification.
Implicit Types (s : App.t) (message : string).

Lemma showNotification_run message type s :
  showNotification message type s =
  (App.mk (App.notes s) (App.isCreating s) (App.editingNote s) (App.searchTerm s)
     (App.shareModal s) (App.loading s)
     (Some (Notification.mk message (default Notification.success type))),
   [SetTimeout ClearNotification 3000]).
Proof. done. Qed.

Lemma showNotification_default message s :
  App.notification (exec (showNotification message None) s) =
  Some (Notification.mk message Notification.success).
Proof. done. Qed.

(** A later notification replaces the earlier one, and both timers
    stay armed. *)
Lemma showNotification_twice m1 t1 m2 t2 s :
  (showNotification m1 t1 ;; showNotification m2 t2) s =
  ((showNotification m2 t2 s).1,
   [SetTimeout ClearNotification 3000; SetTimeout ClearNotification 3000]).
Proof. done. Qed.

Lemma runCallback_clears cb s :
  App.notification (exec (runCallback cb) s) = None ∧
  effects (runCallback cb) s = [].
Proof. by destruct cb. Qed.

End showNotification.

(** ** fetchNotes *)

Section fetchNotes.
Implicit Types (s : App.t) (r : Response) (o : Outcome) (data : list Note.t).

Lemma fetchNotes_run caller s :
  fetchNotes caller s =
  (s, [Fetch (mkRequest (API_BASE_URL +:+ "/notes") GET [] None)
             (AwaitFetchNotes caller)]).
Proof. done. Qed.

Lemma fetchNotes_resume_ok r data s :
  ok r = true → json r = Some data →
  fetchNotes_resume (Resolved r) s =
  (App.mk data (App.isCreating s) (App.editingNote s) (App.searchTerm s)
     (App.shareModal s) false (App.notification s), []).
Proof. act_solve. Qed.

Lemma fetchNotes_resume_bad_body r s :
  ok r = true → json r = None →
  fetchNotes_resume (Resolved r) s =
  (App.mk (App.notes s) (App.isCreating s) (App.editingNote s) (App.searchTerm s)
     (App.shareModal s) false
     (Some (Notification.mk "Failed to load notes" Notification.error)),
   [SetTimeout ClearNotification 3000]).
Proof. act_solve. Qed.

Lemma fetchNotes_resume_not_ok r s :
  ok r = false →
  fetchNotes_resume (Resolved r) s =
  (App.mk (App.notes s) (App.isCreating s) (App.editingNote s) (App.searchTerm s)
     (App.shareModal s) false (App.notification s), []).
Proof. act_solve. Qed.

Lemma fetchNotes_resume_rejected s :
  fetchNotes_resume Rejected s =
  (App.mk (App.notes s) (App.isCreating s) (App.editingNote s) (App.searchTerm s)
     (App.shareModal s) false
     (Some (Notification.mk "Failed to load notes" Notification.error)),
   [SetTimeout ClearNotification 3000]).
Proof. done. Qed.

(** Every outcome in one equation. *)
Lemma fetchNotes_resume_run o s :
  fetchNotes_resume o s =
  (App.mk (loaded o (App.notes s)) (App.isCreating s) (App.editingNote s)
     (App.searchTerm s) (App.shareModal s) false
     (if load_throws o
      then Some (Notification.mk "Failed to load notes" Notification.error)
      else App.notification s),
   if load_throws o then [SetTimeout ClearNotification 3000] else []).
Proof.
  destruct o as [|r]; [done |]. simpl.
  destruct (ok r) eqn:Hok; [| by rewrite fetchNotes_resume_not_ok].
  destruct (json r) as [data|] eqn:Hj.
  - by rewrite (fetchNotes_resume_ok r data).
  - by rewrite fetchNotes_resume_bad_body.
Qed.

End fetchNotes.

(** ** saveNote *)

Section saveNote.
Implicit Types (s : App.t) (r : Response) (e : Note.t) (d : NoteData.t).

Lemma saveNote_run_create d s :
  saveNote None d s =
  (s, [Fetch (mkRequest (API_BASE_URL +:+ "/notes") POST
                [("Content-Type", "application/json")] (Some d))
             (AwaitSave None)]).
Proof. done. Qed.

Lemma saveNote_run_edit e d s :
  saveNote (Some e) d s =
  (s, [Fetch (mkRequest (API_BASE_URL +:+ "/notes/" +:+ numToString (Note.id e)) PUT
                [("Content-Type", "application/json")] (Some d))
             (AwaitSave (Some e))]).
Proof. done. Qed.

Lemma saveNote_resume_ok editingNote r s :
  ok r = true →
  saveNote_resume editingNote (Resolved r) s = fetchNotes (Some editingNote) s.
Proof. act_solve. Qed.

Lemma saveNote_resume_not_ok editingNote r s :
  ok r = false → saveNote_resume editingNote (Resolved r) s = (s, []).
Proof. act_solve. Qed.

Lemma saveNote_resume_rejected editingNote s :
  saveNote_resume editingNote Rejected s =
  (App.mk (App.notes s) (App.isCreating s) (App.editingNote s) (App.searchTerm s)
     (App.shareModal s) (App.loading s)
     (Some (Notification.mk "Failed to save note" Notification.error)),
   [SetTimeout ClearNotification 3000]).
Proof. done. Qed.

Lemma saveNote_after_fetch_run editingNote s :
  saveNote_after_fetch editingNote s =
  (App.mk (App.notes s) false None (App.searchTerm s) (App.shareModal s)
     (App.loading s)
     (Some (Notification.mk
              (if editingNote is Some _ then "Note updated!" else "Note created!")
              Notification.success)),
   [SetTimeout ClearNotification 3000]).
Proof. done. Qed.

(** The refresh that follows a successful save, on every outcome: the
    collection is what the refresh loaded, the editor is closed, and the
    success message is the one displayed, whatever the refresh did. *)
Lemma resume_fetch_after_save editingNote o s :
  resume (AwaitFetchNotes (Some editingNote)) o s =
  (App.mk (loaded o (App.notes s)) false None (App.searchTerm s)
     (App.shareModal s) false
     (Some (Notification.mk
              (if editingNote is Some _ then "Note updated!" else "Note created!")
              Notification.success)),
   (if load_throws o then [SetTimeout ClearNotification 3000] else [])
   ++ [SetTimeout ClearNotification 3000]).
Proof.
  unfold resume, seq. rewrite fetchNotes_resume_run, saveNote_after_fetch_run.
  done.
Qed.

Lemma resume_fetch_alone o s :
  resume (AwaitFetchNotes None) o s = fetchNotes_resume o s.
Proof. apply seq_skip_r. Qed.

End saveNote.

(** ** deleteNote *)

Section deleteNote.
Implicit Types (s : App.t) (r : Response) (notes : list Note.t) (id : N).

Lemma deleteNote_run notes id s :
  deleteNote notes id s =
  (s, [Fetch (mkRequest (API_BASE_URL +:+ "/notes/" +:+ numToString id) DELETE [] None)
             (AwaitDelete notes id)]).
Proof. done. Qed.

Lemma deleteNote_resume_ok notes id r s :
  ok r = true →
  deleteNote_resume notes id (Resolved r) s =
  (App.mk (remove_key Note.id id notes) (App.isCreating s) (App.editingNote s)
     (App.searchTerm s) (App.shareModal s) (App.loading s)
     (Some (Notification.mk "Note deleted!" Notification.success)),
   [SetTimeout ClearNotification 3000]).
Proof. act_solve. Qed.

Lemma deleteNote_resume_not_ok notes id r s :
  ok r = false → deleteNote_resume notes id (Resolved r) s = (s, []).
Proof. act_solve. Qed.

Lemma deleteNote_resume_rejected notes id s :
  deleteNote_resume notes id Rejected s =
  (App.mk (App.notes s) (App.isCreating s) (App.editingNote s) (App.searchTerm s)
     (App.shareModal s) (App.loading s)
     (Some (Notification.mk "Failed to delete note" Notification.error)),
   [SetTimeout ClearNotification 3000]).
Proof. done. Qed.

(** After a successful delete the collection is the captured array
    without the identifier: the identifier is gone, every other note of
    the captured array is kept as it was, in the same order. *)
Lemma deleteNote_resume_notes notes id r s :
  ok r = true →
  let notes' := App.notes (exec (deleteNote_resume notes id (Resolved r)) s) in
  (id ∉ Note.id <$> notes') ∧
  (∀ n, n ∈ notes' ↔ Note.id n ≠ id ∧ n ∈ notes) ∧
  (notes' `sublist_of` notes).
Proof.
  intros Hok. unfold exec. rewrite deleteNote_resume_ok by done. simpl.
  split_and!; [apply remove_key_absent | | apply remove_key_sublist].
  intros n. apply elem_of_remove_key.
Qed.

(** A failed delete changes nothing of the collection. *)
Lemma deleteNote_resume_failure notes id o s :
  (∀ r, o = Resolved r → ok r = false) →
  App.notes (exec (deleteNote_resume notes id o) s) = App.notes s.
Proof.
  intros H. destruct o as [|r]; [done |].
  unfold exec. by rewrite deleteNote_resume_not_ok by eauto.
Qed.

(** The collection after a delete is computed from the array the handler
    captured when it was started, not from the collection at the time the
    response arrives. *)
Lemma deleteNote_resume_stale notes id r s1 s2 :
  ok r = true →
  App.notes (exec (deleteNote_resume notes id (Resolved r)) s1) =
  App.notes (exec (deleteNote_resume notes id (Resolved r)) s2).
Proof. intros Hok. unfold exec. by rewrite !deleteNote_resume_ok. Qed.

End deleteNote.

(** ** copyShareLink *)

Section copyShareLink.
Context `{Platform}.
Implicit Types (s : App.t) (id : N).

(** Without [navigator.clipboard] the handler throws before it has done
    anything. *)
Lemma copyShareLink_missing id s :
  clipboardAccess = ClipboardMissing → copyShareLink id s = (s, []).
Proof. unfold copyShareLink. by intros ->. Qed.

Lemma copyShareLink_run id s :
  clipboardAccess ≠ ClipboardMissing →
  copyShareLink id s =
  (App.mk (App.notes s) (App.isCreating s) (App.editingNote s) (App.searchTerm s)
     (App.shareModal s) (App.loading s)
     (Some (Notification.mk "Share link copied!" Notification.success)),
   [ClipboardWriteText (origin +:+ "/share/" +:+ numToString id);
    SetTimeout ClearNotification 3000]).
Proof. unfold copyShareLink. by destruct clipboardAccess. Qed.

(** Two notes never share a link. *)
Lemma copyShareLink_inj id1 id2 s1 s2 :
  clipboardAccess ≠ ClipboardMissing →
  effects (copyShareLink id1) s1 = effects (copyShareLink id2) s2 → id1 = id2.
Proof.
  intros Hc. unfold effects. rewrite !copyShareLink_run by done. simpl. intros [= Heq].
  by apply String.app_inj, String.app_inj, numToString_inj in Heq.
Qed.

End copyShareLink.

(** ** The JSX handlers *)

Section handlers.
Implicit Types (s : App.t).

Lemma onNewNote_opens s : editorOpen (exec onNewNote s) = true.
Proof. done. Qed.

Lemma onEdit_opens note s : editorOpen (exec (onEdit note) s) = true.
Proof. unfold editorOpen. simpl. apply orb_true_r. Qed.

Lemma onCloseEditor_closes s : editorOpen (exec onCloseEditor s) = false.
Proof. done. Qed.

Lemma saveNote_after_fetch_closes editingNote s :
  editorOpen (exec (saveNote_after_fetch editingNote) s) = false.
Proof. done. Qed.

Lemma editorOpen_iff s :
  editorOpen s = true ↔ App.isCreating s = true ∨ is_Some (App.editingNote s).
Proof. unfold editorOpen. by rewrite orb_true_iff, bool_decide_eq_true. Qed.

End handlers.

(** ** What a resumption leaves alone *)

(** [resume_cases k o] splits a resumption into the branches of the
    source: the suspended call, a rejected promise or a response, its
    status, and its body. *)
Ltac resume_cases k o :=
  let r := fresh "r" in
  destruct k as [[?|]|?|? ?], o as [|r]; unfold exec, effects;
  rewrite ?resume_fetch_after_save, ?resume_fetch_alone, ?fetchNotes_resume_run;
  cbn [resume loaded load_throws];
  try (destruct (ok r) eqn:?; [try destruct (json r) eqn:? |];
       rewrite ?saveNote_resume_ok, ?saveNote_resume_not_ok, ?deleteNote_resume_ok,
         ?deleteNote_resume_not_ok by done);
  cbn [fst snd App.notes App.isCreating App.editingNote App.searchTerm
       App.shareModal App.loading App.notification andb default bool_decide
       decide_rel].

Section frame.
Implicit Types (s : App.t) (k : Cont) (o : Outcome).

Lemma resume_shareModal k o s :
  App.shareModal (exec (resume k o) s) = App.shareModal s.
Proof. resume_cases k o; done. Qed.

Lemma resume_searchTerm k o s :
  App.searchTerm (exec (resume k o) s) = App.searchTerm s.
Proof. resume_cases k o; done. Qed.

(** No resumption sets the loading flag. *)
Lemma resume_loading k o s :
  App.loading (exec (resume k o) s) = true → App.loading s = true.
Proof. resume_cases k o; done. Qed.

(** Every resumption of [fetchNotes] clears it. *)
Lemma resume_fetch_loading caller o s :
  App.loading (exec (resume (AwaitFetchNotes caller) o) s) = false.
Proof.
  destruct caller; unfold exec;
    by rewrite ?resume_fetch_after_save, ?resume_fetch_alone, ?fetchNotes_resume_run.
Qed.

Lemma runCallback_frame cb s :
  let s' := exec (runCallback cb) s in
  App.notes s' = App.notes s ∧ App.shareModal s' = App.shareModal s ∧
  App.loading s' = App.loading s ∧ editorOpen s' = editorOpen s.
Proof. by destruct cb. Qed.

End frame.

(** ** The properties of the controller *)

Section properties.
Context `{Platform}.
Implicit Types (s : App.t) (r : Response) (o : Outcome) (notes : list Note.t)
  (id : N) (term : string) (d : NoteData.t).

(** C2: after a successful [deleteNote] the local collection is the
    captured array without the deleted identifier: no note has that
    identifier, every other note is kept unchanged and in order, and the
    notification "Note deleted!" is shown with its timer. *)
Theorem deleteNote_success notes id r s :
  ok r = true →
  let s' := exec (deleteNote_resume notes id (Resolved r)) s in
  (id ∉ ids (App.notes s')) ∧
  (∀ n, n ∈ App.notes s' ↔ Note.id n ≠ id ∧ n ∈ notes) ∧
  (App.notes s' `sublist_of` notes) ∧
  App.notification s' = Some (Notification.mk "Note deleted!" Notification.success) ∧
  effects (deleteNote_resume notes id (Resolved r)) s =
    [SetTimeout ClearNotification 3000].
Proof.
  intros Hok. destruct (deleteNote_resume_notes notes id r s Hok) as (? & ? & ?).
  split_and!; try done; unfold exec, effects; by rewrite deleteNote_resume_ok.
Qed.

Lemma deleteNote_success_witness :
  let s' := exec (deleteNote_resume [groceries; recipe; diary] 2
                    (Resolved (mkResponse 204 None))) App.initial in
  (2%N ∉ ids (App.notes s')) ∧
  (∀ n, n ∈ App.notes s' ↔ Note.id n ≠ 2%N ∧ n ∈ [groceries; recipe; diary]) ∧
  (App.notes s' `sublist_of` [groceries; recipe; diary]) ∧
  App.notification s' = Some (Notification.mk "Note deleted!" Notification.success) ∧
  effects (deleteNote_resume [groceries; recipe; diary] 2
             (Resolved (mkResponse 204 None))) App.initial =
    [SetTimeout ClearNotification 3000].
Proof.
  exact (deleteNote_success [groceries; recipe; diary] 2 (mkResponse 204 None)
           App.initial eq_refl).
Defined.

(** C3: [fetchNotes], once its request settles, always clears the
    loading flag and touches no other cell than the collection and the
    notification.  A successful response with a parsable body replaces the
    collection and shows nothing; a response with an error status changes
    nothing and shows nothing; a rejected request or an unparsable body
    keeps the collection and shows "Failed to load notes". *)
Theorem fetchNotes_outcomes o s :
  let s' := exec (fetchNotes_resume o) s in
  let es := effects (fetchNotes_resume o) s in
  App.loading s' = false ∧
  (App.isCreating s', App.editingNote s', App.searchTerm s', App.shareModal s') =
  (App.isCreating s, App.editingNote s, App.searchTerm s, App.shareModal s) ∧
  (∀ r data, o = Resolved r → ok r = true → json r = Some data →
     App.notes s' = data ∧ App.notification s' = App.notification s ∧ es = []) ∧
  (∀ r, o = Resolved r → ok r = false →
     App.notes s' = App.notes s ∧ App.notification s' = App.notification s ∧ es = []) ∧
  (o = Rejected ∨ (∃ r, o = Resolved r ∧ ok r = true ∧ json r = None) →
     App.notes s' = App.notes s ∧
     App.notification s' =
       Some (Notification.mk "Failed to load notes" Notification.error) ∧
     es = [SetTimeout ClearNotification 3000]).
Proof.
  unfold exec, effects. rewrite fetchNotes_resume_run. simpl. split_and!; try done.
  - by intros r data -> Hok Hj; simpl; rewrite Hok, Hj.
  - by intros r -> Hok; simpl; rewrite Hok.
  - by intros [->|(r & -> & Hok & Hj)]; simpl; rewrite ?Hok, ?Hj.
Qed.

(** C4: a successful [saveNote] first re-fetches the collection and only
    then, whatever the re-fetch gives, closes the editor and shows
    "Note updated!" when a note was being edited and "Note created!"
    otherwise; the collection is what the re-fetch loaded. *)
Theorem saveNote_success editingNote r o s :
  ok r = true →
  saveNote_resume editingNote (Resolved r) s =
    (s, [Fetch (mkRequest (API_BASE_URL +:+ "/notes") GET [] None)
               (AwaitFetchNotes (Some editingNote))]) ∧
  let s' := exec (resume (AwaitFetchNotes (Some editingNote)) o) s in
  App.isCreating s' = false ∧ App.editingNote s' = None ∧
  editorOpen s' = false ∧ App.loading s' = false ∧
  App.notes s' = loaded o (App.notes s) ∧
  App.notification s' =
    Some (Notification.mk
            (if editingNote is Some _ then "Note updated!" else "Note created!")
            Notification.success).
Proof.
  intros Hok. split; [by rewrite saveNote_resume_ok |].
  unfold exec. by rewrite resume_fetch_after_save.
Qed.

Lemma saveNote_success_witness :
  saveNote_resume (Some groceries) (Resolved (mkResponse 200 None)) App.initial =
    (App.initial, [Fetch (mkRequest (API_BASE_URL +:+ "/notes") GET [] None)
                         (AwaitFetchNotes (Some (Some groceries)))]) ∧
  let s' := exec (resume (AwaitFetchNotes (Some (Some groceries)))
                    (Resolved (mkResponse 200 (Some [groceries])))) App.initial in
  App.isCreating s' = false ∧ App.editingNote s' = None ∧
  editorOpen s' = false ∧ App.loading s' = false ∧
  App.notes s' = loaded (Resolved (mkResponse 200 (Some [groceries]))) [] ∧
  App.notification s' =
    Some (Notification.mk "Note updated!" Notification.success).
Proof.
  exact (saveNote_success (Some groceries) (mkResponse 200 None)
           (Resolved (mkResponse 200 (Some [groceries]))) App.initial eq_refl).
Defined.

(** A [saveNote] that fails leaves the editor open and the
    collection unchanged.  A rejected request shows "Failed to save note";
    a response with an error status changes nothing at all and shows
    nothing. *)
Theorem saveNote_failure editingNote s :
  (∀ r, ok r = false → saveNote_resume editingNote (Resolved r) s = (s, [])) ∧
  let s' := exec (saveNote_resume editingNote Rejected) s in
  (App.notes s', App.isCreating s', App.editingNote s') =
  (App.notes s, App.isCreating s, App.editingNote s) ∧
  App.notification s' =
    Some (Notification.mk "Failed to save note" Notification.error) ∧
  effects (saveNote_resume editingNote Rejected) s =
    [SetTimeout ClearNotification 3000].
Proof. split; [intros r; apply saveNote_resume_not_ok | done]. Qed.

(** A [deleteNote] that fails leaves the collection unchanged.  A
    rejected request shows "Failed to delete note"; a response with an
    error status changes nothing at all and shows nothing. *)
Theorem deleteNote_failure notes id s :
  (∀ r, ok r = false → deleteNote_resume notes id (Resolved r) s = (s, [])) ∧
  let s' := exec (deleteNote_resume notes id Rejected) s in
  App.notes s' = App.notes s ∧
  App.notification s' =
    Some (Notification.mk "Failed to delete note" Notification.error) ∧
  effects (deleteNote_resume notes id Rejected) s =
    [SetTimeout ClearNotification 3000].
Proof. split; [intros r; apply deleteNote_resume_not_ok | done]. Qed.

(** C11: [deleteNote] filters the array it captured when it was called,
    not the collection at the time the response arrives.  When two deletes
    started from the same array both succeed, the second one puts back the
    note the first one removed. *)
Theorem deleteNote_overlap notes n id r1 r2 s :
  ok r1 = true → ok r2 = true → n ∈ notes → Note.id n ≠ id →
  let s1 := exec (deleteNote_resume notes (Note.id n) (Resolved r1)) s in
  let s2 := exec (deleteNote_resume notes id (Resolved r2)) s1 in
  (n ∉ App.notes s1) ∧ n ∈ App.notes s2.
Proof.
  intros Hok1 Hok2 Hin Hne. unfold exec. rewrite !deleteNote_resume_ok by done.
  simpl. rewrite !elem_of_remove_key. tauto.
Qed.

Lemma deleteNote_overlap_witness :
  let s1 := exec (deleteNote_resume [groceries; recipe; diary] (Note.id groceries)
                    (Resolved (mkResponse 204 None))) App.initial in
  let s2 := exec (deleteNote_resume [groceries; recipe; diary] 2
                    (Resolved (mkResponse 204 None))) s1 in
  (groceries ∉ App.notes s1) ∧ groceries ∈ App.notes s2.
Proof.
  apply (deleteNote_overlap [groceries; recipe; diary] groceries 2
           (mkResponse 204 None) (mkResponse 204 None) App.initial);
    [reflexivity | reflexivity | apply list_elem_of_here | discriminate].
Defined.

(** [saveNote] sends the editor's data as the body of one request:
    a PUT to the edited note's URL when a note is being edited, a POST to
    the collection otherwise; it changes no cell before the response. *)
Lemma saveNote_request editingNote d s :
  ∃ req,
    saveNote editingNote d s = (s, [Fetch req (AwaitSave editingNote)]) ∧
    body req = Some d ∧
    headers req = [("Content-Type", "application/json")] ∧
    (method req, url req) =
      match editingNote with
      | Some e => (PUT, API_BASE_URL +:+ "/notes/" +:+ numToString (Note.id e))
      | None => (POST, API_BASE_URL +:+ "/notes")
      end.
Proof. eexists. split; [done |]. by destruct editingNote. Qed.

(** Where the clipboard exists [copyShareLink] starts the write of the
    link [{origin}/share/{id}] and shows "Share link copied!"; the links
    of two notes are equal only if their identifiers are. *)
Lemma copyShareLink_spec id id' s :
  clipboardAccess ≠ ClipboardMissing →
  effects (copyShareLink id) s =
    [ClipboardWriteText (origin +:+ "/share/" +:+ numToString id);
     SetTimeout ClearNotification 3000] ∧
  App.notification (exec (copyShareLink id) s) =
    Some (Notification.mk "Share link copied!" Notification.success) ∧
  (origin +:+ "/share/" +:+ numToString id =
   origin +:+ "/share/" +:+ numToString id' ↔ id = id').
Proof.
  intros Hc. unfold effects, exec. rewrite copyShareLink_run by done.
  split_and!; [done.. |]. split; [|by intros ->].
  by intros ?%String.app_inj%String.app_inj%numToString_inj.
Qed.

End properties.

