(* ===== verification/Views.v ===== *)
(** * The JSX: note cards, the share modal, and the page
    (App.js 97-250, 325-387)

    A component's JSX is modelled as a function from its props and state to
    a record of what it displays and which buttons it offers.  A button
    that the JSX does not render cannot be clicked: [dispatch] accepts a
    user event only when the rendered page offers it, and gives the
    handler the JSX wires to it. *)

From S2P Require Import Prelude JsString Model Editor Search Controller.

#[local] Open Scope act_scope.

(** ** NoteCard (App.js 202-250) *)

Module NoteCard.

Inductive Button : Type := ShareButton | EditButton | DeleteButton.

#[global] Instance Button_eq_dec : EqDecision Button.
Proof. solve_decision. Defined.

(** The prop a button calls. *)
Inductive Callback : Type := OnShare | OnEdit | OnDelete.

(** What an [onClick] handler of the card does (App.js 210-213, 220-223,
    229-232): it stops the propagation of the click, then calls its
    prop. *)
Record Click : Type := mkClick {
  stopPropagation : bool;
  calls : Callback;
}.

Definition onClick (b : Button) : Click :=
  match b with
  | ShareButton => {| stopPropagation := true; calls := OnShare |}
  | EditButton => {| stopPropagation := true; calls := OnEdit |}
  | DeleteButton => {| stopPropagation := true; calls := OnDelete |}
  end.

Record View : Type := mkView {
  titleText : string;
  buttons : list Button;
  contentText : string;
  dateText : string;
  publicBadge : bool;
}.

Section render.
Context `{Platform}.

(** The card's JSX: the share button and the badge exist only for a
    public note (App.js 208, 244); edit and delete always. *)
Definition render (note : Note.t) : View :=
  {| titleText := Note.title note;
     buttons := (if Note.isPublic note then [ShareButton] else [])
                ++ [EditButton; DeleteButton];
     contentText := Note.content note;
     dateText := toLocaleDateString (Note.createdAt note);
     publicBadge := Note.isPublic note |}.

End render.

End NoteCard.

(** ** ShareModal (App.js 325-387) *)

Module ShareModal.

Inductive Event : Type := ClickClose | ClickCopy.

#[global] Instance Event_eq_dec : EqDecision Event.
Proof. solve_decision. Defined.

Inductive Output : Type :=
| OnClose
| OnCopy (noteId : N).

Record View : Type := mkView {
  shareUrl : string;
  disclaimer : string;
}.

Section render.
Context `{Platform}.

(** The modal's JSX: the link (App.js 326, 354) and the fixed text
    (App.js 381). *)
Definition render (note : Note.t) : View :=
  {| shareUrl := origin +:+ "/share/" +:+ numToString (Note.id note);
     disclaimer :=
       "Only public notes can be shared. Make sure your note is set to public." |}.

End render.

(** The two buttons (App.js 333, 366). *)
Definition step (note : Note.t) (e : Event) : Output :=
  match e with
  | ClickClose => OnClose
  | ClickCopy => OnCopy (Note.id note)
  end.

End ShareModal.

(** ** The page (App.js 97-199) *)

(** The editor's draft as React keeps it: the component is mounted, with
    the initial values of its cells, when its condition (App.js 170)
    becomes true, keeps its cells while it stays true, and is unmounted
    when it becomes false. *)
Definition reconcile (s : App.t) (ed : option Editor.State) : option Editor.State :=
  if editorOpen s then Some (default (Editor.init (App.editingNote s)) ed)
  else None.

Module Page.

Record View : Type := mkView {
  searchValue : string;
  spinner : bool;
  cards : list (N * NoteCard.View);
  emptyState : bool;
  editorModal : option Editor.View;
  shareModalView : option ShareModal.View;
  toast : option (string * string);
}.

Section render.
Context `{Platform}.

Definition render (s : App.t) (ed : option Editor.State) : View :=
  let filtered := filteredNotes (App.notes s) (App.searchTerm s) in
  {| searchValue := App.searchTerm s;
     spinner := App.loading s;
     cards := if App.loading s then []
              else (λ note, (Note.id note, NoteCard.render note)) <$> filtered;
     emptyState := bool_decide (length filtered = 0) && negb (App.loading s);
     editorModal := Editor.render (App.editingNote s) <$> reconcile s ed;
     shareModalView := ShareModal.render <$> App.shareModal s;
     toast := (λ n, ("notification " +:+ Notification.kind_name (Notification.type n),
                     Notification.message n)) <$> App.notification s |}.

End render.

End Page.

(** ** User events *)

Inductive UserEvent : Type :=
| SearchInput (value : string)                     (* App.js 116 *)
| ClickNewNote                                     (* App.js 122 *)
| ClickCreateNote                                  (* App.js 160 *)
| ClickCard (index : nat) (b : NoteCard.Button)    (* App.js 144-146 *)
| EditorEvent (e : Editor.Event)                   (* App.js 171-178 *)
| ShareEvent (e : ShareModal.Event).               (* App.js 183-187 *)

#[export] Instance UserEvent_eq_dec : EqDecision UserEvent.
Proof. solve_decision. Defined.

Section dispatch.
Context `{Platform}.

(** The card a click lands on and the prop its button calls: the note is
    the one at that position of the displayed grid, and the button must be
    one the card renders. *)
Definition clickCard (s : App.t) (index : nat) (b : NoteCard.Button) : option Act :=
  if App.loading s then None
  else
    match filteredNotes (App.notes s) (App.searchTerm s) !! index with
    | Some note =>
        if bool_decide (b ∈ NoteCard.buttons (NoteCard.render note)) then
          Some match NoteCard.calls (NoteCard.onClick b) with
               | NoteCard.OnShare => onShare note
               | NoteCard.OnEdit => onEdit note
               | NoteCard.OnDelete => onDelete (App.notes s) note
               end
        else None
    | None => None
    end.

(** One user event on the rendered page: the controller update the wired
    handler performs, and the editor's draft after the event; [None] when
    the page does not offer the event. *)
Definition dispatch (s : App.t) (ed : option Editor.State) (e : UserEvent)
  : option (Act * option Editor.State) :=
  match e with
  | SearchInput value => Some (onSearchChange value, ed)
  | ClickNewNote => Some (onNewNote, ed)
  | ClickCreateNote =>
      if Page.emptyState (Page.render s ed) then Some (onNewNote, ed) else None
  | ClickCard index b => (λ a, (a, ed)) <$> clickCard s index b
  | EditorEvent e =>
      match reconcile s ed with
      | Some st =>
          let '(st', out) := Editor.step st e in
          Some (match out with
                | Some (Editor.OnSave noteData) => saveNote (App.editingNote s) noteData
                | Some Editor.OnClose => onCloseEditor
                | None => skip
                end, Some st')
      | None => None
      end
  | ShareEvent e =>
      match App.shareModal s with
      | Some note =>
          Some (match ShareModal.step note e with
                | ShareModal.OnClose => onCloseShare
                | ShareModal.OnCopy noteId => copyShareLink noteId
                end, ed)
      | None => None
      end
  end.

End dispatch.

(** ** What a user can trigger *)

Section handlers.
Context `{Platform}.

(** The controller updates a user event can start on a page whose cells
    are [s], with what the JSX guarantees about their arguments: a card
    handler receives a note of the collection, [onShare] a public one, the
    editor saves a titled draft for the current [editingNote], and the copy
    button copies the link of the note the modal shows; where the
    clipboard is missing the copy handler throws and amounts to [skip]. *)
Inductive handler (s : App.t) : Act → Prop :=
| handler_search value : handler s (onSearchChange value)
| handler_new : handler s onNewNote
| handler_edit note :
    note ∈ App.notes s → handler s (onEdit note)
| handler_delete note :
    note ∈ App.notes s → handler s (onDelete (App.notes s) note)
| handler_share note :
    note ∈ App.notes s → Note.isPublic note = true → handler s (onShare note)
| handler_save noteData :
    editorOpen s = true → blank (NoteData.title noteData) = false →
    handler s (saveNote (App.editingNote s) noteData)
| handler_closeEditor : editorOpen s = true → handler s onCloseEditor
| handler_none : handler s skip
| handler_closeShare : handler s onCloseShare
| handler_copy note :
    App.shareModal s = Some note →
    handler s (emit (ClipboardWriteText (ShareModal.shareUrl (ShareModal.render note))) ;;
               showNotification "Share link copied!" None).

End handlers.

(** A loaded page with three notes and the search term "milk", for the
    examples. *)
Definition sample_page : App.t :=
  App.mk [groceries; recipe; diary] false None "milk" None false None.

(** ** Properties of the views *)

Section views.
Context `{Platform}.
Implicit Types (s : App.t) (ed : option Editor.State) (note : Note.t).

(** Every button of a card stops the click from reaching an ancestor. *)
Lemma onClick_stops b : NoteCard.stopPropagation (NoteCard.onClick b) = true.
Proof. by destruct b. Qed.

(** The share button is rendered exactly for a public note, and so is
    the badge; edit and delete are always rendered. *)
Lemma card_share_iff note :
  NoteCard.ShareButton ∈ NoteCard.buttons (NoteCard.render note) ↔
  Note.isPublic note = true.
Proof.
  unfold NoteCard.render; simpl. destruct (Note.isPublic note); simpl.
  - split; [done | intros _; apply list_elem_of_here].
  - split; [|done]. by intros ?%(bool_decide_pack _).
Qed.

Lemma card_badge note :
  NoteCard.publicBadge (NoteCard.render note) = Note.isPublic note.
Proof. done. Qed.

Lemma card_edit_delete note :
  NoteCard.EditButton ∈ NoteCard.buttons (NoteCard.render note) ∧
  NoteCard.DeleteButton ∈ NoteCard.buttons (NoteCard.render note).
Proof.
  unfold NoteCard.render; simpl.
  split; apply elem_of_app; right; rewrite !elem_of_cons; auto.
Qed.

Lemma card_buttons_NoDup note : NoDup (NoteCard.buttons (NoteCard.render note)).
Proof.
  unfold NoteCard.render; simpl.
  destruct (Note.isPublic note); by apply (bool_decide_unpack _).
Qed.

(** The link the modal shows is the link [copyShareLink] writes to the
    clipboard. *)
Lemma share_link_agrees note s :
  clipboardAccess ≠ ClipboardMissing →
  effects (copyShareLink (Note.id note)) s =
  [ClipboardWriteText (ShareModal.shareUrl (ShareModal.render note));
   SetTimeout ClearNotification 3000].
Proof. intros Hc. unfold effects. by rewrite copyShareLink_run. Qed.

(** The copy handler, by what the clipboard is. *)
Lemma copyShareLink_cases note :
  copyShareLink (Note.id note) = skip ∨
  copyShareLink (Note.id note) =
    (emit (ClipboardWriteText (ShareModal.shareUrl (ShareModal.render note))) ;;
     showNotification "Share link copied!" None).
Proof. unfold copyShareLink. destruct clipboardAccess; auto. Qed.

Lemma shareUrl_inj n1 n2 :
  ShareModal.shareUrl (ShareModal.render n1) = ShareModal.shareUrl (ShareModal.render n2) →
  Note.id n1 = Note.id n2.
Proof.
  unfold ShareModal.render; simpl. intros Heq.
  by apply String.app_inj, String.app_inj, numToString_inj in Heq.
Qed.

(** [reconcile] *)

Lemma reconcile_closed s ed : editorOpen s = false → reconcile s ed = None.
Proof. unfold reconcile. by intros ->. Qed.

Lemma reconcile_mount s :
  editorOpen s = true → reconcile s None = Some (Editor.init (App.editingNote s)).
Proof. unfold reconcile. by intros ->. Qed.

Lemma reconcile_keep s st : editorOpen s = true → reconcile s (Some st) = Some st.
Proof. unfold reconcile. by intros ->. Qed.

Lemma reconcile_idemp s ed : reconcile s (reconcile s ed) = reconcile s ed.
Proof. unfold reconcile. by destruct (editorOpen s), ed. Qed.

Lemma reconcile_is_Some s ed : is_Some (reconcile s ed) ↔ editorOpen s = true.
Proof.
  unfold reconcile. destruct (editorOpen s); [by split; eauto |].
  split; [by intros [] | done].
Qed.

(** The page *)

Lemma page_editor_iff s ed :
  is_Some (Page.editorModal (Page.render s ed)) ↔ editorOpen s = true.
Proof. unfold Page.render; simpl. by rewrite fmap_is_Some, reconcile_is_Some. Qed.

(** While loading the page shows the spinner, no card and no empty
    state. *)
Lemma page_loading s ed :
  App.loading s = true →
  Page.spinner (Page.render s ed) = true ∧
  Page.cards (Page.render s ed) = [] ∧
  Page.emptyState (Page.render s ed) = false.
Proof. unfold Page.render; simpl. intros ->. by rewrite andb_false_r. Qed.

(** Once loaded, the grid shows one card per filtered note, in order,
    keyed by the note's identifier. *)
Lemma page_cards s ed :
  App.loading s = false →
  Page.cards (Page.render s ed) =
  (λ note, (Note.id note, NoteCard.render note))
    <$> filteredNotes (App.notes s) (App.searchTerm s).
Proof. unfold Page.render; simpl. by intros ->. Qed.

Lemma page_emptyState s ed :
  Page.emptyState (Page.render s ed) = true ↔
  App.loading s = false ∧ filteredNotes (App.notes s) (App.searchTerm s) = [].
Proof.
  unfold Page.render; simpl.
  rewrite andb_true_iff, bool_decide_eq_true, negb_true_iff, length_zero_iff_nil.
  tauto.
Qed.

(** The keys of the grid are distinct when the identifiers are. *)
Lemma page_keys_NoDup s ed :
  NoDup (Note.id <$> App.notes s) → NoDup ((Page.cards (Page.render s ed)).*1).
Proof.
  intros Hnd. unfold Page.render; simpl.
  destruct (App.loading s); [constructor |].
  rewrite <-list_fmap_compose. auto with notes.
Qed.

(** Dispatch *)

(** A click on a card reaches [onShare] only for a public note of the
    displayed grid. *)
Lemma clickCard_share s index a :
  clickCard s index NoteCard.ShareButton = Some a →
  ∃ note, filteredNotes (App.notes s) (App.searchTerm s) !! index = Some note ∧
          Note.isPublic note = true ∧ a = onShare note.
Proof.
  unfold clickCard. destruct (App.loading s); [done |].
  destruct (_ !! index) as [note|]; [|done].
  case_bool_decide as Hb; [|done]. intros [= <-].
  exists note. by apply card_share_iff in Hb.
Qed.

Lemma clickCard_note s index b a :
  clickCard s index b = Some a →
  App.loading s = false ∧
  ∃ note, note ∈ App.notes s ∧
          filteredNotes (App.notes s) (App.searchTerm s) !! index = Some note.
Proof.
  unfold clickCard. destruct (App.loading s); [done |].
  destruct (_ !! index) as [note|] eqn:E; [|done]. intros _.
  split; [done |]. exists note. split; [|done].
  apply list_elem_of_lookup_2 in E. by apply elem_of_filteredNotes in E as [? _].
Qed.

(** Edit and delete are offered on every displayed card. *)
Lemma clickCard_edit s index note :
  App.loading s = false →
  filteredNotes (App.notes s) (App.searchTerm s) !! index = Some note →
  clickCard s index NoteCard.EditButton = Some (onEdit note) ∧
  clickCard s index NoteCard.DeleteButton = Some (onDelete (App.notes s) note).
Proof.
  intros Hl Hn. unfold clickCard. rewrite Hl, Hn.
  destruct (card_edit_delete note) as [He Hd].
  by rewrite !bool_decide_eq_true_2.
Qed.

(** Share is offered on the card of a public note. *)
Lemma clickCard_share_offered s index note :
  App.loading s = false →
  filteredNotes (App.notes s) (App.searchTerm s) !! index = Some note →
  Note.isPublic note = true →
  clickCard s index NoteCard.ShareButton = Some (onShare note).
Proof.
  intros Hl Hn Hp. unfold clickCard. rewrite Hl, Hn.
  by rewrite bool_decide_eq_true_2 by by apply card_share_iff.
Qed.

(** Every accepted event runs one of the updates of [handler]. *)
Lemma clickCard_handler s index b a : clickCard s index b = Some a → handler s a.
Proof.
  intros Hc. destruct (clickCard_note _ _ _ _ Hc) as (_ & note & Hin & Hn).
  revert Hc. unfold clickCard. rewrite Hn. destruct (App.loading s); [done |].
  case_bool_decide as Hb; [|done]. intros [= <-].
  destruct b; simpl; constructor; try done. by apply card_share_iff.
Qed.

Lemma dispatch_editor_handler s st e :
  editorOpen s = true →
  handler s match (Editor.step st e).2 with
            | Some (Editor.OnSave noteData) => saveNote (App.editingNote s) noteData
            | Some Editor.OnClose => onCloseEditor
            | None => skip
            end.
Proof.
  intros Ho. destruct (Editor.step st e) as [st' [[d|]|]] eqn:Hs; simpl.
  - apply step_OnSave_title in Hs as (? & -> & _). by constructor.
  - by constructor.
  - constructor.
Qed.

Lemma dispatch_handler s ed e a ed' :
  dispatch s ed e = Some (a, ed') → handler s a.
Proof.
  destruct e as [v| | |i b|e|e]; simpl.
  - intros [= <- _]. constructor.
  - intros [= <- _]. constructor.
  - case_match; [|done]. intros [= <- _]. constructor.
  - destruct (clickCard s i b) eqn:E; [|done]. intros [= <- _].
    eauto using clickCard_handler.
  - destruct (reconcile s ed) as [st|] eqn:Hr; [|done].
    assert (editorOpen s = true) as Ho by (apply (reconcile_is_Some s ed); eauto).
    pose proof (dispatch_editor_handler s st e Ho) as Hh.
    destruct (Editor.step st e) as [st' out]. by intros [= <- _].
  - destruct (App.shareModal s) as [note|] eqn:E; [|done].
    intros [= <- _]. destruct e; simpl; [constructor |].
    by destruct (copyShareLink_cases note) as [-> | ->]; constructor.
Qed.

(** What the updates of [handler] leave alone. *)
Lemma handler_notes s a : handler s a → App.notes (exec a s) = App.notes s.
Proof. by destruct 1. Qed.

Lemma handler_loading s a : handler s a → App.loading (exec a s) = App.loading s.
Proof. by destruct 1. Qed.

Lemma handler_shareModal s a note :
  handler s a → App.shareModal (exec a s) = Some note →
  App.shareModal s = Some note ∨ (note ∈ App.notes s ∧ Note.isPublic note = true).
Proof. destruct 1; simpl; auto; [by intros [= <-]; right | done]. Qed.

(** The share modal opens only through the share button of a public
    note of the collection: after any user event the modal shows either
    the note it showed before or such a note. *)
Lemma share_gated s ed e a ed' note :
  dispatch s ed e = Some (a, ed') →
  App.shareModal (exec a s) = Some note →
  App.shareModal s = Some note ∨ (note ∈ App.notes s ∧ Note.isPublic note = true).
Proof. intros Hd. by apply handler_shareModal, (dispatch_handler s ed e a ed'). Qed.

(** The notes area shows exactly one of the spinner, the empty
    state and a non-empty grid. *)
Lemma page_one_of s ed :
  let v := Page.render s ed in
  (Page.spinner v = true ∧ Page.cards v = [] ∧ Page.emptyState v = false) ∨
  (Page.spinner v = false ∧ Page.cards v = [] ∧ Page.emptyState v = true) ∨
  (Page.spinner v = false ∧ Page.cards v ≠ [] ∧ Page.emptyState v = false).
Proof.
  unfold Page.render; simpl.
  destruct (App.loading s); simpl; rewrite ?andb_false_r, ?andb_true_r; [by left |].
  right. destruct (filteredNotes _ _); [by left | by right].
Qed.

(** C20: every card of the grid shows a note of the collection that
    matches the search term, under the note's identifier, and offers the
    share button exactly when that note is public. *)
Theorem page_card_sound s ed k c :
  (k, c) ∈ Page.cards (Page.render s ed) →
  ∃ note, note ∈ App.notes s ∧ matches (App.searchTerm s) note ∧
          k = Note.id note ∧ c = NoteCard.render note ∧
          (NoteCard.ShareButton ∈ NoteCard.buttons c ↔ Note.isPublic note = true).
Proof.
  unfold Page.render; simpl. destruct (App.loading s); [by intros ?%elem_of_nil |].
  intros (note & [= -> ->] & Hin)%list_elem_of_fmap.
  apply elem_of_filteredNotes in Hin as [? ?].
  exists note. split_and!; try done. apply card_share_iff.
Qed.

End views.

Lemma share_gated_witness :
  App.shareModal sample_page = Some recipe ∨
  (recipe ∈ App.notes sample_page ∧ Note.isPublic recipe = true).
Proof.
  apply (@share_gated demo sample_page None (ClickCard 1 NoteCard.ShareButton)
           (onShare recipe) None recipe); reflexivity.
Defined.

Lemma page_card_sound_witness :
  ∃ note, note ∈ App.notes sample_page ∧ matches (App.searchTerm sample_page) note ∧
          2%N = Note.id note ∧ @NoteCard.render demo recipe = @NoteCard.render demo note ∧
          (NoteCard.ShareButton ∈ NoteCard.buttons (@NoteCard.render demo recipe) ↔
           Note.isPublic note = true).
Proof.
  apply (@page_card_sound demo sample_page None 2%N (@NoteCard.render demo recipe)).
  vm_compute. apply list_elem_of_further, list_elem_of_here.
Defined.

#[export] Hint Resolve card_buttons_NoDup page_keys_NoDup : notes.
#[export] Hint Rewrite @reconcile_idemp : notes_rw.
