(* ===== verification/Store.v ===== *)
(** * The note store (specification, section 6)

    The store is outside the repository; the client only sends it
    requests.  This file states what the client relies on: how a request
    of the client is routed ([route]), the contract of the four endpoints
    as a class ([NoteStore]), and a reference store ([RefStore]) that
    implements the contract.  Theorems about the whole system are proved
    against the class. *)

From S2P Require Import Prelude JsString Model Controller.

#[local] Open Scope N_scope.

(** ** Routing *)

Definition digit (c : ascii) : option N :=
  let n := code c in
  if (48 <=? n) && (n <=? 57) then Some (n - 48) else None.

Fixpoint parseDigits (acc : N) (s : string) : option N :=
  match s with
  | EmptyString => Some acc
  | String c s' =>
      match digit c with
      | Some d => parseDigits (10 * acc + d) s'
      | None => None
      end
  end.

(** A path segment read as a decimal identifier. *)
Definition parseNum (s : string) : option N :=
  match s with
  | EmptyString => None
  | _ => parseDigits 0 s
  end.

Fixpoint stripPrefix (p s : string) : option string :=
  match p, s with
  | EmptyString, _ => Some s
  | String a p', String b s' => if decide (a = b) then stripPrefix p' s' else None
  | String _ _, EmptyString => None
  end.

(** The endpoint a request addresses. *)
Inductive Route : Type :=
| RList                                  (* GET    {base}/notes      *)
| RCreate (d : NoteData.t)               (* POST   {base}/notes      *)
| RUpdate (id : N) (d : NoteData.t)      (* PUT    {base}/notes/{id} *)
| RDelete (id : N)                       (* DELETE {base}/notes/{id} *)
| RUnknown.

#[export] Instance Route_eq_dec : EqDecision Route.
Proof. solve_decision. Defined.

Definition route (r : Request) : Route :=
  match stripPrefix (API_BASE_URL +:+ "/notes") (url r) with
  | Some EmptyString =>
      match method r, body r with
      | GET, _ => RList
      | POST, Some d => RCreate d
      | _, _ => RUnknown
      end
  | Some rest =>
      match stripPrefix "/" rest ≫= parseNum with
      | Some id =>
          match method r, body r with
          | PUT, Some d => RUpdate id d
          | DELETE, _ => RDelete id
          | _, _ => RUnknown
          end
      | None => RUnknown
      end
  | None => RUnknown
  end.

(** ** The contract *)

(** An update replaces the three editable fields and keeps [id] and
    [createdAt]. *)
Definition update_note (id : N) (d : NoteData.t) (n : Note.t) : Note.t :=
  if decide (Note.id n = id)
  then Note.mk id (NoteData.title d) (NoteData.content d) (NoteData.isPublic d)
         (Note.createdAt n)
  else n.

(** A note store: a state that holds a collection, and a handler of
    routed requests.  The laws are the endpoint contracts; the order of
    the collection after a mutation is left to the store.

    The endpoint table of the specification states what a success
    status means for each endpoint.  Four laws say more than the table,
    and the theorems that use them hold for the stores that meet them:
    - [store_list]: the store answers every GET of the collection with
      status 200 and a body that parses to its collection.  A GET that
      fails on the server side is the event [Refuse] of the event loop,
      and a body that does not parse is a response with [json = None];
      neither is an answer of [store_handle].
    - [store_update_missing]: a PUT to an identifier the store does not
      hold is refused (the table says that a success status updates the
      identified note).
    - [store_not_ok]: a request answered with an error status leaves the
      collection as it was.
    - [store_unknown]: a request to no endpoint of the table is refused.
    What the store answers to the DELETE of a note it does not hold is
    left open; file [Stores] shows both answers. *)
Class NoteStore (S : Type) : Type := {
  store_notes : S → list Note.t;
  store_handle : Route → S → S * Response;
  store_wf : S → Prop;
  store_wf_handle rt st : store_wf st → store_wf (store_handle rt st).1;
  store_wf_NoDup st : store_wf st → NoDup (ids (store_notes st));
  store_list st :
    store_wf st →
    store_handle RList st = (st, mkResponse 200 (Some (store_notes st)));
  store_create d st :
    store_wf st →
    ok (store_handle (RCreate d) st).2 = true ∧
    ∃ n, NoteData.of_note n = d ∧ (Note.id n ∉ ids (store_notes st)) ∧
         store_notes (store_handle (RCreate d) st).1 ≡ₚ n :: store_notes st;
  store_update id d st :
    store_wf st → id ∈ ids (store_notes st) →
    ok (store_handle (RUpdate id d) st).2 = true ∧
    store_notes (store_handle (RUpdate id d) st).1
      ≡ₚ update_note id d <$> store_notes st;
  store_update_missing id d st :
    store_wf st → id ∉ ids (store_notes st) →
    ok (store_handle (RUpdate id d) st).2 = false;
  store_delete id st :
    store_wf st → id ∈ ids (store_notes st) →
    ok (store_handle (RDelete id) st).2 = true;
  store_delete_ok id st :
    store_wf st → ok (store_handle (RDelete id) st).2 = true →
    store_notes (store_handle (RDelete id) st).1
      ≡ₚ remove_key Note.id id (store_notes st);
  store_unknown st : ok (store_handle RUnknown st).2 = false;
  store_not_ok rt st :
    store_wf st → ok (store_handle rt st).2 = false →
    store_notes (store_handle rt st).1 = store_notes st;
}.

#[global] Hint Mode NoteStore ! : typeclass_instances.

(** Well-formedness is what the system's invariants carry along. *)
#[export] Hint Resolve store_wf_handle store_wf_NoDup : notes.

(** ** A reference store *)

Module RefStore.

Record t : Type := mk {
  notes : list Note.t;
  nextId : N;
  clock : N;
}.

Definition empty : t := {| notes := []; nextId := 1; clock := 0 |}.

Definition create (d : NoteData.t) (st : t) : Note.t :=
  Note.mk (nextId st) (NoteData.title d) (NoteData.content d)
    (NoteData.isPublic d) (clock st).

Definition handle (rt : Route) (st : t) : t * Response :=
  match rt with
  | RList => (st, mkResponse 200 (Some (notes st)))
  | RCreate d =>
      ({| notes := notes st ++ [create d st];
          nextId := nextId st + 1; clock := clock st + 1 |},
       mkResponse 201 None)
  | RUpdate id d =>
      if decide (id ∈ ids (notes st))
      then ({| notes := update_note id d <$> notes st;
               nextId := nextId st; clock := clock st + 1 |},
            mkResponse 200 None)
      else (st, mkResponse 404 None)
  | RDelete id =>
      if decide (id ∈ ids (notes st))
      then ({| notes := remove_key Note.id id (notes st);
               nextId := nextId st; clock := clock st + 1 |},
            mkResponse 204 None)
      else (st, mkResponse 404 None)
  | RUnknown => (st, mkResponse 404 None)
  end.

(** Identifiers are distinct and below the next one to assign. *)
Definition wf (st : t) : Prop :=
  NoDup (ids (notes st)) ∧ Forall (λ n, Note.id n < nextId st) (notes st).

End RefStore.

(** A store with the three sample notes, for the examples. *)
Definition seeded : RefStore.t := RefStore.mk [groceries; recipe; diary] 4 40.

(** ** Routing lemmas *)

Section routing.
Implicit Types (s p r : string) (n acc : N).

Lemma stripPrefix_app p s : stripPrefix p (p +:+ s) = Some s.
Proof.
  induction p as [|c p IH]; [by destruct s |].
  rewrite string_app_cons; simpl. by rewrite decide_True.
Qed.

Lemma stripPrefix_Some p s r : stripPrefix p s = Some r ↔ s = p +:+ r.
Proof.
  split; [|intros ->; apply stripPrefix_app].
  revert s; induction p as [|c p IH]; intros [|c' s]; simpl; try done.
  - by intros [= <-].
  - by intros [= <-].
  - case_decide; [subst | done]. intros ->%IH. by rewrite string_app_cons.
Qed.

Lemma digit_pretty_char d : d < 10 → digit (pretty_N_char d) = Some d.
Proof.
  intros Hd. assert (d ∈ [0; 1; 2; 3; 4; 5; 6; 7; 8; 9]) as Hin
    by (rewrite !elem_of_cons; lia).
  rewrite !elem_of_cons, elem_of_nil in Hin.
  by destruct Hin as [->|[->|[->|[->|[->|[->|[->|[->|[->|[->|[]]]]]]]]]]].
Qed.

Lemma parseDigits_app acc s r :
  parseDigits acc (s +:+ r) = parseDigits acc s ≫= λ a, parseDigits a r.
Proof.
  revert acc; induction s as [|c s IH]; intros acc; [done |].
  rewrite string_app_cons; simpl. destruct (digit c); [apply IH | done].
Qed.

Lemma pretty_N_go_app n s : pretty_N_go n s = pretty_N_go n "" +:+ s.
Proof.
  revert s. induction (N.lt_wf_0 n) as [n _ IH]; intros s.
  destruct (decide (n = 0)) as [->|Hn]; [by rewrite !pretty_N_go_0 |].
  assert (n `div` 10 < n) as Hlt by (apply N.div_lt; lia).
  rewrite (pretty_N_go_step n s), (pretty_N_go_step n "") by lia.
  rewrite (IH _ Hlt (String _ s)), (IH _ Hlt (String _ "")).
  by rewrite string_app_assoc.
Qed.

Lemma parseDigits_pretty_go n : parseDigits 0 (pretty_N_go n "") = Some n.
Proof.
  induction (N.lt_wf_0 n) as [n _ IH].
  destruct (decide (n = 0)) as [->|Hn]; [by rewrite pretty_N_go_0 |].
  rewrite pretty_N_go_step, pretty_N_go_app, parseDigits_app by lia.
  rewrite IH by (apply N.div_lt; lia). simpl.
  rewrite digit_pretty_char by (apply N.mod_lt; lia).
  f_equal. rewrite (N.div_mod n 10) at 3 by lia. lia.
Qed.

Lemma pretty_N_go_nonempty n : n ≠ 0 → pretty_N_go n "" ≠ "".
Proof.
  intros Hn. rewrite pretty_N_go_step, pretty_N_go_app by lia.
  by intros [_ ?]%string_app_eq_nil.
Qed.

(** Reading back the decimal form of an identifier gives the
    identifier. *)
Lemma parseNum_numToString n : parseNum (numToString n) = Some n.
Proof.
  unfold numToString, pretty, pretty_N. case_decide as Hn; [by subst |].
  pose proof (pretty_N_go_nonempty n Hn) as Hne.
  pose proof (parseDigits_pretty_go n) as Hp.
  unfold parseNum. by destruct (pretty_N_go n "").
Qed.

Lemma numToString_nonempty n : numToString n ≠ "".
Proof. intros Hn. pose proof (parseNum_numToString n) as Hp. by rewrite Hn in Hp. Qed.

(** The requests of the controller reach the endpoints they are meant
    for. *)
Lemma route_collection m b :
  route (mkRequest (API_BASE_URL +:+ "/notes") m [] b) =
  match m, b with GET, _ => RList | POST, Some d => RCreate d | _, _ => RUnknown end.
Proof. done. Qed.

Lemma route_item n m h b :
  route (mkRequest (API_BASE_URL +:+ "/notes/" +:+ numToString n) m h b) =
  match m, b with
  | PUT, Some d => RUpdate n d
  | DELETE, _ => RDelete n
  | _, _ => RUnknown
  end.
Proof.
  unfold route. simpl url.
  replace (API_BASE_URL +:+ "/notes/" +:+ numToString n)
    with ((API_BASE_URL +:+ "/notes") +:+ "/" +:+ numToString n) by done.
  rewrite stripPrefix_app, string_app_cons, string_app_nil_l.
  cbn -[parseNum numToString]. rewrite decide_True by done.
  cbn -[parseNum numToString]. by rewrite parseNum_numToString.
Qed.

Lemma route_fetchNotes caller (a : App.t) :
  ∃ k, effects (fetchNotes caller) a = [Fetch k (AwaitFetchNotes caller)] ∧
       route k = RList.
Proof. eexists. split; [done |]. done. Qed.

Lemma route_saveNote_create d (a : App.t) :
  ∃ k, effects (saveNote None d) a = [Fetch k (AwaitSave None)] ∧
       route k = RCreate d.
Proof. eexists. split; [done |]. done. Qed.

Lemma route_saveNote_edit e d (a : App.t) :
  ∃ k, effects (saveNote (Some e) d) a = [Fetch k (AwaitSave (Some e))] ∧
       route k = RUpdate (Note.id e) d.
Proof. eexists. split; [done |]. apply route_item. Qed.

Lemma route_deleteNote notes id (a : App.t) :
  ∃ k, effects (deleteNote notes id) a = [Fetch k (AwaitDelete notes id)] ∧
       route k = RDelete id.
Proof. eexists. split; [done |]. apply route_item. Qed.

(** C13: each controller operation sends exactly one request, and the
    store's routing reads it as the intended endpoint with the intended
    identifier and payload: load lists, create posts the draft, edit puts
    the draft under the edited note's identifier, delete deletes the given
    identifier. *)
Theorem requests_routed caller e d notes id (a : App.t) :
  (∃ k, effects (fetchNotes caller) a = [Fetch k (AwaitFetchNotes caller)] ∧
        route k = RList) ∧
  (∃ k, effects (saveNote None d) a = [Fetch k (AwaitSave None)] ∧
        route k = RCreate d) ∧
  (∃ k, effects (saveNote (Some e) d) a = [Fetch k (AwaitSave (Some e))] ∧
        route k = RUpdate (Note.id e) d) ∧
  (∃ k, effects (deleteNote notes id) a = [Fetch k (AwaitDelete notes id)] ∧
        route k = RDelete id).
Proof.
  split_and!; [apply route_fetchNotes | apply route_saveNote_create
              | apply route_saveNote_edit | apply route_deleteNote].
Qed.

End routing.

(** ** The reference store meets the contract *)

Section refstore.
Implicit Types (st : RefStore.t) (d : NoteData.t) (id : N) (n : Note.t).

Lemma ids_update_note id d l : ids (update_note id d <$> l) = ids l.
Proof.
  unfold ids. rewrite <-list_fmap_compose. apply list_fmap_ext.
  intros i n _. unfold update_note; simpl. by case_decide.
Qed.

Lemma update_note_id id d n : Note.id (update_note id d n) = Note.id n.
Proof. unfold update_note. by case_decide. Qed.

Lemma update_note_createdAt id d n :
  Note.createdAt (update_note id d n) = Note.createdAt n.
Proof. unfold update_note. by case_decide. Qed.

Lemma update_note_hit id d n :
  Note.id n = id → NoteData.of_note (update_note id d n) = d.
Proof. intros <-. unfold update_note. rewrite decide_True by done. by destruct d. Qed.

Lemma update_note_miss id d n : Note.id n ≠ id → update_note id d n = n.
Proof. intros. unfold update_note. by rewrite decide_False. Qed.

Lemma refstore_wf_empty : RefStore.wf RefStore.empty.
Proof. split; constructor. Qed.

Lemma seeded_wf : RefStore.wf seeded.
Proof. split; by apply (bool_decide_unpack _). Qed.

Lemma refstore_fresh st : RefStore.wf st → RefStore.nextId st ∉ ids (RefStore.notes st).
Proof.
  intros [_ Hlt] (n & Hid & Hn)%list_elem_of_fmap.
  rewrite Forall_forall in Hlt. apply Hlt in Hn. lia.
Qed.

Lemma refstore_wf_handle rt st : RefStore.wf st → RefStore.wf (RefStore.handle rt st).1.
Proof.
  intros [Hnd Hlt]. destruct rt as [|d|id d|id|]; simpl; try done.
  - split; simpl.
    + unfold ids. rewrite fmap_app. apply NoDup_app. split_and!; [done | | apply NoDup_singleton].
      intros x Hx ->%list_elem_of_singleton. by apply (refstore_fresh st).
    + apply Forall_app. split; [|apply Forall_singleton; simpl; lia].
      eapply Forall_impl; [done |]. intros; simpl in *; lia.
  - case_decide; [|done]. split; simpl; [by rewrite ids_update_note |].
    apply Forall_fmap. eapply Forall_impl; [done |].
    intros n Hn; simpl. by rewrite update_note_id.
  - case_decide; [|done]. split; simpl; [by apply remove_key_NoDup |].
    by apply remove_key_Forall.
Qed.

#[export, refine] Instance refstore : NoteStore RefStore.t := {|
  store_notes := RefStore.notes;
  store_handle := RefStore.handle;
  store_wf := RefStore.wf;
|}.
Proof.
  - apply refstore_wf_handle.
  - by intros st [? _].
  - done.
  - intros d st Hwf. split; [done |]. exists (RefStore.create d st).
    split_and!; [by destruct d | by apply refstore_fresh |].
    simpl. by rewrite Permutation_app_comm.
  - intros id d st _ Hin. simpl. by rewrite decide_True.
  - intros id d st _ Hin. simpl. by rewrite decide_False.
  - intros id st _ Hin. simpl. by rewrite decide_True.
  - intros id st _. simpl. by case_decide.
  - done.
  - intros rt st _. destruct rt; simpl; try done; by case_decide.
Defined.

End refstore.

#[export] Hint Resolve refstore_wf_empty : notes.
#[export] Hint Rewrite parseNum_numToString ids_update_note update_note_id
  update_note_createdAt : notes_rw.
