(* ===== verification/System.v ===== *)
(** * The event loop

    The page, the network, the store and the timers as one transition
    system.  A [World] holds the controller's cells, the editor's draft,
    the requests in flight (each with the suspended call that awaits it),
    the armed timers, the clock, the clipboard and the store.  An [Event]
    is one turn of the browser's event loop: a user event on the rendered
    page, the store answering a request, a response or a network failure
    reaching the page, or time passing.  [step] is the whole turn: the
    handler's update, React's reconciliation of the editor, and the
    effects the handler started. *)

From S2P Require Import Prelude JsString Model Editor Search Controller Views Store.

#[local] Open Scope N_scope.
#[local] Open Scope act_scope.

(** A request in flight: the [fetch] call, the call suspended on it, and
    the store's answer once it has produced one. *)
Record Flight : Type := mkFlight {
  request : Request;
  cont : Cont;
  reply : option Response;
}.

(** An armed timer: the time at which it fires and its callback. *)
Record Timer : Type := mkTimer {
  deadline : N;
  callback : Callback;
}.

Record World (S : Type) : Type := mkWorld {
  app : App.t;
  editor : option Editor.State;
  flights : list Flight;
  timers : list Timer;
  now : N;
  clipboard : option string;
  store : S;
}.

Arguments mkWorld {S}.
Arguments app {S}.
Arguments editor {S}.
Arguments flights {S}.
Arguments timers {S}.
Arguments now {S}.
Arguments clipboard {S}.
Arguments store {S}.

Inductive Event : Type :=
| User (e : UserEvent)           (* a DOM event on the rendered page *)
| Serve (i : nat)                (* the store handles request [i] *)
| Refuse (i : nat) (status : N)  (* the server side rejects request [i]
                                    with an error status, store untouched *)
| Deliver (i : nat)              (* the answer to request [i] arrives *)
| Drop (i : nat)                 (* request [i] fails in the network *)
| Elapse (ms : N).               (* [ms] milliseconds pass *)

#[export] Instance Event_eq_dec : EqDecision Event.
Proof. solve_decision. Defined.

#[export] Instance Flight_eq_dec : EqDecision Flight.
Proof. solve_decision. Defined.

#[export] Instance Timer_eq_dec : EqDecision Timer.
Proof. solve_decision. Defined.

(** A timer is due at time [t0] when its deadline has passed. *)
Definition due (t0 : N) (t : Timer) : Prop := deadline t ≤ t0.

#[export] Instance due_dec t0 t : Decision (due t0 t).
Proof. unfold due. apply _. Defined.

(** What a list of effects amounts to: the flights it launches, the
    timers it arms at time [t], and the clipboard after it. *)
Definition launched (es : list Effect) : list Flight :=
  omap (λ e, if e is Fetch r k then Some (mkFlight r k None) else None) es.

Definition armed (t : N) (es : list Effect) : list Timer :=
  omap (λ e, if e is SetTimeout cb d then Some (mkTimer (t + d) cb) else None) es.

(** The clipboard after a write: the text when the browser grants the
    write, the old content when the promise of [writeText] rejects. *)
Definition written `{Platform} (c : option string) (text : string) : option string :=
  if clipboardAccess is ClipboardGranted then Some text else c.

Definition copied `{Platform} (c : option string) (es : list Effect) : option string :=
  foldl (λ c e, if e is ClipboardWriteText text then written c text else c) c es.

(** The cells after a timer callback has run. *)
Definition cleared (s : App.t) : App.t := exec (setNotification None) s.

Section system.
Context `{Platform} {S : Type} `{NoteStore S}.
Implicit Types (w : World S) (a : Act) (ed : option Editor.State).

(** Starting one effect. *)
Definition perform w (e : Effect) : World S :=
  match e with
  | Fetch r k =>
      mkWorld (app w) (editor w) (flights w ++ [mkFlight r k None]) (timers w)
        (now w) (clipboard w) (store w)
  | SetTimeout cb delay =>
      mkWorld (app w) (editor w) (flights w)
        (timers w ++ [mkTimer (now w + delay) cb]) (now w) (clipboard w) (store w)
  | ClipboardWriteText text =>
      mkWorld (app w) (editor w) (flights w) (timers w) (now w)
        (written (clipboard w) text) (store w)
  end.

(** Running a handler: its update of the cells, the reconciliation of
    the editor against the new cells, then its effects in order. *)
Definition commit a ed w : World S :=
  let '(s', es) := a (app w) in
  foldl perform
    (mkWorld s' (reconcile s' ed) (flights w) (timers w) (now w) (clipboard w)
       (store w))
    es.

(** Removing or answering a request in flight. *)
Definition land (i : nat) w : World S :=
  mkWorld (app w) (editor w) (delete i (flights w)) (timers w) (now w)
    (clipboard w) (store w).

Definition answer (i : nat) (f : Flight) (r : Response) (st : S) w : World S :=
  mkWorld (app w) (editor w)
    (<[i := mkFlight (request f) (cont f) (Some r)]> (flights w)) (timers w)
    (now w) (clipboard w) st.

(** Time passing: the clock advances, and the timers that are due fire in
    the order they were armed.  A timer fires in the turn in which the
    clock reaches its deadline: a browser may fire it later, never
    earlier, and that delay is not modelled. *)
Definition elapse (ms : N) w : World S :=
  let t0 := now w + ms in
  foldl (λ w t, commit (runCallback (callback t)) (editor w) w)
    (mkWorld (app w) (editor w) (flights w)
       (filter (λ t, ¬ due t0 t) (timers w)) t0 (clipboard w) (store w))
    (filter (due t0) (timers w)).

(** One turn of the event loop; [None] when the event cannot happen in
    this world. *)
Definition step w (ev : Event) : option (World S) :=
  match ev with
  | User e =>
      match dispatch (app w) (editor w) e with
      | Some (a, ed) => Some (commit a ed w)
      | None => None
      end
  | Serve i =>
      match flights w !! i with
      | Some f =>
          match reply f with
          | None =>
              let '(st, r) := store_handle (route (request f)) (store w) in
              Some (answer i f r st w)
          | Some _ => None
          end
      | None => None
      end
  | Refuse i status =>
      match flights w !! i with
      | Some f =>
          match reply f with
          | None =>
              if ok (mkResponse status None) then None
              else Some (answer i f (mkResponse status None) (store w) w)
          | Some _ => None
          end
      | None => None
      end
  | Deliver i =>
      match flights w !! i with
      | Some f =>
          match reply f with
          | Some r => Some (commit (resume (cont f) (Resolved r)) (editor w) (land i w))
          | None => None
          end
      | None => None
      end
  | Drop i =>
      match flights w !! i with
      | Some f => Some (commit (resume (cont f) Rejected) (editor w) (land i w))
      | None => None
      end
  | Elapse ms => Some (elapse ms w)
  end.

(** The world after the first render and its mount effect
    (App.js 87-89), over a given store.  The effect runs once, as in a
    production build; the second run that React's StrictMode adds in
    development is not modelled. *)
Definition boot (st : S) : World S :=
  commit onMount None (mkWorld App.initial None [] [] 0 None st).

(** A run: the events of a list, in order. *)
Fixpoint run w (evs : list Event) : option (World S) :=
  match evs with
  | [] => Some w
  | ev :: evs' =>
      match step w ev with
      | Some w' => run w' evs'
      | None => None
      end
  end.

(** The worlds a run can reach. *)
Inductive reachable (w0 : World S) : World S → Prop :=
| reachable_refl : reachable w0 w0
| reachable_step w ev w' :
    reachable w0 w → step w ev = Some w' → reachable w0 w'.

(** What the user sees. *)
Definition page w : Page.View := Page.render (app w) (editor w).

(** The turns of [step] as a relation: which update runs, with what the
    page and the flight table guarantee about it. *)
Inductive turn w : World S → Prop :=
| turn_user a ed :
    handler (app w) a → turn w (commit a ed w)
| turn_serve i f :
    flights w !! i = Some f → reply f = None →
    turn w (answer i f (store_handle (route (request f)) (store w)).2
                   (store_handle (route (request f)) (store w)).1 w)
| turn_refuse i f status :
    flights w !! i = Some f → reply f = None → ok (mkResponse status None) = false →
    turn w (answer i f (mkResponse status None) (store w) w)
| turn_deliver i f r :
    flights w !! i = Some f → reply f = Some r →
    turn w (commit (resume (cont f) (Resolved r)) (editor w) (land i w))
| turn_drop i f :
    flights w !! i = Some f →
    turn w (commit (resume (cont f) Rejected) (editor w) (land i w))
| turn_elapse ms : turn w (elapse ms w).

(** The same with the event: what [step] does for each event that can
    happen, as rules to invert. *)
Inductive fires w : Event → World S → Prop :=
| fires_user e a ed :
    dispatch (app w) (editor w) e = Some (a, ed) → fires w (User e) (commit a ed w)
| fires_serve i f :
    flights w !! i = Some f → reply f = None →
    fires w (Serve i)
      (answer i f (store_handle (route (request f)) (store w)).2
         (store_handle (route (request f)) (store w)).1 w)
| fires_refuse i f status :
    flights w !! i = Some f → reply f = None → ok (mkResponse status None) = false →
    fires w (Refuse i status) (answer i f (mkResponse status None) (store w) w)
| fires_deliver i f r :
    flights w !! i = Some f → reply f = Some r →
    fires w (Deliver i) (commit (resume (cont f) (Resolved r)) (editor w) (land i w))
| fires_drop i f :
    flights w !! i = Some f →
    fires w (Drop i) (commit (resume (cont f) Rejected) (editor w) (land i w))
| fires_elapse ms : fires w (Elapse ms) (elapse ms w).

(** ** Lemmas *)

Implicit Types (es : list Effect).

Lemma foldl_perform w es :
  foldl perform w es =
  mkWorld (app w) (editor w) (flights w ++ launched es) (timers w ++ armed (now w) es)
    (now w) (copied (clipboard w) es) (store w).
Proof.
  revert w. induction es as [|e es IH]; intros w.
  - destruct w; simpl. by rewrite !app_nil_r.
  - simpl. rewrite IH. destruct e; simpl; unfold launched, armed, copied; simpl;
      by rewrite <-?app_assoc.
Qed.

(** A committed handler, field by field. *)
Lemma commit_eq a ed w :
  commit a ed w =
  mkWorld (exec a (app w)) (reconcile (exec a (app w)) ed)
    (flights w ++ launched (effects a (app w)))
    (timers w ++ armed (now w) (effects a (app w)))
    (now w) (copied (clipboard w) (effects a (app w))) (store w).
Proof. unfold commit. rewrite (upd_eta a). by rewrite foldl_perform. Qed.

Lemma launched_app es1 es2 : launched (es1 ++ es2) = launched es1 ++ launched es2.
Proof. apply omap_app. Qed.

Lemma armed_app t es1 es2 : armed t (es1 ++ es2) = armed t es1 ++ armed t es2.
Proof. apply omap_app. Qed.

Lemma copied_app c es1 es2 : copied c (es1 ++ es2) = copied (copied c es1) es2.
Proof. apply foldl_app. Qed.

(** Committing a sequence of two updates in one turn gives the world
    that committing them one after the other gives: only the last
    reconciliation of the editor counts. *)
Lemma commit_seq a b ed ed' w :
  commit (a ;; b) ed w = commit b ed (commit a ed' w).
Proof.
  rewrite !commit_eq; simpl. autorewrite with upd.
  by rewrite launched_app, armed_app, copied_app, !app_assoc.
Qed.

(** Batching is not observable.  The handlers of the source that
    call several setters in a row, the end of [saveNote] and the [onClose]
    of the editor, leave the same world whether their updates are
    committed together in one turn or one by one. *)
Theorem batching_unobservable editingNote ed ed1 ed2 w :
  commit (saveNote_after_fetch editingNote) ed w =
    commit (showNotification
              (if editingNote is Some _ then "Note updated!" else "Note created!") None)
      ed (commit (setEditingNote None) ed2 (commit (setIsCreating false) ed1 w)) ∧
  commit onCloseEditor ed w =
    commit (setEditingNote None) ed (commit (setIsCreating false) ed1 w).
Proof.
  unfold saveNote_after_fetch, onCloseEditor.
  by rewrite (commit_seq _ (_ ;; _) ed ed1), (commit_seq _ _ ed ed2),
    (commit_seq _ _ ed ed1).
Qed.

(** A handler that only starts one request. *)
Lemma commit_fetch a ed w req k :
  a (app w) = (app w, [Fetch req k]) →
  commit a ed w =
  mkWorld (app w) (reconcile (app w) ed) (flights w ++ [mkFlight req k None])
    (timers w) (now w) (clipboard w) (store w).
Proof.
  intros Ha. rewrite commit_eq. unfold exec, effects. rewrite Ha. simpl.
  by rewrite app_nil_r.
Qed.

(** The store's turn, with its answer and its new state as projections. *)
Lemma step_serve w i f :
  flights w !! i = Some f → reply f = None →
  step w (Serve i) =
  Some (answer i f (store_handle (route (request f)) (store w)).2
          (store_handle (route (request f)) (store w)).1 w).
Proof. intros Hf Hr. simpl. rewrite Hf, Hr. by destruct (store_handle _ _). Qed.

(** [step] is the function of the rules [fires]. *)
Lemma step_fires w ev w' : step w ev = Some w' ↔ fires w ev w'.
Proof.
  split.
  - destruct ev as [e|i|i status|i|i|ms]; simpl.
    + destruct (dispatch _ _ e) as [[a ed]|] eqn:E; [|done]. intros [= <-].
      by constructor.
    + destruct (flights w !! i) as [f|] eqn:E; [|done].
      destruct (reply f) eqn:Er; [done |].
      pose proof (fires_serve w i f E Er) as Hf.
      destruct (store_handle _ _) as [st r]. by intros [= <-].
    + destruct (flights w !! i) as [f|] eqn:E; [|done].
      destruct (reply f) eqn:Er; [done |].
      destruct (ok _) eqn:Eo; [done |]. intros [= <-]. by constructor.
    + destruct (flights w !! i) as [f|] eqn:E; [|done].
      destruct (reply f) as [r|] eqn:Er; [|done]. intros [= <-]. by constructor.
    + destruct (flights w !! i) as [f|] eqn:E; [|done]. intros [= <-]. by constructor.
    + intros [= <-]. constructor.
  - destruct 1 as [e a ed E|i f E Er|i f status E Er Eo|i f r E Er|i f E|ms];
      [by simpl; rewrite E | by apply step_serve | simpl; by rewrite E, Er, Eo
      | simpl; by rewrite E, Er | simpl; by rewrite E | done].
Qed.

Lemma step_turn w ev w' : step w ev = Some w' → turn w w'.
Proof.
  intros Hs%step_fires. destruct Hs; econstructor; eauto using dispatch_handler.
Qed.

(** Timers *)

Lemma commit_runCallback cb ed w :
  commit (runCallback cb) ed w =
  mkWorld (cleared (app w)) (reconcile (cleared (app w)) ed) (flights w) (timers w)
    (now w) (clipboard w) (store w).
Proof. rewrite commit_eq. destruct cb; simpl. by rewrite !app_nil_r. Qed.

Lemma reconcile_cleared s ed : reconcile (cleared s) ed = reconcile s ed.
Proof. done. Qed.

Lemma foldl_fire w (ts : list Timer) :
  ts ≠ [] →
  foldl (λ w t, commit (runCallback (callback t)) (editor w) w) w ts =
  mkWorld (cleared (app w)) (reconcile (app w) (editor w)) (flights w) (timers w)
    (now w) (clipboard w) (store w).
Proof.
  revert w. induction ts as [|t ts IH]; intros w Hts; [done |]. simpl.
  destruct ts as [|t' ts]; [by rewrite commit_runCallback |].
  rewrite IH by done. rewrite commit_runCallback; simpl.
  by rewrite !reconcile_cleared, reconcile_idemp.
Qed.

(** When no timer is due only the clock moves. *)
Lemma elapse_idle ms w :
  filter (due (now w + ms)) (timers w) = [] →
  elapse ms w =
  mkWorld (app w) (editor w) (flights w) (timers w) (now w + ms) (clipboard w) (store w).
Proof.
  intros Hd. unfold elapse. rewrite Hd. simpl. f_equal.
  induction (timers w) as [|t ts IH]; [done |].
  rewrite filter_cons in Hd. rewrite filter_cons.
  case_decide as Ht; [done |]. rewrite decide_True by done. f_equal. by apply IH.
Qed.

(** When some timer is due the notification is cleared, however many
    fire, and the due timers are gone. *)
Lemma elapse_fire ms w :
  filter (due (now w + ms)) (timers w) ≠ [] →
  elapse ms w =
  mkWorld (cleared (app w)) (reconcile (app w) (editor w)) (flights w)
    (filter (λ t, ¬ due (now w + ms) t) (timers w)) (now w + ms) (clipboard w)
    (store w).
Proof. intros Hd. unfold elapse. by rewrite foldl_fire. Qed.

(** C12: the callback of a timer clears whatever notification is
    displayed when it fires: once any armed timer is due, the
    notification is gone, however recently it was shown.  (No turn
    cancels an armed timer: [timers_kept] in file [Bounds].) *)
Theorem timer_clears_any w ms t :
  t ∈ timers w → due (now w + ms) t →
  App.notification (app (elapse ms w)) = None.
Proof.
  intros Ht Hdue. rewrite elapse_fire; [done |].
  intros Hnil. eapply (filter_nil_not_elem_of (due (now w + ms))); eauto.
Qed.

(** The clipboard *)

(** C23: the click on the copy button, by what the clipboard is.  Where
    the browser grants the write, the link of the note the modal shows is
    on the clipboard and "Share link copied!" is displayed.  Where the
    write is rejected the same message is displayed although the clipboard
    is unchanged: the promise of [writeText] is neither awaited nor
    caught.  Where [navigator.clipboard] is missing the handler throws and
    nothing changes. *)
Theorem copy_outcomes w note :
  App.shareModal (app w) = Some note →
  ∃ w', step w (User (ShareEvent ShareModal.ClickCopy)) = Some w' ∧
    match clipboardAccess with
    | ClipboardGranted =>
        clipboard w' = Some (ShareModal.shareUrl (ShareModal.render note)) ∧
        App.notification (app w') =
          Some (Notification.mk "Share link copied!" Notification.success)
    | ClipboardDenied =>
        clipboard w' = clipboard w ∧
        App.notification (app w') =
          Some (Notification.mk "Share link copied!" Notification.success)
    | ClipboardMissing =>
        clipboard w' = clipboard w ∧ app w' = app w ∧ timers w' = timers w
    end.
Proof.
  intros Hn. cbn [step dispatch]. rewrite Hn. eexists. split; [done |].
  rewrite commit_eq. unfold copied, written, ShareModal.step, copyShareLink.
  destruct clipboardAccess; simpl; by rewrite ?app_nil_r.
Qed.

(** Runs and reachability *)

Lemma run_cons w ev evs : run w (ev :: evs) = step w ev ≫= λ w1, run w1 evs.
Proof. simpl. by destruct (step w ev). Qed.

Lemma run_app w evs1 evs2 :
  run w (evs1 ++ evs2) = run w evs1 ≫= λ w', run w' evs2.
Proof.
  revert w. induction evs1 as [|ev evs1 IH]; intros w; [done |].
  simpl. destruct (step w ev); [apply IH | done].
Qed.

Lemma run_reachable w evs w' : run w evs = Some w' → reachable w w'.
Proof.
  revert w'. induction evs as [|ev evs IH] using rev_ind; intros w'.
  - intros [= <-]. constructor.
  - rewrite run_app. destruct (run w evs) as [w1|]; [|done]. simpl.
    destruct (step w1 ev) as [w2|] eqn:E; [|done]. intros [= <-].
    eapply reachable_step; eauto.
Qed.

Lemma reachable_run w w' : reachable w w' → ∃ evs, run w evs = Some w'.
Proof.
  induction 1 as [|w1 ev w2 _ [evs IH] Hs]; [by exists [] |].
  exists (evs ++ [ev]). rewrite run_app, IH. simpl. by rewrite Hs.
Qed.

(** Rule induction for invariants: a property that holds at the start
    and that every turn preserves holds of every reachable world. *)
Lemma reachable_turn_ind (P : World S → Prop) w0 :
  P w0 → (∀ w w', turn w w' → P w → P w') → ∀ w, reachable w0 w → P w.
Proof. intros Hstart Hturn w. induction 1; eauto using step_turn. Qed.

End system.

Section examples.
#[local] Existing Instance demo.

(** A notification shown at time 2000 while the timer of an earlier one,
    armed at time 0, is still pending: it is cleared at time 3000. *)
Lemma timer_clears_any_witness :
  App.notification
    (app (elapse 1000
            (mkWorld (exec (showNotification "Share link copied!" None) App.initial)
               None []
               [mkTimer 3000 ClearNotification; mkTimer 5000 ClearNotification]
               2000 None RefStore.empty))) = None.
Proof.
  apply (timer_clears_any _ 1000 (mkTimer 3000 ClearNotification));
    [apply list_elem_of_here | unfold due; simpl; lia].
Defined.

(** The share modal open on the recipe, in a browser that denies the
    write: the message says the link was copied, the clipboard is empty. *)
Lemma copy_outcomes_witness :
  let w := mkWorld (App.mk [groceries; recipe; diary] false None "" (Some recipe) false
                      None) None [] [] 0 None RefStore.empty in
  ∃ w', @step denied _ _ w (User (ShareEvent ShareModal.ClickCopy)) = Some w' ∧
        clipboard w' = None ∧
        App.notification (app w') =
          Some (Notification.mk "Share link copied!" Notification.success).
Proof.
  exact (@copy_outcomes denied _ _
           (mkWorld (App.mk [groceries; recipe; diary] false None "" (Some recipe) false
                       None) None [] [] 0 None RefStore.empty) recipe eq_refl).
Defined.

End examples.
