(* ===== verification/Invariants.v ===== *)
(** * Invariants of the event loop

    What holds of every world the application can reach from its first
    render, over any store that satisfies the [NoteStore] laws: the
    identifiers of the displayed notes are distinct, the share modal holds
    a public note, the editor is mounted exactly when the controller asks
    for it, the spinner is shown only while the mount fetch is in flight,
    and every displayed notification has a timer that clears it within
    3000 ms.  Each invariant is proved preserved by every [turn]; the
    theorems at the end state them for [reachable] worlds. *)

From S2P Require Import Prelude JsString Model Editor Search Controller Views Store System.

#[local] Open Scope N_scope.

(** ** The invariants *)

(** The share modal, when open, holds a public note. *)
Definition share_public (s : App.t) : Prop :=
  ∀ n, App.shareModal s = Some n → Note.isPublic n = true.

Definition is_timeout (e : Effect) : bool :=
  if e is SetTimeout _ _ then true else false.

Definition timeout_ok (e : Effect) : bool :=
  if e is SetTimeout _ d then bool_decide (d = 3000) else true.

(** Every timer an update arms is a 3000 ms timer, and an update that
    changes the notification arms one. *)
Definition arms_notification (a : Act) (s : App.t) : Prop :=
  forallb timeout_ok (effects a s) = true ∧
  (App.notification (exec a s) = App.notification s ∨
   existsb is_timeout (effects a s) = true).

(** A flight carries what the call suspended on it relies on: a
    suspended [fetchNotes] awaits a GET of the collection whose parsed
    body, if any, has distinct identifiers; a suspended [deleteNote]
    captured an array with distinct identifiers. *)
Definition flight_ok (f : Flight) : Prop :=
  match cont f with
  | AwaitFetchNotes _ =>
      route (request f) = RList ∧
      ∀ r l, reply f = Some r → json r = Some l → NoDup (ids l)
  | AwaitSave _ => True
  | AwaitDelete notes _ => NoDup (ids notes)
  end.

(** How the promise of a flight can settle: it rejects, or resolves with
    the answer the flight holds. *)
Definition settles (f : Flight) (o : Outcome) : Prop :=
  o = Rejected ∨ ∃ r, reply f = Some r ∧ o = Resolved r.

Section invariants.
Context `{Platform} {S : Type} `{NoteStore S}.
Implicit Types (w : World S) (a : Act) (ed : option Editor.State).
Implicit Types (s : App.t) (es : list Effect).

(** The editor's draft exists exactly when the controller renders the
    editor. *)
Definition editor_synced w : Prop := editor w = reconcile (app w) (editor w).

(** Every armed timer fires within 3000 ms, and a displayed notification
    has a timer armed. *)
Definition timers_ok w : Prop :=
  Forall (λ t, now w < deadline t ≤ now w + 3000) (timers w) ∧
  (is_Some (App.notification (app w)) → timers w ≠ []).

(** The suspended calls, in the order of their requests. *)
Definition conts w : list Cont := cont <$> flights w.

(** While the spinner is shown the mount fetch is in flight. *)
Definition loading_pending w : Prop :=
  App.loading (app w) = true → AwaitFetchNotes None ∈ conts w.

(** Identifiers are distinct in the store, in the displayed collection,
    and in what the flights carry. *)
Definition unique w : Prop :=
  store_wf (store w) ∧ NoDup (ids (App.notes (app w))) ∧
  Forall flight_ok (flights w).

(** ** Updates *)

Lemma handler_share_public s a :
  handler s a → share_public s → share_public (exec a s).
Proof. destruct 1; intros Hs n; simpl; try apply Hs; try done. by intros [= <-]. Qed.

Lemma handler_arms s a : handler s a → arms_notification a s.
Proof. destruct 1; split; simpl; auto. Qed.

Lemma resume_arms k o s : arms_notification (resume k o) s.
Proof. unfold arms_notification. resume_cases k o; split; simpl; auto. Qed.

Lemma handler_launched s a :
  handler s a → NoDup (ids (App.notes s)) →
  Forall flight_ok (launched (effects a s)).
Proof. destruct 1; intros Hnd; repeat constructor; done. Qed.

Lemma resume_launched k o s : Forall flight_ok (launched (effects (resume k o) s)).
Proof.
  resume_cases k o; simpl; rewrite ?app_nil_r; try case_match;
    repeat constructor; done.
Qed.

Lemma resume_fetch_NoDup caller f o s :
  (∀ r l, reply f = Some r → json r = Some l → NoDup (ids l)) →
  settles f o → NoDup (ids (App.notes s)) →
  NoDup (ids (App.notes (exec (resume (AwaitFetchNotes caller) o) s))).
Proof.
  intros Hf Ho Hs. destruct caller, o as [|r]; unfold exec;
    rewrite ?resume_fetch_after_save, ?resume_fetch_alone, ?fetchNotes_resume_run;
    simpl; try done; destruct Ho as [|(r' & Hr & [= <-])]; try done;
    destruct (ok r), (json r) eqn:?; simpl; eauto.
Qed.

(** A resumption keeps the displayed identifiers distinct: a load
    installs the store's answer, a delete filters a duplicate-free
    array. *)
Lemma resume_notes_NoDup f o s :
  flight_ok f → settles f o → NoDup (ids (App.notes s)) →
  NoDup (ids (App.notes (exec (resume (cont f) o) s))).
Proof.
  unfold flight_ok. intros Hf Ho Hs.
  destruct (cont f) as [c|e|notes id] eqn:Hc.
  - destruct Hf as [_ Hf]. eauto using resume_fetch_NoDup.
  - destruct o as [|r]; [done |]. unfold exec. cbn [resume].
    destruct (ok r) eqn:Hok;
      by rewrite ?saveNote_resume_ok, ?saveNote_resume_not_ok by done.
  - destruct o as [|r]; [done |]. unfold exec. cbn [resume].
    destruct (ok r) eqn:Hok.
    + rewrite deleteNote_resume_ok by done. simpl. by apply remove_key_NoDup.
    + by rewrite deleteNote_resume_not_ok.
Qed.

(** ** Timers *)

Lemma armed_deadline t es :
  forallb timeout_ok es = true → Forall (λ x, deadline x = t + 3000) (armed t es).
Proof.
  induction es as [|e es IH]; simpl; [constructor |].
  intros [He Hes]%andb_true_iff. unfold armed; simpl. destruct e; simpl; auto.
  apply bool_decide_eq_true in He as ->. constructor; [done | by apply IH].
Qed.

Lemma armed_nonempty t es : existsb is_timeout es = true → armed t es ≠ [].
Proof.
  induction es as [|e es IH]; simpl; [done |]. unfold armed; simpl.
  destruct e; simpl; auto.
Qed.

Lemma commit_timers_ok a ed w :
  arms_notification a (app w) → timers_ok w → timers_ok (commit a ed w).
Proof.
  intros [Ha Hn] [Ht Hs]. rewrite commit_eq. split; simpl.
  - apply Forall_app. split; [done |].
    eapply Forall_impl; [by apply armed_deadline |]. intros t ->. lia.
  - intros Hsome. destruct Hn as [Hn|Hn].
    + rewrite Hn in Hsome. intros [? _]%app_eq_nil. by apply Hs.
    + intros [_ ?]%app_eq_nil. by eapply armed_nonempty.
Qed.

Lemma elapse_timers_ok ms w : timers_ok w → timers_ok (elapse ms w).
Proof.
  intros [Ht Hs]. rewrite Forall_forall in Ht.
  destruct (decide (filter (due (now w + ms)) (timers w) = [])) as [Hd|Hd].
  - rewrite elapse_idle by done. split; simpl; [|done].
    apply Forall_forall. intros t Ht'. specialize (Ht t Ht').
    assert (¬ due (now w + ms) t) as Hnd.
    { intros Hdue. eapply (filter_nil_not_elem_of (due (now w + ms))); eauto. }
    unfold due in Hnd. lia.
  - rewrite elapse_fire by done. split; simpl; [|by intros []].
    apply Forall_forall. intros t [Hnd Ht']%list_elem_of_filter.
    specialize (Ht t Ht'). unfold due in Hnd. lia.
Qed.

(** After 3000 ms without another event no notification is displayed and
    no timer is armed. *)
Lemma elapse_dismisses ms w :
  timers_ok w → 3000 ≤ ms →
  App.notification (app (elapse ms w)) = None ∧ timers (elapse ms w) = [].
Proof.
  intros [Ht Hs] Hms.
  assert (Forall (due (now w + ms)) (timers w)) as Hdue.
  { eapply Forall_impl; [done |]. unfold due. intros; simpl in *; lia. }
  destruct (timers w) as [|t ts] eqn:E.
  - rewrite elapse_idle by by rewrite E. simpl. split; [|done].
    destruct (App.notification (app w)) eqn:En; [|done]. by destruct Hs.
  - rewrite elapse_fire by by rewrite E, filter_all. simpl. split; [done |].
    rewrite E. apply filter_none. eapply Forall_impl; [done |]. tauto.
Qed.

(** [elapse] changes the cells at most by clearing the notification. *)
Lemma elapse_app ms w : app (elapse ms w) = app w ∨ app (elapse ms w) = cleared (app w).
Proof.
  destruct (decide (filter (due (now w + ms)) (timers w) = [])).
  - left. by rewrite elapse_idle.
  - right. by rewrite elapse_fire.
Qed.

(** ** Flights *)

Lemma conts_answer i f r st w :
  flights w !! i = Some f → conts (answer i f r st w) = conts w.
Proof.
  intros Hf. unfold conts; simpl. rewrite list_fmap_insert; simpl.
  apply list_insert_id. by rewrite list_lookup_fmap, Hf.
Qed.

Lemma conts_land i w : conts (land i w) = delete i (conts w).
Proof. unfold conts; simpl. apply list_fmap_delete. Qed.

Lemma conts_commit a ed w :
  conts (commit a ed w) = conts w ++ (cont <$> launched (effects a (app w))).
Proof. rewrite commit_eq. unfold conts; simpl. apply fmap_app. Qed.

Lemma flight_ok_lookup w i f : unique w → flights w !! i = Some f → flight_ok f.
Proof.
  intros (_ & _ & Hfs) Hf. rewrite Forall_forall in Hfs.
  by eapply Hfs, list_elem_of_lookup_2.
Qed.

Lemma flight_ok_answer f r :
  flight_ok f → (route (request f) = RList → ∀ l, json r = Some l → NoDup (ids l)) →
  flight_ok (mkFlight (request f) (cont f) (Some r)).
Proof.
  unfold flight_ok; simpl. destruct (cont f); [|done..].
  intros [Hr _] Hj. split; [done |]. intros r' l [= <-]. by apply Hj.
Qed.

(** ** Preservation, one invariant at a time *)

Lemma turn_editor_synced w w' : turn w w' → editor_synced w → editor_synced w'.
Proof.
  unfold editor_synced.
  destruct 1 as [a ed Ha|i f _ _|i f st _ _ _|i f r _ _|i f _|ms];
    rewrite ?commit_eq; simpl; autorewrite with notes_rw; try done.
  intros Hs. destruct (decide (filter (due (now w + ms)) (timers w) = [])).
  - by rewrite elapse_idle.
  - rewrite elapse_fire by done. simpl. rewrite reconcile_cleared. by autorewrite with notes_rw.
Qed.

Lemma turn_share_public w w' :
  turn w w' → share_public (app w) → share_public (app w').
Proof.
  destruct 1 as [a ed Ha|i f _ _|i f st _ _ _|i f r _ _|i f _|ms];
    rewrite ?commit_eq; simpl; try done.
  - by apply handler_share_public.
  - unfold share_public. by rewrite resume_shareModal.
  - unfold share_public. by rewrite resume_shareModal.
  - by destruct (elapse_app ms w) as [->| ->].
Qed.

Lemma turn_timers_ok w w' : turn w w' → timers_ok w → timers_ok w'.
Proof.
  destruct 1 as [a ed Ha|i f _ _|i f st _ _ _|i f r _ _|i f _|ms]; try done.
  - intros. apply commit_timers_ok; [by apply handler_arms | done].
  - intros. apply commit_timers_ok; [apply resume_arms | done].
  - intros. apply commit_timers_ok; [apply resume_arms | done].
  - apply elapse_timers_ok.
Qed.

Lemma resume_loading_pending i f o w :
  flights w !! i = Some f → loading_pending w →
  loading_pending (commit (resume (cont f) o) (editor w) (land i w)).
Proof.
  intros Hf Hp. unfold loading_pending. rewrite conts_commit, commit_eq; simpl.
  destruct (decide (cont f = AwaitFetchNotes None)) as [Hc|Hc].
  - by rewrite Hc, resume_fetch_loading.
  - intros Hl%resume_loading. apply elem_of_app; left. rewrite conts_land.
    eapply elem_of_delete_ne; [by apply Hp | | done].
    unfold conts. by rewrite list_lookup_fmap, Hf.
Qed.

Lemma turn_loading_pending w w' : turn w w' → loading_pending w → loading_pending w'.
Proof.
  destruct 1 as [a ed Ha|i f Hf _|i f st Hf _ _|i f r Hf _|i f Hf|ms];
    eauto using resume_loading_pending; unfold loading_pending.
  - rewrite conts_commit, commit_eq; simpl. rewrite handler_loading by done.
    intros Hp Hl. apply elem_of_app; auto.
  - by rewrite conts_answer.
  - by rewrite conts_answer.
  - destruct (decide (filter (due (now w + ms)) (timers w) = [])).
    + by rewrite elapse_idle.
    + by rewrite elapse_fire.
Qed.

Lemma answer_unique i f r st w :
  flights w !! i = Some f → store_wf st →
  (route (request f) = RList → ∀ l, json r = Some l → NoDup (ids l)) →
  unique w → unique (answer i f r st w).
Proof.
  intros Hf Hst Hj Hu. pose proof Hu as (Hw & Hn & Hfs). split_and!; simpl; [done.. |].
  apply Forall_insert; [done |]. apply flight_ok_answer; eauto using flight_ok_lookup.
Qed.

Lemma resume_unique i f o w :
  flights w !! i = Some f → settles f o → unique w →
  unique (commit (resume (cont f) o) (editor w) (land i w)).
Proof.
  intros Hf Ho Hu. pose proof Hu as (Hw & Hn & Hfs). rewrite commit_eq.
  split_and!; simpl; [done | eauto using resume_notes_NoDup, flight_ok_lookup |].
  apply Forall_app. split; [by apply Forall_delete | apply resume_launched].
Qed.

Lemma turn_unique w w' : turn w w' → unique w → unique w'.
Proof.
  destruct 1 as [a ed Ha|i f Hf _|i f st Hf _ _|i f r Hf Hr|i f Hf|ms].
  - intros (Hw & Hn & Hfs). rewrite commit_eq. split_and!; simpl; [done | |].
    + by rewrite handler_notes.
    + apply Forall_app. split; [done | by apply handler_launched].
  - intros Hu. pose proof Hu as (Hw & _). apply answer_unique; try done.
    + auto with notes.
    + intros ->. rewrite store_list by done. simpl. intros l [= <-].
      auto with notes.
  - intros Hu. pose proof Hu as (Hw & _). by apply answer_unique.
  - apply resume_unique; [done |]. right. eauto.
  - apply resume_unique; [done |]. by left.
  - intros Hu. destruct (decide (filter (due (now w + ms)) (timers w) = [])).
    + by rewrite elapse_idle.
    + by rewrite elapse_fire.
Qed.

(** ** Reachable worlds *)

Lemma boot_timers_ok st : timers_ok (boot st).
Proof. split; [constructor | by intros []]. Qed.

Lemma boot_loading_pending st : loading_pending (boot st).
Proof. intros _. apply list_elem_of_here. Qed.

Lemma boot_unique st : store_wf st → unique (boot st).
Proof. intros Hst. split_and!; [done | constructor |]. repeat constructor; done. Qed.

Lemma reachable_timers_ok st w : reachable (boot st) w → timers_ok w.
Proof.
  apply (reachable_turn_ind timers_ok); [apply boot_timers_ok | apply turn_timers_ok].
Qed.

Lemma reachable_unique st w : store_wf st → reachable (boot st) w → unique w.
Proof.
  intros Hst.
  apply (reachable_turn_ind unique); [by apply boot_unique | apply turn_unique].
Qed.

(** C8: in every reachable world the displayed notes have distinct
    identifiers, so the React keys of the grid are distinct, whatever the
    interleaving of user events, answers and failures. *)
Theorem reachable_unique_ids st w :
  store_wf st → reachable (boot st) w →
  NoDup (ids (App.notes (app w))) ∧ NoDup ((Page.cards (page w)).*1).
Proof.
  intros Hst Hr. destruct (reachable_unique st w Hst Hr) as (_ & Hn & _).
  split; [done | by apply page_keys_NoDup].
Qed.

(** C9: in every reachable world the share modal, when open, shows a
    note that was public when its share button was clicked. *)
Theorem reachable_share_public st w note :
  reachable (boot st) w → App.shareModal (app w) = Some note →
  Note.isPublic note = true.
Proof.
  intros Hr. revert note.
  by apply (reachable_turn_ind (λ w, share_public (app w)) (boot st));
    [| apply turn_share_public |].
Qed.

(** C10: in every reachable world, 3000 ms without another event leave
    no notification on the page and no timer armed. *)
Theorem notification_dismissed st w ms :
  reachable (boot st) w → 3000 ≤ ms →
  App.notification (app (elapse ms w)) = None ∧
  Page.toast (page (elapse ms w)) = None ∧ timers (elapse ms w) = [].
Proof.
  intros Hr Hms.
  destruct (elapse_dismisses ms w (reachable_timers_ok st w Hr) Hms) as [Hn Ht].
  unfold page, Page.render; simpl. by rewrite Hn.
Qed.

(** In every reachable world the editor's draft exists exactly
    when the controller renders the editor. *)
Theorem reachable_editor_synced st w :
  reachable (boot st) w → (is_Some (editor w) ↔ editorOpen (app w) = true).
Proof.
  intros Hr. rewrite <-(reconcile_is_Some (app w) (editor w)).
  by rewrite <-(reachable_turn_ind editor_synced (boot st) eq_refl
                  turn_editor_synced w Hr).
Qed.

(** In every reachable world the spinner is shown only while the
    request of the mount fetch is in flight. *)
Theorem spinner_pending st w :
  reachable (boot st) w → Page.spinner (page w) = true →
  ∃ i f, flights w !! i = Some f ∧ cont f = AwaitFetchNotes None.
Proof.
  intros Hr Hl.
  apply (reachable_turn_ind loading_pending (boot st) (boot_loading_pending st)
           turn_loading_pending) in Hr.
  apply Hr, list_elem_of_fmap in Hl as (f & -> & [i Hi]%list_elem_of_lookup). eauto.
Qed.

End invariants.

(** ** A concrete run *)

Section examples.
#[local] Existing Instance demo.

(** Over the reference store: the notes load, the user creates a note,
    and the answer to the POST arrives. *)
Definition sample_run : list Event :=
  [Serve 0; Deliver 0; User ClickNewNote;
   User (EditorEvent (Editor.ChangeTitle "Groceries"));
   User (EditorEvent Editor.ClickSave); Serve 0; Deliver 0].

Definition sample_world : World RefStore.t :=
  default (boot RefStore.empty) (@run demo _ _ (boot RefStore.empty) sample_run).

Lemma sample_reachable : @reachable demo _ _ (boot RefStore.empty) sample_world.
Proof. apply (run_reachable _ sample_run). vm_compute. reflexivity. Qed.

Lemma reachable_unique_ids_witness :
  NoDup (ids (App.notes (app sample_world))) ∧
  NoDup ((Page.cards (@page demo _ sample_world)).*1).
Proof.
  apply (@reachable_unique_ids demo _ _ RefStore.empty sample_world);
    [apply refstore_wf_empty | apply sample_reachable].
Defined.

Lemma shared_reachable :
  @reachable demo _ _ (boot seeded)
    (default (boot seeded)
       (@run demo _ _ (boot seeded)
          [Serve 0; Deliver 0; User (ClickCard 1 NoteCard.ShareButton)])).
Proof.
  apply (run_reachable _ [Serve 0; Deliver 0; User (ClickCard 1 NoteCard.ShareButton)]).
  vm_compute. reflexivity.
Qed.

Lemma reachable_share_public_witness : Note.isPublic recipe = true.
Proof.
  apply (@reachable_share_public demo _ _ seeded _ recipe shared_reachable).
  vm_compute. reflexivity.
Defined.

Lemma notification_dismissed_witness :
  App.notification (app (elapse 3000 sample_world)) = None ∧
  Page.toast (@page demo _ (elapse 3000 sample_world)) = None ∧
  timers (elapse 3000 sample_world) = [].
Proof.
  apply (@notification_dismissed demo _ _ RefStore.empty sample_world 3000);
    [apply sample_reachable | lia].
Defined.

Lemma reachable_editor_synced_witness :
  is_Some (editor sample_world) ↔ editorOpen (app sample_world) = true.
Proof.
  apply (@reachable_editor_synced demo _ _ RefStore.empty sample_world),
    sample_reachable.
Defined.

Lemma spinner_pending_witness :
  ∃ i f, flights (boot RefStore.empty) !! i = Some f ∧ cont f = AwaitFetchNotes None.
Proof.
  apply (@spinner_pending demo _ _ RefStore.empty (boot RefStore.empty));
    [constructor | reflexivity].
Defined.

End examples.
