(* ===== verification/Fine.v ===== *)
(** * The two awaits of fetchNotes

    [fetchNotes] suspends twice: on [fetch] (App.js 18) and, when the
    status is a success, on [response.json()] (App.js 20).  The event loop
    of [System] resumes it once, when the response and its body are there.
    This file defines the event loop in which the two suspensions are two
    turns.  [Headers i] is the turn in which the promise of [fetch]
    resolves for a call that will then read the body: it runs the code
    between the two awaits ([fetchNotes_after_fetch]) and commits it as
    any other turn is committed.  The delivery that follows is the turn in
    which the body has been read; it runs the rest
    ([fetchNotes_after_json]).  Other turns can run in between.

    The theorem shows that the finer loop has the same behaviours from
    every world in which the editor is mounted as the page renders it
    ([editor_synced], which holds at the first render and which every
    turn preserves, [Invariants.turn_editor_synced]): erasing the [Headers] turns of a fine run gives a run of [System] to
    the same world, and every run of [System] is the erasure of a fine
    run.  It holds because the code between the two awaits sets no cell
    and starts no effect ([fetchNotes_two_awaits]): a version of
    [fetchNotes] that cleared the spinner, say, before reading the body
    would show a page in the fine loop that [System] never shows. *)

From S2P Require Import Prelude JsString Model Editor Search Controller Views Store System.
From S2P Require Import Invariants.

#[local] Open Scope act_scope.

(** What the caller of [fetchNotes] does once the call returns
    (App.js 55-57); the mount effect does nothing more. *)
Definition after_load (caller : option (option Note.t)) : Act :=
  match caller with
  | Some editingNote => saveNote_after_fetch editingNote
  | None => skip
  end.

(** A turn of the fine loop. *)
Inductive FEvent : Type :=
| Do (ev : Event)
| Headers (i : nat).

(** The fine world: the world, and for each request in flight whether
    the call suspended on it is reading the body. *)
Record FWorld (S : Type) : Type := mkFWorld {
  coarse : World S;
  reading : list bool;
}.

Arguments mkFWorld {S}.
Arguments coarse {S}.
Arguments reading {S}.

Definition is_reading (bs : list bool) (i : nat) : bool := default false (bs !! i).

Definition mark (i : nat) (bs : list bool) : list bool :=
  <[i := true]> (resize (length bs `max` S i) false bs).

(** The call suspended on the flight suspends again once the promise of
    [fetch] resolves with the answer the flight holds. *)
Definition suspends (f : Flight) : bool :=
  match cont f, reply f with
  | AwaitFetchNotes _, Some r => (fetchNotes_after_fetch (Resolved r)).2
  | _, _ => false
  end.

(** What that call runs between the two awaits (App.js 18-20). *)
Definition before_body (f : Flight) : Act :=
  match cont f, reply f with
  | AwaitFetchNotes _, Some r => (fetchNotes_after_fetch (Resolved r)).1
  | _, _ => skip
  end.

(** What runs when the promise a call is suspended on settles and the
    call goes on to its end; [body] tells that the promise is the one of
    [response.json()]. *)
Definition fresume (k : Cont) (body : bool) (o : Outcome) : Act :=
  match k with
  | AwaitFetchNotes caller =>
      (if body then fetchNotes_after_json (if o is Resolved r then json r else None)
       else (fetchNotes_after_fetch o).1) ;;
      after_load caller
  | AwaitSave _ | AwaitDelete _ _ => resume k o
  end.

(** The coarse events of a fine run. *)
Definition events (fevs : list FEvent) : list Event :=
  omap (λ e, if e is Do ev then Some ev else None) fevs.

Section fine.
Context `{Platform} {S : Type} `{NoteStore S}.
Implicit Types (w : World S) (fw : FWorld S) (bs : list bool) (f : Flight).

(** One turn of the fine loop.  The headers of an answer arrive once,
    for a call that will read the body, and the call runs up to its
    second await; a body is delivered only after its headers; a failure
    ends the call at whichever await it is suspended. *)
Definition fstep fw (ev : FEvent) : option (FWorld S) :=
  let w := coarse fw in
  let bs := reading fw in
  match ev with
  | Headers i =>
      match flights w !! i with
      | Some f =>
          if suspends f && negb (is_reading bs i)
          then Some (mkFWorld (commit (before_body f) (editor w) w) (mark i bs))
          else None
      | None => None
      end
  | Do (Deliver i) =>
      match flights w !! i with
      | Some f =>
          match reply f with
          | Some r =>
              if suspends f && negb (is_reading bs i) then None
              else Some (mkFWorld
                           (commit (fresume (cont f) (suspends f) (Resolved r))
                              (editor w) (land i w))
                           (delete i bs))
          | None => None
          end
      | None => None
      end
  | Do (Drop i) =>
      match flights w !! i with
      | Some f =>
          Some (mkFWorld
                  (commit (fresume (cont f) (suspends f && is_reading bs i) Rejected)
                     (editor w) (land i w))
                  (delete i bs))
      | None => None
      end
  | Do ev => (λ w', mkFWorld w' bs) <$> step w ev
  end.

Fixpoint frun fw (fevs : list FEvent) : option (FWorld S) :=
  match fevs with
  | [] => Some fw
  | ev :: fevs' =>
      match fstep fw ev with
      | Some fw' => frun fw' fevs'
      | None => None
      end
  end.

(** ** The halves and the whole *)

(** Cutting [fetchNotes] at its second [await] changes nothing.  The
    first half, when it suspends on [response.json()], has set no cell
    and started no effect, so the turns that run between the two halves
    see the world they would see before the first; and the continuation
    that runs in one turn once the response and its body are there does
    what the two halves do one after the other. *)
Lemma fetchNotes_two_awaits o (s : App.t) :
  ((fetchNotes_after_fetch o).2 = true → (fetchNotes_after_fetch o).1 s = (s, [])) ∧
  fetchNotes_resume o s =
    if (fetchNotes_after_fetch o).2
    then ((fetchNotes_after_fetch o).1 ;;
          fetchNotes_after_json (if o is Resolved r then json r else None)) s
    else (fetchNotes_after_fetch o).1 s.
Proof.
  destruct o as [|r]; simpl; [done |].
  destruct (ok r) eqn:Hok; simpl; split; try done.
  - unfold fetchNotes_resume. rewrite Hok. by destruct (json r).
  - by rewrite fetchNotes_resume_not_ok.
Qed.

Lemma before_body_idle f (s : App.t) : suspends f = true → before_body f s = (s, []).
Proof.
  unfold suspends, before_body. destruct (cont f), (reply f); try done.
  apply fetchNotes_two_awaits.
Qed.

Lemma fetchNotes_after_fetch_done (o : Outcome) (s : App.t) :
  (fetchNotes_after_fetch o).2 = false →
  (fetchNotes_after_fetch o).1 s = fetchNotes_resume o s.
Proof.
  intros Hs. destruct (fetchNotes_two_awaits o s) as [_ ->]. by rewrite Hs.
Qed.

Lemma fetchNotes_after_json_body r (s : App.t) :
  (fetchNotes_after_fetch (Resolved r)).2 = true →
  fetchNotes_after_json (json r) s = fetchNotes_resume (Resolved r) s.
Proof.
  intros Hs. destruct (fetchNotes_two_awaits (Resolved r) s) as [Hidle ->].
  rewrite Hs. unfold seq. rewrite (Hidle Hs).
  by destruct (fetchNotes_after_json (json r) s).
Qed.

Lemma resume_after_load caller o (s : App.t) :
  resume (AwaitFetchNotes caller) o s = (fetchNotes_resume o ;; after_load caller) s.
Proof. done. Qed.

(** The delivery of the fine loop runs what the delivery of [System]
    runs. *)
Lemma fresume_delivered f r (s : App.t) :
  reply f = Some r →
  fresume (cont f) (suspends f) (Resolved r) s = resume (cont f) (Resolved r) s.
Proof.
  intros Hr. unfold suspends. rewrite Hr.
  destruct (cont f) as [caller|e|notes id]; [|done..].
  rewrite resume_after_load. unfold fresume, seq.
  destruct ((fetchNotes_after_fetch (Resolved r)).2) eqn:Hs.
  - by rewrite fetchNotes_after_json_body.
  - by rewrite fetchNotes_after_fetch_done.
Qed.

(** A failure runs the [catch] block, whichever promise rejects. *)
Lemma fresume_rejected k body (s : App.t) : fresume k body Rejected s = resume k Rejected s.
Proof. destruct k as [caller|e|notes id], body; done. Qed.

Lemma commit_ext (a b : Act) ed w :
  a (app w) = b (app w) → commit a ed w = commit b ed w.
Proof. intros Hab. unfold commit. by rewrite Hab. Qed.

(** Committing an update that sets no cell and starts no effect leaves
    the world as it is, where the editor is mounted as rendered. *)
Lemma commit_idle (a : Act) w :
  editor_synced w → a (app w) = (app w, []) → commit a (editor w) w = w.
Proof.
  intros Hs Ha. unfold commit. rewrite Ha. simpl. rewrite <-Hs. by destruct w.
Qed.

(** ** The fine loop and the coarse loop *)

(** A [Headers] turn changes nothing of the world; every other turn is
    the turn of [System]. *)
Lemma fstep_coarse fw ev fw' :
  editor_synced (coarse fw) → fstep fw ev = Some fw' →
  match ev with
  | Headers _ => coarse fw' = coarse fw
  | Do ev => step (coarse fw) ev = Some (coarse fw')
  end.
Proof.
  intros Hsync. destruct ev as [[e|i|i status|i|i|ms]|i]; cbn [fstep];
    try (by intros (w' & -> & ->)%fmap_Some).
  - destruct (flights _ !! i) as [f|] eqn:Hf; [|done].
    destruct (reply f) as [r|] eqn:Hr; [|done]. case_match; [done |].
    intros [= <-]. cbn [step coarse]. rewrite Hf, Hr. f_equal.
    apply commit_ext. symmetry. by apply fresume_delivered.
  - destruct (flights _ !! i) as [f|] eqn:Hf; [|done].
    intros [= <-]. cbn [step coarse]. rewrite Hf. f_equal.
    apply commit_ext. symmetry. apply fresume_rejected.
  - destruct (flights _ !! i) as [f|]; [|done].
    destruct (suspends f) eqn:Hsus; [|done]. case_match; [|done].
    intros [= <-]. cbn [coarse]. by apply commit_idle, before_body_idle.
Qed.

Lemma fstep_synced fw ev fw' :
  editor_synced (coarse fw) → fstep fw ev = Some fw' → editor_synced (coarse fw').
Proof.
  intros Hs Hst. pose proof (fstep_coarse _ _ _ Hs Hst) as Hc. destruct ev as [ev|i].
  - eapply turn_editor_synced; [by eapply step_turn | done].
  - by rewrite Hc.
Qed.

Lemma frun_app fw fevs1 fevs2 :
  frun fw (fevs1 ++ fevs2) = frun fw fevs1 ≫= λ fw1, frun fw1 fevs2.
Proof.
  revert fw. induction fevs1 as [|ev fevs1 IH]; intros fw; simpl; [done |].
  by destruct (fstep fw ev).
Qed.

Lemma frun_coarse fw fevs fw' :
  editor_synced (coarse fw) → frun fw fevs = Some fw' →
  run (coarse fw) (events fevs) = Some (coarse fw').
Proof.
  revert fw. induction fevs as [|ev fevs IH]; intros fw Hs; simpl; [by intros [= <-] |].
  destruct (fstep fw ev) as [fw1|] eqn:Hst; [|done].
  intros Hrun%IH; [|by eapply fstep_synced].
  apply fstep_coarse in Hst; [|done]. destruct ev as [ev|i]; simpl.
  - by rewrite Hst.
  - by rewrite <-Hst.
Qed.

(** A turn of [System] is a turn of the fine loop, after the [Headers]
    turn when the turn delivers a body that has not been read. *)
Lemma step_fine w ev w' bs :
  editor_synced w → step w ev = Some w' →
  ∃ fevs fw', frun (mkFWorld w bs) fevs = Some fw' ∧ events fevs = [ev] ∧
              coarse fw' = w'.
Proof.
  intros Hsync Hs. destruct ev as [e|i|i status|i|i|ms];
    try (eexists [Do _], _; simpl; rewrite Hs; simpl; split_and!; done).
  - simpl in Hs. destruct (flights w !! i) as [f|] eqn:Hf; [|done].
    destruct (reply f) as [r|] eqn:Hr; [|done]. injection Hs as <-.
    destruct (suspends f && negb (is_reading bs i)) eqn:Hb.
    + exists [Headers i; Do (Deliver i)]. eexists. simpl. rewrite Hf, Hb. simpl.
      apply andb_true_iff in Hb as [Hsus _].
      rewrite (commit_idle _ w Hsync (before_body_idle f _ Hsus)), Hf, Hr, Hsus. simpl.
      unfold is_reading, mark. rewrite list_lookup_insert_eq; [simpl |
        rewrite length_resize; lia].
      split_and!; [done | done |]. simpl. apply commit_ext.
      rewrite <-Hsus. by apply fresume_delivered.
    + exists [Do (Deliver i)]. eexists. simpl. rewrite Hf, Hr, Hb.
      split_and!; [done | done |]. simpl. apply commit_ext. by apply fresume_delivered.
  - simpl in Hs. destruct (flights w !! i) as [f|] eqn:Hf; [|done]. injection Hs as <-.
    exists [Do (Drop i)]. eexists. simpl. rewrite Hf.
    split_and!; [done | done |]. simpl. apply commit_ext, fresume_rejected.
Qed.

Lemma run_fine w evs w' bs :
  editor_synced w → run w evs = Some w' →
  ∃ fevs fw', frun (mkFWorld w bs) fevs = Some fw' ∧ events fevs = evs ∧
              coarse fw' = w'.
Proof.
  revert w bs. induction evs as [|ev evs IH]; intros w bs Hsync; simpl.
  - intros [= <-]. by exists [], (mkFWorld w bs).
  - destruct (step w ev) as [w1|] eqn:Hst; [|done]. intros Hrun.
    destruct (step_fine w ev w1 bs Hsync Hst) as (fevs1 & [w1' bs1] & Hf1 & He1 & Hc1).
    simpl in Hc1; subst w1'.
    destruct (IH w1 bs1) as (fevs2 & fw' & Hf2 & He2 & Hc2);
      [eapply turn_editor_synced; [by eapply step_turn | done] | done |].
    exists (fevs1 ++ fevs2), fw'. rewrite frun_app, Hf1. simpl.
    split_and!; [done | | done]. unfold events in *. by rewrite omap_app, He1, He2.
Qed.

(** C30: the second await of [fetchNotes] is not observable.  From a
    world in which the editor is mounted as the page renders it, erasing
    the [Headers] turns of a run of the fine loop, in which the code
    between the two awaits of [fetchNotes] runs in a turn of its own,
    gives a run of [System] to the same world; and every run of [System]
    is the erasure of a run of the fine loop to the same world. *)
Theorem two_awaits_unobservable fw :
  editor_synced (coarse fw) →
  (∀ fevs fw',
     frun fw fevs = Some fw' → run (coarse fw) (events fevs) = Some (coarse fw')) ∧
  (∀ evs w',
     run (coarse fw) evs = Some w' →
     ∃ fevs fw', frun fw fevs = Some fw' ∧ events fevs = evs ∧ coarse fw' = w').
Proof.
  intros Hsync. split.
  - intros fevs fw'. by apply frun_coarse.
  - intros evs w'. destruct fw as [w bs]. by apply run_fine.
Qed.

End fine.

(** ** On the reference store *)

Section examples.
#[local] Existing Instance demo.

Lemma two_awaits_unobservable_witness :
  (∀ fevs fw',
     frun (mkFWorld (boot seeded) []) fevs = Some fw' →
     run (boot seeded) (events fevs) = Some (coarse fw')) ∧
  (∀ evs w',
     run (boot seeded) evs = Some w' →
     ∃ fevs fw', frun (mkFWorld (boot seeded) []) fevs = Some fw' ∧
                 events fevs = evs ∧ coarse fw' = w').
Proof.
  apply (two_awaits_unobservable (mkFWorld (boot seeded) [])). reflexivity.
Defined.

(** The mount fetch is answered, its headers arrive, the user opens the
    create form while the body is read, and the notes appear. *)
Definition slow_body : list FEvent :=
  [Do (Serve 0); Headers 0; Do (User ClickNewNote); Do (Deliver 0)].

Example slow_body_run :
  (λ fw, (App.notes (app (coarse fw)), App.loading (app (coarse fw)),
          editor (coarse fw), reading fw))
    <$> frun (mkFWorld (boot seeded) []) slow_body =
  Some ([groceries; recipe; diary], false, Some (Editor.init None), []).
Proof. vm_compute. reflexivity. Qed.

(** While the body is read the page is the page before the headers: the
    spinner is shown and no note is. *)
Example headers_change_nothing :
  coarse <$> frun (mkFWorld (boot seeded) []) [Do (Serve 0); Headers 0] =
  run (boot seeded) [Serve 0].
Proof. vm_compute. reflexivity. Qed.

(** The run of [System] that the run above erases to ends in the same
    world. *)
Example slow_body_erased :
  events slow_body = [Serve 0; User ClickNewNote; Deliver 0] ∧
  coarse <$> frun (mkFWorld (boot seeded) []) slow_body =
  run (boot seeded) (events slow_body).
Proof. split; vm_compute; reflexivity. Qed.

(** Before its headers have arrived a successful load cannot be
    delivered, and the headers arrive once. *)
Example body_needs_headers :
  frun (mkFWorld (boot seeded) []) [Do (Serve 0); Do (Deliver 0)] = None ∧
  frun (mkFWorld (boot seeded) []) [Do (Serve 0); Headers 0; Headers 0] = None.
Proof. split; vm_compute; reflexivity. Qed.

End examples.
