(* ===== verification/Isolation.v ===== *)
(** * Isolation

    What an event leaves alone.  The search box only sets the
    [searchTerm] cell, which no operation of the controller reads or
    sets: typing in it commutes with every event that does not go through
    the filtered grid (the answers and failures of requests, the timers,
    the editor, the share modal, the "New Note" button).  The clipboard is
    written by the copy button of the share modal and by nothing else, and
    what it then holds is the link of the note the modal shows. *)

From S2P Require Import Prelude JsString Model Editor Search Controller Views Store System.
From S2P Require Import Invariants.

#[local] Open Scope act_scope.

(** ** Updates that commute *)

(** Two updates commute when, in either order, they give the same cells
    and start the same effects. *)
Definition commute (a b : Act) : Prop := (a ;; b) ≡ (b ;; a).

(** The cells after the search box has received [value]. *)
Definition typed (value : string) (s : App.t) : App.t :=
  exec (onSearchChange value) s.

(** An update is blind to the search term when it runs the same way
    whatever the search box holds. *)
Definition blind (a : Act) : Prop :=
  ∀ value s, a (typed value s) = (typed value (exec a s), effects a s).

(** The clipboard writes among the effects of an update. *)
Definition writes (es : list Effect) : list string :=
  omap (λ e, if e is ClipboardWriteText text then Some text else None) es.

(** The world after the search box has received [value]. *)
Definition searched {S : Type} (value : string) (w : World S) : World S :=
  mkWorld (typed value (app w)) (editor w) (flights w) (timers w) (now w)
    (clipboard w) (store w).

(** Two events commute from a world: in either order both happen or
    neither does, and they lead to the same world. *)
Definition commutes `{Platform} {S : Type} `{NoteStore S} (w : World S)
    (e1 e2 : Event) : Prop :=
  step w e1 ≫= (λ w1, step w1 e2) = step w e2 ≫= (λ w2, step w2 e1).

(** The events that do not go through the filtered grid or the search
    box. *)
Definition search_free (ev : Event) : bool :=
  match ev with
  | User (SearchInput _) | User (ClickCard _ _) | User ClickCreateNote => false
  | _ => true
  end.

Section updates.
Context `{Platform}.
Implicit Types (a b : Act) (s : App.t) (value : string).

#[export] Instance commute_sym : Symmetric commute.
Proof. intros a b Hab. unfold commute. by symmetry. Qed.

Lemma commute_skip a : commute skip a.
Proof. unfold commute. by rewrite seq_skip_l, seq_skip_r. Qed.

Lemma blind_exec a value s : blind a → exec a (typed value s) = typed value (exec a s).
Proof. intros Ha. unfold exec at 1. by rewrite Ha. Qed.

Lemma blind_effects a value s : blind a → effects a (typed value s) = effects a s.
Proof. intros Ha. unfold effects at 1. by rewrite Ha. Qed.

(** A blind update commutes with typing. *)
Lemma blind_commute a value : blind a → commute (onSearchChange value) a.
Proof.
  intros Ha s.
  rewrite (upd_eta (onSearchChange value ;; a)), (upd_eta (a ;; onSearchChange value)).
  rewrite !exec_seq, !effects_seq.
  change (exec (onSearchChange value) s) with (typed value s).
  rewrite blind_exec, blind_effects by done. simpl. by rewrite app_nil_r.
Qed.

Lemma blind_seq a b : blind a → blind b → blind (a ;; b).
Proof.
  intros Ha Hb value s. rewrite (upd_eta (a ;; b)), !exec_seq, !effects_seq.
  by rewrite !blind_exec, !blind_effects.
Qed.

(** Every operation of the controller but the search box's own handler
    is blind. *)
Lemma blind_resume k o : blind (resume k o).
Proof. intros value s. by resume_cases k o. Qed.

Lemma blind_runCallback cb : blind (runCallback cb).
Proof. by destruct cb. Qed.

Lemma blind_saveNote e d : blind (saveNote e d).
Proof. by destruct e. Qed.

Lemma blind_copyShareLink id : blind (copyShareLink id).
Proof. unfold copyShareLink. by destruct clipboardAccess. Qed.

Lemma reconcile_typed value s ed : reconcile (typed value s) ed = reconcile s ed.
Proof. done. Qed.

End updates.

(** ** Typing in the search box *)

Section search.
Context `{Platform} {S : Type} `{NoteStore S}.
Implicit Types (w : World S) (a : Act) (ed : option Editor.State) (value : string).

(** Typing sets the search term and nothing else. *)
Lemma step_search w value :
  editor_synced w → step w (User (SearchInput value)) = Some (searched value w).
Proof.
  intros He. cbn [step dispatch]. rewrite commit_eq.
  change (reconcile _ (editor w)) with (reconcile (app w) (editor w)).
  rewrite <-He. simpl. by rewrite !app_nil_r.
Qed.

Lemma commit_searched a ed w value :
  blind a → commit a ed (searched value w) = searched value (commit a ed w).
Proof.
  intros Ha. rewrite !commit_eq. unfold searched; simpl.
  by rewrite blind_exec, blind_effects, reconcile_typed by done.
Qed.

Lemma elapse_searched ms w value :
  elapse ms (searched value w) = searched value (elapse ms w).
Proof.
  destruct (decide (filter (due (now w + ms)) (timers w) = [])) as [Hd|Hd].
  - by rewrite !elapse_idle.
  - by rewrite !elapse_fire.
Qed.

(** The page offers a search-free event whatever the search box holds,
    and wires it to a blind update. *)
Lemma dispatch_typed s ed e value :
  search_free (User e) = true → dispatch (typed value s) ed e = dispatch s ed e.
Proof. by destruct e. Qed.

Lemma dispatch_blind s ed e a ed' :
  search_free (User e) = true → dispatch s ed e = Some (a, ed') → blind a.
Proof.
  destruct e as [v| | |i b|e|e]; try done; simpl; intros _.
  - by intros [= <- _].
  - destruct (reconcile s ed) as [st|]; [|done].
    destruct (Editor.step st e) as [st' [[d|]|]]; intros [= <- _];
      [apply blind_saveNote | done..].
  - destruct (App.shareModal s) as [note|]; [|done]. intros [= <- _].
    destruct e; simpl; [done | apply blind_copyShareLink].
Qed.

(** A search-free event happens the same way whatever the search box
    holds. *)
Lemma step_searched w ev value :
  search_free ev = true → step (searched value w) ev = searched value <$> step w ev.
Proof.
  destruct ev as [e|i|i status|i|i|ms]; intros Hfree;
    cbn [step searched app editor flights store].
  - rewrite dispatch_typed by done.
    destruct (dispatch (app w) (editor w) e) as [[a ed]|] eqn:E; [|done]. simpl.
    f_equal. apply (commit_searched a ed w). eauto using dispatch_blind.
  - destruct (flights w !! i) as [f|]; [|done]. destruct (reply f); [done |].
    by destruct (store_handle _ _).
  - destruct (flights w !! i) as [f|]; [|done]. destruct (reply f); [done |].
    by destruct (ok _).
  - destruct (flights w !! i) as [f|]; [|done]. destruct (reply f) as [r|]; [|done].
    simpl. f_equal. apply (commit_searched _ _ (land i w)), blind_resume.
  - destruct (flights w !! i) as [f|]; [|done].
    simpl. f_equal. apply (commit_searched _ _ (land i w)), blind_resume.
  - simpl. f_equal. apply elapse_searched.
Qed.

(** Typing commutes with one search-free event. *)
Lemma search_commutes w value ev :
  editor_synced w → search_free ev = true →
  commutes w (User (SearchInput value)) ev.
Proof.
  intros He Hfree. unfold commutes. rewrite step_search by done.
  cbn [mbind option_bind]. rewrite step_searched by done.
  destruct (step w ev) as [w2|] eqn:Hs; [|done]. simpl.
  symmetry. apply step_search. eapply turn_editor_synced; [by eapply step_turn | done].
Qed.

Lemma run_searched w evs value :
  Forall (λ ev, search_free ev = true) evs →
  run (searched value w) evs = searched value <$> run w evs.
Proof.
  intros Hfree. revert w. induction Hfree as [|ev evs Hev _ IH]; intros w; [done |].
  rewrite !run_cons, step_searched by done.
  destruct (step w ev) as [w1|]; [apply IH | done].
Qed.

Lemma run_editor_synced w evs w' :
  run w evs = Some w' → editor_synced w → editor_synced w'.
Proof.
  revert w. induction evs as [|ev evs IH]; intros w; [by intros [= <-] |].
  rewrite run_cons. destruct (step w ev) as [w1|] eqn:Hs; [|done].
  intros Hr He. eapply IH; [done |].
  eapply turn_editor_synced; [by eapply step_turn | done].
Qed.

(** C40: typing in the search box commutes with every run of events
    that do not go through the filtered grid: the answers of the store,
    the deliveries and failures of requests, the timers, the editor, the
    share modal and the "New Note" button.  Whether the input comes
    before the run or after it, the run happens or fails alike and leads
    to the same world. *)
Theorem search_anytime w value evs :
  editor_synced w → Forall (λ ev, search_free ev = true) evs →
  run w (User (SearchInput value) :: evs) = run w (evs ++ [User (SearchInput value)]).
Proof.
  intros He Hfree. rewrite run_cons, step_search by done. cbn [mbind option_bind].
  rewrite run_searched, run_app by done.
  destruct (run w evs) as [w'|] eqn:Hr; [|done]. cbn [fmap option_fmap option_map mbind option_bind].
  rewrite run_cons, step_search; [done |]. by eapply run_editor_synced.
Qed.

End search.

(** ** The clipboard *)

Section clipboard.
Context `{Platform} {S : Type} `{NoteStore S}.
Implicit Types (w : World S) (a : Act) (s : App.t) (es : list Effect).

Lemma copied_quiet c es : writes es = [] → copied c es = c.
Proof. revert c. induction es as [|[] es IH]; intros c; simpl; try done; auto. Qed.

(** No resumed call and no timer writes the clipboard. *)
Lemma resume_quiet k o s : writes (effects (resume k o) s) = [].
Proof. resume_cases k o; simpl; rewrite ?app_nil_r; try case_match; done. Qed.

Lemma elapse_clipboard ms w : clipboard (elapse ms w) = clipboard w.
Proof.
  destruct (decide (filter (due (now w + ms)) (timers w) = [])).
  - by rewrite elapse_idle.
  - by rewrite elapse_fire.
Qed.

(** The page wires the clipboard to the copy button only. *)
Lemma dispatch_quiet s ed e a ed' :
  dispatch s ed e = Some (a, ed') → e ≠ ShareEvent ShareModal.ClickCopy →
  writes (effects a s) = [].
Proof.
  destruct e as [v| | |i b|e|e]; simpl; intros Hd Hne.
  - by injection Hd as <- _.
  - by injection Hd as <- _.
  - case_match; [|done]. by injection Hd as <- _.
  - unfold clickCard in Hd. repeat case_match; simplify_eq/=; done.
  - destruct (reconcile s ed) as [st|]; [|done].
    by destruct (Editor.step st e) as [st' [[d|]|]]; injection Hd as <- _.
  - destruct (App.shareModal s) as [note|]; [|done]. by destruct e; injection Hd as <- _.
Qed.

Lemma commit_quiet a ed w :
  writes (effects a (app w)) = [] → clipboard (commit a ed w) = clipboard w.
Proof. intros Hq. rewrite commit_eq; simpl. by apply copied_quiet. Qed.

(** Every event but the click on the copy button keeps the clipboard. *)
Lemma step_clipboard w ev w' :
  step w ev = Some w' →
  clipboard w' = clipboard w ∨ ev = User (ShareEvent ShareModal.ClickCopy).
Proof.
  intros Hs%step_fires.
  destruct Hs as [e a ed E|i f E Er|i f status E Er Eo|i f r E Er|i f E|ms];
    [| by left | by left
     | left; apply (commit_quiet _ _ (land i w)), resume_quiet..
     | left; apply elapse_clipboard].
  destruct (decide (e = ShareEvent ShareModal.ClickCopy)) as [-> | Hne];
    [by right | left].
  eauto using commit_quiet, dispatch_quiet.
Qed.

(** The click on the copy button changes the clipboard only where the
    platform grants the write, to the link of the note of the modal. *)
Lemma copy_written w w' :
  step w (User (ShareEvent ShareModal.ClickCopy)) = Some w' →
  clipboard w' ≠ clipboard w →
  clipboardAccess = ClipboardGranted ∧
  ∃ note, App.shareModal (app w) = Some note ∧
          clipboard w' = Some (origin +:+ "/share/" +:+ numToString (Note.id note)).
Proof.
  cbn [step dispatch]. destruct (App.shareModal (app w)) as [note|]; [|done].
  intros [= <-]. rewrite commit_eq; cbn [clipboard ShareModal.step].
  unfold effects, copyShareLink, copied, written.
  destruct clipboardAccess; simpl; try done. eauto.
Qed.

(** C38: only the copy button writes the clipboard.  Whatever event
    changes the clipboard of a world whose share modal holds a public
    note, the event is the click on the copy button, the platform granted
    the write, and the clipboard then holds the share link of the note
    the modal shows, a public one. *)
Theorem clipboard_written w ev w' :
  share_public (app w) → step w ev = Some w' → clipboard w' ≠ clipboard w →
  ev = User (ShareEvent ShareModal.ClickCopy) ∧
  clipboardAccess = ClipboardGranted ∧
  ∃ note, App.shareModal (app w) = Some note ∧ Note.isPublic note = true ∧
          clipboard w' = Some (origin +:+ "/share/" +:+ numToString (Note.id note)).
Proof.
  intros Hp Hs Hc.
  assert (ev = User (ShareEvent ShareModal.ClickCopy)) as ->.
  { destruct (step_clipboard w ev w' Hs) as [Hq| ->]; [by destruct Hc | done]. }
  destruct (copy_written w w' Hs Hc) as (Hg & note & Hm & Hw). eauto 8.
Qed.

End clipboard.

(** ** On the reference store *)

Section examples.
#[local] Existing Instance demo.

(** A loaded page over the seeded store, and the same page with the
    share modal open on the recipe. *)
Definition loaded_page : World RefStore.t :=
  mkWorld (App.mk [groceries; recipe; diary] false None "" None false None) None
    [] [] 0 None seeded.

Definition sharing : World RefStore.t :=
  mkWorld (App.mk [groceries; recipe; diary] false None "" (Some recipe) false None) None
    [] [] 0 None seeded.

Definition after_copy : World RefStore.t :=
  default sharing (step sharing (User (ShareEvent ShareModal.ClickCopy))).

Lemma search_anytime_witness :
  run (boot seeded)
    (User (SearchInput "milk") :: [Serve 0; Deliver 0; User ClickNewNote; Elapse 10]) =
  run (boot seeded)
    ([Serve 0; Deliver 0; User ClickNewNote; Elapse 10] ++ [User (SearchInput "milk")]).
Proof.
  apply (search_anytime (boot seeded) "milk"
           [Serve 0; Deliver 0; User ClickNewNote; Elapse 10]);
    [reflexivity | by repeat constructor].
Defined.

Lemma clipboard_written_witness :
  User (ShareEvent ShareModal.ClickCopy) = User (ShareEvent ShareModal.ClickCopy) ∧
  clipboardAccess = ClipboardGranted ∧
  ∃ note, App.shareModal (app sharing) = Some note ∧ Note.isPublic note = true ∧
          clipboard after_copy =
            Some (origin +:+ "/share/" +:+ numToString (Note.id note)).
Proof.
  apply (clipboard_written sharing _ after_copy);
    [by intros n [= <-] | reflexivity | done].
Defined.

(** The three kinds of event left out of [search_free] do depend on the
    search box.  A click on the first card edits the note the filter puts
    first; the "Create Note" button of the empty state exists once the
    term hides every note; and of two inputs the last one stays. *)
Example search_free_tight :
  ¬ commutes loaded_page (User (SearchInput "rain"))
      (User (ClickCard 0 NoteCard.EditButton)) ∧
  ¬ commutes loaded_page (User (SearchInput "zzz")) (User ClickCreateNote) ∧
  ¬ commutes loaded_page (User (SearchInput "rain")) (User (SearchInput "milk")).
Proof. unfold commutes. split_and!; vm_compute; intros [=]. Qed.

End examples.
