(* ===== verification/Typing.v ===== *)
(** * Well-formed worlds

    The typing discipline of the event loop.  A request in flight is
    [flight_typed] when it addresses the endpoint its suspended call
    expects (a suspended [fetchNotes] the list, a suspended [saveNote] the
    create or update endpoint with a titled payload, a suspended
    [deleteNote] the delete endpoint of an identifier of the array it
    captured), and when the answer it holds, if any, is one the endpoint
    can give.  A world is [wf_world] when its flights are typed and the
    invariants of [Invariants] hold together.  The first render is
    well-formed and every [step] preserves well-formedness, from any
    well-formed world, reachable or not.  Two consequences: the store
    never receives a request it cannot route or a payload without a
    title, and a load that was answered never takes the [catch] branch of
    [fetchNotes]. *)

From S2P Require Import Prelude JsString Model Editor Search Controller Views Store System.
From S2P Require Import Fine Invariants.

#[local] Open Scope N_scope.

(** ** The judgement *)

(** The endpoint a suspended call expects its request to reach. *)
Definition endpoint_ok (k : Cont) (rt : Route) : bool :=
  match k, rt with
  | AwaitFetchNotes _, RList => true
  | AwaitSave None, RCreate d => negb (blank (NoteData.title d))
  | AwaitSave (Some e), RUpdate id d =>
      bool_decide (id = Note.id e) && negb (blank (NoteData.title d))
  | AwaitDelete notes id, RDelete id' =>
      bool_decide (id' = id) && bool_decide (id ∈ ids notes)
  | _, _ => false
  end.

(** The answers an endpoint gives: a successful answer of the list
    carries a body that parses. *)
Definition reply_ok (rt : Route) (r : Response) : bool :=
  match rt with
  | RList => negb (ok r) || bool_decide (is_Some (json r))
  | _ => true
  end.

Definition flight_typed (f : Flight) : bool :=
  endpoint_ok (cont f) (route (request f)) &&
  match reply f with
  | Some r => reply_ok (route (request f)) r
  | None => true
  end.

(** The notification of the [catch] block of [fetchNotes] (App.js 24). *)
Definition load_failed : Notification.t :=
  Notification.mk "Failed to load notes" Notification.error.

Section typing.
Context `{Platform} {S : Type} `{NoteStore S}.
Implicit Types (w : World S) (a : Act) (f : Flight) (s : App.t).

Definition flights_typed w : Prop := Forall (λ f, flight_typed f = true) (flights w).

(** A well-formed world. *)
Record wf_world w : Prop := mk_wf {
  wf_unique : unique w;
  wf_flights : flights_typed w;
  wf_timers : timers_ok w;
  wf_editor : editor_synced w;
  wf_share : share_public (app w);
  wf_loading : loading_pending w;
}.

(** ** What the operations launch *)

Lemma launched_fetch req k : launched [Fetch req k] = [mkFlight req k None].
Proof. done. Qed.

Lemma flight_typed_launched req k :
  endpoint_ok k (route req) = true → flight_typed (mkFlight req k None) = true.
Proof. unfold flight_typed; simpl. by intros ->. Qed.

(** The requests of the four operations are typed. *)
Lemma fetchNotes_typed caller s :
  Forall (λ f, flight_typed f = true) (launched (effects (fetchNotes caller) s)).
Proof. by repeat constructor. Qed.

Lemma saveNote_typed e d s :
  blank (NoteData.title d) = false →
  Forall (λ f, flight_typed f = true) (launched (effects (saveNote e d) s)).
Proof.
  intros Hb. destruct e as [e|].
  - destruct (route_saveNote_edit e d s) as (req & -> & Hr).
    rewrite launched_fetch. repeat constructor. apply flight_typed_launched.
    rewrite Hr; simpl. by rewrite Hb, bool_decide_eq_true_2.
  - destruct (route_saveNote_create d s) as (req & -> & Hr).
    rewrite launched_fetch. repeat constructor. apply flight_typed_launched.
    rewrite Hr; simpl. by rewrite Hb.
Qed.

Lemma deleteNote_typed notes id s :
  id ∈ ids notes →
  Forall (λ f, flight_typed f = true) (launched (effects (deleteNote notes id) s)).
Proof.
  intros Hin. destruct (route_deleteNote notes id s) as (req & -> & Hr).
  rewrite launched_fetch. repeat constructor. apply flight_typed_launched.
  rewrite Hr; simpl. by rewrite !bool_decide_eq_true_2.
Qed.

Lemma handler_typed s a :
  handler s a → Forall (λ f, flight_typed f = true) (launched (effects a s)).
Proof.
  destruct 1; try by constructor.
  - by apply deleteNote_typed, elem_of_ids.
  - by apply saveNote_typed.
Qed.

Lemma resume_typed k o s :
  Forall (λ f, flight_typed f = true) (launched (effects (resume k o) s)).
Proof.
  resume_cases k o; simpl; rewrite ?app_nil_r; try case_match;
    repeat constructor; done.
Qed.

(** ** Answers *)

Lemma flight_typed_answer f r :
  flight_typed f = true → reply_ok (route (request f)) r = true →
  flight_typed (mkFlight (request f) (cont f) (Some r)) = true.
Proof.
  unfold flight_typed; simpl. intros [-> _]%andb_true_iff ->. done.
Qed.

(** What a well-formed store answers is an answer of the endpoint. *)
Lemma reply_ok_handle rt (x : S) :
  store_wf x → reply_ok rt (store_handle rt x).2 = true.
Proof. intros Hwf. destruct rt; try done. by rewrite store_list. Qed.

Lemma reply_ok_refused rt status :
  ok (mkResponse status None) = false → reply_ok rt (mkResponse status None) = true.
Proof. intros Hok. destruct rt; try done. simpl. by rewrite Hok. Qed.

Lemma answer_typed i f r (x : S) w :
  flights w !! i = Some f → reply_ok (route (request f)) r = true →
  flights_typed w → flights_typed (answer i f r x w).
Proof.
  intros Hf Hr Hfs. apply Forall_insert; [done |].
  apply flight_typed_answer; [|done].
  eapply (proj1 (Forall_forall _ _) Hfs), list_elem_of_lookup_2, Hf.
Qed.

Lemma commit_typed a ed w :
  Forall (λ f, flight_typed f = true) (launched (effects a (app w))) →
  flights_typed w → flights_typed (commit a ed w).
Proof. intros Ha Hfs. rewrite commit_eq. by apply Forall_app. Qed.

Lemma elapse_flights ms w : flights (elapse ms w) = flights w.
Proof.
  destruct (decide (filter (due (now w + ms)) (timers w) = [])).
  - by rewrite elapse_idle.
  - by rewrite elapse_fire.
Qed.

Lemma elapse_store ms w : store (elapse ms w) = store w.
Proof.
  destruct (decide (filter (due (now w + ms)) (timers w) = [])).
  - by rewrite elapse_idle.
  - by rewrite elapse_fire.
Qed.

(** ** Preservation *)

Lemma turn_flights_typed w w' :
  store_wf (store w) → turn w w' → flights_typed w → flights_typed w'.
Proof.
  intros Hwf. destruct 1 as [a ed Ha|i f Hf _|i f st Hf _ Hok|i f r Hf _|i f Hf|ms].
  - by apply commit_typed, handler_typed.
  - by apply answer_typed, reply_ok_handle.
  - by apply answer_typed, reply_ok_refused.
  - intros Hfs. apply commit_typed; [apply resume_typed | by apply Forall_delete].
  - intros Hfs. apply commit_typed; [apply resume_typed | by apply Forall_delete].
  - unfold flights_typed. by rewrite elapse_flights.
Qed.

Lemma turn_wf w w' : turn w w' → wf_world w → wf_world w'.
Proof.
  intros Ht [Hu Hf Htm He Hs Hl]. pose proof Hu as (Hwf & _).
  constructor;
    eauto using turn_unique, turn_flights_typed, turn_timers_ok, turn_editor_synced,
      turn_share_public, turn_loading_pending.
Qed.

Lemma boot_wf (x : S) : store_wf x → wf_world (boot x).
Proof.
  intros Hwf. constructor;
    [by apply boot_unique | by repeat constructor | apply boot_timers_ok | done
    | done | apply boot_loading_pending].
Qed.

Lemma reachable_wf (x : S) w : store_wf x → reachable (boot x) w → wf_world w.
Proof.
  intros Hwf. apply (reachable_turn_ind wf_world); [by apply boot_wf |].
  intros ???. by apply turn_wf.
Qed.

(** The worlds of the loop that resumes [fetchNotes] at each of its two
    awaits are well-formed too. *)
Lemma fine_wf (x : S) fevs fw :
  store_wf x → frun (mkFWorld (boot x) []) fevs = Some fw → wf_world (coarse fw).
Proof.
  intros Hwf Hrun%frun_coarse; [|done].
  eapply reachable_wf; [done |]. by eapply run_reachable.
Qed.

(** C14: well-formedness is preserved.  Every turn of the event loop,
    from any well-formed world, leads to a well-formed world: the flights
    stay typed, the identifiers distinct, the timers within their delay,
    the editor mounted exactly when rendered, the share modal on a public
    note and the spinner backed by the mount fetch. *)
Theorem step_preserves_wf w ev w' : wf_world w → step w ev = Some w' → wf_world w'.
Proof. intros Hw Hs%step_turn. by eapply turn_wf. Qed.

(** ** Consequences *)

Lemma flight_typed_lookup w i f :
  flights_typed w → flights w !! i = Some f → flight_typed f = true.
Proof.
  intros Hfs Hf. eapply (proj1 (Forall_forall _ _) Hfs), list_elem_of_lookup_2, Hf.
Qed.

(** The endpoint of a typed flight, by suspended call. *)
Lemma flight_typed_route f :
  flight_typed f = true →
  match cont f with
  | AwaitFetchNotes _ => route (request f) = RList
  | AwaitSave None =>
      ∃ d, route (request f) = RCreate d ∧ blank (NoteData.title d) = false
  | AwaitSave (Some e) =>
      ∃ d, route (request f) = RUpdate (Note.id e) d ∧ blank (NoteData.title d) = false
  | AwaitDelete notes id => route (request f) = RDelete id ∧ id ∈ ids notes
  end.
Proof.
  unfold flight_typed. intros [He _]%andb_true_iff.
  destruct (cont f) as [c|[e|]|notes id], (route (request f)) as [|d|id' d|id'|];
    simpl in He; try done.
  - apply andb_true_iff in He as [->%bool_decide_eq_true ?%negb_true_iff]. eauto.
  - apply negb_true_iff in He. eauto.
  - by apply andb_true_iff in He as [->%bool_decide_eq_true ?%bool_decide_eq_true].
Qed.

(** An answered load parses: its [catch] branch is dead. *)
Lemma typed_load_parses f caller r :
  flight_typed f = true → cont f = AwaitFetchNotes caller → reply f = Some r →
  load_throws (Resolved r) = false.
Proof.
  intros Ht Hc Hr. pose proof (flight_typed_route f Ht) as Hrt. rewrite Hc in Hrt.
  revert Ht. unfold flight_typed. rewrite Hr, Hrt. simpl.
  intros [_ [Hok|[l Hj]%bool_decide_eq_true]%orb_true_iff]%andb_true_iff.
  - apply negb_true_iff in Hok. by rewrite Hok.
  - by rewrite Hj, bool_decide_eq_false_2, andb_false_r.
Qed.

(** The store is never asked something the client did not mean: every
    request in flight reaches an endpoint of the contract, and a payload
    it carries has a title with a visible character. *)
Lemma requests_well_formed w i f :
  flights_typed w → flights w !! i = Some f →
  route (request f) ≠ RUnknown ∧
  ∀ d, route (request f) = RCreate d ∨ (∃ id, route (request f) = RUpdate id d) →
       blank (NoteData.title d) = false.
Proof.
  intros Hfs Hf. pose proof (flight_typed_route f (flight_typed_lookup w i f Hfs Hf)) as Hr.
  destruct (cont f) as [c|[e|]|notes id]; [| destruct Hr as (d & Hr & Hb)..
                                           | destruct Hr as [Hr _]];
    rewrite Hr; (split; [done |]); intros d' [[=]|[id' [=]]]; by subst.
Qed.

(** ** Where "Failed to load notes" comes from *)

(** A user event shows at most "Share link copied!". *)
Lemma handler_notification s a :
  handler s a →
  App.notification (exec a s) = App.notification s ∨
  App.notification (exec a s) =
    Some (Notification.mk "Share link copied!" Notification.success).
Proof. destruct 1; auto. Qed.

(** A resumed call leaves [load_failed] on the page only when it is the
    mount fetch and its [catch] branch ran. *)
Lemma resume_load_failed k o s :
  App.notification (exec (resume k o) s) = Some load_failed →
  App.notification s = Some load_failed ∨
  (k = AwaitFetchNotes None ∧ load_throws o = true).
Proof. resume_cases k o; try destruct e; intros Hn; auto; discriminate. Qed.

(** In a well-formed world the message "Failed to load notes"
    appears only when the request of the mount fetch fails in the network.
    An answer of the store, whatever its status, never shows it, and the
    failure of the refresh that follows a save is covered by the message
    of the save. *)
Theorem load_error_needs_drop w ev w' :
  wf_world w → step w ev = Some w' →
  App.notification (app w') = Some load_failed →
  App.notification (app w) = Some load_failed ∨
  ∃ i f, ev = Drop i ∧ flights w !! i = Some f ∧ cont f = AwaitFetchNotes None.
Proof.
  intros Hw Hs. pose proof (wf_flights w Hw) as Hfs.
  destruct ev as [e|i|i status|i|i|ms]; simpl in Hs.
  - destruct (dispatch _ _ e) as [[a ed]|] eqn:E; [|done]. injection Hs as <-.
    rewrite commit_eq; simpl. intros Hn.
    destruct (handler_notification (app w) a) as [Ha|Ha];
      [eauto using dispatch_handler | left; congruence | rewrite Ha in Hn; discriminate].
  - repeat case_match; simplify_eq; by left.
  - repeat case_match; simplify_eq; by left.
  - destruct (flights w !! i) as [f|] eqn:E; [|done].
    destruct (reply f) as [r|] eqn:Er; [|done]. injection Hs as <-.
    rewrite commit_eq; simpl. intros [Hn|[Hk Ht]]%resume_load_failed; [by left |].
    by rewrite (typed_load_parses f None r) in Ht by eauto using flight_typed_lookup.
  - destruct (flights w !! i) as [f|] eqn:E; [|done]. injection Hs as <-.
    rewrite commit_eq; simpl. intros [Hn|[Hk _]]%resume_load_failed; [by left |].
    right; eauto.
  - injection Hs as <-. intros Hn.
    by destruct (elapse_app ms w) as [Ha|Ha]; rewrite Ha in Hn; [left |].
Qed.

End typing.

(** ** On the reference store *)

Section examples.
#[local] Existing Instance demo.

Lemma step_preserves_wf_witness :
  wf_world (default (boot seeded) (@step demo _ _ (boot seeded) (Serve 0))).
Proof.
  apply (@step_preserves_wf demo _ _ (boot seeded) (Serve 0));
    [apply boot_wf, seeded_wf | reflexivity].
Defined.

Lemma load_error_needs_drop_witness :
  App.notification (app (boot seeded)) = Some load_failed ∨
  ∃ i f, Drop 0 = Drop i ∧ flights (boot seeded) !! i = Some f ∧
         cont f = AwaitFetchNotes None.
Proof.
  apply (@load_error_needs_drop demo _ _ (boot seeded) (Drop 0)
           (default (boot seeded) (@step demo _ _ (boot seeded) (Drop 0))));
    [apply boot_wf, seeded_wf | reflexivity | reflexivity].
Defined.

End examples.
