(* ===== verification/History.v ===== *)
(** * Histories

    What a run of the application makes observable, in order: the
    requests that leave the page, what the store answers when it handles
    one, the requests that fail in the network, the notifications the page
    displays after a handler has run, and the texts passed to the
    clipboard.  A [Logged] world carries this history beside the world of
    [System]; erasing the history gives the run of [System].

    The theorems say what the feedback of the page is worth.  A success
    message of an operation is displayed only after the store has handled
    the request of that operation with a success; an error message only
    after a request of that operation has failed in the network.  The
    converses fail (see [Overlap]).  The number of requests sent is
    bounded by what the user clicked: the page sends one request when it
    mounts, at most two for a click on save and one for a click on delete;
    it never polls and never retries. *)

From S2P Require Import Prelude JsString Model Editor Search Controller Views Store System.
From S2P Require Import Invariants Typing.

#[local] Open Scope N_scope.

(** ** Observations *)

Inductive Obs : Type :=
| Sent (req : Request)                 (* a [fetch] left the page *)
| Handled (rt : Route) (r : Response)  (* the store handled a request *)
| Lost (req : Request)                 (* a request failed in the network *)
| Shown (n : Notification.t)           (* the page displays a notification *)
| Written (text : string).             (* [writeText] was called *)

#[export] Instance Obs_eq_dec : EqDecision Obs.
Proof. solve_decision. Defined.

(** The requests and clipboard writes among the effects of an update. *)
Definition started (es : list Effect) : list Obs :=
  omap (λ e, match e with
             | Fetch req _ => Some (Sent req)
             | ClipboardWriteText text => Some (Written text)
             | SetTimeout _ _ => None
             end) es.

(** The notification an update leaves on the page: the one of the cells
    after it, when the update called [showNotification]. *)
Definition displays (es : list Effect) (s' : App.t) : option Notification.t :=
  if existsb is_timeout es then App.notification s' else None.

(** What an update makes observable when it is committed. *)
Definition announced (a : Act) (s : App.t) : list Obs :=
  started (effects a s) ++ option_list (Shown <$> displays (effects a s) (exec a s)).

(** The success message of an endpoint, and its error message. *)
Definition backs (rt : Route) (message : string) : Prop :=
  match rt with
  | RCreate _ => message = "Note created!"
  | RUpdate _ _ => message = "Note updated!"
  | RDelete _ => message = "Note deleted!"
  | RList | RUnknown => False
  end.

Definition blames (rt : Route) (message : string) : Prop :=
  match rt with
  | RList => message = "Failed to load notes"
  | RCreate _ | RUpdate _ _ => message = "Failed to save note"
  | RDelete _ => message = "Failed to delete note"
  | RUnknown => False
  end.

(** The endpoint a save addresses, by the [editingNote] it captured. *)
Definition saves (editingNote : option Note.t) (rt : Route) : Prop :=
  match editingNote, rt with
  | None, RCreate _ => True
  | Some e, RUpdate id _ => id = Note.id e
  | _, _ => False
  end.

(** What a click costs in requests: a save sends its request and, when
    it succeeds, the refresh; a delete sends one request. *)
Definition cost (ev : Event) : nat :=
  match ev with
  | User (EditorEvent Editor.ClickSave) => 2
  | User (ClickCard _ NoteCard.DeleteButton) => 1
  | _ => 0
  end.

Definition is_sent (o : Obs) : bool := if o is Sent _ then true else false.

Definition is_save (k : Cont) : bool := if k is AwaitSave _ then true else false.

(** The saves among the suspended calls: each may still send its
    refresh. *)
Definition saving (ks : list Cont) : nat := length (filter (λ k, is_save k = true) ks).

(** The number of requests sent in a history. *)
Definition sent (l : list Obs) : nat := length (filter (λ o, is_sent o = true) l).

(** What vouches for a notification in the history before it: for the
    message of the copy button a call of [writeText], for another success
    message a success of the store on the endpoint the message names, for
    an error message the loss of a request to the endpoint it names. *)
Definition vouched (pre : list Obs) (n : Notification.t) : Prop :=
  match Notification.type n with
  | Notification.success =>
      (Notification.message n = "Share link copied!" ∧ ∃ text, Written text ∈ pre) ∨
      ∃ rt r, Handled rt r ∈ pre ∧ ok r = true ∧ backs rt (Notification.message n)
  | Notification.error =>
      ∃ req, Lost req ∈ pre ∧ blames (route req) (Notification.message n)
  end.

(** A history in which every notification is vouched for by what
    precedes it. *)
Definition truthful (l : list Obs) : Prop :=
  ∀ i n, l !! i = Some (Shown n) → vouched (take i l) n.

(** What the history holds for a request in flight: a successful answer
    it carries was given by the store, and a refresh on behalf of a save
    follows a success of the store on the endpoint of that save. *)
Definition flight_backed (l : list Obs) (f : Flight) : Prop :=
  (∀ r, reply f = Some r → ok r = true → Handled (route (request f)) r ∈ l) ∧
  (∀ e, cont f = AwaitFetchNotes (Some e) →
        ∃ rt r, Handled rt r ∈ l ∧ ok r = true ∧ saves e rt).

Record Logged (S : Type) : Type := mkLogged {
  world : World S;
  log : list Obs;
}.

Arguments mkLogged {S}.
Arguments world {S}.
Arguments log {S}.

Section history.
Context `{Platform} {S : Type} `{NoteStore S}.
Implicit Types (w : World S) (lw : Logged S) (a : Act) (s : App.t) (f : Flight).
Implicit Types (l : list Obs) (es : list Effect) (n : Notification.t).

(** The update an event runs, if it runs one. *)
Definition update_of w (ev : Event) : option Act :=
  match ev with
  | User e => fst <$> dispatch (app w) (editor w) e
  | Deliver i => f ← flights w !! i; r ← reply f; Some (resume (cont f) (Resolved r))
  | Drop i => f ← flights w !! i; Some (resume (cont f) Rejected)
  | Serve _ | Refuse _ _ | Elapse _ => None
  end.

(** What the network shows of an event. *)
Definition network w (ev : Event) : list Obs :=
  match ev with
  | Serve i =>
      match flights w !! i with
      | Some f =>
          [Handled (route (request f)) (store_handle (route (request f)) (store w)).2]
      | None => []
      end
  | Drop i => from_option (λ f, [Lost (request f)]) [] (flights w !! i)
  | User _ | Refuse _ _ | Deliver _ | Elapse _ => []
  end.

(** What one turn makes observable. *)
Definition observe w (ev : Event) : list Obs :=
  network w ev ++ from_option (λ a, announced a (app w)) [] (update_of w ev).

(** One turn, and a run, with their history. *)
Definition lstep lw (ev : Event) : option (Logged S) :=
  (λ w', mkLogged w' (log lw ++ observe (world lw) ev)) <$> step (world lw) ev.

Fixpoint lrun lw (evs : list Event) : option (Logged S) :=
  match evs with
  | [] => Some lw
  | ev :: evs' => lstep lw ev ≫= λ lw', lrun lw' evs'
  end.

(** The first render: the mount effect sends the first request. *)
Definition start (x : S) : Logged S :=
  mkLogged (boot x) (announced onMount App.initial).

(** ** The history is a ghost *)

Lemma lstep_world lw ev : world <$> lstep lw ev = step (world lw) ev.
Proof. unfold lstep. by destruct (step (world lw) ev). Qed.

(** Erasing the history of a run gives the run of [System]. *)
Lemma lrun_world lw evs : world <$> lrun lw evs = run (world lw) evs.
Proof.
  revert lw. induction evs as [|ev evs IH]; intros lw; [done |].
  rewrite run_cons, <-lstep_world. simpl.
  destruct (lstep lw ev) as [lw'|]; [apply IH | done].
Qed.

(** Every run of [System] has a history. *)
Lemma lrun_total lw evs w' :
  run (world lw) evs = Some w' → ∃ l, lrun lw evs = Some (mkLogged w' l).
Proof.
  rewrite <-lrun_world. destruct (lrun lw evs) as [[w l]|]; [|done].
  intros [= <-]. eauto.
Qed.

(** Induction on the runs from a logged world. *)
Lemma lrun_ind (P : Logged S → Prop) lw0 evs lw :
  P lw0 → (∀ lw1 ev lw2, P lw1 → lstep lw1 ev = Some lw2 → P lw2) →
  lrun lw0 evs = Some lw → P lw.
Proof.
  intros Hinit Hstep. revert lw0 Hinit.
  induction evs as [|ev evs IH]; intros lw0 Hinit; simpl.
  - by intros [= <-].
  - destruct (lstep lw0 ev) as [lw1|] eqn:Hs; [|done]. eauto.
Qed.

(** A turn appends to the history. *)
Lemma lstep_inv lw ev lw' :
  lstep lw ev = Some lw' →
  step (world lw) ev = Some (world lw') ∧ log lw' = log lw ++ observe (world lw) ev.
Proof.
  unfold lstep. destruct (step (world lw) ev) as [w'|]; [|done]. by intros [= <-].
Qed.

(** ** What an update announces *)

Lemma elem_of_announced_Shown a s n :
  Shown n ∈ announced a s ↔ displays (effects a s) (exec a s) = Some n.
Proof.
  unfold announced. rewrite elem_of_app. split.
  - intros [(e & _ & He)%list_elem_of_omap|Hn]; [by destruct e |].
    destruct (displays _ _) as [n'|]; simpl in Hn; [|by apply elem_of_nil in Hn].
    apply list_elem_of_singleton in Hn. congruence.
  - intros ->. right. apply list_elem_of_here.
Qed.

Lemma elem_of_started_Sent es req :
  Sent req ∈ started es ↔ ∃ k, Fetch req k ∈ es.
Proof.
  unfold started. rewrite list_elem_of_omap. split.
  - intros (e & He & Heq). destruct e; simplify_eq. eauto.
  - intros [k Hk]. by exists (Fetch req k).
Qed.

Lemma sent_app l1 l2 : sent (l1 ++ l2) = (sent l1 + sent l2)%nat.
Proof. unfold sent. by rewrite filter_app, length_app. Qed.

Lemma started_cons e es : started (e :: es) = started [e] ++ started es.
Proof. by destruct e. Qed.

(** The requests an update sends are the flights it launches. *)
Lemma sent_started es : sent (started es) = length (launched es).
Proof.
  induction es as [|e es IH]; [done |].
  rewrite started_cons, sent_app, IH. by destruct e.
Qed.

Lemma sent_shown (o : option Notification.t) : sent (option_list (Shown <$> o)) = 0%nat.
Proof. by destruct o. Qed.

Lemma sent_announced a s : sent (announced a s) = length (launched (effects a s)).
Proof. unfold announced. rewrite sent_app, sent_started, sent_shown. lia. Qed.

(** A user event shows at most "Share link copied!", after calling
    [writeText]. *)
Lemma handler_shows s a n :
  handler s a → displays (effects a s) (exec a s) = Some n →
  n = Notification.mk "Share link copied!" Notification.success ∧
  ∃ text, Written text ∈ started (effects a s).
Proof.
  destruct 1; unfold displays; simpl; try done.
  intros [= <-]. split; [done |]. eexists. apply list_elem_of_here.
Qed.

(** What a resumed call shows, by the call and the outcome of its
    request. *)
Lemma resume_shows k o s n :
  displays (effects (resume k o) s) (exec (resume k o) s) = Some n →
  match k, o with
  | AwaitFetchNotes None, _ => n = load_failed ∧ load_throws o = true
  | AwaitFetchNotes (Some e), _ =>
      n = Notification.mk (if e is Some _ then "Note updated!" else "Note created!")
            Notification.success
  | AwaitSave _, Rejected =>
      n = Notification.mk "Failed to save note" Notification.error
  | AwaitSave _, Resolved _ => False
  | AwaitDelete _ _, Rejected =>
      n = Notification.mk "Failed to delete note" Notification.error
  | AwaitDelete _ _, Resolved r =>
      ok r = true ∧ n = Notification.mk "Note deleted!" Notification.success
  end.
Proof.
  unfold displays. resume_cases k o; simpl; rewrite ?app_nil_r; simpl;
    intros Hn; simplify_eq; done.
Qed.

(** The only request a resumed call sends is the refresh after a save
    the store accepted. *)
Lemma resume_launches k o s f :
  f ∈ launched (effects (resume k o) s) →
  reply f = None ∧
  ∃ e r, k = AwaitSave e ∧ o = Resolved r ∧ ok r = true ∧
         cont f = AwaitFetchNotes (Some e).
Proof.
  resume_cases k o; simpl; rewrite ?app_nil_r; simpl;
    try (by intros ?%elem_of_nil).
  all: intros ->%list_elem_of_singleton; eauto 8.
Qed.

(** ** Truthful histories *)

Lemma vouched_mono pre pre' n : pre ⊆ pre' → vouched pre n → vouched pre' n.
Proof.
  unfold vouched. intros Hsub. destruct (Notification.type n).
  - intros [[? [text ?]]|(rt & r & ? & ? & ?)]; [left | right]; eauto 8.
  - intros (req & ? & ?). eauto.
Qed.

Lemma flight_backed_mono l l' f : l ⊆ l' → flight_backed l f → flight_backed l' f.
Proof.
  intros Hsub [H1 H2]. split; [by eauto |].
  intros e He. destruct (H2 e He) as (rt & r & ? & ? & ?). eauto 8.
Qed.

(** A flight that carries no answer and is no refresh of a save needs
    nothing from the history. *)
Lemma flight_backed_fresh l f :
  reply f = None → (∀ e, cont f ≠ AwaitFetchNotes (Some e)) → flight_backed l f.
Proof. intros Hr Hc. split; [by rewrite Hr | intros e He; by destruct (Hc e)]. Qed.

(** Extending a truthful history by observations that end with at most
    one notification. *)
Lemma truthful_app l pre (o : option Notification.t) :
  truthful l → (∀ n, Shown n ∉ pre) → (∀ n, o = Some n → vouched (l ++ pre) n) →
  truthful (l ++ pre ++ option_list (Shown <$> o)).
Proof.
  intros Hl Hpre Ho i n Hi. rewrite app_assoc in *.
  destruct (decide (i < length (l ++ pre))%nat) as [Hlt|Hge].
  - rewrite lookup_app_l in Hi by done. rewrite take_app_le by lia.
    destruct (decide (i < length l)%nat).
    + rewrite lookup_app_l in Hi by done. rewrite take_app_le by lia. by apply Hl.
    + rewrite lookup_app_r in Hi by lia. by apply list_elem_of_lookup_2, Hpre in Hi.
  - rewrite lookup_app_r in Hi by lia. destruct o as [n'|]; [|done].
    apply list_lookup_singleton_Some in Hi as [Hi [= <-]].
    rewrite take_app_length' by lia. by apply Ho.
Qed.

(** The invariant: the world is well-formed, its flights are backed by
    the history, and the history is truthful. *)
Record sound lw : Prop := mk_sound {
  sound_wf : wf_world (world lw);
  sound_flights : Forall (flight_backed (log lw)) (flights (world lw));
  sound_log : truthful (log lw);
}.

(** ** One turn *)

(** The observations of a turn, the notification apart. *)
Definition quiet w (ev : Event) : list Obs :=
  network w ev ++ from_option (λ a, started (effects a (app w))) [] (update_of w ev).

Definition shown w (ev : Event) : option Notification.t :=
  update_of w ev ≫= λ a, displays (effects a (app w)) (exec a (app w)).

(** What a lost request leaves in the history. *)
Definition lost (o : Outcome) f : list Obs :=
  if o is Rejected then [Lost (request f)] else [].

Lemma observe_eq w ev :
  observe w ev = quiet w ev ++ option_list (Shown <$> shown w ev).
Proof.
  unfold observe, quiet, shown.
  destruct (update_of w ev) as [a|]; simpl; [apply app_assoc | by rewrite !app_nil_r].
Qed.

Lemma quiet_no_Shown w ev n : Shown n ∉ quiet w ev.
Proof.
  unfold quiet, network. rewrite elem_of_app. intros [Hn|Hn].
  - destruct ev as [e|i|i status|i|i|ms]; try (by apply elem_of_nil in Hn);
      destruct (flights w !! i); simpl in Hn;
      by first [apply elem_of_nil in Hn | apply list_elem_of_singleton in Hn].
  - destruct (update_of w ev); simpl in Hn; [|by apply elem_of_nil in Hn].
    apply list_elem_of_omap in Hn as (e & _ & He). by destruct e.
Qed.

(** The notification a settled request shows is vouched for. *)
Lemma settle_vouched l f o s n :
  flight_typed f = true → flight_backed l f → settles f o →
  displays (effects (resume (cont f) o) s) (exec (resume (cont f) o) s) = Some n →
  vouched (l ++ lost o f) n.
Proof.
  intros Ht [Hb1 Hb2] Ho Hn%resume_shows. pose proof (flight_typed_route f Ht) as Hrt.
  assert (∀ r, o = Resolved r → reply f = Some r) as Hr
    by (intros r ->; by destruct Ho as [|(r' & ? & [= <-])]).
  destruct (cont f) as [[e|]|e|notes id] eqn:Hc.
  - destruct (Hb2 e eq_refl) as (rt & r & Hin & Hok & Hs). subst n. right.
    exists rt, r. rewrite elem_of_app. split_and!; [by left | done |].
    by destruct e, rt.
  - destruct Hn as [-> Hthrow], o as [|r].
    + exists (request f). rewrite elem_of_app, Hrt. split; [right; apply list_elem_of_here | done].
    + by rewrite (typed_load_parses f None r) in Hthrow by eauto.
  - destruct o as [|r]; [subst n | done]. exists (request f). rewrite elem_of_app.
    split; [right; apply list_elem_of_here |]. by destruct e, Hrt as (d & -> & _).
  - destruct Hrt as [Hrt _], o as [|r].
    + subst n. exists (request f). rewrite elem_of_app, Hrt.
      split; [right; apply list_elem_of_here | done].
    + destruct Hn as [Hok ->]. right. exists (route (request f)), r.
      rewrite elem_of_app. split_and!; [left; eauto | done | by rewrite Hrt].
Qed.

(** The refresh a settled save starts is backed by the answer to the
    save. *)
Lemma settle_launched_backed l f o s :
  flight_typed f = true → flight_backed l f → settles f o →
  Forall (flight_backed l) (launched (effects (resume (cont f) o) s)).
Proof.
  intros Ht [Hb1 _] Ho. apply Forall_forall. intros f' Hf'.
  apply resume_launches in Hf' as (Hr & e & r & Hk & -> & Hok & Hc).
  split; [by rewrite Hr |]. intros e' He'. rewrite Hc in He'. injection He' as <-.
  destruct Ho as [|(r' & Hr' & [= <-])]; [done |].
  exists (route (request f)), r. split_and!; [by apply Hb1 | done |].
  pose proof (flight_typed_route f Ht) as Hrt. rewrite Hk in Hrt.
  by destruct e, Hrt as (d & -> & _).
Qed.

Lemma handler_launched_backed l s a :
  handler s a → Forall (flight_backed l) (launched (effects a s)).
Proof. destruct 1; repeat constructor; by apply flight_backed_fresh. Qed.

Lemma answered_backed l f r :
  flight_backed l f → (ok r = true → Handled (route (request f)) r ∈ l) →
  flight_backed l (mkFlight (request f) (cont f) (Some r)).
Proof. intros [_ H2] Hr. split; simpl; [by intros ? [= <-] | done]. Qed.

(** The notification a turn shows is vouched for by the history and the
    other observations of the turn. *)
Lemma shown_vouched lw ev n :
  sound lw → shown (world lw) ev = Some n →
  vouched (log lw ++ quiet (world lw) ev) n.
Proof.
  intros [Hwf Hfs Hl]. pose proof (wf_flights _ Hwf) as Hty.
  rewrite Forall_forall in Hfs. unfold shown, quiet.
  destruct ev as [e|i|i status|i|i|ms]; simpl; try done.
  - destruct (dispatch _ _ e) as [[a ed]|] eqn:E; [|done]. simpl. intros Hn.
    destruct (handler_shows (app (world lw)) a n) as [-> [text Ht]];
      [eauto using dispatch_handler | done |].
    left. split; [done |]. exists text. rewrite elem_of_app. by right.
  - destruct (flights (world lw) !! i) as [f|] eqn:E; [|done]. simpl.
    destruct (reply f) as [r|] eqn:Er; [|done]. simpl. intros Hn.
    rewrite <-(app_nil_r (log lw)).
    eapply vouched_mono, (settle_vouched (log lw) f (Resolved r));
      [by apply list_subseteq_app_l | | apply Hfs | right | done];
      eauto using flight_typed_lookup, list_elem_of_lookup_2.
  - destruct (flights (world lw) !! i) as [f|] eqn:E; [|done]. simpl. intros Hn.
    eapply vouched_mono, (settle_vouched (log lw) f Rejected);
      [intros x; unfold lost; rewrite !elem_of_app, !elem_of_cons, ?elem_of_nil; tauto
      | | apply Hfs | by left | done];
      eauto using flight_typed_lookup, list_elem_of_lookup_2.
Qed.

Lemma lookup_backed l w i f :
  Forall (flight_backed l) (flights w) → flights w !! i = Some f → flight_backed l f.
Proof.
  intros Hfs Hf. exact (proj1 (Forall_forall _ _) Hfs f (list_elem_of_lookup_2 _ _ _ Hf)).
Qed.

(** The flights after a turn are backed by the history after it. *)
Lemma step_flights_backed lw ev w' :
  sound lw → step (world lw) ev = Some w' →
  Forall (flight_backed (log lw ++ observe (world lw) ev)) (flights w').
Proof.
  intros [Hwf Hfs Hl] Hstep%step_fires. pose proof (wf_flights _ Hwf) as Hty.
  assert (Forall (flight_backed (log lw ++ observe (world lw) ev))
            (flights (world lw))) as Hold.
  { eapply Forall_impl; [exact Hfs |].
    intros f. by apply flight_backed_mono, list_subseteq_app_l. }
  destruct Hstep as [e a ed E|i f E Er|i f status E Er Eo|i f r E Er|i f E|ms];
    rewrite ?commit_eq, ?elapse_flights; cbn [flights answer land]; [| | | | |done].
  - apply Forall_app. eauto using handler_launched_backed, dispatch_handler.
  - apply Forall_insert; [done |]. apply answered_backed; [by eapply lookup_backed |].
    intros _. unfold observe; simpl. rewrite E. simpl.
    rewrite elem_of_app. right. apply list_elem_of_here.
  - apply Forall_insert; [done |]. apply answered_backed; [by eapply lookup_backed |].
    by rewrite Eo.
  - apply Forall_app. split; [by apply Forall_delete |].
    apply (settle_launched_backed _ f);
      [by eapply flight_typed_lookup | by eapply lookup_backed | right; eauto].
  - apply Forall_app. split; [by apply Forall_delete |].
    apply (settle_launched_backed _ f);
      [by eapply flight_typed_lookup | by eapply lookup_backed | by left].
Qed.

(** Soundness is an invariant of the logged runs. *)
Lemma lstep_sound lw ev lw' : sound lw → lstep lw ev = Some lw' → sound lw'.
Proof.
  intros Hs [Hstep Hlog]%lstep_inv. constructor.
  - eapply turn_wf; [eapply step_turn, Hstep | by destruct Hs].
  - rewrite Hlog. by apply step_flights_backed.
  - rewrite Hlog, observe_eq.
    apply truthful_app; [by destruct Hs | apply quiet_no_Shown |].
    intros n Hn. by apply shown_vouched.
Qed.

Lemma start_sound (x : S) : store_wf x → sound (start x).
Proof.
  intros Hwf. constructor; simpl.
  - by apply boot_wf.
  - repeat constructor; by apply flight_backed_fresh.
  - intros [|[|i]] n; simpl; intros [=].
Qed.

Lemma lrun_sound (x : S) evs lw :
  store_wf x → lrun (start x) evs = Some lw → sound lw.
Proof.
  intros Hwf. apply (lrun_ind sound); [by apply start_sound |].
  intros lw1 ev lw2. apply lstep_sound.
Qed.

(** C22: a success message is real.  In the history of every run from
    the first render, a notification of success other than the message of
    the copy button is preceded by an answer of the store, with a success
    status, on the endpoint the message names: "Note created!" by a
    handled POST, "Note updated!" by a handled PUT, "Note deleted!" by a
    handled DELETE. *)
Theorem success_is_real (x : S) evs lw i n :
  store_wf x → lrun (start x) evs = Some lw →
  log lw !! i = Some (Shown n) → Notification.type n = Notification.success →
  Notification.message n ≠ "Share link copied!" →
  ∃ j rt r, (j < i)%nat ∧ log lw !! j = Some (Handled rt r) ∧ ok r = true ∧
            backs rt (Notification.message n).
Proof.
  intros Hwf Hrun Hi Hk Hm.
  pose proof (sound_log _ (lrun_sound x evs lw Hwf Hrun) i n Hi) as Hv.
  unfold vouched in Hv. rewrite Hk in Hv.
  destruct Hv as [[? _]|(rt & r & Hin & Hok & Hb)]; [done |].
  apply elem_of_take in Hin as (j & Hj & Hlt). eauto 10.
Qed.

(** C32: an error message needs a failure of the network.  In the
    history of every run from the first render, a notification of error
    is preceded by the loss of a request to the endpoint the message
    names.  An answer of the store, whatever its status, never shows an
    error. *)
Theorem errors_need_loss (x : S) evs lw i n :
  store_wf x → lrun (start x) evs = Some lw →
  log lw !! i = Some (Shown n) → Notification.type n = Notification.error →
  ∃ j req, (j < i)%nat ∧ log lw !! j = Some (Lost req) ∧
           blames (route req) (Notification.message n).
Proof.
  intros Hwf Hrun Hi Hk.
  pose proof (sound_log _ (lrun_sound x evs lw Hwf Hrun) i n Hi) as Hv.
  unfold vouched in Hv. rewrite Hk in Hv. destruct Hv as (req & Hin & Hb).
  apply elem_of_take in Hin as (j & Hj & Hlt). eauto 10.
Qed.

(** ** Traffic *)

Implicit Types (ks : list Cont) (k : Cont).

Lemma saving_app ks1 ks2 : saving (ks1 ++ ks2) = (saving ks1 + saving ks2)%nat.
Proof. unfold saving. by rewrite filter_app, length_app. Qed.

Lemma saving_cons k ks :
  saving (k :: ks) = ((if is_save k then 1 else 0) + saving ks)%nat.
Proof. by destruct k. Qed.

Lemma saving_delete ks i k :
  ks !! i = Some k →
  (saving (delete i ks) + (if is_save k then 1 else 0) = saving ks)%nat.
Proof.
  intros Hk. rewrite delete_take_drop. rewrite <-(take_drop_middle ks i k) at 3 by done.
  rewrite !saving_app, saving_cons. lia.
Qed.

(** The network itself sends nothing. *)
Lemma sent_observe w ev :
  sent (observe w ev) =
  from_option (λ a, length (launched (effects a (app w)))) 0%nat (update_of w ev).
Proof.
  unfold observe. rewrite sent_app.
  assert (sent (network w ev) = 0%nat) as ->
    by (destruct ev as [e|i|i status|i|i|ms]; simpl; try done;
        by destruct (flights w !! i)).
  destruct (update_of w ev); simpl; [apply sent_announced | done].
Qed.

(** A resumed call sends a request only when it is a save, and the
    request it sends is not a save. *)
Lemma resume_traffic k o s :
  (length (launched (effects (resume k o) s)) ≤ if is_save k then 1 else 0)%nat ∧
  saving (cont <$> launched (effects (resume k o) s)) = 0%nat.
Proof. resume_cases k o; simpl; rewrite ?app_nil_r; simpl; split; done || lia. Qed.

(** A user event sends what its click costs. *)
Lemma dispatch_traffic s ed e a ed' :
  dispatch s ed e = Some (a, ed') →
  (length (launched (effects a s)) + saving (cont <$> launched (effects a s))
   ≤ cost (User e))%nat.
Proof.
  destruct e as [v| | |i b|e|e]; simpl; intros Hd.
  - by injection Hd as <- _.
  - by injection Hd as <- _.
  - case_match; [|done]. by injection Hd as <- _.
  - destruct b; unfold clickCard in Hd; repeat case_match; simplify_eq/=; done || lia.
  - destruct (reconcile s ed) as [st|]; [|done].
    destruct (Editor.step st e) as [st' [[d|]|]] eqn:Hs; injection Hd as <- _;
      destruct e; simplify_eq/=; try done; unfold saving; simpl; lia.
  - destruct (App.shareModal s) as [note|]; [|done]. injection Hd as <- _.
    destruct e; simpl; [done |]. unfold copyShareLink. by destruct clipboardAccess.
Qed.

(** A request that settles: what it sends is paid for by the save it
    was. *)
Lemma settle_traffic w i f o :
  flights w !! i = Some f →
  (length (launched (effects (resume (cont f) o) (app w))) +
   saving (conts (commit (resume (cont f) o) (editor w) (land i w)))
   ≤ saving (conts w))%nat.
Proof.
  intros E. rewrite conts_commit, saving_app, conts_land. simpl.
  pose proof (saving_delete (conts w) i (cont f)) as Hd.
  destruct (resume_traffic (cont f) o (app w)) as [? ->].
  unfold conts in *. rewrite list_lookup_fmap, E in Hd. specialize (Hd eq_refl). lia.
Qed.

(** The requests sent and the refreshes still owed grow by at most the
    cost of the event. *)
Lemma lstep_traffic lw ev lw' :
  lstep lw ev = Some lw' →
  (sent (log lw') + saving (conts (world lw'))
   ≤ sent (log lw) + saving (conts (world lw)) + cost ev)%nat.
Proof.
  intros [Hstep%step_fires ->]%lstep_inv. rewrite sent_app, sent_observe.
  destruct Hstep as [e a ed E|i f E Er|i f status E Er Eo|i f r E Er|i f E|ms];
    cbn [update_of]; rewrite ?E; cbn [fmap option_fmap option_map mbind option_bind];
    rewrite ?Er; cbn [fmap option_fmap option_map mbind option_bind from_option fst].
  - pose proof (dispatch_traffic _ _ _ _ _ E) as Ht.
    rewrite conts_commit, saving_app. simpl in *. lia.
  - rewrite conts_answer by done. simpl. lia.
  - rewrite conts_answer by done. simpl. lia.
  - pose proof (settle_traffic (world lw) i f (Resolved r) E). simpl. lia.
  - pose proof (settle_traffic (world lw) i f Rejected E). simpl. lia.
  - unfold conts. rewrite elapse_flights. simpl. lia.
Qed.

Lemma lrun_traffic lw evs lw' :
  lrun lw evs = Some lw' →
  (sent (log lw') + saving (conts (world lw'))
   ≤ sent (log lw) + saving (conts (world lw)) + sum_list (cost <$> evs))%nat.
Proof.
  revert lw. induction evs as [|ev evs IH]; intros lw; cbn [lrun].
  - intros [= <-]. simpl. lia.
  - destruct (lstep lw ev) as [lw1|] eqn:Hs; [|done]. cbn [mbind option_bind].
    intros Hr%IH. pose proof (lstep_traffic _ _ _ Hs) as Ht. rewrite fmap_cons.
    revert Ht. generalize (cost ev). intros c Ht. simpl. lia.
Qed.

(** C31: the page never polls and never retries.  In every run from the
    first render the number of requests sent is at most one, the mount
    fetch, plus two for each click on save (the save and its refresh) and
    one for each click on a delete button. *)
Theorem traffic_bounded (x : S) evs lw :
  lrun (start x) evs = Some lw → (sent (log lw) ≤ 1 + sum_list (cost <$> evs))%nat.
Proof. intros Hr%lrun_traffic. simpl in Hr. lia. Qed.

End history.

(** ** On the reference store *)

Section examples.
#[local] Existing Instance demo.

(** The first load; the first note is deleted; the request to delete
    the next one is lost. *)
Definition deletions : list Event :=
  [Serve 0; Deliver 0; User (ClickCard 0 NoteCard.DeleteButton); Serve 0; Deliver 0;
   User (ClickCard 0 NoteCard.DeleteButton); Drop 0].

Definition after_deletions : Logged RefStore.t :=
  default (start seeded) (lrun (start seeded) deletions).

Example deletions_history :
  log after_deletions =
  [Sent (mkRequest "http://localhost:8081/api/notes" GET [] None);
   Handled RList (mkResponse 200 (Some [groceries; recipe; diary]));
   Sent (mkRequest "http://localhost:8081/api/notes/1" DELETE [] None);
   Handled (RDelete 1) (mkResponse 204 None);
   Shown (Notification.mk "Note deleted!" Notification.success);
   Sent (mkRequest "http://localhost:8081/api/notes/2" DELETE [] None);
   Lost (mkRequest "http://localhost:8081/api/notes/2" DELETE [] None);
   Shown (Notification.mk "Failed to delete note" Notification.error)].
Proof. vm_compute. reflexivity. Qed.

Lemma success_is_real_witness :
  ∃ j rt r, (j < 4)%nat ∧ log after_deletions !! j = Some (Handled rt r) ∧
            ok r = true ∧ backs rt "Note deleted!".
Proof.
  apply (success_is_real seeded deletions after_deletions 4
           (Notification.mk "Note deleted!" Notification.success));
    [apply seeded_wf | by vm_compute | by vm_compute | reflexivity | done].
Defined.

Lemma errors_need_loss_witness :
  ∃ j req, (j < 7)%nat ∧ log after_deletions !! j = Some (Lost req) ∧
           blames (route req) "Failed to delete note".
Proof.
  apply (errors_need_loss seeded deletions after_deletions 7
           (Notification.mk "Failed to delete note" Notification.error));
    [apply seeded_wf | by vm_compute | by vm_compute | reflexivity].
Defined.

Lemma traffic_bounded_witness :
  (sent (log after_deletions) ≤ 1 + sum_list (cost <$> deletions))%nat.
Proof. apply (traffic_bounded seeded deletions after_deletions). by vm_compute. Defined.

(** The bound is reached: the mount fetch and two deletes. *)
Example traffic_tight :
  sent (log after_deletions) = (1 + sum_list (cost <$> deletions))%nat.
Proof. vm_compute. reflexivity. Qed.

(** A save whose refresh is lost: the history ends with "Note created!",
    vouched for by the handled POST, and the loss of the GET shows no
    message of its own. *)
Example refresh_lost_history :
  drop 2 ∘ log <$>
    lrun (start seeded)
      [Serve 0; Deliver 0; User ClickNewNote;
       User (EditorEvent (Editor.ChangeTitle "Tea"));
       User (EditorEvent Editor.ClickSave); Serve 0; Deliver 0; Drop 0] =
  Some
    [Sent (mkRequest "http://localhost:8081/api/notes" POST
             [("Content-Type", "application/json")] (Some (NoteData.mk "Tea" "" false)));
     Handled (RCreate (NoteData.mk "Tea" "" false)) (mkResponse 201 None);
     Sent (mkRequest "http://localhost:8081/api/notes" GET [] None);
     Lost (mkRequest "http://localhost:8081/api/notes" GET [] None);
     Shown (Notification.mk "Note created!" Notification.success)].
Proof. vm_compute. reflexivity. Qed.

End examples.
