(* ===== verification/Provenance.v ===== *)
(** * Where the notes come from

    The collection of the page is set in two places: the continuation of
    [fetchNotes] stores the array of the answer (App.js 21), and the
    continuation of [deleteNote] stores the captured array without one
    note (App.js 72).  Nothing else calls [setNotes]: a save does not add
    its draft to the collection, it reloads.  So the notes the page holds,
    the one it edits and the one it shares are notes the store has listed
    in an answer to a load, in every run: the page never shows a note of
    its own making.  The statement is on the history of [History]. *)

From S2P Require Import Prelude JsString Model Editor Search Controller Views Store System.
From S2P Require Import Invariants Typing History.

#[local] Open Scope N_scope.

(** A note the store has listed: it is in the body of a successful
    answer to a load. *)
Definition listed (l : list Obs) (n : Note.t) : Prop :=
  ∃ r data, Handled RList r ∈ l ∧ ok r = true ∧ json r = Some data ∧ n ∈ data.

(** The array a suspended call captured and will store. *)
Definition captured (k : Cont) : list Note.t :=
  if k is AwaitDelete notes _ then notes else [].

(** The notes the cells hold: the collection, the edited note and the
    shared note. *)
Definition cells_in (P : Note.t → Prop) (s : App.t) : Prop :=
  Forall P (App.notes s) ∧
  (∀ n, App.editingNote s = Some n → P n) ∧
  (∀ n, App.shareModal s = Some n → P n).

Definition flights_in (P : Note.t → Prop) (fs : list Flight) : Prop :=
  Forall (λ f, Forall P (captured (cont f))) fs.

Section provenance.
Context `{Platform} {S : Type} `{NoteStore S}.
Implicit Types (w : World S) (lw : Logged S) (s : App.t) (f : Flight).
Implicit Types (l : list Obs) (n : Note.t) (P : Note.t → Prop).

Lemma listed_mono l l' n : l ⊆ l' → listed l n → listed l' n.
Proof. intros Hsub (r & data & ? & ? & ? & ?). exists r, data. eauto. Qed.

Lemma cells_in_impl P Q s : (∀ n, P n → Q n) → cells_in P s → cells_in Q s.
Proof.
  intros HPQ (Hn & He & Hs). split_and!; [by eapply Forall_impl | eauto..].
Qed.

Lemma flights_in_impl P Q fs : (∀ n, P n → Q n) → flights_in P fs → flights_in Q fs.
Proof.
  intros HPQ Hfs. eapply Forall_impl; [exact Hfs |].
  intros f Hf; simpl in *. eapply Forall_impl; [exact Hf | exact HPQ].
Qed.

Lemma flights_in_lookup P fs i f :
  flights_in P fs → fs !! i = Some f → Forall P (captured (cont f)).
Proof.
  intros Hfs Hf. exact (proj1 (Forall_forall _ _) Hfs f (list_elem_of_lookup_2 _ _ _ Hf)).
Qed.

(** ** What the operations store *)

(** A handler stores and captures only notes of the cells. *)
Lemma handler_cells P s a :
  handler s a → cells_in P s →
  cells_in P (exec a s) ∧ flights_in P (launched (effects a s)).
Proof.
  intros Ha (Hn & He & Hs). pose proof (proj1 (Forall_forall _ _) Hn) as Hin.
  destruct Ha; (split; [split_and! |]); simpl; try done;
    try (by intros ? [= <-]; eauto); try (by repeat constructor).
Qed.

(** A resumed call stores the body of a successful answer to a load, or
    what is left of the array it captured. *)
Lemma resume_cells P k o s :
  cells_in P s → Forall P (captured k) →
  (∀ c r data, k = AwaitFetchNotes c → o = Resolved r → ok r = true →
               json r = Some data → Forall P data) →
  cells_in P (exec (resume k o) s) ∧
  flights_in P (launched (effects (resume k o) s)).
Proof.
  intros (Hn & He & Hs) Hk Hdata.
  resume_cases k o; simpl; rewrite ?app_nil_r; simpl;
    (split; [split_and! |]); try done; try (by repeat constructor);
    eauto using remove_key_Forall.
Qed.

(** ** The invariant *)

(** The cells and the captured arrays hold notes the store has listed. *)
Definition sourced lw : Prop :=
  cells_in (listed (log lw)) (app (world lw)) ∧
  flights_in (listed (log lw)) (flights (world lw)).

(** The body of a successful answer that a load carries was listed. *)
Lemma answer_listed lw i f c r data :
  sound lw → flights (world lw) !! i = Some f → cont f = AwaitFetchNotes c →
  reply f = Some r → ok r = true → json r = Some data →
  Forall (listed (log lw)) data.
Proof.
  intros [Hwf Hfs _] Hf Hc Hr Hok Hj. apply Forall_forall. intros n Hn.
  exists r, data. split_and!; try done.
  pose proof (flight_typed_route f (flight_typed_lookup _ _ _ (wf_flights _ Hwf) Hf))
    as Hrt.
  rewrite Hc in Hrt. rewrite <- Hrt.
  by apply (proj1 (Forall_forall _ _) Hfs f (list_elem_of_lookup_2 _ _ _ Hf)).
Qed.

(** A request that settles stores listed notes. *)
Lemma settle_sourced lw i f o :
  sound lw → sourced lw → flights (world lw) !! i = Some f → settles f o →
  let a := resume (cont f) o in
  cells_in (listed (log lw)) (exec a (app (world lw))) ∧
  flights_in (listed (log lw))
    (delete i (flights (world lw)) ++ launched (effects a (app (world lw)))).
Proof.
  intros Hs [Hc Hfs] Hf Ho a.
  destruct (resume_cells (listed (log lw)) (cont f) o (app (world lw))) as [Hc' Hfs'];
    [done | by eapply flights_in_lookup | |].
  - intros c r data Hk -> Hok Hj. destruct Ho as [|(r' & Hr & [= <-])]; [done |].
    by eapply answer_listed.
  - split; [done |]. apply Forall_app. split; [by apply Forall_delete | done].
Qed.

(** One turn keeps the cells and the captured arrays within the notes
    listed before it. *)
Lemma step_sourced lw ev w' :
  sound lw → sourced lw → step (world lw) ev = Some w' →
  cells_in (listed (log lw)) (app w') ∧ flights_in (listed (log lw)) (flights w').
Proof.
  intros Hs [Hc Hfs] Hstep%step_fires.
  destruct Hstep as [e a ed E|i f E Er|i f status E Er Eo|i f r E Er|i f E|ms];
    rewrite ?commit_eq; cbn [app flights answer land].
  - destruct (handler_cells (listed (log lw)) (app (world lw)) a) as [Hc' Hfs'];
      [by eapply dispatch_handler | done |].
    split; [done |]. by apply Forall_app.
  - split; [done |]. apply Forall_insert; [done |].
    exact (flights_in_lookup _ _ i f Hfs E).
  - split; [done |]. apply Forall_insert; [done |].
    exact (flights_in_lookup _ _ i f Hfs E).
  - apply (settle_sourced lw i f (Resolved r)); try done. right; eauto.
  - apply (settle_sourced lw i f Rejected); try done. by left.
  - rewrite elapse_flights. split; [|done].
    by destruct (elapse_app ms (world lw)) as [-> | ->].
Qed.

Lemma lstep_sourced lw ev lw' :
  sound lw → sourced lw → lstep lw ev = Some lw' → sourced lw'.
Proof.
  intros Hs Hc [Hstep Hlog]%lstep_inv.
  destruct (step_sourced lw ev (world lw') Hs Hc Hstep) as [Hc' Hfs'].
  assert (∀ n, listed (log lw) n → listed (log lw') n) as Hmono
    by (intros n; rewrite Hlog; by apply listed_mono, list_subseteq_app_l).
  split; [by eapply cells_in_impl | by eapply flights_in_impl].
Qed.

Lemma start_sourced (x : S) : sourced (start x).
Proof. split; [by split_and! | by repeat constructor]. Qed.

Lemma lrun_sourced (x : S) evs lw :
  store_wf x → lrun (start x) evs = Some lw → sourced lw.
Proof.
  intros Hwf Hrun.
  apply (lrun_ind (λ lw, sound lw ∧ sourced lw) (start x) evs lw);
    [split; [by apply start_sound | apply start_sourced] | | done].
  intros lw1 ev lw2 [Hs Hc] Hstep. split; [by eapply lstep_sound | by eapply lstep_sourced].
Qed.

(** ** The store behind the history *)

Implicit Types (x : S) (o : Obs).

(** The store after one observation: only a handled request changes
    it. *)
Definition after x o : S :=
  if o is Handled rt _ then (store_handle rt x).1 else x.

(** The store after the requests of a history, handled in order. *)
Definition replay x l : S := foldl after x l.

(** A history in which every answer is the one the store gives in the
    state the earlier requests have left it in. *)
Fixpoint faithful x l : Prop :=
  match l with
  | [] => True
  | o :: l' =>
      (if o is Handled rt r then r = (store_handle rt x).2 else True) ∧
      faithful (after x o) l'
  end.

Lemma replay_app x l l' : replay x (l ++ l') = replay (replay x l) l'.
Proof. apply foldl_app. Qed.

Lemma replay_wf x l : store_wf x → store_wf (replay x l).
Proof.
  revert x. induction l as [|o l IH]; intros x Hwf; [done |].
  apply IH. destruct o; simpl; auto with notes.
Qed.

Lemma faithful_app x l l' :
  faithful x (l ++ l') ↔ faithful x l ∧ faithful (replay x l) l'.
Proof.
  revert x. induction l as [|o l IH]; intros x; simpl; [tauto |].
  rewrite IH. tauto.
Qed.

(** The answer at a position is the store's, in the state the history
    before that position leads to. *)
Lemma faithful_lookup x l j rt r :
  faithful x l → l !! j = Some (Handled rt r) →
  r = (store_handle rt (replay x (take j l))).2.
Proof.
  revert x j. induction l as [|o l IH]; intros x [|j]; simpl; try done.
  - by intros [Hr _] [= ->].
  - intros [_ Hl] Hj. by apply IH.
Qed.

(** Observations that are no answers leave the store as it is. *)
Lemma replay_silent x l :
  (∀ rt r, Handled rt r ∉ l) → replay x l = x ∧ faithful x l.
Proof.
  revert x. induction l as [|o l IH]; intros x Hl; [done |].
  assert (after x o = x) as Ho.
  { destruct o; try done. destruct (Hl rt r). apply list_elem_of_here. }
  simpl. rewrite Ho. destruct (IH x) as [-> ?].
  - intros rt r Hin. apply (Hl rt r). by apply list_elem_of_further.
  - split_and!; try done. destruct o; try done. destruct (Hl rt r). apply list_elem_of_here.
Qed.

Lemma announced_silent a s rt r : Handled rt r ∉ announced a s.
Proof.
  unfold announced. rewrite elem_of_app.
  intros [(e & _ & He)%list_elem_of_omap|Hn]; [by destruct e |].
  destruct (displays _ _); simpl in Hn;
    by first [apply elem_of_nil in Hn | apply list_elem_of_singleton in Hn].
Qed.

(** The store of the world is the store the history leads to, and the
    history is faithful. *)
Definition tracked x lw : Prop :=
  store (world lw) = replay x (log lw) ∧ faithful x (log lw).

(** What a turn adds to the history leads from the store before it to
    the store after it. *)
Lemma observe_tracked w ev w' :
  step w ev = Some w' →
  replay (store w) (observe w ev) = store w' ∧ faithful (store w) (observe w ev).
Proof.
  unfold observe. rewrite replay_app, faithful_app.
  assert (∀ x, replay x (from_option (λ a, announced a (app w)) [] (update_of w ev)) = x ∧
               faithful x (from_option (λ a, announced a (app w)) [] (update_of w ev)))
    as Hquiet.
  { intros x. apply replay_silent. intros rt r.
    destruct (update_of w ev); [apply announced_silent | apply not_elem_of_nil]. }
  intros Hstep.
  assert (replay (store w) (network w ev) = store w' ∧
          faithful (store w) (network w ev)) as [-> Hn];
    [|by destruct (Hquiet (store w')) as [-> ?]].
  clear Hquiet. apply step_fires in Hstep.
  destruct Hstep as [e a ed E|i f E Er|i f status E Er Eo|i f r E Er|i f E|ms];
    rewrite ?commit_eq, ?elapse_store; cbn [network]; rewrite ?E; done.
Qed.

Lemma lstep_tracked x lw ev lw' :
  tracked x lw → lstep lw ev = Some lw' → tracked x lw'.
Proof.
  intros [Hx Hl] [Hstep Hlog]%lstep_inv. unfold tracked.
  rewrite Hlog, replay_app, faithful_app, <- Hx.
  by destruct (observe_tracked _ _ _ Hstep) as [-> ?].
Qed.

Lemma lrun_tracked x evs lw : lrun (start x) evs = Some lw → tracked x lw.
Proof.
  apply (lrun_ind (tracked x)); [|intros ???; apply lstep_tracked].
  split; [done |]. apply replay_silent, announced_silent.
Qed.

(** C6: the page shows only what the store listed.  In every run from
    the first render, a note of the collection, the note under edit and
    the note in the share modal were each in the store at some point of
    the run, when the store answered a load with its collection: the
    history holds that answer, given in the state the earlier requests
    of the history had left the store in.  The page never adds a note of
    its own to the collection: a draft appears on the page only once the
    store lists it. *)
Theorem notes_from_store x evs lw n :
  store_wf x → lrun (start x) evs = Some lw →
  n ∈ App.notes (app (world lw)) ∨ App.editingNote (app (world lw)) = Some n ∨
    App.shareModal (app (world lw)) = Some n →
  ∃ j, let xj := replay x (take j (log lw)) in
       log lw !! j = Some (Handled RList (mkResponse 200 (Some (store_notes xj)))) ∧
       n ∈ store_notes xj.
Proof.
  intros Hwf Hrun Hn.
  destruct (lrun_sourced x evs lw Hwf Hrun) as [(Hnotes & He & Hs) _].
  destruct (lrun_tracked x evs lw Hrun) as [_ Hl].
  assert (listed (log lw) n)
    as (r & data & [j Hj]%list_elem_of_lookup_1 & Hok & Hdata & Hin).
  { destruct Hn as [Hn|[Hn|Hn]]; [by eapply (proj1 (Forall_forall _ _) Hnotes) | eauto..]. }
  exists j. pose proof (faithful_lookup x _ j RList r Hl Hj) as Hr.
  rewrite store_list in Hr by by apply replay_wf. simpl in Hr. subst r.
  simpl in Hdata. injection Hdata as <-. by split.
Qed.

End provenance.

(** ** On the reference store *)

Section examples.
#[local] Existing Instance demo.

Lemma notes_from_store_witness :
  ∃ j, let xj := replay seeded (take j (log after_deletions)) in
       log after_deletions !! j =
         Some (Handled RList (mkResponse 200 (Some (store_notes xj)))) ∧
       recipe ∈ store_notes xj.
Proof.
  apply (notes_from_store seeded deletions after_deletions recipe);
    [apply seeded_wf | by vm_compute |].
  left. apply (bool_decide_unpack _). by vm_compute.
Defined.

(** Between the answer to a POST and the answer to the refresh, the
    store holds the new note and the page does not show it: the draft is
    in the form only. *)
Example draft_not_shown :
  (λ lw, (Note.title <$> App.notes (app (world lw)),
          Note.title <$> store_notes (store (world lw)),
          Editor.title <$> editor (world lw))) <$>
  lrun (start seeded)
    [Serve 0; Deliver 0; User ClickNewNote;
     User (EditorEvent (Editor.ChangeTitle "Tea"));
     User (EditorEvent Editor.ClickSave); Serve 0; Deliver 0] =
  Some (["Groceries"; "Pancake Recipe"; "Diary"],
        ["Groceries"; "Pancake Recipe"; "Diary"; "Tea"], Some "Tea").
Proof. vm_compute. reflexivity. Qed.

(** The store of the world is the one its history leads to. *)
Example deletions_replayed :
  store (world after_deletions) = replay seeded (log after_deletions).
Proof. vm_compute. reflexivity. Qed.

End examples.
