(* ===== verification/Sync.v ===== *)
(** * The page and the store agree

    What the controller's operations achieve end to end, over any store
    that satisfies the [NoteStore] laws.  A world is [synced] when nothing
    is in flight and the page shows the store's collection, up to order.
    From a synced world each operation, followed until its requests have
    settled, leads to a synced world whose collection is the one the
    endpoint contract promises: the first load shows the store, a create
    adds one fresh note with the draft's fields, an edit replaces the
    fields of the edited note, a delete removes the note.  A save the
    store refuses leaves the page as it was, with no message. *)

From S2P Require Import Prelude JsString Model Editor Search Controller Views Store System.

#[local] Open Scope N_scope.

(** The endpoint a save is meant for. *)
Definition saveRoute (editingNote : option Note.t) (d : NoteData.t) : Route :=
  match editingNote with
  | Some e => RUpdate (Note.id e) d
  | None => RCreate d
  end.

(** The cells after a save and its refresh. *)
Definition saved (editingNote : option Note.t) (notes : list Note.t) (s : App.t) : App.t :=
  App.mk notes false None (App.searchTerm s) (App.shareModal s) false
    (Some (Notification.mk
             (if editingNote is Some _ then "Note updated!" else "Note created!")
             Notification.success)).

(** A page at rest over [seeded], with given cells and draft. *)
Definition seeded_world (s : App.t) (ed : option Editor.State) : World RefStore.t :=
  mkWorld s ed [] [] 0 None seeded.

(** Cells that show the three notes: with the create form open, and with
    the edit form open on a given note. *)
Definition creating : App.t :=
  App.mk [groceries; recipe; diary] true None "" None false None.

Definition editing (e : Note.t) : App.t :=
  App.mk [groceries; recipe; diary] false (Some e) "" None false None.

Definition tea : Editor.State := Editor.mk "Tea" "" false.

Section sync.
Context `{Platform} {S : Type} `{NoteStore S}.
Implicit Types (w : World S) (f : Flight) (st : Editor.State).

(** The only request in flight is served and its answer delivered. *)
Definition settle (f : Flight) w : World S :=
  let sr := store_handle (route (request f)) (store w) in
  commit (resume (cont f) (Resolved sr.2)) (editor w)
    (mkWorld (app w) (editor w) [] (timers w) (now w) (clipboard w) sr.1).

(** A world at rest that shows the store's collection. *)
Definition synced w : Prop :=
  flights w = [] ∧ App.loading (app w) = false ∧ store_wf (store w) ∧
  App.notes (app w) ≡ₚ store_notes (store w).

(** ** Settling one request *)

Lemma run_settle w f :
  flights w = [f] → reply f = None →
  run w [Serve 0; Deliver 0] = Some (settle f w).
Proof.
  intros Hf Hr. simpl. rewrite Hf. simpl. rewrite Hr.
  destruct (store_handle _ _) as [st r] eqn:E. simpl. rewrite Hf. simpl.
  unfold settle, land, answer. simpl. by rewrite E, Hf.
Qed.

Ltac settle_unfold :=
  unfold settle; rewrite commit_eq; unfold exec, effects;
  cbn [cont request app editor flights timers now clipboard store resume].

Lemma settle_save w req e :
  ok (store_handle (route req) (store w)).2 = true →
  settle (mkFlight req (AwaitSave e) None) w =
  mkWorld (app w) (reconcile (app w) (editor w))
    [mkFlight (mkRequest (API_BASE_URL +:+ "/notes") GET [] None)
       (AwaitFetchNotes (Some e)) None]
    (timers w) (now w) (clipboard w) (store_handle (route req) (store w)).1.
Proof.
  intros Hok. settle_unfold. rewrite saveNote_resume_ok by done. simpl.
  by rewrite app_nil_r.
Qed.

Lemma settle_save_refused w req e :
  ok (store_handle (route req) (store w)).2 = false →
  settle (mkFlight req (AwaitSave e) None) w =
  mkWorld (app w) (reconcile (app w) (editor w)) [] (timers w) (now w) (clipboard w)
    (store_handle (route req) (store w)).1.
Proof.
  intros Hok. settle_unfold. rewrite saveNote_resume_not_ok by done. simpl.
  by rewrite app_nil_r.
Qed.

Lemma settle_refetch w req e :
  route req = RList → store_wf (store w) →
  settle (mkFlight req (AwaitFetchNotes (Some e)) None) w =
  mkWorld (saved e (store_notes (store w)) (app w)) None []
    (timers w ++ [mkTimer (now w + 3000) ClearNotification]) (now w) (clipboard w)
    (store w).
Proof.
  intros Hr Hwf. unfold settle. rewrite commit_eq. unfold exec, effects.
  cbn [cont request app editor flights timers now clipboard store].
  by rewrite Hr, store_list, resume_fetch_after_save by done.
Qed.

Lemma settle_load w req :
  route req = RList → store_wf (store w) →
  settle (mkFlight req (AwaitFetchNotes None) None) w =
  mkWorld (App.mk (store_notes (store w)) (App.isCreating (app w))
             (App.editingNote (app w)) (App.searchTerm (app w))
             (App.shareModal (app w)) false (App.notification (app w)))
    (reconcile (app w) (editor w)) [] (timers w) (now w) (clipboard w) (store w).
Proof.
  intros Hr Hwf. unfold settle. rewrite commit_eq. unfold exec, effects.
  cbn [cont request app editor flights timers now clipboard store].
  rewrite Hr, store_list, resume_fetch_alone, fetchNotes_resume_run by done.
  simpl. by rewrite app_nil_r.
Qed.

Lemma settle_delete w req notes id :
  ok (store_handle (route req) (store w)).2 = true →
  settle (mkFlight req (AwaitDelete notes id) None) w =
  mkWorld (App.mk (remove_key Note.id id notes) (App.isCreating (app w))
             (App.editingNote (app w)) (App.searchTerm (app w))
             (App.shareModal (app w)) (App.loading (app w))
             (Some (Notification.mk "Note deleted!" Notification.success)))
    (reconcile (app w) (editor w)) []
    (timers w ++ [mkTimer (now w + 3000) ClearNotification]) (now w) (clipboard w)
    (store_handle (route req) (store w)).1.
Proof. intros Hok. settle_unfold. by rewrite deleteNote_resume_ok by done. Qed.

(** ** Saving *)

Lemma saveNote_flight e d s :
  ∃ req, saveNote e d s = (s, [Fetch req (AwaitSave e)]) ∧ route req = saveRoute e d.
Proof.
  destruct e as [e|]; (eexists; split; [done |]); [apply route_item | done].
Qed.

(** A click on the enabled save button runs [saveNote] on the draft. *)
Lemma save_click w st :
  editor w = Some st → editorOpen (app w) = true → blank (Editor.title st) = false →
  step w (User (EditorEvent Editor.ClickSave)) =
  Some (commit (saveNote (App.editingNote (app w)) (Editor.draft st)) (Some st) w).
Proof.
  intros He Ho Hb. simpl. rewrite He, reconcile_keep by done.
  rewrite saveDisabled_blank, Hb. simpl.
  by rewrite (handleSave_enabled st) by by rewrite saveDisabled_blank.
Qed.

(** The click, then the store's answer to the save. *)
Lemma save_sent w st :
  flights w = [] → editor w = Some st → editorOpen (app w) = true →
  blank (Editor.title st) = false →
  ∃ req, route req = saveRoute (App.editingNote (app w)) (Editor.draft st) ∧
    run w [User (EditorEvent Editor.ClickSave); Serve 0; Deliver 0] =
    Some (settle (mkFlight req (AwaitSave (App.editingNote (app w))) None)
            (mkWorld (app w) (Some st) [] (timers w) (now w) (clipboard w) (store w))).
Proof.
  intros Hf He Ho Hb.
  destruct (saveNote_flight (App.editingNote (app w)) (Editor.draft st) (app w))
    as (req & Hreq & Hroute).
  exists req. split; [done |].
  rewrite run_cons, (save_click w st) by done. cbn [mbind option_bind].
  rewrite (commit_fetch _ _ _ req (AwaitSave (App.editingNote (app w)))), Hf by done.
  rewrite reconcile_keep by done. by erewrite run_settle.
Qed.

(** A save the store accepts, followed to the end of its refresh. *)
Lemma save_round w st :
  flights w = [] → store_wf (store w) → editor w = Some st →
  editorOpen (app w) = true → blank (Editor.title st) = false →
  let e := App.editingNote (app w) in
  let sr := store_handle (saveRoute e (Editor.draft st)) (store w) in
  ok sr.2 = true →
  run w [User (EditorEvent Editor.ClickSave); Serve 0; Deliver 0; Serve 0; Deliver 0] =
  Some (mkWorld (saved e (store_notes sr.1) (app w)) None []
          (timers w ++ [mkTimer (now w + 3000) ClearNotification]) (now w)
          (clipboard w) sr.1).
Proof.
  intros Hf Hwf He Ho Hb e sr Hok.
  destruct (save_sent w st Hf He Ho Hb) as (req & Hroute & Hrun).
  rewrite (run_app _ [User (EditorEvent Editor.ClickSave); Serve 0; Deliver 0]
             [Serve 0; Deliver 0]), Hrun.
  cbn [mbind option_bind].
  rewrite settle_save; cbn [app editor flights timers now clipboard store];
    rewrite Hroute; [|done].
  erewrite run_settle; [|done..].
  by rewrite settle_refetch; [| done | simpl; auto with notes].
Qed.

Lemma saved_synced e w (x : S) :
  store_wf x →
  synced (mkWorld (saved e (store_notes x) (app w)) None []
            (timers w ++ [mkTimer (now w + 3000) ClearNotification]) (now w)
            (clipboard w) x).
Proof. by intros Hwf. Qed.

(** ** Deleting *)

(** A displayed note of a synced page is in the store. *)
Lemma displayed_stored w i n :
  synced w →
  filteredNotes (App.notes (app w)) (App.searchTerm (app w)) !! i = Some n →
  Note.id n ∈ ids (store_notes (store w)).
Proof.
  intros (_ & _ & _ & Hn) Hi. rewrite <-Hn.
  apply elem_of_ids, (elem_of_filteredNotes _ (App.searchTerm (app w))).
  by eapply list_elem_of_lookup_2.
Qed.

(** A delete the store accepts, followed to its answer. *)
Lemma delete_round w i n :
  flights w = [] → App.loading (app w) = false →
  filteredNotes (App.notes (app w)) (App.searchTerm (app w)) !! i = Some n →
  ok (store_handle (RDelete (Note.id n)) (store w)).2 = true →
  run w [User (ClickCard i NoteCard.DeleteButton); Serve 0; Deliver 0] =
  Some (mkWorld
          (App.mk (remove_key Note.id (Note.id n) (App.notes (app w)))
             (App.isCreating (app w)) (App.editingNote (app w))
             (App.searchTerm (app w)) (App.shareModal (app w)) (App.loading (app w))
             (Some (Notification.mk "Note deleted!" Notification.success)))
          (reconcile (app w) (reconcile (app w) (editor w))) []
          (timers w ++ [mkTimer (now w + 3000) ClearNotification]) (now w)
          (clipboard w) (store_handle (RDelete (Note.id n)) (store w)).1).
Proof.
  intros Hf Hl Hi Hok. rewrite run_cons. cbn [step dispatch].
  rewrite (proj2 (clickCard_edit (app w) i n Hl Hi)).
  cbn [fmap option_fmap option_map mbind option_bind].
  rewrite (commit_fetch _ _ _ _ (AwaitDelete (App.notes (app w)) (Note.id n))), Hf
    by done.
  erewrite run_settle; [|done..].
  by rewrite settle_delete; cbn [app editor flights timers now clipboard store request];
    rewrite route_item.
Qed.

(** ** The operations, end to end *)

(** C24: the first load shows the store: once the mount fetch is
    answered the page is synced, the spinner is gone, and the collection
    is the store's, in the store's order. *)
Theorem load_shows_store (x : S) :
  store_wf x →
  ∃ w, run (boot x) [Serve 0; Deliver 0] = Some w ∧ synced w ∧ store w = x ∧
       App.notes (app w) = store_notes x ∧ Page.spinner (page w) = false ∧
       Page.toast (page w) = None.
Proof.
  intros Hwf. eexists. split; [by apply run_settle |].
  by rewrite settle_load.
Qed.

(** C25: creating a note from a synced page: the click on save, the
    POST and the refresh lead to a synced page with the editor closed,
    "Note created!" displayed, and a collection that is the old one plus
    one note with a fresh identifier and the draft's fields. *)
Theorem create_then_load w st :
  synced w → editor w = Some st → App.isCreating (app w) = true →
  App.editingNote (app w) = None → blank (Editor.title st) = false →
  ∃ w' n,
    run w [User (EditorEvent Editor.ClickSave); Serve 0; Deliver 0; Serve 0; Deliver 0]
      = Some w' ∧
    synced w' ∧ editor w' = None ∧
    NoteData.of_note n = Editor.draft st ∧ (Note.id n ∉ ids (App.notes (app w))) ∧
    App.notes (app w') ≡ₚ n :: App.notes (app w) ∧
    App.notification (app w') =
      Some (Notification.mk "Note created!" Notification.success).
Proof.
  intros (Hf & Hl & Hwf & Hn) He Hc Hed Hb.
  destruct (store_create (Editor.draft st) (store w) Hwf) as (Hok & n & Hd & Hfr & Hp).
  eexists _, n. split.
  { apply (save_round w st); try done; unfold editorOpen; by rewrite ?Hc, ?Hed. }
  rewrite Hed, Hn. split_and!; try done.
  apply saved_synced. auto with notes.
Qed.

(** C26: editing a note of a synced page: the click on save, the PUT
    and the refresh lead to a synced page with the editor closed, "Note
    updated!" displayed, and the collection in which the edited note has
    the draft's fields and every other note is unchanged. *)
Theorem edit_then_load w st e :
  synced w → editor w = Some st → App.editingNote (app w) = Some e →
  Note.id e ∈ ids (App.notes (app w)) → blank (Editor.title st) = false →
  ∃ w',
    run w [User (EditorEvent Editor.ClickSave); Serve 0; Deliver 0; Serve 0; Deliver 0]
      = Some w' ∧
    synced w' ∧ editor w' = None ∧
    App.notes (app w') ≡ₚ update_note (Note.id e) (Editor.draft st) <$> App.notes (app w) ∧
    App.notification (app w') =
      Some (Notification.mk "Note updated!" Notification.success).
Proof.
  intros (Hf & Hl & Hwf & Hn) He Hed Hin Hb. rewrite Hn in Hin.
  destruct (store_update (Note.id e) (Editor.draft st) (store w) Hwf Hin) as (Hok & Hp).
  eexists. split.
  { apply (save_round w st); try done; unfold editorOpen; by rewrite Hed, ?orb_true_r. }
  rewrite Hed, Hn. split_and!; try done.
  apply saved_synced. auto with notes.
Qed.

(** C27: a save the store refuses (for instance an edit of a note that
    no longer exists) changes nothing on the page: the editor stays open
    with its draft, the collection and the store are as before, and no
    notification tells the user that the save failed. *)
Theorem save_refused_silent w st :
  synced w → editor w = Some st → editorOpen (app w) = true →
  blank (Editor.title st) = false →
  ok (store_handle (saveRoute (App.editingNote (app w)) (Editor.draft st)) (store w)).2
    = false →
  ∃ w',
    run w [User (EditorEvent Editor.ClickSave); Serve 0; Deliver 0] = Some w' ∧
    app w' = app w ∧ editor w' = Some st ∧ timers w' = timers w ∧ synced w' ∧
    store_notes (store w') = store_notes (store w).
Proof.
  intros (Hf & Hl & Hwf & Hn) He Ho Hb Hok.
  destruct (save_sent w st Hf He Ho Hb) as (req & Hroute & Hrun).
  eexists. split; [done |].
  rewrite settle_save_refused; cbn [app editor flights timers now clipboard store];
    rewrite Hroute; [|done].
  rewrite reconcile_keep by done. split_and!; try done; [|by apply store_not_ok].
  split_and!; simpl; [done.. | auto with notes |].
  by rewrite store_not_ok.
Qed.

(** Deleting a displayed note of a synced page: the click, the
    DELETE and its answer lead to a page that shows the old collection
    without the note, in the old order, still in agreement with the
    store, with "Note deleted!" displayed. *)
Theorem delete_synced w i n :
  synced w →
  filteredNotes (App.notes (app w)) (App.searchTerm (app w)) !! i = Some n →
  ∃ w',
    run w [User (ClickCard i NoteCard.DeleteButton); Serve 0; Deliver 0] = Some w' ∧
    synced w' ∧
    App.notes (app w') = remove_key Note.id (Note.id n) (App.notes (app w)) ∧
    App.notification (app w') =
      Some (Notification.mk "Note deleted!" Notification.success).
Proof.
  intros Hs Hi. pose proof Hs as (Hf & Hl & Hwf & Hn).
  pose proof (store_delete _ _ Hwf (displayed_stored w i n Hs Hi)) as Hok.
  eexists. split; [by apply delete_round |].
  split_and!; try done. split_and!; simpl; [done.. | auto with notes |].
  by rewrite store_delete_ok, Hn.
Qed.

(** ** Publishing and sharing *)

(** The note an update makes of the stored note with a given identifier:
    it is in the updated collection and carries the payload. *)
Lemma updated_note id d (l l' : list Note.t) :
  id ∈ ids l → l' ≡ₚ update_note id d <$> l →
  ∃ n, n ∈ l' ∧ Note.id n = id ∧ NoteData.of_note n = d.
Proof.
  intros (e0 & -> & Hin)%list_elem_of_fmap Hp.
  exists (update_note (Note.id e0) d e0). rewrite Hp. split_and!.
  - by apply list_elem_of_fmap_2.
  - apply update_note_id.
  - by apply update_note_hit.
Qed.

(** A page that shows everything shows a card for each note. *)
Lemma card_of_note (s : App.t) ed n :
  App.loading s = false → App.searchTerm s = "" → n ∈ App.notes s →
  ∃ i, filteredNotes (App.notes s) (App.searchTerm s) !! i = Some n ∧
       Page.cards (Page.render s ed) !! i = Some (Note.id n, NoteCard.render n).
Proof.
  intros Hl Ht [i Hi]%list_elem_of_lookup. exists i.
  rewrite page_cards, Ht, filteredNotes_empty, list_lookup_fmap, Hi by done. done.
Qed.

(** C29: publishing a note and sharing it.  From a page in agreement
    with the store that shows every note, saving an edit with the public
    flag set gives the note a card with the badge and the share button;
    the click on that button opens the share modal on the note, with the
    link [{origin}/share/{id}] of the edited note. *)
Theorem publish_then_share w st e :
  synced w → editor w = Some st → App.editingNote (app w) = Some e →
  Note.id e ∈ ids (App.notes (app w)) → blank (Editor.title st) = false →
  Editor.isPublic st = true → App.searchTerm (app w) = "" →
  ∃ w' i n w'',
    run w [User (EditorEvent Editor.ClickSave); Serve 0; Deliver 0; Serve 0; Deliver 0]
      = Some w' ∧
    Page.cards (page w') !! i = Some (Note.id e, NoteCard.render n) ∧
    NoteData.of_note n = Editor.draft st ∧
    NoteCard.publicBadge (NoteCard.render n) = true ∧
    NoteCard.ShareButton ∈ NoteCard.buttons (NoteCard.render n) ∧
    step w' (User (ClickCard i NoteCard.ShareButton)) = Some w'' ∧
    Page.shareModalView (page w'') = Some (ShareModal.render n) ∧
    ShareModal.shareUrl (ShareModal.render n) =
      origin +:+ "/share/" +:+ numToString (Note.id e).
Proof.
  intros (Hf & Hl & Hwf & Hn) He Hed Hin Hb Hpub Ht. rewrite Hn in Hin.
  destruct (store_update (Note.id e) (Editor.draft st) (store w) Hwf Hin) as (Hok & Hp).
  destruct (updated_note _ _ _ _ Hin Hp) as (n & Hn' & Hid & Hd).
  assert (Note.isPublic n = true) as Hnp
    by (rewrite <-Hpub; change (Note.isPublic n) with (NoteData.isPublic (NoteData.of_note n));
        by rewrite Hd).
  pose proof (save_round w st Hf Hwf He) as Hrun. rewrite Hed in Hrun.
  specialize (Hrun ltac:(by apply editorOpen_iff; rewrite Hed; eauto) Hb Hok).
  set (w' := mkWorld _ _ _ _ _ _ _) in Hrun.
  destruct (card_of_note (app w') (editor w') n) as (i & Hi & Hcard); [done.. |].
  exists w', i, n. eexists. rewrite <-Hid.
  split_and!; [done | exact Hcard | done | by rewrite card_badge
              | by apply card_share_iff | | | done].
  - cbn [step dispatch]. by rewrite (clickCard_share_offered _ _ n).
  - rewrite commit_eq. done.
Qed.

End sync.

(** ** The theorems on the reference store *)

Section examples.
#[local] Existing Instance demo.

Lemma seeded_synced s ed :
  App.notes s = [groceries; recipe; diary] → App.loading s = false →
  synced (seeded_world s ed).
Proof. intros Hn Hl. split_and!; [done.. | apply seeded_wf | simpl; by rewrite Hn]. Qed.

Lemma load_shows_store_witness :
  ∃ w, run (boot seeded) [Serve 0; Deliver 0] = Some w ∧ synced w ∧ store w = seeded ∧
       App.notes (app w) = store_notes seeded ∧ Page.spinner (page w) = false ∧
       Page.toast (page w) = None.
Proof. apply (load_shows_store seeded), seeded_wf. Defined.

Lemma create_then_load_witness :
  ∃ w' n,
    run (seeded_world creating (Some tea))
      [User (EditorEvent Editor.ClickSave); Serve 0; Deliver 0; Serve 0; Deliver 0]
      = Some w' ∧
    synced w' ∧ editor w' = None ∧
    NoteData.of_note n = Editor.draft tea ∧
    (Note.id n ∉ ids (App.notes (app (seeded_world creating (Some tea))))) ∧
    App.notes (app w') ≡ₚ n :: App.notes (app (seeded_world creating (Some tea))) ∧
    App.notification (app w') =
      Some (Notification.mk "Note created!" Notification.success).
Proof.
  apply (create_then_load (seeded_world creating (Some tea)) tea);
    [by apply seeded_synced | reflexivity..].
Defined.

Lemma edit_then_load_witness :
  ∃ w',
    run (seeded_world (editing recipe) (Some tea))
      [User (EditorEvent Editor.ClickSave); Serve 0; Deliver 0; Serve 0; Deliver 0]
      = Some w' ∧
    synced w' ∧ editor w' = None ∧
    App.notes (app w') ≡ₚ
      update_note (Note.id recipe) (Editor.draft tea)
        <$> App.notes (app (seeded_world (editing recipe) (Some tea))) ∧
    App.notification (app w') =
      Some (Notification.mk "Note updated!" Notification.success).
Proof.
  apply (edit_then_load (seeded_world (editing recipe) (Some tea)) tea recipe);
    [by apply seeded_synced | reflexivity | reflexivity | | reflexivity].
  apply list_elem_of_further, list_elem_of_here.
Defined.

Lemma save_refused_silent_witness :
  ∃ w',
    run (seeded_world (editing (Note.mk 9 "Gone" "" false 5)) (Some tea))
      [User (EditorEvent Editor.ClickSave); Serve 0; Deliver 0] = Some w' ∧
    app w' = app (seeded_world (editing (Note.mk 9 "Gone" "" false 5)) (Some tea)) ∧
    editor w' = Some tea ∧
    timers w' = timers (seeded_world (editing (Note.mk 9 "Gone" "" false 5)) (Some tea)) ∧
    synced w' ∧
    store_notes (store w') =
      store_notes (store (seeded_world (editing (Note.mk 9 "Gone" "" false 5)) (Some tea))).
Proof.
  apply (save_refused_silent
           (seeded_world (editing (Note.mk 9 "Gone" "" false 5)) (Some tea)) tea);
    [by apply seeded_synced | reflexivity..].
Defined.

Lemma publish_then_share_witness :
  let st := Editor.mk "Groceries" "milk, eggs" true in
  let w := seeded_world (editing groceries) (Some st) in
  ∃ w' i n w'',
    run w [User (EditorEvent Editor.ClickSave); Serve 0; Deliver 0; Serve 0; Deliver 0]
      = Some w' ∧
    Page.cards (page w') !! i = Some (Note.id groceries, NoteCard.render n) ∧
    NoteData.of_note n = Editor.draft st ∧
    NoteCard.publicBadge (NoteCard.render n) = true ∧
    NoteCard.ShareButton ∈ NoteCard.buttons (NoteCard.render n) ∧
    step w' (User (ClickCard i NoteCard.ShareButton)) = Some w'' ∧
    Page.shareModalView (page w'') = Some (ShareModal.render n) ∧
    ShareModal.shareUrl (ShareModal.render n) =
      origin +:+ "/share/" +:+ numToString (Note.id groceries).
Proof.
  apply (publish_then_share
           (seeded_world (editing groceries) (Some (Editor.mk "Groceries" "milk, eggs" true)))
           (Editor.mk "Groceries" "milk, eggs" true) groceries);
    [by apply seeded_synced | reflexivity | reflexivity | apply list_elem_of_here
    | reflexivity..].
Defined.

Lemma delete_synced_witness :
  ∃ w',
    run (seeded_world sample_page None)
      [User (ClickCard 1 NoteCard.DeleteButton); Serve 0; Deliver 0] = Some w' ∧
    synced w' ∧
    App.notes (app w') =
      remove_key Note.id (Note.id recipe) (App.notes (app (seeded_world sample_page None))) ∧
    App.notification (app w') =
      Some (Notification.mk "Note deleted!" Notification.success).
Proof.
  apply (delete_synced (seeded_world sample_page None) 1 recipe);
    [by apply seeded_synced | reflexivity].
Defined.

End examples.
