(* ===== verification/Overlap.v ===== *)
(** * Overlapping use

    What happens when the user does not wait: a second gesture while the
    editor is open or while a request is in flight.  The editor is
    mounted once and keeps its cells while it stays rendered (it has no
    [key]), so changing the edited note under an open editor keeps the
    draft of the previous target, and saving sends that draft to the new
    target.  A save that completes closes whatever editor is open at that
    time.  A response that is lost after the store has handled the
    request leaves the page behind the store: a lost save is reported as
    failed although the note exists, and a lost delete keeps a note on the
    page that a retry may never remove.  In the other direction, a
    successful save repairs a page that disagrees with the store, since it
    reloads the collection. *)

From S2P Require Import Prelude JsString Model Editor Search Controller Views Store System.
From S2P Require Import Sync.

#[local] Open Scope N_scope.

(** The request [saveNote] sends for an edited note. *)
Definition putRequest (note : Note.t) (d : NoteData.t) : Request :=
  mkRequest (API_BASE_URL +:+ "/notes/" +:+ numToString (Note.id note)) PUT
    [("Content-Type", "application/json")] (Some d).

(** The request [deleteNote] sends (App.js 67-69). *)
Definition deleteRequest (id : N) : Request :=
  mkRequest (API_BASE_URL +:+ "/notes/" +:+ numToString id) DELETE [] None.

Section overlap.
Context `{Platform} {S : Type} `{NoteStore S}.
Implicit Types (w : World S) (st : Editor.State) (note : Note.t).

(** ** The draft survives a change of target *)

(** A click on a card's edit button while the editor is open sets the
    edited note and leaves the draft as it is. *)
Lemma retarget_step w st i note :
  editor w = Some st → App.loading (app w) = false →
  filteredNotes (App.notes (app w)) (App.searchTerm (app w)) !! i = Some note →
  step w (User (ClickCard i NoteCard.EditButton)) =
  Some (mkWorld (exec (onEdit note) (app w)) (Some st) (flights w) (timers w) (now w)
          (clipboard w) (store w)).
Proof.
  intros He Hl Hi. cbn [step dispatch].
  rewrite (proj1 (clickCard_edit (app w) i note Hl Hi)).
  cbn [fmap option_fmap option_map]. rewrite commit_eq, He; simpl.
  by rewrite !app_nil_r, reconcile_keep by apply onEdit_opens.
Qed.

Lemma put_routed note d : route (putRequest note d) = RUpdate (Note.id note) d.
Proof. apply route_item. Qed.

(** Saving in edit mode sends the draft to the edited note. *)
Lemma delete_routed id : route (deleteRequest id) = RDelete id.
Proof. apply route_item. Qed.

Lemma save_edit_step w st note :
  editor w = Some st → App.editingNote (app w) = Some note →
  blank (Editor.title st) = false →
  step w (User (EditorEvent Editor.ClickSave)) =
  Some (mkWorld (app w) (Some st)
          (flights w ++ [mkFlight (putRequest note (Editor.draft st))
                           (AwaitSave (Some note)) None])
          (timers w) (now w) (clipboard w) (store w)).
Proof.
  intros He Hn Hb.
  assert (editorOpen (app w) = true) as Ho by (apply editorOpen_iff; rewrite Hn; eauto).
  rewrite (save_click w st), Hn by done.
  by rewrite (commit_fetch _ _ _ (putRequest note (Editor.draft st))
                (AwaitSave (Some note))), reconcile_keep.
Qed.

(** C17: the draft is not re-initialised when the edited note changes
    under an open editor.  After a click on the edit button of another
    card the form still holds the draft it held, under the heading of the
    edit mode, and the click on save sends that draft as the new fields
    of the note clicked last. *)
Theorem stale_draft_saved w st i note :
  editor w = Some st → App.loading (app w) = false →
  filteredNotes (App.notes (app w)) (App.searchTerm (app w)) !! i = Some note →
  blank (Editor.title st) = false →
  ∃ w1 w2,
    step w (User (ClickCard i NoteCard.EditButton)) = Some w1 ∧
    App.editingNote (app w1) = Some note ∧ editor w1 = Some st ∧
    Page.editorModal (page w1) = Some (Editor.render (Some note) st) ∧
    step w1 (User (EditorEvent Editor.ClickSave)) = Some w2 ∧
    flights w2 = flights w ++ [mkFlight (putRequest note (Editor.draft st))
                                 (AwaitSave (Some note)) None] ∧
    route (putRequest note (Editor.draft st)) = RUpdate (Note.id note) (Editor.draft st).
Proof.
  intros He Hl Hi Hb. pose proof (retarget_step w st i note He Hl Hi) as H1.
  eexists _, _. split; [exact H1 |].
  split_and!; [done | done | | by apply (save_edit_step _ st note) | done
              | apply put_routed].
  unfold page, Page.render; simpl. by rewrite reconcile_keep by apply onEdit_opens.
Qed.

(** ** A save that completes closes the editor of the moment *)

(** The refresh of a save, once it settles, unmounts the editor and
    discards its draft, whichever note it was opened for. *)
Lemma late_save_closes w i f e o :
  flights w !! i = Some f → cont f = AwaitFetchNotes (Some e) →
  let w' := commit (resume (cont f) o) (editor w) (land i w) in
  editor w' = None ∧ App.editingNote (app w') = None ∧ App.isCreating (app w') = false.
Proof.
  intros Hf Hc. rewrite Hc, commit_eq. cbn [app editor]. unfold exec.
  by rewrite resume_fetch_after_save.
Qed.

(** ** A save repairs the page *)

(** C35: whatever the page showed, a save the store accepts ends with
    the page in agreement with the store: the refresh replaces the
    collection by the store's. *)
Theorem save_heals w st :
  flights w = [] → store_wf (store w) → editor w = Some st →
  editorOpen (app w) = true → blank (Editor.title st) = false →
  ok (store_handle (saveRoute (App.editingNote (app w)) (Editor.draft st)) (store w)).2
    = true →
  ∃ w',
    run w [User (EditorEvent Editor.ClickSave); Serve 0; Deliver 0; Serve 0; Deliver 0]
      = Some w' ∧
    synced w' ∧ editor w' = None ∧
    App.notes (app w') = store_notes (store w').
Proof.
  intros Hf Hwf He Ho Hb Hok. eexists. split; [by apply (save_round w st) |].
  split_and!; try done. apply saved_synced. auto with notes.
Qed.

(** ** A response that is lost *)

(** The click on save in create mode, from a page with nothing in
    flight. *)
Lemma create_click w st :
  flights w = [] → editor w = Some st → App.isCreating (app w) = true →
  App.editingNote (app w) = None → blank (Editor.title st) = false →
  ∃ req, route req = RCreate (Editor.draft st) ∧
    step w (User (EditorEvent Editor.ClickSave)) =
    Some (mkWorld (app w) (Some st) [mkFlight req (AwaitSave None) None] (timers w)
            (now w) (clipboard w) (store w)).
Proof.
  intros Hf He Hc Hn Hb.
  assert (editorOpen (app w) = true) as Ho by (apply editorOpen_iff; auto).
  destruct (saveNote_flight None (Editor.draft st) (app w)) as (req & Hreq & Hroute).
  exists req. split; [done |]. rewrite (save_click w st), Hn by done.
  by rewrite (commit_fetch _ _ _ req (AwaitSave None)), Hf, reconcile_keep.
Qed.

(** The store handles the only request in flight and the answer is lost
    on its way back. *)
Lemma run_serve_drop w f :
  flights w = [f] → reply f = None →
  run w [Serve 0; Drop 0] =
  Some (commit (resume (cont f) Rejected) (editor w)
          (mkWorld (app w) (editor w) [] (timers w) (now w) (clipboard w)
             (store_handle (route (request f)) (store w)).1)).
Proof.
  intros Hf Hr. simpl. rewrite Hf. simpl. rewrite Hr.
  destruct (store_handle _ _) as [x r] eqn:E. simpl. rewrite Hf. simpl.
  unfold land. simpl. by rewrite Hf.
Qed.

(** C34: a save whose response is lost.  When the store has handled the
    POST and the answer fails in the network, the store holds the new
    note, while the page shows the old collection, keeps the editor open
    on the draft and displays "Failed to save note": the page and the
    store disagree, and a second attempt would create a second note. *)
Theorem lost_response w st :
  synced w → editor w = Some st → App.isCreating (app w) = true →
  App.editingNote (app w) = None → blank (Editor.title st) = false →
  ∃ w' n,
    run w [User (EditorEvent Editor.ClickSave); Serve 0; Drop 0] = Some w' ∧
    store_notes (store w') ≡ₚ n :: store_notes (store w) ∧
    NoteData.of_note n = Editor.draft st ∧ (Note.id n ∉ ids (App.notes (app w))) ∧
    App.notes (app w') = App.notes (app w) ∧ editor w' = Some st ∧ flights w' = [] ∧
    App.notification (app w') =
      Some (Notification.mk "Failed to save note" Notification.error).
Proof.
  intros (Hf & Hl & Hwf & Hnotes) He Hc Hn Hb.
  destruct (create_click w st Hf He Hc Hn Hb) as (req & Hroute & Hstep).
  destruct (store_create (Editor.draft st) (store w) Hwf) as (_ & n & Hd & Hfr & Hp).
  eexists _, n. split.
  { rewrite run_cons, Hstep. cbn [mbind option_bind].
    by rewrite (run_serve_drop _ (mkFlight req (AwaitSave None) None)). }
  rewrite commit_eq; simpl. rewrite Hroute.
  split_and!; try done; [by rewrite Hnotes |].
  apply reconcile_keep, editorOpen_iff; auto.
Qed.

(** ** A delete whose response is lost *)

(** The click on a card's delete button, from a page with nothing in
    flight: the request captures the collection displayed at the click. *)
Lemma delete_click w i n :
  flights w = [] → App.loading (app w) = false →
  filteredNotes (App.notes (app w)) (App.searchTerm (app w)) !! i = Some n →
  step w (User (ClickCard i NoteCard.DeleteButton)) =
  Some (mkWorld (app w) (reconcile (app w) (editor w))
          [mkFlight (deleteRequest (Note.id n))
             (AwaitDelete (App.notes (app w)) (Note.id n)) None]
          (timers w) (now w) (clipboard w) (store w)).
Proof.
  intros Hf Hl Hi. cbn [step dispatch].
  rewrite (proj2 (clickCard_edit (app w) i n Hl Hi)).
  cbn [fmap option_fmap option_map].
  by rewrite (commit_fetch _ _ _ (deleteRequest (Note.id n))
                (AwaitDelete (App.notes (app w)) (Note.id n))), Hf.
Qed.

(** The store handles the DELETE and the answer is lost: the page keeps
    the note and reports a failure. *)
Lemma delete_lost_round w i n :
  flights w = [] → App.loading (app w) = false →
  filteredNotes (App.notes (app w)) (App.searchTerm (app w)) !! i = Some n →
  run w [User (ClickCard i NoteCard.DeleteButton); Serve 0; Drop 0] =
  Some (mkWorld
          (exec (showNotification "Failed to delete note" (Some Notification.error)) (app w))
          (reconcile (app w) (reconcile (app w) (editor w))) []
          (timers w ++ [mkTimer (now w + 3000) ClearNotification]) (now w)
          (clipboard w) (store_handle (RDelete (Note.id n)) (store w)).1).
Proof.
  intros Hf Hl Hi. rewrite run_cons, (delete_click w i n) by done.
  cbn [mbind option_bind]. erewrite run_serve_drop by done.
  rewrite commit_eq. by cbn; rewrite delete_routed.
Qed.

(** A delete the store refuses, followed to its answer: the page does
    not change and shows no message. *)
Lemma delete_refused_round w i n :
  flights w = [] → App.loading (app w) = false →
  filteredNotes (App.notes (app w)) (App.searchTerm (app w)) !! i = Some n →
  ok (store_handle (RDelete (Note.id n)) (store w)).2 = false →
  run w [User (ClickCard i NoteCard.DeleteButton); Serve 0; Deliver 0] =
  Some (mkWorld (app w) (reconcile (app w) (reconcile (app w) (editor w))) []
          (timers w) (now w) (clipboard w)
          (store_handle (RDelete (Note.id n)) (store w)).1).
Proof.
  intros Hf Hl Hi Hok. rewrite run_cons, (delete_click w i n) by done.
  cbn [mbind option_bind]. erewrite run_settle by done.
  unfold settle. rewrite commit_eq. cbn [cont request app editor store resume].
  rewrite delete_routed. unfold exec, effects.
  rewrite deleteNote_resume_not_ok by done. simpl. by rewrite !app_nil_r.
Qed.

(** What a lost delete leaves behind. *)
Lemma delete_lost_store w n :
  synced w → n ∈ App.notes (app w) →
  let x := (store_handle (RDelete (Note.id n)) (store w)).1 in
  store_wf x ∧
  store_notes x ≡ₚ remove_key Note.id (Note.id n) (store_notes (store w)) ∧
  Note.id n ∉ ids (store_notes x).
Proof.
  intros (_ & _ & Hwf & Hn) Hin. simpl.
  assert (Note.id n ∈ ids (store_notes (store w))) as Hid
    by (rewrite <-Hn; by apply elem_of_ids).
  pose proof (store_delete_ok _ _ Hwf (store_delete _ _ Hwf Hid)) as Hp.
  split_and!; [auto with notes | done |].
  unfold ids. rewrite Hp. apply remove_key_absent.
Qed.

(** C15: a delete whose response is lost, and the retry.  The store
    removes the note and the answer fails in the network: the page keeps
    the note and displays "Failed to delete note".  When the user clicks
    delete again, a store that answers the repeated DELETE with a success
    brings the page back in agreement; a store that refuses it (the note
    is gone) leaves the page as it is, with the note displayed and no new
    message. *)
Theorem lost_delete w i n :
  synced w →
  filteredNotes (App.notes (app w)) (App.searchTerm (app w)) !! i = Some n →
  ∃ w1 w2,
    run w [User (ClickCard i NoteCard.DeleteButton); Serve 0; Drop 0] = Some w1 ∧
    App.notes (app w1) = App.notes (app w) ∧
    (Note.id n ∉ ids (store_notes (store w1))) ∧
    App.notification (app w1) =
      Some (Notification.mk "Failed to delete note" Notification.error) ∧
    run w1 [User (ClickCard i NoteCard.DeleteButton); Serve 0; Deliver 0] = Some w2 ∧
    if ok (store_handle (RDelete (Note.id n)) (store w1)).2
    then synced w2
    else app w2 = app w1 ∧ store_notes (store w2) = store_notes (store w1).
Proof.
  intros Hs Hi. pose proof Hs as (Hf & Hl & Hwf & Hn).
  assert (n ∈ App.notes (app w)) as Hin.
  { apply (elem_of_filteredNotes _ (App.searchTerm (app w))).
    by eapply list_elem_of_lookup_2. }
  destruct (delete_lost_store w n Hs Hin) as (Hwf1 & Hp1 & Hgone).
  destruct (ok (store_handle (RDelete (Note.id n))
                  (store_handle (RDelete (Note.id n)) (store w)).1).2) eqn:Hok;
    (eexists _, _; split; [by apply delete_lost_round |]);
    cbn [store]; rewrite Hok; do 3 (split; [done |]); split.
  - by apply delete_round.
  - unfold synced; cbn [flights app store].
    split_and!; [done.. | auto with notes |]. simpl.
    rewrite (store_delete_ok _ _ Hwf1 Hok), (remove_key_id _ _ _ Hgone), Hp1.
    by rewrite Hn.
  - by apply delete_refused_round.
  - split; [done | by apply store_not_ok].
Qed.

(** ** Two clicks on save *)

(** C33: the save button stays enabled while a save is pending.  Two
    clicks on it in create mode send two POSTs, and a store that meets the
    contract creates two notes with the fields of the draft under two
    identifiers. *)
Theorem double_save w st :
  synced w → editor w = Some st → App.isCreating (app w) = true →
  App.editingNote (app w) = None → blank (Editor.title st) = false →
  ∃ w' n1 n2,
    run w [User (EditorEvent Editor.ClickSave); User (EditorEvent Editor.ClickSave);
           Serve 0; Serve 1] = Some w' ∧
    store_notes (store w') ≡ₚ n2 :: n1 :: store_notes (store w) ∧
    NoteData.of_note n1 = Editor.draft st ∧ NoteData.of_note n2 = Editor.draft st ∧
    Note.id n1 ≠ Note.id n2.
Proof.
  intros (Hf & Hl & Hwf & Hnotes) He Hc Hn Hb.
  destruct (create_click w st Hf He Hc Hn Hb) as (req & Hroute & Hstep).
  pose proof (store_wf_handle (RCreate (Editor.draft st)) (store w) Hwf) as Hwf1.
  destruct (store_create (Editor.draft st) (store w) Hwf) as (_ & n1 & Hd1 & Hfr1 & Hp1).
  destruct (store_create (Editor.draft st) _ Hwf1) as (_ & n2 & Hd2 & Hfr2 & Hp2).
  assert (editorOpen (app w) = true) as Ho by (apply editorOpen_iff; auto).
  destruct (saveNote_flight None (Editor.draft st) (app w)) as (req' & Hreq' & Hr').
  eexists _, n1, n2. split.
  { rewrite run_cons, Hstep. cbn [mbind option_bind].
    rewrite run_cons, (save_click _ st) by done.
    cbn [mbind option_bind app]. rewrite Hn.
    rewrite (commit_fetch _ _ _ req' (AwaitSave None)) by done.
    rewrite run_cons, (step_serve _ 0 (mkFlight req (AwaitSave None) None)) by done.
    cbn [mbind option_bind].
    rewrite run_cons, (step_serve _ 1 (mkFlight req' (AwaitSave None) None)) by done.
    simpl. by rewrite Hroute, Hr'. }
  simpl. split_and!; [by rewrite Hp2, Hp1 | done | done |].
  intros Heq. apply Hfr2. rewrite Hp1, <-Heq. apply list_elem_of_here.
Qed.

End overlap.

(** ** On the reference store *)

Section examples.
#[local] Existing Instance demo.

(** The editor open on the groceries, with a draft for them, over a page
    that shows the three notes. *)
Definition editing_groceries : World RefStore.t :=
  seeded_world (editing groceries) (Some (Editor.mk "Groceries" "milk, eggs, tea" false)).

Lemma stale_draft_saved_witness :
  ∃ w1 w2,
    step editing_groceries (User (ClickCard 1 NoteCard.EditButton)) = Some w1 ∧
    App.editingNote (app w1) = Some recipe ∧
    editor w1 = Some (Editor.mk "Groceries" "milk, eggs, tea" false) ∧
    Page.editorModal (page w1) =
      Some (Editor.render (Some recipe) (Editor.mk "Groceries" "milk, eggs, tea" false)) ∧
    step w1 (User (EditorEvent Editor.ClickSave)) = Some w2 ∧
    flights w2 =
      flights editing_groceries ++
      [mkFlight (putRequest recipe (NoteData.mk "Groceries" "milk, eggs, tea" false))
         (AwaitSave (Some recipe)) None] ∧
    route (putRequest recipe (NoteData.mk "Groceries" "milk, eggs, tea" false)) =
      RUpdate 2 (NoteData.mk "Groceries" "milk, eggs, tea" false).
Proof.
  apply (stale_draft_saved editing_groceries
           (Editor.mk "Groceries" "milk, eggs, tea" false) 1 recipe); reflexivity.
Defined.

(** A page that shows a note the store no longer has: saving the open
    draft brings the page back in agreement. *)
Definition stale_page : World RefStore.t :=
  mkWorld (App.mk [groceries; recipe; diary] true None "" None false None) (Some tea)
    [] [] 0 None (RefStore.mk [groceries; diary] 4 41).

Lemma save_heals_witness :
  ∃ w',
    run stale_page
      [User (EditorEvent Editor.ClickSave); Serve 0; Deliver 0; Serve 0; Deliver 0]
      = Some w' ∧
    synced w' ∧ editor w' = None ∧ App.notes (app w') = store_notes (store w').
Proof.
  apply (save_heals stale_page tea); try reflexivity.
  split; by apply (bool_decide_unpack _).
Defined.

Lemma lost_response_witness :
  ∃ w' n,
    run (seeded_world creating (Some tea))
      [User (EditorEvent Editor.ClickSave); Serve 0; Drop 0] = Some w' ∧
    store_notes (store w') ≡ₚ n :: store_notes (store (seeded_world creating (Some tea))) ∧
    NoteData.of_note n = Editor.draft tea ∧
    (Note.id n ∉ ids (App.notes (app (seeded_world creating (Some tea))))) ∧
    App.notes (app w') = App.notes (app (seeded_world creating (Some tea))) ∧
    editor w' = Some tea ∧ flights w' = [] ∧
    App.notification (app w') =
      Some (Notification.mk "Failed to save note" Notification.error).
Proof.
  apply (lost_response (seeded_world creating (Some tea)) tea);
    [by apply seeded_synced | reflexivity..].
Defined.

(** The page at rest over the seeded store. *)
Definition resting : World RefStore.t :=
  seeded_world (App.mk [groceries; recipe; diary] false None "" None false None) None.

Lemma lost_delete_witness :
  ∃ w1 w2,
    run resting [User (ClickCard 1 NoteCard.DeleteButton); Serve 0; Drop 0] = Some w1 ∧
    App.notes (app w1) = App.notes (app resting) ∧
    (Note.id recipe ∉ ids (store_notes (store w1))) ∧
    App.notification (app w1) =
      Some (Notification.mk "Failed to delete note" Notification.error) ∧
    run w1 [User (ClickCard 1 NoteCard.DeleteButton); Serve 0; Deliver 0] = Some w2 ∧
    if ok (store_handle (RDelete (Note.id recipe)) (store w1)).2
    then synced w2
    else app w2 = app w1 ∧ store_notes (store w2) = store_notes (store w1).
Proof.
  apply (lost_delete resting 1 recipe); [by apply seeded_synced | reflexivity].
Defined.

(** The reference store answers the repeated DELETE with 404: however
    often the user clicks delete, the page keeps the note the store has
    removed. *)
Example lost_delete_stuck :
  (λ w, (ids (App.notes (app w)), ids (store_notes (store w)),
         Notification.message <$> App.notification (app w)))
    <$> run resting
          [User (ClickCard 1 NoteCard.DeleteButton); Serve 0; Drop 0; Elapse 3000;
           User (ClickCard 1 NoteCard.DeleteButton); Serve 0; Deliver 0;
           User (ClickCard 1 NoteCard.DeleteButton); Serve 0; Deliver 0] =
  Some ([1; 2; 3], [1; 3], None).
Proof. vm_compute. reflexivity. Qed.

Lemma double_save_witness :
  ∃ w' n1 n2,
    run (seeded_world creating (Some tea))
      [User (EditorEvent Editor.ClickSave); User (EditorEvent Editor.ClickSave);
       Serve 0; Serve 1] = Some w' ∧
    store_notes (store w') ≡ₚ
      n2 :: n1 :: store_notes (store (seeded_world creating (Some tea))) ∧
    NoteData.of_note n1 = Editor.draft tea ∧ NoteData.of_note n2 = Editor.draft tea ∧
    Note.id n1 ≠ Note.id n2.
Proof.
  apply (double_save (seeded_world creating (Some tea)) tea);
    [by apply seeded_synced | reflexivity..].
Defined.

End examples.
