(* ===== verification/Reorder.v ===== *)
(** * Answers out of order

    The requests in flight wait side by side: an event addresses one of
    them by its position, and no event touches the others.  The first
    part makes this a frame property of the event loop: a run goes
    through unchanged beside requests it does not address.

    The second part is what the frame allows.  Nothing orders the answers
    of two loads, and the continuation of [fetchNotes] replaces the
    collection by whatever its answer holds (App.js 20-21).  An answer
    the store gave before a save, delivered after the refresh of that
    save, puts the old collection back: the page is at rest, displays
    "Note created!", and does not show the note. *)

From S2P Require Import Prelude JsString Model Editor Search Controller Views Store System.
From S2P Require Import Sync.

#[local] Open Scope N_scope.

(** An event, with the position it addresses moved past [k] requests. *)
Definition shift (k : nat) (ev : Event) : Event :=
  match ev with
  | Serve i => Serve (k + i)
  | Refuse i status => Refuse (k + i) status
  | Deliver i => Deliver (k + i)
  | Drop i => Drop (k + i)
  | User _ | Elapse _ => ev
  end.

Section frame.
Context `{Platform} {S : Type} `{NoteStore S}.
Implicit Types (w : World S) (f : Flight) (fs : list Flight) (st : Editor.State).

(** The world with the requests [fs] in flight before its own. *)
Definition park fs w : World S :=
  mkWorld (app w) (editor w) (fs ++ flights w) (timers w) (now w) (clipboard w)
    (store w).

(** ** The frame *)

Lemma frame_commit fs a ed w : commit a ed (park fs w) = park fs (commit a ed w).
Proof. rewrite !commit_eq. unfold park; simpl. by rewrite app_assoc. Qed.

Lemma frame_land fs i w : land (length fs + i) (park fs w) = park fs (land i w).
Proof. unfold land, park; simpl. by rewrite delete_app_add. Qed.

Lemma frame_answer fs i f r (x : S) w :
  answer (length fs + i) f r x (park fs w) = park fs (answer i f r x w).
Proof. unfold answer, park; simpl. by rewrite insert_app_r. Qed.

Lemma frame_fire fs w (ts : list Timer) :
  foldl (λ w t, commit (runCallback (callback t)) (editor w) w) (park fs w) ts =
  park fs (foldl (λ w t, commit (runCallback (callback t)) (editor w) w) w ts).
Proof.
  revert w. induction ts as [|t ts IH]; intros w; [done |].
  simpl. by rewrite frame_commit, IH.
Qed.

Lemma frame_elapse fs ms w : elapse ms (park fs w) = park fs (elapse ms w).
Proof. unfold elapse. by rewrite <- frame_fire. Qed.

(** One turn beside requests it does not address. *)
Lemma frame_step fs w ev :
  step (park fs w) (shift (length fs) ev) = park fs <$> step w ev.
Proof.
  destruct ev as [e|i|i status|i|i|ms]; simpl;
    rewrite ?lookup_app_add, ?frame_elapse; try done.
  - destruct (dispatch _ _ e) as [[a ed]|]; simpl; [|done].
    by rewrite <- frame_commit.
  - destruct (flights w !! i) as [f|]; [|done].
    destruct (reply f); [done |].
    destruct (store_handle _ _) as [x r]. simpl. by rewrite <- frame_answer.
  - destruct (flights w !! i) as [f|]; [|done].
    destruct (reply f); [done |]. case_match; [done |].
    simpl. by rewrite <- frame_answer.
  - destruct (flights w !! i) as [f|]; [|done].
    destruct (reply f); [|done]. simpl. by rewrite frame_land, frame_commit.
  - destruct (flights w !! i) as [f|]; [|done].
    simpl. by rewrite frame_land, frame_commit.
Qed.

(** A run beside requests it does not address happens, or fails, as it
    does without them, and leaves them as they were. *)
Theorem frame_run fs w evs :
  run (park fs w) (shift (length fs) <$> evs) = park fs <$> run w evs.
Proof.
  revert w. induction evs as [|ev evs IH]; intros w; [done |].
  rewrite fmap_cons, !run_cons, frame_step.
  destruct (step w ev) as [w1|]; [apply IH | done].
Qed.

(** ** An old answer delivered late *)

(** The answer to a load arrives: the collection is replaced by the one
    it holds, whatever the page showed. *)
Lemma deliver_load w f caller (notes : list Note.t) :
  flights w = [f] → cont f = AwaitFetchNotes caller →
  reply f = Some (mkResponse 200 (Some notes)) →
  ∃ w', step w (Deliver 0) = Some w' ∧ flights w' = [] ∧
    App.notes (app w') = notes ∧ App.loading (app w') = false ∧
    store w' = store w ∧
    (caller = None → App.notification (app w') = App.notification (app w) ∧
                     editor w' = reconcile (app w) (editor w)).
Proof.
  intros Hf Hc Hr. eexists. split; [by simpl; rewrite Hf; simpl; rewrite Hr |].
  rewrite commit_eq, Hc. unfold land, exec, effects.
  cbn [app editor flights timers now clipboard store]. rewrite Hf.
  destruct caller as [e|].
  - by rewrite resume_fetch_after_save.
  - by rewrite resume_fetch_alone, fetchNotes_resume_run.
Qed.

(** A save in create mode and its refresh, beside one request that
    waits. *)
Lemma save_beside w st f :
  flights w = [] → store_wf (store w) → editor w = Some st →
  App.isCreating (app w) = true → App.editingNote (app w) = None →
  blank (Editor.title st) = false →
  let x := (store_handle (RCreate (Editor.draft st)) (store w)).1 in
  run (park [f] w)
    [User (EditorEvent Editor.ClickSave); Serve 1; Deliver 1; Serve 1; Deliver 1] =
  Some (park [f]
          (mkWorld (saved None (store_notes x) (app w)) None []
             (timers w ++ [mkTimer (now w + 3000) ClearNotification]) (now w)
             (clipboard w) x)).
Proof.
  intros Hf Hwf He Hc Hn Hb x.
  change [User _; _; _; _; _] with
    (shift (length [f]) <$>
       [User (EditorEvent Editor.ClickSave); Serve 0; Deliver 0; Serve 0; Deliver 0]).
  rewrite frame_run, (save_round w st);
    [by rewrite Hn | done.. | apply editorOpen_iff; auto | done |].
  rewrite Hn. by apply store_create.
Qed.

(** An old answer delivered late puts the old collection back.  The
    store has answered a load, and the answer is still on its way when
    the user saves a new note.  The save and its refresh complete and
    the page shows the note; then the old answer arrives.  The page ends
    at rest, the editor closed, with "Note created!" on display and
    without the note, which the store holds. *)
Lemma late_load_overwrites w st f :
  flights w = [] → store_wf (store w) → editor w = Some st →
  App.isCreating (app w) = true → App.editingNote (app w) = None →
  blank (Editor.title st) = false →
  cont f = AwaitFetchNotes None →
  reply f = Some (store_handle RList (store w)).2 →
  ∃ w' n,
    run (park [f] w)
      [User (EditorEvent Editor.ClickSave); Serve 1; Deliver 1; Serve 1; Deliver 1;
       Deliver 0] = Some w' ∧
    flights w' = [] ∧ editor w' = None ∧ App.loading (app w') = false ∧
    App.notification (app w') =
      Some (Notification.mk "Note created!" Notification.success) ∧
    App.notes (app w') = store_notes (store w) ∧
    store_notes (store w') ≡ₚ n :: store_notes (store w) ∧
    NoteData.of_note n = Editor.draft st ∧ n ∉ App.notes (app w').
Proof.
  intros Hf Hwf He Hc Hn Hb Hk Hr. rewrite store_list in Hr by done.
  destruct (store_create (Editor.draft st) (store w) Hwf) as (_ & n & Hd & Hid & Hp).
  pose proof (save_beside w st f Hf Hwf He Hc Hn Hb) as Hrun. cbv zeta in Hrun. simpl in Hr.
  set (x := (store_handle (RCreate (Editor.draft st)) (store w)).1) in *.
  destruct (deliver_load
              (park [f] (mkWorld (saved None (store_notes x) (app w)) None []
                           (timers w ++ [mkTimer (now w + 3000) ClearNotification])
                           (now w) (clipboard w) x))
              f None (store_notes (store w)))
    as (w' & Hstep & Hf' & Hnotes & Hl & Hs & Hrest); [done.. |].
  destruct (Hrest eq_refl) as [Hmsg Hed]. exists w', n.
  change [User _; _; _; _; _; _] with
    ([User (EditorEvent Editor.ClickSave); Serve 1; Deliver 1; Serve 1; Deliver 1]
       ++ [Deliver 0]).
  rewrite run_app, Hrun, Hs. cbn [mbind option_bind run]. rewrite Hstep.
  split_and!; try done.
  rewrite Hnotes. intros Hin. apply Hid. by apply list_elem_of_fmap_2.
Qed.

(** The first render, with the store's answer to the mount fetch on its
    way and the create form filled in with a title. *)
Definition answered_mount (x : S) : Flight :=
  mkFlight (mkRequest (API_BASE_URL +:+ "/notes") GET [] None) (AwaitFetchNotes None)
    (Some (mkResponse 200 (Some (store_notes x)))).

Lemma typed_while_loading (x : S) t :
  store_wf x →
  run (boot x) [Serve 0; User ClickNewNote; User (EditorEvent (Editor.ChangeTitle t))] =
  Some (park [answered_mount x]
          (mkWorld (App.mk [] true None "" None true None) (Some (Editor.mk t "" false))
             [] [] 0 None x)).
Proof. intros Hwf. simpl. by rewrite store_list. Qed.

(** C5: a slow first load undoes a save.  From the first render, the
    store answers the mount fetch and the answer is still on its way when
    the user opens the form, types a title and saves.  The save and its
    refresh complete, and the page shows the new note; then the answer to
    the mount fetch arrives and [fetchNotes] stores its array.  The page
    ends at rest, the editor closed, with "Note created!" on display and
    with the collection the store had before the save: the note the
    store now holds is not on the page. *)
Theorem slow_first_load (x : S) t :
  store_wf x → blank t = false →
  ∃ w' n,
    run (boot x)
      [Serve 0; User ClickNewNote; User (EditorEvent (Editor.ChangeTitle t));
       User (EditorEvent Editor.ClickSave); Serve 1; Deliver 1; Serve 1; Deliver 1;
       Deliver 0] = Some w' ∧
    flights w' = [] ∧ editor w' = None ∧ App.loading (app w') = false ∧
    App.notification (app w') =
      Some (Notification.mk "Note created!" Notification.success) ∧
    App.notes (app w') = store_notes x ∧
    store_notes (store w') ≡ₚ n :: store_notes x ∧
    NoteData.of_note n = NoteData.mk t "" false ∧ n ∉ App.notes (app w').
Proof.
  intros Hwf Hb.
  change [Serve 0; _; _; _; _; _; _; _; _] with
    ([Serve 0; User ClickNewNote; User (EditorEvent (Editor.ChangeTitle t))] ++
     [User (EditorEvent Editor.ClickSave); Serve 1; Deliver 1; Serve 1; Deliver 1;
      Deliver 0]).
  rewrite run_app, typed_while_loading by done. cbn [mbind option_bind].
  apply (late_load_overwrites
           (mkWorld (App.mk [] true None "" None true None)
              (Some (Editor.mk t "" false)) [] [] 0 None x)
           (Editor.mk t "" false) (answered_mount x)); try done.
  simpl. by rewrite store_list.
Qed.

End frame.

(** ** On the reference store *)

Section examples.
#[local] Existing Instance demo.

Lemma slow_first_load_witness :
  ∃ w' n,
    run (boot seeded)
      [Serve 0; User ClickNewNote; User (EditorEvent (Editor.ChangeTitle "Tea"));
       User (EditorEvent Editor.ClickSave); Serve 1; Deliver 1; Serve 1; Deliver 1;
       Deliver 0] = Some w' ∧
    flights w' = [] ∧ editor w' = None ∧ App.loading (app w') = false ∧
    App.notification (app w') =
      Some (Notification.mk "Note created!" Notification.success) ∧
    App.notes (app w') = store_notes seeded ∧
    store_notes (store w') ≡ₚ n :: store_notes seeded ∧
    NoteData.of_note n = NoteData.mk "Tea" "" false ∧ n ∉ App.notes (app w').
Proof. apply (slow_first_load seeded "Tea"); [apply seeded_wf | reflexivity]. Defined.

(** The run evaluated: the page shows the four notes until the answer
    to the mount fetch arrives, and the three old ones afterwards. *)
Example slow_first_load_seeded :
  (λ w, (ids (App.notes (app w)), ids (store_notes (store w)), flights w)) <$>
    run (boot seeded)
      [Serve 0; User ClickNewNote; User (EditorEvent (Editor.ChangeTitle "Tea"));
       User (EditorEvent Editor.ClickSave); Serve 1; Deliver 1; Serve 1; Deliver 1] =
    Some ([1; 2; 3; 4], [1; 2; 3; 4], [answered_mount seeded]) ∧
  (λ w, (ids (App.notes (app w)), ids (store_notes (store w)), flights w,
         Notification.message <$> App.notification (app w))) <$>
    run (boot seeded)
      [Serve 0; User ClickNewNote; User (EditorEvent (Editor.ChangeTitle "Tea"));
       User (EditorEvent Editor.ClickSave); Serve 1; Deliver 1; Serve 1; Deliver 1;
       Deliver 0] =
    Some ([1; 2; 3], [1; 2; 3; 4], [], Some "Note created!").
Proof. split; vm_compute; reflexivity. Qed.

End examples.
