(* ===== verification/Stores.v ===== *)
(** * Stores

    The server is not in the repository: the client is verified against
    the contract [NoteStore], and what the contract leaves open is open
    in every theorem.  This file shows how much that is.  [LaxStore] is a
    second store that meets the contract and differs from the reference
    store where the contract allows it: it lists the newest note first,
    answers a POST with status 200 and a PUT with 204, and honours the
    DELETE of a note it does not hold.

    The last difference is one the page can see.  After a delete whose
    answer was lost the page shows a note the store has removed, and the
    only thing the user can do about it is to click delete again.  Over a
    store that honours the repeated DELETE ([IdempotentDelete]) one retry
    brings the page back in agreement; over a store that refuses it
    ([StrictDelete]) no number of retries does. *)

From S2P Require Import Prelude JsString Model Editor Search Controller Views Store System.
From S2P Require Import Sync Overlap.

#[local] Open Scope N_scope.

(** ** A second store *)

Module LaxStore.

Record t : Type := mk { base : RefStore.t }.

Definition empty : t := mk RefStore.empty.

Definition handle (rt : Route) (st : t) : t * Response :=
  let b := base st in
  match rt with
  | RList => (st, mkResponse 200 (Some (RefStore.notes b)))
  | RCreate d =>
      (mk {| RefStore.notes := RefStore.create d b :: RefStore.notes b;
             RefStore.nextId := RefStore.nextId b + 1;
             RefStore.clock := RefStore.clock b + 1 |},
       mkResponse 200 None)
  | RUpdate id d =>
      if decide (id ∈ ids (RefStore.notes b))
      then (mk {| RefStore.notes := update_note id d <$> RefStore.notes b;
                  RefStore.nextId := RefStore.nextId b;
                  RefStore.clock := RefStore.clock b + 1 |},
            mkResponse 204 None)
      else (st, mkResponse 404 None)
  | RDelete id =>
      (mk {| RefStore.notes := remove_key Note.id id (RefStore.notes b);
             RefStore.nextId := RefStore.nextId b;
             RefStore.clock := RefStore.clock b + 1 |},
       mkResponse 204 None)
  | RUnknown => (st, mkResponse 405 None)
  end.

Definition wf (st : t) : Prop := RefStore.wf (base st).

End LaxStore.

(** The three sample notes in a lax store. *)
Definition seeded_lax : LaxStore.t := LaxStore.mk seeded.

Section laxstore.
Implicit Types (st : LaxStore.t) (d : NoteData.t) (id : N).

Lemma laxstore_wf_handle rt st : LaxStore.wf st → LaxStore.wf (LaxStore.handle rt st).1.
Proof.
  destruct st as [b]. unfold LaxStore.wf. intros Hwf. pose proof Hwf as [Hnd Hlt].
  destruct rt as [|d|id d|id|]; simpl; try done.
  - split; simpl.
    + apply NoDup_cons. split; [by apply refstore_fresh | done].
    + constructor; [simpl; lia |].
      eapply Forall_impl; [done |]. intros; simpl in *; lia.
  - pose proof (refstore_wf_handle (RUpdate id d) b Hwf) as Hu. simpl in Hu.
    by case_decide.
  - split; simpl; [by apply remove_key_NoDup | by apply remove_key_Forall].
Qed.

#[export, refine] Instance laxstore : NoteStore LaxStore.t := {|
  store_notes st := RefStore.notes (LaxStore.base st);
  store_handle := LaxStore.handle;
  store_wf := LaxStore.wf;
|}.
Proof.
  - apply laxstore_wf_handle.
  - by intros st [? _].
  - done.
  - intros d st Hwf. split; [done |]. exists (RefStore.create d (LaxStore.base st)).
    split_and!; [by destruct d | by apply refstore_fresh | done].
  - intros id d st _ Hin. simpl. by rewrite decide_True.
  - intros id d st _ Hin. simpl. by rewrite decide_False.
  - done.
  - done.
  - done.
  - intros rt st _. destruct rt; simpl; try done; by case_decide.
Defined.

Lemma seeded_lax_wf : LaxStore.wf seeded_lax.
Proof. apply seeded_wf. Qed.

End laxstore.

(** ** What a store does with a DELETE it has already honoured *)

Class IdempotentDelete (S : Type) `{NoteStore S} : Prop :=
  delete_accepted (id : N) (st : S) :
    store_wf st → ok (store_handle (RDelete id) st).2 = true.

Class StrictDelete (S : Type) `{NoteStore S} : Prop :=
  delete_refused (id : N) (st : S) :
    store_wf st → id ∉ ids (store_notes st) → ok (store_handle (RDelete id) st).2 = false.

#[export] Instance laxstore_idempotent : IdempotentDelete LaxStore.t.
Proof. by intros id st _. Qed.

#[export] Instance refstore_strict : StrictDelete RefStore.t.
Proof. intros id st _ Hid. simpl. by rewrite decide_False. Qed.

(** ** Retrying a delete *)

(** A click on the delete button of card [i], followed to its answer. *)
Definition retry (i : nat) : list Event :=
  [User (ClickCard i NoteCard.DeleteButton); Serve 0; Deliver 0].

Definition retries (i k : nat) : list Event := concat (replicate k (retry i)).

Section retry.
Context `{Platform} {S : Type} `{NoteStore S}.
Implicit Types (w : World S) (n : Note.t).

(** A page at rest that shows, as card [i], a note the store does not
    hold. *)
Definition behind w (i : nat) n : Prop :=
  flights w = [] ∧ App.loading (app w) = false ∧ store_wf (store w) ∧
  filteredNotes (App.notes (app w)) (App.searchTerm (app w)) !! i = Some n ∧
  Note.id n ∉ ids (store_notes (store w)).

(** Where the store honours a repeated DELETE, one retry removes the
    note from the page, and the page agrees with the store if that note
    was all it had too much. *)
Theorem retry_heals `{!IdempotentDelete S} w i n :
  behind w i n →
  remove_key Note.id (Note.id n) (App.notes (app w)) ≡ₚ store_notes (store w) →
  ∃ w', run w (retry i) = Some w' ∧ synced w' ∧
        App.notification (app w') =
          Some (Notification.mk "Note deleted!" Notification.success).
Proof.
  intros (Hf & Hl & Hwf & Hi & Hid) Hp.
  pose proof (delete_accepted (Note.id n) (store w) Hwf) as Hok.
  eexists. split; [by apply delete_round |].
  split; [|done]. unfold synced; cbn [flights app store App.loading App.notes].
  split_and!; [done.. | auto with notes |].
  by rewrite (store_delete_ok _ _ Hwf Hok), (remove_key_id _ _ _ Hid).
Qed.

(** Where the store refuses it, a retry changes nothing. *)
Lemma retry_refused `{!StrictDelete S} w i n :
  behind w i n →
  ∃ w', run w (retry i) = Some w' ∧ behind w' i n ∧ app w' = app w ∧
        store_notes (store w') = store_notes (store w).
Proof.
  intros (Hf & Hl & Hwf & Hi & Hid).
  pose proof (delete_refused (Note.id n) (store w) Hwf Hid) as Hok.
  eexists. split; [by apply delete_refused_round |].
  assert (store_notes (store_handle (RDelete (Note.id n)) (store w)).1 =
          store_notes (store w)) as Hs by by apply store_not_ok.
  split_and!; try done. unfold behind; cbn [flights app store].
  split_and!; [done.. | auto with notes | done | by rewrite Hs].
Qed.

(** However often the user retries, the page keeps the note the store
    has removed and shows no message about it. *)
Theorem retry_stuck `{!StrictDelete S} w i n k :
  behind w i n →
  ∃ w', run w (retries i k) = Some w' ∧ behind w' i n ∧ app w' = app w ∧
        store_notes (store w') = store_notes (store w).
Proof.
  revert w. induction k as [|k IH]; intros w Hb; [by exists w |].
  destruct (retry_refused w i n Hb) as (w1 & Hrun1 & Hb1 & Ha1 & Hs1).
  destruct (IH w1 Hb1) as (w' & Hrun & Hb' & Ha & Hs).
  exists w'. unfold retries. cbn [replicate concat].
  rewrite run_app, Hrun1. cbn [mbind option_bind].
  split_and!; [done | done | congruence | congruence].
Qed.

End retry.

(** ** On the two stores *)

Section examples.
#[local] Existing Instance demo.

(** The page at rest over the lax store, and the two pages after the
    answer to the delete of the second note was lost. *)
Definition resting_lax : World LaxStore.t :=
  mkWorld (App.mk [groceries; recipe; diary] false None "" None false None) None
    [] [] 0 None seeded_lax.

Definition lost (S : Type) `{NoteStore S} (w : World S) : World S :=
  default w (run w [User (ClickCard 1 NoteCard.DeleteButton); Serve 0; Drop 0]).

Lemma lost_behind_lax : behind (lost LaxStore.t resting_lax) 1 recipe.
Proof.
  split_and!; [done.. | split | done |]; apply (bool_decide_unpack _); by vm_compute.
Qed.

Lemma lost_behind_ref : behind (lost RefStore.t resting) 1 recipe.
Proof.
  split_and!; [done.. | split | done |]; apply (bool_decide_unpack _); by vm_compute.
Qed.

(** Over the lax store the retry repairs the page. *)
Example retry_heals_lax :
  ∃ w', run (lost LaxStore.t resting_lax) (retry 1) = Some w' ∧ synced w' ∧
        App.notification (app w') =
          Some (Notification.mk "Note deleted!" Notification.success).
Proof. apply (retry_heals _ 1 recipe); [apply lost_behind_lax | done]. Qed.

(** Over the reference store a hundred retries do not. *)
Example retry_stuck_ref :
  ∃ w', run (lost RefStore.t resting) (retries 1 100) = Some w' ∧
        behind w' 1 recipe ∧ app w' = app (lost RefStore.t resting) ∧
        store_notes (store w') = store_notes (store (lost RefStore.t resting)).
Proof. apply retry_stuck, lost_behind_ref. Qed.

(** The same gestures on the two stores: the page ends in agreement with
    the one and behind the other. *)
Example retry_on_both :
  (λ w, (ids (App.notes (app w)), ids (store_notes (store w)),
         Notification.message <$> App.notification (app w)))
    <$> run (lost LaxStore.t resting_lax) (retry 1) =
    Some ([1; 3], [1; 3], Some "Note deleted!") ∧
  (λ w, (ids (App.notes (app w)), ids (store_notes (store w)),
         Notification.message <$> App.notification (app w)))
    <$> run (lost RefStore.t resting) (retry 1) =
    Some ([1; 2; 3], [1; 3], Some "Failed to delete note").
Proof. split; vm_compute; reflexivity. Qed.

(** The lax store lists the newest note first, and the page follows the
    store's order. *)
Example newest_first :
  (λ w, (ids (App.notes (app w)), ids (store_notes (store w))))
    <$> run (boot LaxStore.empty)
          [Serve 0; Deliver 0;
           User ClickCreateNote; User (EditorEvent (Editor.ChangeTitle "A"));
           User (EditorEvent Editor.ClickSave); Serve 0; Deliver 0; Serve 0; Deliver 0;
           User ClickNewNote; User (EditorEvent (Editor.ChangeTitle "B"));
           User (EditorEvent Editor.ClickSave); Serve 0; Deliver 0; Serve 0; Deliver 0] =
  Some ([2; 1], [2; 1]).
Proof. vm_compute. reflexivity. Qed.

End examples.
