(* ===== verification/Refinement.v ===== *)
(** * The client refines an atomic note collection

    The specification: a collection of notes, up to order, with three
    atomic operations (create a note with a fresh identifier, replace the
    fields of a note, remove a note).  The implementation: the gestures of
    a user who performs one operation at a time on the page and waits for
    its requests to settle.  The theorems show a forward simulation: every
    such serial use of the client, over any store that meets the contract,
    is a run of the event loop, and what the page shows after it is what
    the specification's operations give. *)

From S2P Require Import Prelude JsString Model Editor Search Controller Views Store System Sync.

#[local] Open Scope N_scope.

(** ** The specification *)

Inductive Op : Type :=
| Create (d : NoteData.t)
| Update (e : Note.t) (d : NoteData.t)
| Remove (e : Note.t).

(** One operation on a collection. *)
Inductive spec_step (l : list Note.t) : Op → list Note.t → Prop :=
| spec_create d n :
    NoteData.of_note n = d → Note.id n ∉ ids l → spec_step l (Create d) (n :: l)
| spec_update e d :
    e ∈ l → spec_step l (Update e d) (update_note (Note.id e) d <$> l)
| spec_remove e :
    e ∈ l → spec_step l (Remove e) (remove_key Note.id (Note.id e) l).

(** A sequence of operations, on collections up to order. *)
Inductive spec_steps : list Note.t → list Op → list Note.t → Prop :=
| spec_done l : spec_steps l [] l
| spec_next l op l1 l2 ops l' :
    spec_step l op l1 → l1 ≡ₚ l2 → spec_steps l2 ops l' →
    spec_steps l (op :: ops) l'.

(** ** The gestures *)

(** The draft that holds a payload. *)
Definition state_of (d : NoteData.t) : Editor.State :=
  Editor.mk (NoteData.title d) (NoteData.content d) (NoteData.isPublic d).

(** Typing a payload into the open editor. *)
Definition fill (d : NoteData.t) : list Event :=
  [User (EditorEvent (Editor.ChangeTitle (NoteData.title d)));
   User (EditorEvent (Editor.ChangeContent (NoteData.content d)));
   User (EditorEvent (Editor.ChangeIsPublic (NoteData.isPublic d)))].

(** Clicking save and waiting for the save and its refresh. *)
Definition save_events : list Event :=
  [User (EditorEvent Editor.ClickSave); Serve 0; Deliver 0; Serve 0; Deliver 0].

(** One operation as the user performs it; [i] is the position of the
    note's card in the grid. *)
Definition gestures (i : nat) (op : Op) : list Event :=
  match op with
  | Create d => [User ClickNewNote] ++ fill d ++ save_events
  | Update _ d => [User (ClickCard i NoteCard.EditButton)] ++ fill d ++ save_events
  | Remove _ => [User (ClickCard i NoteCard.DeleteButton); Serve 0; Deliver 0]
  end.

Section refinement.
Context `{Platform} {S : Type} `{NoteStore S}.
Implicit Types (w : World S) (st : Editor.State) (d : NoteData.t) (e : Note.t).

(** The grid shows note [e] at position [i]. *)
Definition shows w (i : nat) e : Prop :=
  filteredNotes (App.notes (app w)) (App.searchTerm (app w)) !! i = Some e.

(** The page offers the operation: the card is displayed, and the title
    to save has a visible character. *)
Definition enabled w (i : nat) (op : Op) : Prop :=
  match op with
  | Create d => blank (NoteData.title d) = false
  | Update e d => shows w i e ∧ blank (NoteData.title d) = false
  | Remove e => shows w i e
  end.

(** The page is synced and no editor is open. *)
Definition at_rest w : Prop :=
  synced w ∧ editorOpen (app w) = false ∧ editor w = None.

(** Serial use: one enabled operation after the other, each followed to
    the end of its requests. *)
Inductive serial : World S → list Op → list Event → World S → Prop :=
| serial_nil w : serial w [] [] w
| serial_cons w i op w1 ops evs w' :
    enabled w i op → run w (gestures i op) = Some w1 → serial w1 ops evs w' →
    serial w (op :: ops) (gestures i op ++ evs) w'.

(** ** The editor's gestures *)

Lemma draft_state_of d : Editor.draft (state_of d) = d.
Proof. by destruct d. Qed.

Lemma editorOpen_false (s : App.t) :
  editorOpen s = false → App.isCreating s = false ∧ App.editingNote s = None.
Proof.
  intros Ho. destruct (App.isCreating s) eqn:Hc, (App.editingNote s) eqn:Hed;
    try done; by rewrite (proj2 (editorOpen_iff s)) in Ho by (rewrite ?Hc, ?Hed; eauto).
Qed.

(** An editor event that calls no callback changes the draft only. *)
Lemma editor_event_quiet w st ev :
  editor w = Some st → editorOpen (app w) = true → (Editor.step st ev).2 = None →
  step w (User (EditorEvent ev)) =
  Some (mkWorld (app w) (Some (Editor.step st ev).1) (flights w) (timers w) (now w)
          (clipboard w) (store w)).
Proof.
  intros He Ho Hq. cbn [step dispatch]. rewrite He, reconcile_keep by done.
  destruct (Editor.step st ev) as [st' out]; simpl in *; subst out.
  rewrite commit_eq; simpl. by rewrite !app_nil_r, reconcile_keep.
Qed.

Lemma fill_run w st d :
  editor w = Some st → editorOpen (app w) = true →
  run w (fill d) =
  Some (mkWorld (app w) (Some (state_of d)) (flights w) (timers w) (now w)
          (clipboard w) (store w)).
Proof.
  intros He Ho. unfold fill.
  do 3 (rewrite run_cons; erewrite editor_event_quiet by done;
        cbn [mbind option_bind]).
  done.
Qed.

(** Opening the editor from a page at rest. *)
Lemma open_create w :
  App.editingNote (app w) = None → editor w = None →
  step w (User ClickNewNote) =
  Some (mkWorld (exec onNewNote (app w)) (Some (Editor.init None)) (flights w)
          (timers w) (now w) (clipboard w) (store w)).
Proof.
  intros Hed He. cbn [step dispatch]. rewrite commit_eq, He; simpl.
  rewrite !app_nil_r. unfold reconcile. rewrite onNewNote_opens. simpl. by rewrite Hed.
Qed.

Lemma open_edit w i e :
  App.loading (app w) = false → shows w i e → editor w = None →
  step w (User (ClickCard i NoteCard.EditButton)) =
  Some (mkWorld (exec (onEdit e) (app w)) (Some (Editor.init (Some e))) (flights w)
          (timers w) (now w) (clipboard w) (store w)).
Proof.
  intros Hl Hi He. cbn [step dispatch].
  rewrite (proj1 (clickCard_edit (app w) i e Hl Hi)).
  cbn [fmap option_fmap option_map]. rewrite commit_eq, He; simpl.
  rewrite !app_nil_r. unfold reconcile. by rewrite onEdit_opens.
Qed.

(** Opening the editor on a target, typing a payload and saving it. *)
Lemma save_gesture w ev target d s1 :
  flights w = [] → store_wf (store w) →
  step w ev =
    Some (mkWorld s1 (Some (Editor.init target)) (flights w) (timers w) (now w)
            (clipboard w) (store w)) →
  editorOpen s1 = true → App.editingNote s1 = target →
  blank (NoteData.title d) = false →
  ok (store_handle (saveRoute target d) (store w)).2 = true →
  run w ([ev] ++ fill d ++ save_events) =
  Some (mkWorld (saved target (store_notes (store_handle (saveRoute target d) (store w)).1) s1)
          None [] (timers w ++ [mkTimer (now w + 3000) ClearNotification]) (now w)
          (clipboard w) (store_handle (saveRoute target d) (store w)).1).
Proof.
  intros Hf Hwf Hev Ho Ht Hb Hok.
  rewrite run_app, run_cons, Hev. cbn [run mbind option_bind].
  rewrite run_app, (fill_run _ (Editor.init target)) by done.
  cbn [mbind option_bind]. unfold save_events.
  rewrite (save_round _ (state_of d)); simpl; rewrite ?Ht, ?draft_state_of; done.
Qed.

(** ** One operation *)

(** The world after a note has been created from a page at rest. *)
Definition created (d : NoteData.t) w : World S :=
  let x := (store_handle (RCreate d) (store w)).1 in
  mkWorld (saved None (store_notes x) (exec onNewNote (app w))) None []
    (timers w ++ [mkTimer (now w + 3000) ClearNotification]) (now w) (clipboard w) x.

Lemma create_gesture w d :
  at_rest w → blank (NoteData.title d) = false →
  run w (gestures 0 (Create d)) = Some (created d w) ∧ at_rest (created d w) ∧
  ∃ n, NoteData.of_note n = d ∧ (Note.id n ∉ ids (App.notes (app w))) ∧
       App.notes (app (created d w)) ≡ₚ n :: App.notes (app w).
Proof.
  intros ((Hf & Hl & Hwf & Hn) & Ho & He) Hb.
  apply editorOpen_false in Ho as [Hc Hnone].
  destruct (store_create d (store w) Hwf) as (Hok & n & Hd & Hfr & Hp).
  split.
  { apply (save_gesture w _ None d (exec onNewNote (app w))); try done.
    by apply open_create. }
  split.
  - unfold at_rest, synced, created; simpl. split_and!; try done. auto with notes.
  - exists n. unfold created; simpl. by rewrite Hn, Hp.
Qed.

Lemma create_step w d :
  at_rest w → blank (NoteData.title d) = false →
  ∃ w' l', run w (gestures 0 (Create d)) = Some w' ∧ at_rest w' ∧
           spec_step (App.notes (app w)) (Create d) l' ∧ App.notes (app w') ≡ₚ l'.
Proof.
  intros Hr Hb. destruct (create_gesture w d Hr Hb) as (Hrun & Hr' & n & Hd & Hfr & Hp).
  exists (created d w), (n :: App.notes (app w)). split_and!; [done.. | by constructor | done].
Qed.

Lemma update_step w i e d :
  at_rest w → shows w i e → blank (NoteData.title d) = false →
  ∃ w' l', run w (gestures i (Update e d)) = Some w' ∧ at_rest w' ∧
           spec_step (App.notes (app w)) (Update e d) l' ∧ App.notes (app w') ≡ₚ l'.
Proof.
  intros (Hs & Ho & He) Hi Hb. pose proof Hs as (Hf & Hl & Hwf & Hn).
  destruct (store_update (Note.id e) d (store w) Hwf (displayed_stored w i e Hs Hi))
    as (Hok & Hp).
  eexists _, (update_note (Note.id e) d <$> App.notes (app w)). split.
  { apply (save_gesture w _ (Some e) d (exec (onEdit e) (app w))); try done;
      [by apply open_edit | apply onEdit_opens]. }
  unfold at_rest, synced. split_and!; simpl; try done.
  - auto with notes.
  - constructor. apply (elem_of_filteredNotes _ (App.searchTerm (app w))).
    by eapply list_elem_of_lookup_2.
  - by rewrite Hp, Hn.
Qed.

Lemma remove_step w i e :
  at_rest w → shows w i e →
  ∃ w' l', run w (gestures i (Remove e)) = Some w' ∧ at_rest w' ∧
           spec_step (App.notes (app w)) (Remove e) l' ∧ App.notes (app w') ≡ₚ l'.
Proof.
  intros (Hs & Ho & He) Hi. pose proof Hs as (Hf & Hl & Hwf & Hn).
  pose proof (store_delete _ _ Hwf (displayed_stored w i e Hs Hi)) as Hok.
  eexists _, (remove_key Note.id (Note.id e) (App.notes (app w))). split.
  { by apply delete_round. }
  unfold at_rest, synced. split_and!; simpl; try done.
  - auto with notes.
  - by rewrite store_delete_ok, Hn.
  - by rewrite !reconcile_closed.
  - constructor. apply (elem_of_filteredNotes _ (App.searchTerm (app w))).
    by eapply list_elem_of_lookup_2.
Qed.

(** ** Creating a note and removing it *)

(** With the search box empty every note of the collection has a card. *)
Lemma shown_everywhere w e :
  App.searchTerm (app w) = "" → e ∈ App.notes (app w) → ∃ i, shows w i e.
Proof.
  intros Hs Hin. unfold shows. rewrite Hs, filteredNotes_empty.
  by apply list_elem_of_lookup_1.
Qed.

(** C21: creating a note and removing it is a round trip.  From a page
    at rest with an empty search box, the note the store creates for a
    payload has a card; removing it from that card ends at rest, and the
    page and the store hold, up to order, the collections they held
    before the note was created. *)
Theorem create_remove_roundtrip w d :
  at_rest w → App.searchTerm (app w) = "" → blank (NoteData.title d) = false →
  ∃ w1 i n w2,
    run w (gestures 0 (Create d)) = Some w1 ∧ shows w1 i n ∧ NoteData.of_note n = d ∧
    run w1 (gestures i (Remove n)) = Some w2 ∧ at_rest w2 ∧
    App.notes (app w2) ≡ₚ App.notes (app w) ∧
    store_notes (store w2) ≡ₚ store_notes (store w).
Proof.
  intros Hr Hs Hb. pose proof Hr as ((_ & _ & _ & Hn) & _).
  destruct (create_gesture w d Hr Hb) as (Hrun & Hr1 & n & Hd & Hfr & Hp).
  destruct (shown_everywhere (created d w) n) as [i Hi]; [done | |].
  { rewrite Hp. apply list_elem_of_here. }
  destruct (remove_step _ i n Hr1 Hi) as (w2 & l' & Hrun2 & Hr2 & Hst & Hp2).
  assert (App.notes (app w2) ≡ₚ App.notes (app w)) as Hback.
  { inversion Hst; subst. rewrite Hp2, Hp. by rewrite remove_key_fresh. }
  exists (created d w), i, n, w2. split_and!; try done.
  destruct Hr2 as ((_ & _ & _ & Hn2) & _). by rewrite <-Hn2, Hback.
Qed.

(** ** Saving a note as it is *)

Lemma update_note_same n : update_note (Note.id n) (NoteData.of_note n) n = n.
Proof. unfold update_note. rewrite decide_True by done. by destruct n. Qed.

(** Updating a note with its own fields changes no note of a collection
    with distinct identifiers. *)
Lemma update_same l n :
  NoDup (ids l) → n ∈ l → update_note (Note.id n) (NoteData.of_note n) <$> l = l.
Proof.
  intros Hnd Hin. rewrite <-(list_fmap_id l) at 2. apply list_fmap_ext.
  intros j m Hm. destruct (decide (Note.id m = Note.id n)) as [Heq|Hne].
  - apply list_elem_of_lookup in Hin as [k Hk].
    assert (j = k) as -> by (eapply NoDup_lookup; [done | |];
      unfold ids; rewrite list_lookup_fmap; [by rewrite Hm | by rewrite Hk; simpl; f_equal]).
    assert (m = n) as -> by congruence. apply update_note_same.
  - by apply update_note_miss.
Qed.

(** C18: opening a note in the editor and saving it unchanged is a round
    trip.  The form is filled with the note's fields, the PUT carries
    them back, and after the refresh the page and the store hold the
    collections they held. *)
Theorem edit_roundtrip w i e :
  at_rest w → shows w i e → blank (Note.title e) = false →
  ∃ w', run w ([User (ClickCard i NoteCard.EditButton)] ++ save_events) = Some w' ∧
        at_rest w' ∧ App.notes (app w') ≡ₚ App.notes (app w) ∧
        store_notes (store w') ≡ₚ store_notes (store w).
Proof.
  intros (Hs & Ho & He) Hi Hb. pose proof Hs as (Hf & Hl & Hwf & Hn).
  pose proof (displayed_stored w i e Hs Hi) as Hin.
  destruct (store_update (Note.id e) (NoteData.of_note e) (store w) Hwf Hin)
    as (Hok & Hp).
  assert (e ∈ store_notes (store w)) as Hst.
  { rewrite <-Hn. apply (elem_of_filteredNotes _ (App.searchTerm (app w))).
    by eapply list_elem_of_lookup_2. }
  rewrite update_same in Hp by auto with notes.
  eexists. split.
  { rewrite run_app, run_cons, (open_edit w i e) by done. cbn [run mbind option_bind].
    apply (save_round _ (Editor.init (Some e))); try done. apply onEdit_opens. }
  unfold at_rest, synced; simpl. split_and!; try done; [auto with notes | by rewrite Hp].
Qed.

(** One operation.  On a page at rest, the gestures of an enabled
    operation are a run of the event loop that ends at rest, and the
    collection the page then shows is, up to order, the result of the
    specification's operation on the collection it showed before. *)
Theorem operation_refines w i op :
  at_rest w → enabled w i op →
  ∃ w' l', run w (gestures i op) = Some w' ∧ at_rest w' ∧
           spec_step (App.notes (app w)) op l' ∧ App.notes (app w') ≡ₚ l'.
Proof.
  intros Hr. destruct op as [d|e d|e]; simpl.
  - by apply create_step.
  - intros [? ?]. by apply update_step.
  - by apply remove_step.
Qed.

Lemma serial_invariant w ops evs w' :
  at_rest w → serial w ops evs w' →
  run w evs = Some w' ∧ at_rest w' ∧
  spec_steps (App.notes (app w)) ops (App.notes (app w')).
Proof.
  intros Hr. induction 1 as [w|w i op w1 ops evs w' Hen Hrun _ IH].
  - split_and!; [done.. | constructor].
  - destruct op as [d|e d|e]; simpl in Hen;
      [destruct (create_step w d Hr Hen) as (w2 & l' & Hrun2 & Hr2 & Hst & Hp)
      |destruct Hen as [Hi Hb];
       destruct (update_step w i e d Hr Hi Hb) as (w2 & l' & Hrun2 & Hr2 & Hst & Hp)
      |destruct (remove_step w i e Hr Hen) as (w2 & l' & Hrun2 & Hr2 & Hst & Hp)];
      (assert (w2 = w1) as -> by (simpl in *; congruence));
      destruct (IH Hr2) as (Hrun' & Hr' & Hsteps);
      (split_and!; [by rewrite run_app, Hrun | done |]);
      by eapply spec_next.
Qed.

(** C39: serial use refines the specification.  Any sequence of enabled
    operations, each performed after the previous one has settled, is a
    run of the event loop from a page at rest to a page at rest, and the
    collection shown at the end is reached from the collection shown at
    the start by the same operations of the specification. *)
Theorem serial_refines w ops evs w' :
  at_rest w → serial w ops evs w' →
  run w evs = Some w' ∧ synced w' ∧
  spec_steps (App.notes (app w)) ops (App.notes (app w')).
Proof.
  intros Hr Hs. destruct (serial_invariant w ops evs w' Hr Hs) as (? & (? & _) & ?).
  done.
Qed.

End refinement.

(** ** The theorems on the reference store *)

Section examples.
#[local] Existing Instance demo.

(** The page at rest over the seeded store, and the two worlds that
    follow the removal of the recipe and the creation of a note. *)
Definition rest_world : World RefStore.t :=
  seeded_world (App.mk [groceries; recipe; diary] false None "" None false None) None.

Definition removed_world : World RefStore.t :=
  default rest_world (run rest_world (gestures 1 (Remove recipe))).

Definition created_world : World RefStore.t :=
  default removed_world
    (run removed_world (gestures 0 (Create (NoteData.mk "Tea" "" false)))).

Lemma rest_world_at_rest : at_rest rest_world.
Proof. split; [by apply seeded_synced | done]. Qed.

Lemma rest_world_serial :
  serial rest_world [Remove recipe; Create (NoteData.mk "Tea" "" false)]
    (gestures 1 (Remove recipe) ++ gestures 0 (Create (NoteData.mk "Tea" "" false)) ++ [])
    created_world.
Proof.
  apply (serial_cons _ 1 _ removed_world); [reflexivity | by vm_compute |].
  apply (serial_cons _ 0%nat _ created_world); [reflexivity | by vm_compute |].
  constructor.
Qed.

Lemma operation_refines_witness :
  ∃ w' l', run rest_world (gestures 1 (Update recipe (NoteData.mk "Tea" "" false)))
             = Some w' ∧ at_rest w' ∧
           spec_step (App.notes (app rest_world))
             (Update recipe (NoteData.mk "Tea" "" false)) l' ∧
           App.notes (app w') ≡ₚ l'.
Proof.
  apply (operation_refines rest_world 1 (Update recipe (NoteData.mk "Tea" "" false)));
    [apply rest_world_at_rest | split; reflexivity].
Defined.

Lemma create_remove_roundtrip_witness :
  ∃ w1 i n w2,
    run rest_world (gestures 0 (Create (NoteData.mk "Tea" "" false))) = Some w1 ∧
    shows w1 i n ∧ NoteData.of_note n = NoteData.mk "Tea" "" false ∧
    run w1 (gestures i (Remove n)) = Some w2 ∧ at_rest w2 ∧
    App.notes (app w2) ≡ₚ App.notes (app rest_world) ∧
    store_notes (store w2) ≡ₚ store_notes (store rest_world).
Proof.
  apply (create_remove_roundtrip rest_world (NoteData.mk "Tea" "" false));
    [apply rest_world_at_rest | reflexivity | reflexivity].
Defined.

Lemma edit_roundtrip_witness :
  ∃ w', run rest_world ([User (ClickCard 1 NoteCard.EditButton)] ++ save_events)
          = Some w' ∧
        at_rest w' ∧ App.notes (app w') ≡ₚ App.notes (app rest_world) ∧
        store_notes (store w') ≡ₚ store_notes (store rest_world).
Proof.
  apply (edit_roundtrip rest_world 1 recipe);
    [apply rest_world_at_rest | reflexivity | reflexivity].
Defined.

Lemma serial_refines_witness :
  run rest_world
    (gestures 1 (Remove recipe) ++ gestures 0 (Create (NoteData.mk "Tea" "" false)) ++ [])
    = Some created_world ∧
  synced created_world ∧
  spec_steps (App.notes (app rest_world))
    [Remove recipe; Create (NoteData.mk "Tea" "" false)]
    (App.notes (app created_world)).
Proof.
  apply (serial_refines rest_world _ _ created_world);
    [apply rest_world_at_rest | apply rest_world_serial].
Defined.

End examples.
