(* ===== verification/Stale.v ===== *)
(** * Targets that outlive their note

    [deleteNote] removes a note from the collection and touches nothing
    else (App.js 72): [editingNote] and [shareModal] keep the note they
    hold.  A card stays on the page, with its buttons, until the answer
    to its delete arrives; an editor or a share modal opened from it in
    the meantime is still open, on a note that is gone, when the answer
    has come.  The save of that editor is a PUT the store refuses, which
    the page passes over in silence; the share modal goes on offering the
    link. *)

From S2P Require Import Prelude JsString Model Editor Search Controller Views Store System.
From S2P Require Import Sync Overlap Refinement.

#[local] Open Scope N_scope.

Section stale.
Context `{Platform} {S : Type} `{NoteStore S}.
Implicit Types (w : World S) (n : Note.t).

(** The cells after a note is removed while a target is set on it. *)
Definition removed n (s : App.t) : App.t :=
  App.mk (remove_key Note.id (Note.id n) (App.notes s)) (App.isCreating s)
    (App.editingNote s) (App.searchTerm s) (App.shareModal s) (App.loading s)
    (Some (Notification.mk "Note deleted!" Notification.success)).

(** The world while the delete of [n] is pending: the cells [s] and the
    draft [ed] over the request of the delete, which holds the collection
    of [w] as its closure captured it. *)
#[local] Abbreviation deleting w n s ed :=
  (mkWorld s ed
     [mkFlight (deleteRequest (Note.id n)) (AwaitDelete (App.notes (app w)) (Note.id n)) None]
     (timers w) (now w) (clipboard w) (store w)).

(** A delete is clicked, another button of the same card is clicked
    before the answer, and the answer arrives: the update of the second
    click is kept, and the note is removed from the collection. *)
Lemma delete_then w i n b (a : Act) ed :
  synced w → shows w i n →
  step (deleting w n (app w) (reconcile (app w) (editor w))) (User (ClickCard i b)) =
    Some (deleting w n (exec a (app w)) ed) →
  App.notes (exec a (app w)) = App.notes (app w) →
  reconcile (exec a (app w)) ed = ed →
  run w [User (ClickCard i NoteCard.DeleteButton); User (ClickCard i b);
         Serve 0; Deliver 0] =
  Some (mkWorld (removed n (exec a (app w))) ed []
          (timers w ++ [mkTimer (now w + 3000) ClearNotification]) (now w)
          (clipboard w) (store_handle (RDelete (Note.id n)) (store w)).1).
Proof.
  intros Hs Hi Hstep Hnotes Hed. pose proof Hs as (Hf & Hl & Hwf & Hn).
  pose proof (store_delete _ _ Hwf (displayed_stored w i n Hs Hi)) as Hok.
  rewrite run_cons, (delete_click w i n) by done. cbn [mbind option_bind].
  rewrite run_cons, Hstep. cbn [mbind option_bind].
  erewrite run_settle by done.
  rewrite settle_delete; cbn [app editor flights timers now clipboard store request];
    rewrite delete_routed; [|done].
  unfold removed. by rewrite Hnotes, Hed.
Qed.

(** The store after the delete of a displayed note of a synced page. *)
Lemma deleted_store w i n :
  synced w → shows w i n →
  let x := (store_handle (RDelete (Note.id n)) (store w)).1 in
  store_wf x ∧ (Note.id n ∉ ids (store_notes x)) ∧
  remove_key Note.id (Note.id n) (App.notes (app w)) ≡ₚ store_notes x.
Proof.
  intros Hs Hi. pose proof Hs as (Hf & Hl & Hwf & Hn).
  assert (n ∈ App.notes (app w)) as Hin.
  { apply (elem_of_filteredNotes _ (App.searchTerm (app w))).
    by eapply list_elem_of_lookup_2. }
  destruct (delete_lost_store w n Hs Hin) as (Hwf1 & Hp1 & Hgone).
  simpl. split_and!; [done.. |]. by rewrite Hp1, Hn.
Qed.

(** C28: the editor opened on a note whose delete is pending.  When the
    answer to the delete has come the page agrees with the store, and the
    editor is open on the note that is gone.  The click on save sends a
    PUT the store refuses; the page shows nothing of it: the editor stays
    open on its draft and the message on display is still the one of the
    delete. *)
Theorem edit_of_deleted w i n :
  synced w → editor w = None → editorOpen (app w) = false → shows w i n →
  blank (Note.title n) = false →
  ∃ w',
    run w [User (ClickCard i NoteCard.DeleteButton);
           User (ClickCard i NoteCard.EditButton); Serve 0; Deliver 0;
           User (EditorEvent Editor.ClickSave); Serve 0; Deliver 0] = Some w' ∧
    synced w' ∧ (n ∉ App.notes (app w')) ∧
    (Note.id n ∉ ids (store_notes (store w'))) ∧
    App.editingNote (app w') = Some n ∧ editor w' = Some (Editor.init (Some n)) ∧
    App.notification (app w') =
      Some (Notification.mk "Note deleted!" Notification.success).
Proof.
  intros Hs He Ho Hi Hb. pose proof Hs as (Hf & Hl & Hwf & Hn).
  destruct (deleted_store w i n Hs Hi) as (Hwf1 & Hgone & Hp).
  pose proof (open_edit (deleting w n (app w) None) i n Hl Hi eq_refl) as Hstep.
  pose proof (delete_then w i n NoteCard.EditButton (onEdit n)
                (Some (Editor.init (Some n))) Hs Hi) as Hrun.
  rewrite He, reconcile_closed in Hrun by done.
  specialize (Hrun Hstep eq_refl (reconcile_keep _ _ (onEdit_opens n _))).
  set (w1 := mkWorld (removed n (exec (onEdit n) (app w))) _ _ _ _ _ _) in Hrun.
  pose proof (store_update_missing (Note.id n) (Editor.draft (Editor.init (Some n)))
                _ Hwf1 Hgone) as Hok.
  destruct (save_sent w1 (Editor.init (Some n))) as (req & Hroute & Hsave);
    [done | done | apply orb_true_r | exact Hb |].
  eexists. split.
  { change [User _; _; _; _; _; _; _] with
      ([User (ClickCard i NoteCard.DeleteButton);
        User (ClickCard i NoteCard.EditButton); Serve 0; Deliver 0] ++
       [User (EditorEvent Editor.ClickSave); Serve 0; Deliver 0]).
    rewrite run_app, Hrun. cbn [mbind option_bind]. exact Hsave. }
  rewrite settle_save_refused; cbn [app editor flights timers now clipboard store w1];
    rewrite Hroute; [|done].
  assert (store_notes (store_handle (RUpdate (Note.id n)
            (Editor.draft (Editor.init (Some n))))
            (store_handle (RDelete (Note.id n)) (store w)).1).1 =
          store_notes (store_handle (RDelete (Note.id n)) (store w)).1) as Hsame
    by by apply store_not_ok.
  split_and!; try done.
  - unfold synced; cbn [flights app store]. split_and!; [done.. | auto with notes |].
    simpl. by rewrite Hsame.
  - simpl. intros [Hne _]%elem_of_remove_key. by apply Hne.
  - simpl. by rewrite Hsame.
  - apply reconcile_keep, orb_true_r.
Qed.

(** The share button of a card, from a page with no editor open. *)
Lemma open_share w i n :
  App.loading (app w) = false → shows w i n → Note.isPublic n = true →
  editor w = None → editorOpen (app w) = false →
  step w (User (ClickCard i NoteCard.ShareButton)) =
  Some (mkWorld (exec (onShare n) (app w)) None (flights w) (timers w) (now w)
          (clipboard w) (store w)).
Proof.
  intros Hl Hi Hp He Ho. cbn [step dispatch].
  rewrite (clickCard_share_offered (app w) i n Hl Hi Hp).
  cbn [fmap option_fmap option_map]. rewrite commit_eq, He; simpl.
  by rewrite !app_nil_r, reconcile_closed.
Qed.

(** The share modal opened on a note whose delete is pending.  When the
    answer to the delete has come the modal is still open on the note
    that is gone, and the copy button puts its link on the clipboard,
    where the platform grants the write. *)
Theorem share_of_deleted w i n :
  synced w → editor w = None → editorOpen (app w) = false → shows w i n →
  Note.isPublic n = true → clipboardAccess = ClipboardGranted →
  ∃ w',
    run w [User (ClickCard i NoteCard.DeleteButton);
           User (ClickCard i NoteCard.ShareButton); Serve 0; Deliver 0;
           User (ShareEvent ShareModal.ClickCopy)] = Some w' ∧
    (n ∉ App.notes (app w')) ∧ (Note.id n ∉ ids (store_notes (store w'))) ∧
    Page.shareModalView (page w') = Some (ShareModal.render n) ∧
    clipboard w' = Some (origin +:+ "/share/" +:+ numToString (Note.id n)) ∧
    App.notification (app w') =
      Some (Notification.mk "Share link copied!" Notification.success).
Proof.
  intros Hs He Ho Hi Hp Hg. pose proof Hs as (Hf & Hl & Hwf & Hn).
  destruct (deleted_store w i n Hs Hi) as (Hwf1 & Hgone & _).
  pose proof (open_share (deleting w n (app w) None) i n Hl Hi Hp eq_refl Ho) as Hstep.
  pose proof (delete_then w i n NoteCard.ShareButton (onShare n) None Hs Hi) as Hrun.
  rewrite He, reconcile_closed in Hrun by done.
  specialize (Hrun Hstep eq_refl (reconcile_closed _ _ Ho)).
  eexists. split.
  { change [User _; _; _; _; _] with
      ([User (ClickCard i NoteCard.DeleteButton);
        User (ClickCard i NoteCard.ShareButton); Serve 0; Deliver 0] ++
       [User (ShareEvent ShareModal.ClickCopy)]).
    rewrite run_app, Hrun. cbn [mbind option_bind]. by cbn. }
  rewrite commit_eq. unfold page, copied, written, copyShareLink. rewrite Hg. simpl.
  split_and!; try done. intros [Hne _]%elem_of_remove_key. by apply Hne.
Qed.

End stale.

(** ** On the reference store *)

Section examples.
#[local] Existing Instance demo.

Lemma edit_of_deleted_witness :
  ∃ w',
    run resting
      [User (ClickCard 0 NoteCard.DeleteButton);
       User (ClickCard 0 NoteCard.EditButton); Serve 0; Deliver 0;
       User (EditorEvent Editor.ClickSave); Serve 0; Deliver 0] = Some w' ∧
    synced w' ∧ (groceries ∉ App.notes (app w')) ∧
    (Note.id groceries ∉ ids (store_notes (store w'))) ∧
    App.editingNote (app w') = Some groceries ∧
    editor w' = Some (Editor.init (Some groceries)) ∧
    App.notification (app w') =
      Some (Notification.mk "Note deleted!" Notification.success).
Proof.
  apply (edit_of_deleted resting 0 groceries); try reflexivity.
  by apply seeded_synced.
Defined.

(** The link of the deleted recipe, copied after the delete. *)
Example share_of_deleted_recipe :
  ∃ w',
    run resting
      [User (ClickCard 1 NoteCard.DeleteButton);
       User (ClickCard 1 NoteCard.ShareButton); Serve 0; Deliver 0;
       User (ShareEvent ShareModal.ClickCopy)] = Some w' ∧
    (recipe ∉ App.notes (app w')) ∧ (Note.id recipe ∉ ids (store_notes (store w'))) ∧
    Page.shareModalView (page w') = Some (ShareModal.render recipe) ∧
    clipboard w' = Some (origin +:+ "/share/" +:+ numToString (Note.id recipe)) ∧
    App.notification (app w') =
      Some (Notification.mk "Share link copied!" Notification.success).
Proof.
  apply (share_of_deleted resting 1 recipe); try reflexivity.
  by apply seeded_synced.
Qed.

End examples.
