(* ===== verification/Progress.v ===== *)
(** * Progress

    Nothing the client starts can keep it waiting for ever once the
    network answers: every request in flight can be served and delivered,
    a delivery starts at most one further request (the refresh after a
    successful save), and after finitely many turns nothing is in flight.
    [drain] computes such a run; its fuel is the weighted number of
    requests in flight, which every settled request decreases.  Followed
    by the delay of the notification ([quiesce]) it brings every reachable
    page to rest. *)

From S2P Require Import Prelude JsString Model Editor Search Controller Views Store System.
From S2P Require Import Invariants Typing.

#[local] Open Scope N_scope.

(** What a suspended call can still cost: a suspended [saveNote] settles
    and then awaits its refresh; the others settle once. *)
Definition weight (k : Cont) : nat :=
  match k with
  | AwaitSave _ => 2
  | AwaitFetchNotes _ | AwaitDelete _ _ => 1
  end.

Definition pending (fs : list Flight) : nat :=
  sum_list_with (λ f, weight (cont f)) fs.

(** The events that settle the first request in flight: the store's
    answer, unless it is there already, and its delivery. *)
Definition settle_first (f : Flight) : list Event :=
  if reply f is Some _ then [Deliver 0%nat] else [Serve 0%nat; Deliver 0%nat].

Section progress.
Context `{Platform} {Sto : Type} `{NoteStore Sto}.
Implicit Types (w : World Sto) (f : Flight) (fs : list Flight) (k : Cont).

(** Settling the requests in flight, first come first served, for at
    most [fuel] requests. *)
Fixpoint drain (fuel : nat) w : list Event :=
  match fuel, flights w with
  | S n, f :: _ =>
      match run w (settle_first f) with
      | Some w' => settle_first f ++ drain n w'
      | None => []
      end
  | _, _ => []
  end.

(** The run that brings the page to rest: the requests in flight are
    settled, then the delay of the notification passes. *)
Definition quiesce w : list Event :=
  drain (pending (flights w)) w ++ [Elapse 3000].

(** ** The measure decreases *)

Lemma pending_app fs1 fs2 : pending (fs1 ++ fs2) = (pending fs1 + pending fs2)%nat.
Proof. apply sum_list_with_app. Qed.

Lemma pending_nil fs : pending fs = 0%nat → fs = [].
Proof. destruct fs as [|f fs]; [done |]. unfold pending; simpl. by destruct (cont f). Qed.

(** A resumption starts fewer requests, by weight, than it settles. *)
Lemma resume_pending k o s :
  (pending (launched (effects (resume k o) s)) < weight k)%nat.
Proof.
  resume_cases k o; unfold pending; simpl; rewrite ?app_nil_r; try case_match;
    simpl; lia.
Qed.

Lemma deliver_first w f fs r :
  flights w = f :: fs → reply f = Some r →
  run w [Deliver 0%nat] =
  Some (commit (resume (cont f) (Resolved r)) (editor w) (land 0 w)).
Proof. intros Hf Hr. simpl. by rewrite Hf; simpl; rewrite Hr. Qed.

(** The first request in flight can always be settled, and the flights
    after it are the others and what the resumed call started. *)
Lemma run_settle_first w f fs :
  flights w = f :: fs →
  ∃ w' r, run w (settle_first f) = Some w' ∧
          flights w' = fs ++ launched (effects (resume (cont f) (Resolved r)) (app w)).
Proof.
  intros Hf. unfold settle_first. destruct (reply f) as [r|] eqn:Hr.
  - eexists _, r. split; [by eapply deliver_first |].
    rewrite commit_eq; simpl. by rewrite Hf.
  - rewrite run_cons. cbn [step]. rewrite Hf; simpl. rewrite Hr.
    destruct (store_handle _ _) as [x r]. cbn [mbind option_bind].
    eexists _, r. split; [by eapply deliver_first; simpl; rewrite ?Hf |].
    rewrite commit_eq; simpl. by rewrite Hf.
Qed.

Lemma settle_first_pending w f fs w' :
  flights w = f :: fs → run w (settle_first f) = Some w' →
  (pending (flights w') < pending (flights w))%nat.
Proof.
  intros Hf Hrun. destruct (run_settle_first w f fs Hf) as (w1 & r & Hrun1 & Hfs).
  assert (w1 = w') as -> by congruence.
  rewrite Hfs, Hf, pending_app. change (f :: fs) with ([f] ++ fs).
  rewrite pending_app.
  pose proof (resume_pending (cont f) (Resolved r) (app w)).
  unfold pending at 3; simpl. lia.
Qed.

(** With enough fuel [drain] is a run that ends with nothing in flight. *)
Lemma drain_spec n w :
  (pending (flights w) ≤ n)%nat →
  ∃ w', run w (drain n w) = Some w' ∧ flights w' = [].
Proof.
  revert w. induction n as [|n IH]; intros w Hn.
  - exists w. split; [done |]. apply pending_nil. lia.
  - simpl. destruct (flights w) as [|f fs] eqn:Hf; [by exists w |].
    destruct (run_settle_first w f fs Hf) as (w1 & r & Hrun & _). rewrite Hrun.
    pose proof (settle_first_pending w f fs w1 Hf Hrun) as Hlt. rewrite Hf in Hlt.
    destruct (IH w1) as (w' & Hrun' & Hnil); [lia |].
    exists w'. by rewrite run_app, Hrun.
Qed.

Lemma reachable_run_trans w0 w evs w' :
  reachable w0 w → run w evs = Some w' → reachable w0 w'.
Proof.
  intros Hr. revert w Hr. induction evs as [|ev evs IH]; intros w Hr; simpl.
  - by intros [= <-].
  - destruct (step w ev) as [w1|] eqn:Hs; [|done]. eauto using reachable.
Qed.

(** C36: every request settles.  From any world, serving and
    delivering the requests in flight, first come first served, is a run
    of the event loop that ends with nothing in flight; the weighted
    number of pending requests is enough fuel. *)
Theorem requests_settle w :
  ∃ w', run w (drain (pending (flights w)) w) = Some w' ∧ flights w' = [].
Proof. by apply drain_spec. Qed.

(** With nothing in flight the page shows no spinner. *)
Lemma idle_no_spinner (x : Sto) w :
  reachable (boot x) w → flights w = [] → Page.spinner (page w) = false.
Proof.
  intros Hr Hnil.
  apply (reachable_turn_ind loading_pending (boot x) (boot_loading_pending x)
           turn_loading_pending) in Hr.
  unfold page, Page.render; simpl. destruct (App.loading (app w)) eqn:Hl; [|done].
  apply Hr in Hl. unfold conts in Hl. rewrite Hnil in Hl. by apply elem_of_nil in Hl.
Qed.

(** The spinner can always stop.  From every reachable world the run
    that settles the pending requests leads to a world that shows no
    spinner. *)
Theorem spinner_stops (x : Sto) w :
  reachable (boot x) w →
  ∃ w', run w (drain (pending (flights w)) w) = Some w' ∧
        reachable (boot x) w' ∧ Page.spinner (page w') = false.
Proof.
  intros Hr. destruct (drain_spec (pending (flights w)) w) as (w' & Hrun & Hnil);
    [done |].
  pose proof (reachable_run_trans _ _ _ _ Hr Hrun) as Hr'.
  exists w'. split_and!; [done.. |]. by eapply idle_no_spinner.
Qed.

(** The world after the notification's delay has passed with nothing in
    flight. *)
Lemma elapse_rest (x : Sto) w :
  reachable (boot x) w → flights w = [] →
  flights (elapse 3000 w) = [] ∧ timers (elapse 3000 w) = [] ∧
  Page.spinner (page (elapse 3000 w)) = false ∧ Page.toast (page (elapse 3000 w)) = None.
Proof.
  intros Hr Hnil. pose proof (reachable_timers_ok x w Hr) as Hok.
  destruct (elapse_dismisses 3000 w Hok) as [Hn Ht]; [lia |].
  assert (reachable (boot x) (elapse 3000 w)) as Hr'
    by by apply (reachable_step _ w (Elapse 3000)).
  assert (flights (elapse 3000 w) = []) as Hf by by rewrite elapse_flights.
  split_and!; [done.. | by eapply idle_no_spinner |].
  unfold page, Page.render; simpl. by rewrite Hn.
Qed.

(** C37: the page always comes to rest.  From every reachable world,
    settling the pending requests and letting 3000 ms pass is a run of the
    event loop that ends with nothing in flight, no timer armed, no
    spinner and no notification on the page. *)
Theorem comes_to_rest (x : Sto) w :
  reachable (boot x) w →
  ∃ w', run w (quiesce w) = Some w' ∧ reachable (boot x) w' ∧
        flights w' = [] ∧ timers w' = [] ∧
        Page.spinner (page w') = false ∧ Page.toast (page w') = None.
Proof.
  intros Hr. destruct (drain_spec (pending (flights w)) w) as (w1 & Hrun & Hnil);
    [done |].
  pose proof (reachable_run_trans _ _ _ _ Hr Hrun) as Hr1.
  exists (elapse 3000 w1). unfold quiesce. rewrite run_app, Hrun.
  split; [done |]. split; [by apply (reachable_step _ w1 (Elapse 3000)) |].
  by eapply elapse_rest.
Qed.

End progress.

Section examples.
#[local] Existing Instance demo.

Lemma spinner_stops_witness :
  ∃ w', @run demo _ _ (boot seeded) (@drain demo _ _ (pending (flights (boot seeded)))
                                     (boot seeded)) = Some w' ∧
        @reachable demo _ _ (boot seeded) w' ∧ Page.spinner (@page demo _ w') = false.
Proof. apply (@spinner_stops demo _ _ seeded (boot seeded)). constructor. Defined.

Lemma comes_to_rest_witness :
  ∃ w', run (boot seeded) (quiesce (boot seeded)) = Some w' ∧
        reachable (boot seeded) w' ∧
        flights w' = [] ∧ timers w' = [] ∧
        Page.spinner (page w') = false ∧ Page.toast (page w') = None.
Proof. apply (comes_to_rest seeded (boot seeded)). constructor. Defined.

End examples.
