(* ===== verification/Bounds.v ===== *)
(** * Bounds

    The quantities of the event loop and the limits the code keeps them
    within: how many requests and timers one turn can add, the window in
    which an armed timer fires, the number of turns that settle the
    requests in flight, and the range of statuses the operations treat as
    a success. *)

From S2P Require Import Prelude JsString Model Editor Search Controller Views Store System.
From S2P Require Import Invariants Typing Progress.

#[local] Open Scope N_scope.

Section bounds.
Context `{Platform} {Sto : Type} `{NoteStore Sto}.
Implicit Types (w : World Sto) (a : Act) (s : App.t) (k : Cont) (o : Outcome).

(** ** What one update starts *)

(** A handler starts one request or arms one timer, never both. *)
Lemma handler_growth s a t :
  handler s a →
  (length (launched (effects a s)) + length (armed t (effects a s)) ≤ 1)%nat.
Proof. destruct 1; simpl; lia. Qed.

(** A resumed call starts at most one request, the refresh after a save,
    and arms at most two timers, when the refresh fails and the save
    reports its success. *)
Lemma resume_growth k o s t :
  (length (launched (effects (resume k o) s)) ≤ 1)%nat ∧
  (length (armed t (effects (resume k o) s)) ≤ 2)%nat.
Proof. resume_cases k o; simpl; rewrite ?app_nil_r; try case_match; simpl; lia. Qed.

Lemma commit_growth a ed w (n m : nat) :
  (length (launched (effects a (app w))) ≤ n)%nat →
  (length (armed (now w) (effects a (app w))) ≤ m)%nat →
  (length (flights (commit a ed w)) ≤ length (flights w) + n)%nat ∧
  (length (timers (commit a ed w)) ≤ length (timers w) + m)%nat ∧
  now (commit a ed w) = now w.
Proof. intros Hn Hm. rewrite commit_eq; simpl. rewrite !length_app. lia. Qed.

Lemma elapse_growth ms w :
  flights (elapse ms w) = flights w ∧
  (length (timers (elapse ms w)) ≤ length (timers w))%nat ∧
  now (elapse ms w) = now w + ms.
Proof.
  split; [apply elapse_flights |].
  destruct (decide (filter (due (now w + ms)) (timers w) = [])).
  - by rewrite elapse_idle.
  - rewrite elapse_fire by done. simpl. split; [apply length_filter | done].
Qed.

(** One turn adds at most one request and two timers, and the clock
    never goes back. *)
Lemma turn_growth w w' :
  turn w w' →
  (length (flights w') ≤ length (flights w) + 1)%nat ∧
  (length (timers w') ≤ length (timers w) + 2)%nat ∧
  now w ≤ now w'.
Proof.
  destruct 1 as [a ed Ha|i f Hf _|i f st Hf _ Hok|i f r Hf _|i f Hf|ms].
  - pose proof (handler_growth (app w) a (now w) Ha).
    destruct (commit_growth a ed w 1 1) as (? & ? & ->); lia.
  - simpl. rewrite length_insert. lia.
  - simpl. rewrite length_insert. lia.
  - destruct (resume_growth (cont f) (Resolved r) (app w) (now w)) as [? ?].
    destruct (commit_growth (resume (cont f) (Resolved r)) (editor w) (land i w) 1 2)
      as (? & ? & ->); simpl in *; rewrite ?length_delete in *; eauto; lia.
  - destruct (resume_growth (cont f) Rejected (app w) (now w)) as [? ?].
    destruct (commit_growth (resume (cont f) Rejected) (editor w) (land i w) 1 2)
      as (? & ? & ->); simpl in *; rewrite ?length_delete in *; eauto; lia.
  - destruct (elapse_growth ms w) as (-> & ? & ->). lia.
Qed.

(** One turn of the event loop adds at most one request in flight
    and at most two armed timers, and the clock never goes back. *)
Theorem step_growth w ev w' :
  step w ev = Some w' →
  (length (flights w') ≤ length (flights w) + 1)%nat ∧
  (length (timers w') ≤ length (timers w) + 2)%nat ∧
  now w ≤ now w'.
Proof. intros Hs%step_turn. by apply turn_growth. Qed.

(** ** Timers *)

(** A timer is never cancelled: the source calls [setTimeout] and never
    [clearTimeout].  An armed timer stays armed through every turn but
    the passing of time that makes it due. *)
Lemma timers_kept w ev w' t :
  step w ev = Some w' → t ∈ timers w →
  t ∈ timers w' ∨ ∃ ms, ev = Elapse ms ∧ due (now w + ms) t.
Proof.
  intros Hs%step_fires Ht.
  destruct Hs as [e a ed E|i f E Er|i f status E Er Eo|i f r E Er|i f E|ms];
    rewrite ?commit_eq; simpl; try (by left; rewrite ?elem_of_app; auto).
  destruct (decide (due (now w + ms) t)) as [Hd|Hd]; [by right; exists ms |]. left.
  destruct (decide (filter (due (now w + ms)) (timers w) = [])).
  - by rewrite elapse_idle.
  - rewrite elapse_fire by done. simpl. by apply list_elem_of_filter.
Qed.

(** The timers are kept in the order in which they were armed; this is
    also the order of their deadlines, the order in which a browser fires
    them. *)
Definition timers_sorted w : Prop :=
  StronglySorted (λ t1 t2, deadline t1 ≤ deadline t2) (timers w).

Lemma commit_timers_sorted a ed w :
  arms_notification a (app w) → timers_ok w → timers_sorted w →
  timers_sorted (commit a ed w).
Proof.
  intros [Ha _] [Ht _] Hs. unfold timers_sorted. rewrite commit_eq; simpl.
  pose proof (armed_deadline (now w) _ Ha) as Hd. rewrite Forall_forall in Ht, Hd.
  apply StronglySorted_app_2; [| done | by eapply StronglySorted_const, Forall_forall].
  intros t1 t2 H1%Ht ->%Hd. lia.
Qed.

Lemma elapse_timers_sublist ms w : timers (elapse ms w) `sublist_of` timers w.
Proof.
  destruct (decide (filter (due (now w + ms)) (timers w) = [])).
  - by rewrite elapse_idle.
  - rewrite elapse_fire by done. apply sublist_filter.
Qed.

Lemma turn_timers_sorted w w' :
  turn w w' → timers_ok w → timers_sorted w → timers_sorted w'.
Proof.
  destruct 1 as [a ed Ha|i f Hf _|i f st Hf _ Hok|i f r Hf _|i f Hf|ms]; try done.
  - by apply commit_timers_sorted, handler_arms.
  - intros Hok Hs.
    by apply (commit_timers_sorted _ _ (land i w)); [apply resume_arms | |].
  - intros Hok Hs.
    by apply (commit_timers_sorted _ _ (land i w)); [apply resume_arms | |].
  - intros _ Hs. unfold timers_sorted. by rewrite elapse_timers_sublist.
Qed.

Lemma reachable_timers_sorted (x : Sto) w : reachable (boot x) w → timers_sorted w.
Proof.
  intros Hr.
  apply (reachable_turn_ind (λ w, timers_ok w ∧ timers_sorted w) (boot x)); [| | done].
  - split; [apply boot_timers_ok | constructor].
  - intros w1 w2 Ht [Hok Hs]. eauto using turn_timers_ok, turn_timers_sorted.
Qed.

(** C19: in every reachable world each armed timer fires after the
    present and at most 3000 ms from it, its callback clears the
    notification, and the timers are in the order of their deadlines. *)
Theorem timers_bounded (x : Sto) w t :
  reachable (boot x) w → t ∈ timers w →
  now w < deadline t ≤ now w + 3000 ∧
  App.notification (exec (runCallback (callback t)) (app w)) = None ∧
  timers_sorted w.
Proof.
  intros Hr Hin. pose proof (reachable_timers_ok x w Hr) as [Ht _].
  rewrite Forall_forall in Ht.
  split_and!; [by apply Ht.. | apply runCallback_clears
              | by eapply reachable_timers_sorted].
Qed.

(** ** Settling *)

Lemma settle_first_length f : (length (settle_first f) ≤ 2)%nat.
Proof. unfold settle_first. destruct (reply f); simpl; lia. Qed.

Lemma drain_length n w : (length (drain n w) ≤ 2 * n)%nat.
Proof.
  revert w. induction n as [|n IH]; intros w; simpl; [lia |].
  destruct (flights w) as [|f fs]; simpl; [lia |].
  destruct (run w (settle_first f)) as [w'|]; simpl; [|lia].
  rewrite length_app. pose proof (settle_first_length f). specialize (IH w'). lia.
Qed.

Lemma pending_bound (fs : list Flight) : (pending fs ≤ 2 * length fs)%nat.
Proof.
  induction fs as [|f fs IH]; [done |]. unfold pending in *; simpl.
  destruct (cont f); simpl; lia.
Qed.

(** The run that settles the requests in flight takes at most four turns
    for each of them: the answer and the delivery of the request, and
    those of the refresh a save starts. *)
Lemma settle_bounded w :
  (length (drain (pending (flights w)) w) ≤ 4 * length (flights w))%nat.
Proof.
  pose proof (drain_length (pending (flights w)) w).
  pose proof (pending_bound (flights w)). lia.
Qed.

End bounds.

(** ** The status window *)

Section status.
Implicit Types (r : Response) (s : App.t).

(** The operations treat a response as a success exactly when its status
    is in 200-299: inside the window a save starts its refresh, a delete
    filters the captured array and a load installs the body; outside it
    none of them changes the collection or shows a message. *)
Lemma status_window r e notes id s :
  (200 ≤ status r ≤ 299 →
   saveNote_resume e (Resolved r) s = fetchNotes (Some e) s ∧
   App.notes (exec (deleteNote_resume notes id (Resolved r)) s) =
     remove_key Note.id id notes ∧
   App.notes (exec (fetchNotes_resume (Resolved r)) s) = default (App.notes s) (json r)) ∧
  (status r < 200 ∨ 299 < status r →
   saveNote_resume e (Resolved r) s = (s, []) ∧
   deleteNote_resume notes id (Resolved r) s = (s, []) ∧
   fetchNotes_resume (Resolved r) s = (exec (setLoading false) s, [])).
Proof.
  split.
  - intros Hok%ok_iff. unfold exec.
    rewrite saveNote_resume_ok, deleteNote_resume_ok, fetchNotes_resume_run by done.
    simpl. by rewrite Hok.
  - intros Hok%ok_false_iff.
    by rewrite saveNote_resume_not_ok, deleteNote_resume_not_ok,
      fetchNotes_resume_not_ok by done.
Qed.

(** The edges of the window. *)
Lemma status_edges :
  ok (mkResponse 199 None) = false ∧ ok (mkResponse 200 None) = true ∧
  ok (mkResponse 299 None) = true ∧ ok (mkResponse 300 None) = false.
Proof. done. Qed.

End status.

(** ** On the reference store *)

Section examples.
#[local] Existing Instance demo.

Lemma step_growth_witness :
  let w := boot seeded in
  let w' := default w (@step demo _ _ w (Drop 0)) in
  (length (flights w') ≤ length (flights w) + 1)%nat ∧
  (length (timers w') ≤ length (timers w) + 2)%nat ∧
  now w ≤ now w'.
Proof. apply (@step_growth demo _ _ (boot seeded) (Drop 0)). reflexivity. Defined.

(** The bound on the timers is reached: when the refresh after a save
    fails in the network, one turn arms the timer of "Failed to load
    notes" and the timer of "Note created!". *)
Example growth_is_tight :
  (λ w, length (timers w))
    <$> step (mkWorld App.initial None
                [mkFlight (mkRequest (API_BASE_URL +:+ "/notes") GET [] None)
                   (AwaitFetchNotes (Some None)) None]
                [] 0 None RefStore.empty) (Drop 0) = Some 2%nat.
Proof. reflexivity. Qed.

Lemma timers_bounded_witness :
  let w := default (boot seeded) (@step demo _ _ (boot seeded) (Drop 0)) in
  now w < deadline (mkTimer 3000 ClearNotification) ≤ now w + 3000 ∧
  App.notification (exec (runCallback ClearNotification) (app w)) = None ∧
  timers_sorted w.
Proof.
  apply (@timers_bounded demo _ _ seeded _ (mkTimer 3000 ClearNotification));
    [apply (run_reachable _ [Drop 0]); reflexivity | apply list_elem_of_here].
Defined.

End examples.
