(* ===== verification/Scenarios.v ===== *)
(** * Scenarios

    Complete runs of the application over the reference store, evaluated
    by the kernel: the life of a note from creation to its shared link, and
    the runs in which the source departs from what its specification
    describes (overlapping deletes, a notification dismissed early, a
    refused load that shows no error, a double submit, a failed refresh
    hidden by the success message, an editor and a share modal left open
    on a deleted note, a search without a match).  Each scenario is a
    list of events; its example states what the page shows at the end.
    The general statements behind them are in [Controller], [System],
    [Sync], [Typing], [Overlap], [Stale] and [Views]. *)

From S2P Require Import Prelude JsString Model Editor Search Controller Views Store System.

#[local] Open Scope N_scope.

(** The first load: the store answers the mount fetch and the answer
    arrives. *)
Definition load : list Event := [Serve 0; Deliver 0].

(** A save and its refresh, each served and delivered. *)
Definition settle_save : list Event := [Serve 0; Deliver 0; Serve 0; Deliver 0].

(** A private note is created from the empty state. *)
Definition create_groceries : list Event :=
  load ++
  [User ClickCreateNote;
   User (EditorEvent (Editor.ChangeTitle "Groceries"));
   User (EditorEvent (Editor.ChangeContent "milk, eggs"));
   User (EditorEvent Editor.ClickSave)] ++ settle_save.

(** A note is created from the empty state, made public, and shared. *)
Definition life : list Event :=
  load ++
  [User ClickCreateNote;
   User (EditorEvent (Editor.ChangeTitle "Groceries"));
   User (EditorEvent (Editor.ChangeContent "milk, eggs"));
   User (EditorEvent Editor.ClickSave)] ++ settle_save ++
  [User (ClickCard 0 NoteCard.EditButton);
   User (EditorEvent (Editor.ChangeIsPublic true));
   User (EditorEvent Editor.ClickSave)] ++ settle_save ++
  [User (ClickCard 0 NoteCard.ShareButton); User (ShareEvent ShareModal.ClickCopy)].

(** Two deletes are clicked before the answer to the first arrives. *)
Definition overlapping : list Event :=
  load ++
  [User (ClickCard 0 NoteCard.DeleteButton); User (ClickCard 1 NoteCard.DeleteButton);
   Serve 0; Serve 1; Deliver 0; Deliver 0].

(** A delete at time 0, then a copy of a share link at time 2000. *)
Definition two_toasts : list Event :=
  load ++
  [User (ClickCard 0 NoteCard.DeleteButton); Serve 0; Deliver 0; Elapse 2000;
   User (ClickCard 0 NoteCard.ShareButton); User (ShareEvent ShareModal.ClickCopy)].

(** The server answers the mount fetch with status 500. *)
Definition refused_load : list Event := [Refuse 0 500; Deliver 0].

(** Save is clicked twice before the first answer arrives. *)
Definition double_click : list Event :=
  load ++
  [User ClickNewNote; User (EditorEvent (Editor.ChangeTitle "Tea"));
   User (EditorEvent Editor.ClickSave); User (EditorEvent Editor.ClickSave);
   Serve 0; Serve 1; Deliver 0; Deliver 0; Serve 0; Serve 1; Deliver 0; Deliver 0].

(** The save succeeds and the refresh that follows fails in the network. *)
Definition lost_refresh : list Event :=
  load ++
  [User ClickNewNote; User (EditorEvent (Editor.ChangeTitle "Tea"));
   User (EditorEvent Editor.ClickSave); Serve 0; Deliver 0; Drop 0].

(** The editor is opened on a note whose delete is pending, and the
    edit is saved after the delete has been answered. *)
Definition late_edit : list Event :=
  load ++
  [User (ClickCard 0 NoteCard.DeleteButton); User (ClickCard 0 NoteCard.EditButton);
   Serve 0; Deliver 0;
   User (EditorEvent (Editor.ChangeContent "milk")); User (EditorEvent Editor.ClickSave);
   Serve 0; Deliver 0].

(** The share modal is opened on a note whose delete is pending, and the
    link is copied after the delete has been answered. *)
Definition late_share : list Event :=
  load ++
  [User (ClickCard 1 NoteCard.DeleteButton); User (ClickCard 1 NoteCard.ShareButton);
   Serve 0; Deliver 0; User (ShareEvent ShareModal.ClickCopy)].

(** A search that matches none of the loaded notes. *)
Definition no_match : list Event := load ++ [User (SearchInput "zebra")].

(** What a scenario compares: the identifiers on the page and in the
    store, and the message displayed. *)
Definition summary (w : World RefStore.t) : list N * list N * option string :=
  (ids (App.notes (app w)), ids (RefStore.notes (store w)),
   Notification.message <$> App.notification (app w)).

Section scenarios.
#[local] Existing Instance demo.

(** The life of a note.  From an empty store, creating a note, making
    it public and copying its link ends with one public card that offers
    share, edit and delete, the share modal showing the link, the same
    link on the clipboard, and "Share link copied!" displayed. *)
Example life_of_a_note :
  (λ w, (page w, clipboard w)) <$> run (boot RefStore.empty) life =
  Some ({| Page.searchValue := "";
           Page.spinner := false;
           Page.cards :=
             [(1, {| NoteCard.titleText := "Groceries";
                     NoteCard.buttons :=
                       [NoteCard.ShareButton; NoteCard.EditButton; NoteCard.DeleteButton];
                     NoteCard.contentText := "milk, eggs";
                     NoteCard.dateText := "0";
                     NoteCard.publicBadge := true |})];
           Page.emptyState := false;
           Page.editorModal := None;
           Page.shareModalView :=
             Some {| ShareModal.shareUrl := "http://localhost:3000/share/1";
                     ShareModal.disclaimer :=
                       "Only public notes can be shared. Make sure your note is set to public." |};
           Page.toast := Some ("notification success", "Share link copied!") |},
        Some "http://localhost:3000/share/1").
Proof. vm_compute. reflexivity. Qed.

(** Overlapping deletes.  When the notes 1 and 2 are both deleted
    before either answer arrives, the store ends with note 3 only, but the
    page shows the notes 1 and 3: the second answer filters the array
    captured at the click and brings note 1 back. *)
Example overlapping_deletes :
  summary <$> run (boot seeded) overlapping = Some ([1; 3], [3], Some "Note deleted!").
Proof. vm_compute. reflexivity. Qed.

(** A notification dismissed early.  A message shown at time 2000
    is gone at time 3000, when the timer of the message shown at time 0
    fires; its own timer, for time 5000, is still armed. *)
Example early_dismissal :
  (λ w, (now w, Page.toast (page w))) <$> run (boot seeded) two_toasts =
    Some (2000, Some ("notification success", "Share link copied!")) ∧
  (λ w, (now w, Page.toast (page w), deadline <$> timers w))
    <$> run (boot seeded) (two_toasts ++ [Elapse 1000]) =
    Some (3000, None, [5000]).
Proof. split; vm_compute; reflexivity. Qed.

(** A refused load is silent.  When the server answers the mount
    fetch with status 500, the spinner stops and the page shows the empty
    state with no notification, although the store holds three notes. *)
Example refused_load_silent :
  (λ w, (Page.spinner (page w), Page.emptyState (page w), Page.toast (page w),
         summary w))
    <$> run (boot seeded) refused_load =
  Some (false, true, None, ([], [1; 2; 3], None)).
Proof. vm_compute. reflexivity. Qed.

(** A double submit.  Two clicks on save before the first answer
    arrives create two notes with the same fields. *)
Example double_submit :
  (λ w, (Note.title <$> RefStore.notes (store w), summary w))
    <$> run (boot RefStore.empty) double_click =
  Some (["Tea"; "Tea"], ([1; 2], [1; 2], Some "Note created!")).
Proof. vm_compute. reflexivity. Qed.

(** A failed refresh is hidden.  When the save succeeds and the
    refresh fails, the editor closes and "Note created!" is displayed over
    "Failed to load notes", while the page does not show the new note. *)
Example lost_refresh_masked :
  (λ w, (editor w, summary w, length (timers w)))
    <$> run (boot RefStore.empty) lost_refresh =
  Some (None, ([], [1], Some "Note created!"), 2%nat).
Proof. vm_compute. reflexivity. Qed.

(** An edit of a deleted note.  [deleteNote] removes the note from the
    collection and leaves [editingNote] as it is: an editor opened while
    the delete was pending stays open on the deleted note, the store
    refuses its save, and the page shows nothing of it: the editor stays
    open and the last message is still "Note deleted!". *)
Example edit_of_deleted_silent :
  (λ w, (Editor.title <$> editor w, Note.id <$> App.editingNote (app w), summary w,
         flights w))
    <$> run (boot seeded) late_edit =
  Some (Some "Groceries", Some 1, ([2; 3], [2; 3], Some "Note deleted!"), []).
Proof. vm_compute. reflexivity. Qed.

(** A link to a deleted note.  [deleteNote] leaves [shareModal] as it
    is too: the modal opened while the delete was pending still offers the
    link of the note, and the copy button puts it on the clipboard. *)
Example share_of_deleted_copied :
  (λ w, (ShareModal.shareUrl <$> Page.shareModalView (page w), clipboard w, summary w))
    <$> run (boot seeded) late_share =
  Some (Some "http://localhost:3000/share/2", Some "http://localhost:3000/share/2",
        ([1; 3], [1; 3], Some "Share link copied!")).
Proof. vm_compute. reflexivity. Qed.

(** A search without a match.  The empty state is rendered whenever the
    filtered list is empty: with three notes loaded and a term that
    matches none, the page says "No notes yet!" and offers the
    "Create Note" button, which opens the create form. *)
Example no_match_empty_state :
  (λ w, (Page.emptyState (page w), Page.cards (page w), ids (App.notes (app w))))
    <$> run (boot seeded) no_match = Some (true, [], [1; 2; 3]) ∧
  (λ w, Editor.heading <$> Page.editorModal (page w))
    <$> run (boot seeded) (no_match ++ [User ClickCreateNote]) =
    Some (Some "Create Note").
Proof. split; vm_compute; reflexivity. Qed.

(** Creating a private note.  The draft "Groceries" / "milk, eggs"
    with the public flag off is stored under a fresh identifier; the page
    then shows "Note created!", the editor is closed, and the note's card
    has no badge and offers edit and delete but not share. *)
Example groceries_created :
  (λ w, (Page.cards (page w), Page.editorModal (page w), Page.toast (page w),
         RefStore.notes (store w)))
    <$> run (boot RefStore.empty) create_groceries =
  Some ([(1, {| NoteCard.titleText := "Groceries";
                NoteCard.buttons := [NoteCard.EditButton; NoteCard.DeleteButton];
                NoteCard.contentText := "milk, eggs";
                NoteCard.dateText := "0";
                NoteCard.publicBadge := false |})],
        None, Some ("notification success", "Note created!"),
        [Note.mk 1 "Groceries" "milk, eggs" false 0]).
Proof. vm_compute. reflexivity. Qed.

End scenarios.
